(* ===== verification/_CoqProject ===== *)
-Q . S2P
Prelude.v
Float64.v
GoStrings.v
Sha256.v
Domain.v
Uuid.v
RuleResolver.v
Redis.v
LuaScripts.v
Locality.v
History.v
TokenBucket.v
TokenBucketRun.v
SlidingWindow.v
SlidingWindowRun.v
SlidingWindowSkew.v
RateLimiter.v
RateLimiterSpec.v
LimiterRun.v
LimiterWindow.v
LimiterSkew.v
LimiterBucket.v
Ports.v
CheckService.v
AuthService.v
RuleCache.v
Provisioning.v
Http.v
Observability.v
Decode.v
Strconv.v
LuaReply.v
Unicode.v
ConsoleRules.v
Os.v
Config.v
Middleware.v
SignupLimit.v
Handlers.v
Client.v
Server.v
Frame.v
Browser.v
Console.v
Session.v
ConsoleForm.v
Measured.v
Examples.v
Database.v
Postgres.v
PostgresSpec.v
Migrate.v
Sql.v
Schema.v
Migrations.v
System.v
Onboarding.v
Monitoring.v
Quickstart.v
Isolation.v
Minting.v
Traffic.v
Threads.v
Concurrent.v
