(* ===== verification/Prelude.v ===== *)
(** * A verification of go-rate-limiter

    The program is a rate-limiting service.  Applications call
    [POST /v1/check] with an API key; the service authenticates the key
    (Postgres), finds the tenant's rule for the route (Postgres behind a cache),
    and lets a Lua script in Redis decide.  Around this core are a self-service
    console and an admin API that create projects, a sign-up limiter, metrics
    and logs, a Go client with three example services, and a migration runner.

    ** Parts and files

    Foundations.  [Prelude]: results, sums, automation.  [Float64]: binary64
    arithmetic with proved rounding bounds.  [GoStrings], [Strconv], [Sha256],
    [Uuid], [Os]: the parts of Go's library that the source uses.  [Sql]: the
    statements of the migration scripts on tables, constraints and indexes.

    Domain ([internal/domain], [internal/application]).  [Domain]: errors and
    entities.  [RuleResolver]: [rule_resolver.go].  [Ports]: the interfaces, as
    type classes over a world.  [CheckService], [AuthService], [Provisioning]:
    the three services, proved against the interfaces.

    Limiter ([internal/infrastructure/redis]).  [Redis]: the server as an
    interface of commands, with a concrete instance.  [LuaScripts]: the two
    scripts, line by line.  [Locality]: a script touches its own keys only.
    [History], [TokenBucket], [TokenBucketRun], [SlidingWindow],
    [SlidingWindowRun]: one call, and then any sequence of calls;
    [SlidingWindowSkew]: calls by processes whose clocks differ.
    [RateLimiter], [RateLimiterSpec]: [rate_limiter.go] and [keys.go], with
    calls that are lost, repeated or answered late; [LuaReply]: the reading of a
    reply.  [LimiterRun], [LimiterWindow], [LimiterBucket], [LimiterSkew]: the
    limiter over any interleaving of the checks of all tenants.

    Storage.  [RuleCache]: [rule_cache.go], also with concurrent callers.
    [Database]: the tables of [migrations] with the effect of each statement,
    and the interface of a Postgres server with transactions that may fail at
    every call.  [Postgres], [PostgresSpec]: the repositories.  [Migrate]:
    [cmd/migrate].  [Schema], [Migrations]: the scripts of [migrations] and the
    seeds, and what a run of them makes of a database.

    HTTP ([internal/transport/http], [pkg/httputil]).  [Http]: requests,
    headers, response writers.  [Decode]: JSON into structs.  [Observability]:
    the metrics, their labels and the log level.  [Middleware], [SignupLimit], [Handlers],
    [Server]: every middleware and handler, and [NewMux] with the pattern
    matching of [net/http].

    Programs.  [Config]: [internal/config].  [System]: [cmd/server], which puts
    all of the above on one world.  [Frame]: what requests leave alone.
    [Isolation]: whose rows they change.  [Measured], [Monitoring]: what the
    metrics count.  [Traffic]: the running server under any requests, one at a
    time.  [Threads]: a handler that runs beside others, told by an oracle what
    it reads.  [Concurrent]: the service with any number of requests in flight,
    from the first connection to the exit after a signal.  [Quickstart]: the
    README's quick start, run.  [Client], [Examples]: [examples/].

    Console ([web/src]).  [Unicode]: texts in UTF-8 and in the browser's UTF-16.
    [ConsoleRules]: the route tester and the list in evaluation order
    ([api.js], [ProjectDetail.jsx]).  [Browser]: [fetch] across origins with its
    preflight, against the [CORS] middleware.  [Console]: the keys the browser
    makes, the calls ([api.js]), the form ([NewProject.jsx], [RuleEditor.jsx])
    and the actions ([App.jsx]).  [Session]: the actions cut at what they wait
    for and interleaved with clicks, sign-outs and reloads, with the session in
    the tab's storage.  [ConsoleForm]: what the console sends, read and checked by the server.  [Onboarding]: the console,
    the browser and the assembled server on one world, up to a sign-up;
    [Minting]: up to a check key and its use.

    ** How state and operations correspond to the code

    A Go function that returns an error is a function into [result]; one that
    acts on the outside is an [Op W], from a world [W] to a result and a world.
    A port of the domain is a class over [W]; an adapter is an instance.  A
    handler takes the request, the response writer and the world, and returns
    the last two.  In [System.world] each adapter owns one component.  Integers
    are [Z]; where a width matters (the [INT] columns, 64-bit parsing, Lua
    numbers) it is written out.  Shared state that is mutated in place, as the
    slices of the sign-up limiter, is modelled with its sharing.

    ** What is shown

    - Token bucket and sliding window: each script computes the rational
      arithmetic it means to, up to the rounding that is written out; over any
      sequence of calls no more passes than the rate and the capacity allow;
      the sliding window refines a log of weighted requests.
    - Limiter: its decisions are those of the scripts, keys of different
      tenants, routes and subjects never interfere, failures of Redis deny, and
      in any interleaving of checks over lossy links each counter grants what
      its rule allows ([CounterLog] is what a script promises for that).  With
      clocks that differ by up to half a window, [n] aligned windows let through
      at most [n + 1] limits, and a run that exceeds one limit in one window
      exists ([SlidingWindowSkew]).
    - Rules: precedence of exact, prefix and default patterns, and the first of
      equals.
    - Storage: projects are created whole or not at all and read back as
      written; revocation is final; the list agrees with the single projects;
      stale cache entries are bounded in age; migrations are applied whole, in
      order and once, also across failed runs.
    - Schema: the statements of the repositories do on the tables of the scripts
      what [Database.effect] says, error codes included; a run of the migrations
      on an empty server makes those tables with the seed's rows; the down
      scripts undo the up scripts, but for the extension pgcrypto; the
      development seed serves the README.
    - Isolation: without the admin token no request changes rows of a tenant
      other than its own, whatever fails.
    - HTTP: what the check endpoint answers end to end, and that neither it nor
      the admin or console routes run without the right key or token.
    - Console: its tester and its list name the rule that the server's resolver
      picks; the keys and preset rules it sends are taken as they are, up to the
      length of name that the server's limit on prefixes leaves; its session
      stays consistent however its actions overlap, up to the late answers that
      [Session] names; pages of other origins reach
      nothing; a sign-up ends with the project, as the tables have it, on the page ([Onboarding]), and a minted
      key is a check key of the page's tenant ([Minting]).
    - Metrics: every request that is let in is counted once under the status the
      client got, and the counters agree with the latencies.
    - Composition: from the start-up on, with any number of concurrent requests
      and retried calls, what the server answers 200 stays within the sliding
      window and token bucket rules ([Concurrent], [Traffic]); after a signal the
      program ends, with every request answered or the drain timed out
      ([Concurrent.graceful_shutdown]); the assembled server answers with the decision of the
      limiter on the tenant's first best rule ([System]); the Go client reads
      back that decision ([Client]), and the example services follow it
      ([Examples]).
    - Round trips: a configuration through the environment, a project through
      the database, a decision through the wire.

    The witnesses run the definitions on concrete servers: [redis7],
    [in_memory], [Migrate.Memory] and the small worlds of the [Demo]
    modules; [Quickstart] runs the whole server on the seeded database.

    ** Bounds and fuel

    The statements about the scripts assume clocks up to [2^40], costs up to
    [2^45], and the ranges of [window_params] and [bucket_params]: windows of up
    to a year and a half with a limit times window up to [2^46], buckets that
    refill within three years.  They keep the times to live readable for
    [EXPIRE] and every count within the 53 bits of a double; rules outside them
    are not covered by these theorems.  Recursion is structural except for [strip_all] and
    [duration_terms], whose fuel is the length of the text: every round consumes
    at least one byte ([duration_terms_fuel]).

    ** What is assumed

    Code outside the repository is a parameter with its documented behaviour as
    laws: Redis ([RedisServer]), Postgres ([Postgres W], [MigrationServer]),
    UUID text, JSON scanning and printing, Unicode tables, the Prometheus
    registry ([Registry]: a call changes its own series by one), the HTTP
    transport, the reverse proxy, and of JavaScript JSON, the lower case of
    texts beyond ASCII, the digits of numbers beyond [2 ^ 53] and the random
    numbers ([JavaScript], [Web]).  That a script's text does what its
    statements say is [runs_scripts] in [Migrations].  Each class with laws has
    an instance, so that its laws are satisfiable.  [hides_expired] (Redis
    does not show an expired key) is proved of [redis7]; [Traffic] also assumes
    that PING leaves keys and scripts alone, and [Isolation] that the pool's
    Ping leaves the tables alone.

    ** What is not modelled

    Sockets and the parsing of HTTP; deadlines of contexts, except that of the
    drain; the rendering of the console in [web], which [Session] takes to
    happen between any two of its steps, and the fields of its rule editor while
    it is open; what an extension of Postgres brings along; deployment and
    monitoring files; load tests; the project's tests.  What is left of the Go
    code is imports, declarations of interfaces and the constructors that only
    store their arguments.  Handlers run one at a time in [System] and
    [Traffic], where the world may change in any way between two requests, Redis
    by time passing only; in [Concurrent] every handler reads what an oracle
    tells it, and Redis runs the scripts of all of them one after another.
    [Sql] has the statements that the scripts and the repositories use, and
    single-column references only; a failed statement leaves the database as it
    was.  Percent escapes in
    request paths and JSON objects that repeat the key of a list are outside
    the model. *)

From stdpp Require Export base gmap strings list pretty.
From Stdlib Require Export ZArith Lia.

(** ** Results of fallible Go calls

    A Go function that returns [(T, error)] is a function into [result]. *)
Inductive result (E A : Type) : Type :=
  | Ok (a : A)
  | Err (e : E).
Arguments Ok {E A} a.
Arguments Err {E A} e.

#[export] Instance result_ret E : MRet (result E) := fun A => Ok.
#[export] Instance result_bind E : MBind (result E) :=
  fun A B k r => match r with Ok a => k a | Err e => Err e end.
#[export] Instance result_fmap E : FMap (result E) :=
  fun A B f r => match r with Ok a => Ok (f a) | Err e => Err e end.

#[export] Instance Ok_inj E A : Inj (=) (=) (@Ok E A).
Proof. by intros a b [= ->]. Qed.

Definition is_ok {E A} (r : result E A) : bool :=
  match r with Ok _ => true | Err _ => false end.

(** The sum of a list of integers. *)
Fixpoint sumZ (l : list Z) : Z :=
  match l with
  | [] => 0%Z
  | x :: l' => (x + sumZ l')%Z
  end.

(** ** Lemmas shared by the components *)

Section Sums.
Local Open Scope Z_scope.

Lemma sumZ_app l1 l2 : sumZ (l1 ++ l2) = sumZ l1 + sumZ l2.
Proof. induction l1 as [|x l1 IH]; simpl; lia. Qed.

Lemma sumZ_nonneg l : Forall (fun x => 0 <= x) l -> 0 <= sumZ l.
Proof. induction 1; simpl; lia. Qed.

End Sums.

Lemma fold_left_snoc {A B} (f : A -> B -> A) l x a :
  fold_left f (l ++ [x]) a = f (fold_left f l a) x.
Proof. by rewrite fold_left_app. Qed.

(** A property kept by every step holds after any number of steps. *)
Lemma rtc_preserves {A} (R : A -> A -> Prop) (P : A -> Prop) x y :
  (forall a b, P a -> R a b -> P b) -> P x -> rtc R x y -> P y.
Proof. intros Hs Hx Hr. induction Hr; eauto. Qed.

(** ** Automation *)

Create HintDb rl discriminated.
Create Rewrite HintDb rl_rw.
#[export] Hint Resolve sumZ_nonneg : rl.
#[export] Hint Rewrite sumZ_app : rl_rw.

(** Membership in, and inclusion of, lists written out element by element. *)
Ltac in_list :=
  try (intros ?); rewrite ?elem_of_cons, ?elem_of_nil in *; intuition (subst; eauto; congruence).

(** Case analysis on the boolean tests of the code: turns a comparison in
    the goal or a hypothesis into the proposition it decides. *)
Ltac bool_cases :=
  repeat match goal with
  | |- context [Z.leb ?a ?b] => destruct (Z.leb_spec a b)
  | |- context [Z.ltb ?a ?b] => destruct (Z.ltb_spec a b)
  | |- context [Z.eqb ?a ?b] => destruct (Z.eqb_spec a b)
  | H : context [Z.leb ?a ?b] |- _ => destruct (Z.leb_spec a b)
  | H : context [Z.ltb ?a ?b] |- _ => destruct (Z.ltb_spec a b)
  | H : context [Z.eqb ?a ?b] |- _ => destruct (Z.eqb_spec a b)
  end.
