(* ===== verification/Float64.v ===== *)
(** Binary64 arithmetic, the number type of the Lua scripts and of Go's
    [float64].

    The operations are those of [SpecFloat] at precision 53 and maximal
    exponent 1024.  Every finite double is an integer multiple of [2^-1074];
    [sval] is that integer, so facts about doubles become facts about [Z].
    The library proves, without axioms, that each operation is faithfully
    rounded: the result lies on the same side of every double as the exact
    value ([rounds]), is exact when the exact value is a double, and is off
    by at most one unit in the last place ([close]). *)

From Stdlib Require Import ZArith Lia Bool SpecFloat.

Local Open Scope Z_scope.

(** ** Definitions *)

Abbreviation float := spec_float.

(** [float64] and Lua arithmetic: round to nearest, ties to even. *)
Definition fadd : float -> float -> float := SFadd 53 1024.
Definition fsub : float -> float -> float := SFsub 53 1024.
Definition fmul : float -> float -> float := SFmul 53 1024.
Definition fdiv : float -> float -> float := SFdiv 53 1024.
Definition fltb : float -> float -> bool := SFltb.
Definition fleb : float -> float -> bool := SFleb.
Definition feqb : float -> float -> bool := SFeqb.

(** Conversion of an integer (Go's [float64(z)], C's [strtod] on decimal
    text, Lua's integer literals). *)
Definition of_Z (z : Z) : float := binary_normalize 53 1024 z 0 false.

(** The least common denominator of the finite doubles: [2^1074]. *)
Definition one : Z := 2 ^ 1074.

(** A finite double that is in canonical form. *)
Definition finb (x : float) : bool :=
  match x with
  | S754_zero _ => true
  | S754_finite _ m e => bounded 53 1024 m e
  | _ => false
  end.
Definition fin (x : float) : Prop := finb x = true.

(** The value of a finite double, in units of [2^-1074]. *)
Definition sval (x : float) : Z :=
  match x with
  | S754_finite s m e => cond_Zopp s (Zpos m) * 2 ^ (e + 1074)
  | _ => 0
  end.

(** [math.floor] and [math.ceil] of C: the result is again a double. *)
Definition ffloor (x : float) : float :=
  match x with
  | S754_finite s m e =>
      if 0 <=? e then x
      else binary_normalize 53 1024 (cond_Zopp s (Zpos m) / 2 ^ (- e)) 0 s
  | _ => x
  end.
Definition fceil (x : float) : float := SFopp (ffloor (SFopp x)).

(** [r] is the exact value [a / b] (in units of [2^-1074]) rounded
    faithfully. *)
Definition rounds (a b : Z) (r : float) : Prop :=
  fin r /\
  forall f, fin f ->
    (sval f * b <= a -> sval f <= sval r) /\
    (a <= sval f * b -> sval r <= sval f).

(** The exact value lies in [[m, m + 1)] units of weight [W], and the two
    sticky bits are clear exactly when it is [m] units. *)
Definition between (mrs : shr_record) (W a : Z) : Prop :=
  let '(Build_shr_record m r s) := mrs in
  0 <= m /\ m * W <= a < (m + 1) * W /\ (a = m * W <-> r || s = false).

(** The magnitude below which no operation overflows: [2^1023] (a double
    well below the largest one). *)
Definition big : Z := 2 ^ 2097.

(** [r] is off from [a / b] by at most one unit in the last place. *)
Definition close (a b : Z) (r : float) : Prop :=
  Z.abs (sval r * b - a) <= b \/ Z.abs (sval r * b - a) * 2 ^ 52 <= Z.abs a.

(** [x] is the double holding the integer [z] exactly. *)
Definition is_int (x : float) (z : Z) : Prop := fin x /\ sval x = z * one.

#[global] Arguments fadd : simpl never.
#[global] Arguments fsub : simpl never.
#[global] Arguments fmul : simpl never.
#[global] Arguments fdiv : simpl never.
#[global] Arguments of_Z : simpl never.
#[global] Arguments ffloor : simpl never.
#[global] Arguments fceil : simpl never.
#[global] Arguments one : simpl never.

(** ** Digits and canonical forms *)

Lemma digits2_bounds m :
  2 ^ (Zpos (digits2_pos m) - 1) <= Zpos m < 2 ^ Zpos (digits2_pos m).
Proof.
  induction m as [m IH|m IH|]; simpl digits2_pos; [| |simpl; lia];
    rewrite Pos2Z.inj_succ; set (d := Zpos (digits2_pos m)) in *;
    assert (2 ^ d = 2 * 2 ^ (d - 1)) by
      (rewrite <- Z.pow_succ_r by lia; f_equal; lia);
    assert (2 ^ Z.succ d = 2 * 2 ^ d) by (apply Z.pow_succ_r; lia);
    replace (Z.succ d - 1) with d by lia; lia.
Qed.

Lemma Zdigits2_bounds m : 0 <= m -> 0 <= Zdigits2 m /\ m < 2 ^ Zdigits2 m /\
  (0 < m -> 2 ^ (Zdigits2 m - 1) <= m).
Proof.
  intros Hm. destruct m as [|p|p]; [simpl; lia| |lia].
  pose proof (digits2_bounds p). simpl Zdigits2. lia.
Qed.

Lemma Zdigits2_le m n : 0 <= m -> 0 <= n -> m < 2 ^ n -> Zdigits2 m <= n.
Proof.
  intros Hm Hn Hlt. destruct (Z.eq_dec m 0) as [->|Hne]; [simpl; lia|].
  destruct (Zdigits2_bounds m Hm) as (_ & _ & H). specialize (H ltac:(lia)).
  destruct (Z.le_gt_cases (Zdigits2 m) n); [assumption|].
  assert (2 ^ n <= 2 ^ (Zdigits2 m - 1)) by (apply Z.pow_le_mono_r; lia). lia.
Qed.

Lemma Zdigits2_ge m n : 0 <= n -> 2 ^ n <= m -> n < Zdigits2 m.
Proof.
  intros Hn Hle. assert (0 < 2 ^ n) by (apply Z.pow_pos_nonneg; lia).
  destruct (Zdigits2_bounds m ltac:(lia)) as (? & Hub & _).
  apply (Z.pow_lt_mono_r_iff 2); lia.
Qed.

Lemma fexp_eq e : fexp 53 1024 e = Z.max (e - 53) (-1074).
Proof. reflexivity. Qed.

Lemma bounded_iff m e : bounded 53 1024 m e = true <->
  -1074 <= e <= 971 /\ Zpos m < 2 ^ 53 /\ (e = -1074 \/ 2 ^ 52 <= Zpos m).
Proof.
  unfold bounded, canonical_mantissa. rewrite fexp_eq, andb_true_iff, Z.eqb_eq, Z.leb_le.
  change (1024 - 53) with 971.
  set (d := Zpos (digits2_pos m)).
  assert (Hd : 2 ^ (d - 1) <= Zpos m < 2 ^ d) by apply digits2_bounds.
  assert (0 < d) by (unfold d; lia). split.
  - intros [H1 H2]. assert (d <= 53) by lia.
    assert (2 ^ d <= 2 ^ 53) by (apply Z.pow_le_mono_r; lia).
    split; [lia|split; [lia|]].
    destruct (Z.eq_dec e (-1074)); [now left|right].
    assert (d = 53) by lia. replace (d - 1) with 52 in Hd by lia. lia.
  - intros (H1 & H2 & H3). split; [|lia].
    assert (d <= 53) by (apply (Zdigits2_le (Zpos m)); lia).
    destruct H3 as [->|H3]; [lia|].
    assert (52 < d) by (apply (Zdigits2_ge (Zpos m)); lia). lia.
Qed.

Lemma fin_finite s m e : fin (S754_finite s m e) <->
  -1074 <= e <= 971 /\ Zpos m < 2 ^ 53 /\ (e = -1074 \/ 2 ^ 52 <= Zpos m).
Proof. apply bounded_iff. Qed.

Lemma fin_cases x : fin x ->
  (exists s, x = S754_zero s) \/
  (exists s m e, x = S754_finite s m e /\
    -1074 <= e <= 971 /\ Zpos m < 2 ^ 53 /\ (e = -1074 \/ 2 ^ 52 <= Zpos m)).
Proof.
  destruct x as [s|s| |s m e]; unfold fin; simpl; try discriminate; [eauto|].
  intros H%bounded_iff. right. eauto 6.
Qed.

Lemma pow_pos n : 0 <= n -> 0 < 2 ^ n.
Proof. intros. apply Z.pow_pos_nonneg; lia. Qed.

Lemma one_pos : 0 < one.
Proof. apply pow_pos. lia. Qed.

Lemma fin_opp x : fin x -> fin (SFopp x).
Proof. now destruct x. Qed.

Lemma sval_opp x : sval (SFopp x) = - sval x.
Proof.
  destruct x as [s|s| |s m e]; simpl; try lia.
  destruct s; simpl cond_Zopp; lia.
Qed.

(** ** Shifting *)

Lemma shr_1_between mrs W a : 0 < W ->
  between mrs W a -> between (shr_1 mrs) (2 * W) a.
Proof.
  intros HW. destruct mrs as [m r s]. intros (Hm & Hb & Hx).
  destruct m as [|[p|p|]|p]; cbn [shr_1 between orb]; [| | | |lia].
  - split; [lia|split; [lia|]]. rewrite <- Hx. lia.
  - split; [lia|split; [lia|]]. split; [lia|discriminate].
  - split; [lia|split; [lia|]]. rewrite <- Hx. lia.
  - split; [lia|split; [lia|]]. split; [lia|discriminate].
Qed.

Lemma shr_1_half mrs : 0 <= shr_m mrs -> shr_m (shr_1 mrs) = shr_m mrs / 2.
Proof.
  destruct mrs as [[|[p|p|]|p] r s]; cbn [shr_1 shr_m]; intros H.
  - reflexivity.
  - apply Z.div_unique with 1; lia.
  - apply Z.div_unique with 0; lia.
  - reflexivity.
  - lia.
Qed.

Lemma between_nonneg mrs W a : between mrs W a -> 0 <= shr_m mrs.
Proof. destruct mrs; simpl; tauto. Qed.

Lemma div_pow2_div x p q : 0 <= p -> 0 <= q ->
  x / 2 ^ p / 2 ^ q = x / 2 ^ (p + q).
Proof.
  intros Hp Hq. pose proof (pow_pos p Hp). pose proof (pow_pos q Hq).
  rewrite Z.div_div by lia. now rewrite <- Z.pow_add_r by lia.
Qed.

Lemma shr_iter n : forall mrs W a, 0 < W -> between mrs W a ->
  between (iter_pos shr_1 n mrs) (2 ^ Zpos n * W) a /\
  shr_m (iter_pos shr_1 n mrs) = shr_m mrs / 2 ^ Zpos n.
Proof.
  induction n as [n IH|n IH|]; intros mrs W a HW Hb; simpl iter_pos;
    pose proof (between_nonneg _ _ _ Hb) as Hn;
    try pose proof (pow_pos (Zpos n) ltac:(lia)) as HP.
  - destruct (IH (shr_1 mrs) (2 * W) a) as [Hb2 He2]; [lia|now apply shr_1_between|].
    apply IH in Hb2 as [Hb3 He3]; [|nia]. split.
    + replace (2 ^ Zpos n~1 * W) with (2 ^ Zpos n * (2 ^ Zpos n * (2 * W))); [assumption|].
      replace (Zpos n~1) with (Zpos n + Zpos n + 1) by lia.
      rewrite !Z.pow_add_r by lia. ring.
    + rewrite He3, He2, shr_1_half by assumption.
      replace (shr_m mrs / 2) with (shr_m mrs / 2 ^ 1) by reflexivity.
      rewrite !div_pow2_div by lia. f_equal. f_equal. lia.
  - destruct (IH _ _ _ HW Hb) as [Hb2 He2].
    apply IH in Hb2 as [Hb3 He3]; [|nia]. split.
    + replace (2 ^ Zpos n~0 * W) with (2 ^ Zpos n * (2 ^ Zpos n * W)); [assumption|].
      replace (Zpos n~0) with (Zpos n + Zpos n) by lia.
      rewrite !Z.pow_add_r by lia. ring.
    + rewrite He3, He2, div_pow2_div by lia. f_equal. f_equal. lia.
  - split; [now apply shr_1_between|].
    apply shr_1_half. assumption.
Qed.

Lemma shr_between mrs e n W a : 0 < W -> 0 <= n -> between mrs W a ->
  let '(mrs', e') := shr mrs e n in
  e' = e + n /\ between mrs' (2 ^ n * W) a /\ shr_m mrs' = shr_m mrs / 2 ^ n.
Proof.
  intros HW Hn Hb. destruct n as [|n|n]; simpl shr; [| |lia].
  - rewrite Z.add_0_r, Z.pow_0_r, Z.mul_1_l, Z.div_1_r. auto.
  - destruct (shr_iter n _ _ _ HW Hb). auto.
Qed.

Lemma shr_neg mrs e n : n <= 0 -> shr mrs e n = (mrs, e).
Proof. destruct n; simpl; try reflexivity; lia. Qed.

Lemma between_of_loc m l W a : 0 <= m -> m * W <= a < (m + 1) * W ->
  (a = m * W <-> l = loc_Exact) -> between (shr_record_of_loc m l) W a.
Proof.
  intros Hm Hb Hx. destruct l as [|[]]; simpl; (split; [assumption|split; [assumption|]]);
    rewrite Hx; intuition discriminate.
Qed.

Lemma round_nearest_between mrs W a : between mrs W a ->
  let m2 := round_nearest_even (shr_m mrs) (loc_of_shr_record mrs) in
  m2 = shr_m mrs \/ (m2 = shr_m mrs + 1 /\ shr_m mrs * W < a).
Proof.
  destruct mrs as [m r s]. intros (Hm & Hb & Hx).
  assert (Hlt : r || s = true -> m * W < a).
  { intros E. enough (a <> m * W) by lia. intros ->. rewrite E in Hx. now destruct Hx as [Hx _]; discriminate Hx. }
  destruct r, s; simpl in *; auto. destruct (Z.even m); auto.
Qed.

(** ** Rounding *)

(** What [binary_round_aux] returns: mantissa [m1] and exponent [e1] are the
    exact value truncated to 53 bits; the rounded value is [m1] or [m1 + 1]
    units, renormalised to [m3] and [e3]. *)
Record rounded (s : bool) (a b : Z) (r : float) (m1 e1 m3 e3 : Z) : Prop := {
  rd_result : r = match m3 with
                  | Z0 => S754_zero s
                  | Zpos m => if e3 <=? 971 then S754_finite s m e3 else S754_infinity s
                  | _ => S754_nan
                  end;
  rd_e1 : -1074 <= e1;
  rd_m1 : 0 <= m1 < 2 ^ 53;
  rd_norm1 : e1 = -1074 \/ 2 ^ 52 <= m1;
  rd_trunc : m1 * (b * 2 ^ (e1 + 1074)) <= a < (m1 + 1) * (b * 2 ^ (e1 + 1074));
  rd_value : m3 * 2 ^ (e3 + 1074) = m1 * 2 ^ (e1 + 1074) \/
             (m3 * 2 ^ (e3 + 1074) = (m1 + 1) * 2 ^ (e1 + 1074) /\
              m1 * (b * 2 ^ (e1 + 1074)) < a);
  rd_e3 : -1074 <= e3;
  rd_m3 : 0 <= m3 < 2 ^ 53;
  rd_norm3 : e3 = -1074 \/ 2 ^ 52 <= m3
}.

Lemma renormalise m2 e1 : 0 <= m2 <= 2 ^ 53 -> -1074 <= e1 ->
  (e1 = -1074 \/ 2 ^ 52 <= m2) ->
  let '(mrs, e3) := shr_fexp 53 1024 m2 e1 loc_Exact in
  shr_m mrs * 2 ^ (e3 + 1074) = m2 * 2 ^ (e1 + 1074) /\
  -1074 <= e3 /\ 0 <= shr_m mrs < 2 ^ 53 /\ (e3 = -1074 \/ 2 ^ 52 <= shr_m mrs).
Proof.
  intros Hm He Hn. unfold shr_fexp. rewrite fexp_eq.
  destruct (Z.eq_dec m2 (2 ^ 53)) as [->|Hne].
  - change (Zdigits2 (2 ^ 53)) with 54.
    replace (Z.max (54 + e1 - 53) (-1074) - e1) with 1 by lia.
    change (shr (shr_record_of_loc (2 ^ 53) loc_Exact) e1 1)
      with ({| shr_m := 2 ^ 52; shr_r := false; shr_s := false |}, e1 + 1).
    cbn [shr_m]. replace (e1 + 1 + 1074) with (1 + (e1 + 1074)) by lia.
    rewrite (Z.pow_add_r 2 1) by lia. lia.
  - assert (Zdigits2 m2 <= 53) by (apply Zdigits2_le; lia).
    rewrite shr_neg by lia. cbn [shr_m shr_record_of_loc]. lia.
Qed.

Lemma round_aux_spec s mx ex lx a b W :
  0 <= mx -> 0 < b -> 0 < W ->
  (forall n, 0 <= n -> -1074 <= ex + n -> 2 ^ n * W = b * 2 ^ (ex + n + 1074)) ->
  ex <= fexp 53 1024 (Zdigits2 mx + ex) ->
  between (shr_record_of_loc mx lx) W a ->
  exists m1 e1 m3 e3, rounded s a b (binary_round_aux 53 1024 s mx ex lx) m1 e1 m3 e3.
Proof.
  intros Hmx Hb HW Hunit Hex Hbt. unfold binary_round_aux, shr_fexp at 1.
  rewrite fexp_eq in *.
  set (n := Z.max (Zdigits2 mx + ex - 53) (-1074) - ex).
  destruct (Zdigits2_bounds mx Hmx) as (Hd0 & Hdu & Hdl).
  pose proof (shr_between _ ex n W a HW ltac:(lia) Hbt) as Hshr.
  destruct (shr _ _ n) as [mrs e1]. destruct Hshr as (He1 & Hbt1 & Hm1).
  rewrite Hunit in Hbt1 by lia. rewrite <- He1 in Hbt1.
  replace (shr_m (shr_record_of_loc mx lx)) with mx in Hm1 by (now destruct lx as [|[]]).
  pose proof (pow_pos n ltac:(lia)) as Hpn.
  assert (Hsmall : shr_m mrs < 2 ^ 53).
  { rewrite Hm1. apply Z.div_lt_upper_bound; [lia|].
    rewrite <- Z.pow_add_r by lia.
    apply Z.lt_le_trans with (1 := Hdu), Z.pow_le_mono_r; lia. }
  assert (Hnorm : e1 = -1074 \/ 2 ^ 52 <= shr_m mrs).
  { destruct (Z.eq_dec e1 (-1074)); [now left|right]. rewrite Hm1.
    apply Z.div_le_lower_bound; [lia|]. rewrite <- Z.pow_add_r by lia.
    replace (n + 52) with (Zdigits2 mx - 1) by lia. apply Hdl.
    destruct (Z.eq_dec mx 0) as [->|]; [simpl in *; lia|lia]. }
  pose proof (round_nearest_between _ _ _ Hbt1) as Hrne. simpl in Hrne.
  set (m2 := round_nearest_even _ _) in *.
  pose proof (between_nonneg _ _ _ Hbt1) as Hm0.
  pose proof (renormalise m2 e1 ltac:(lia) ltac:(lia) ltac:(lia)) as Hren.
  destruct (shr_fexp 53 1024 m2 e1 loc_Exact) as [mrs3 e3].
  destruct Hren as (Hv & He3 & Hm3 & Hn3).
  exists (shr_m mrs), e1, (shr_m mrs3), e3.
  constructor; try assumption; try lia.
  - reflexivity.
  - destruct mrs; simpl in *; tauto.
Qed.

(** ** Faithful rounding *)

Lemma sval_pos_eq m e : sval (S754_finite false m e) = Zpos m * 2 ^ (e + 1074).
Proof. reflexivity. Qed.

Lemma sval_neg_nonpos m e : -1074 <= e -> sval (S754_finite true m e) <= 0.
Proof.
  intros He. pose proof (pow_pos (e + 1074) ltac:(lia)).
  change (sval (S754_finite true m e)) with (Zneg m * 2 ^ (e + 1074)). nia.
Qed.

Lemma pow_1074_add e k : 0 <= e -> 0 <= k -> 2 ^ (e + k) = 2 ^ k * 2 ^ e.
Proof. intros. rewrite Z.pow_add_r by lia. ring. Qed.

(** A mantissa of at most 53 bits at a smaller exponent is below a full
    mantissa at a larger one. *)
Lemma smaller_exponent m m1 e e1 : -1074 <= e < e1 -> 0 <= m < 2 ^ 53 -> 2 ^ 52 <= m1 ->
  m * 2 ^ (e + 1074) <= m1 * 2 ^ (e1 + 1074).
Proof.
  intros He Hm Hm1.
  replace (e1 + 1074) with ((e + 1074) + (e1 - e)) by lia.
  rewrite (pow_1074_add (e + 1074) (e1 - e)), Z.mul_assoc by lia.
  apply Z.mul_le_mono_nonneg_r; [apply Z.pow_nonneg; lia|].
  assert (2 ^ 1 <= 2 ^ (e1 - e)) by (apply Z.pow_le_mono_r; lia).
  assert (2 ^ 52 * 2 ^ 1 <= m1 * 2 ^ (e1 - e)) by (apply Z.mul_le_mono_nonneg; lia).
  lia.
Qed.

(** A double at or below the exact value is at or below its truncation. *)
Lemma trunc_above f a b m1 e1 : fin f -> 0 < b -> -1074 <= e1 ->
  0 <= m1 -> (e1 = -1074 \/ 2 ^ 52 <= m1) ->
  m1 * (b * 2 ^ (e1 + 1074)) <= a < (m1 + 1) * (b * 2 ^ (e1 + 1074)) ->
  sval f * b <= a -> sval f <= m1 * 2 ^ (e1 + 1074).
Proof.
  intros Hf Hb He1 Hm1 Hn1 Hab Hfa.
  pose proof (pow_pos (e1 + 1074) ltac:(lia)) as HP.
  destruct (fin_cases _ Hf) as [[s ->]|(s & m & e & -> & He & Hm & Hn)]; [simpl; nia|].
  destruct s; [pose proof (sval_neg_nonpos m e ltac:(lia)); nia|].
  rewrite sval_pos_eq in *. destruct (Z.le_gt_cases e1 e) as [Hle|Hgt].
  - replace (e + 1074) with ((e1 + 1074) + (e - e1)) in * by lia.
    rewrite (pow_1074_add (e1 + 1074) (e - e1)) in * by lia. set (P := 2 ^ (e1 + 1074)) in *.
    set (q := Zpos m * 2 ^ (e - e1)) in *.
    replace (Zpos m * (2 ^ (e - e1) * P)) with (q * P) in * by (unfold q; ring).
    assert (q < m1 + 1) by (apply Z.mul_lt_mono_pos_r with (b * P); nia). nia.
  - apply smaller_exponent; lia.
Qed.

(** A double strictly above the truncation is at least one unit above it. *)
Lemma trunc_below f a b m1 e1 : fin f -> 0 < b -> -1074 <= e1 ->
  0 <= m1 -> (e1 = -1074 \/ 2 ^ 52 <= m1) ->
  m1 * (b * 2 ^ (e1 + 1074)) < a -> a <= sval f * b ->
  (m1 + 1) * 2 ^ (e1 + 1074) <= sval f.
Proof.
  intros Hf Hb He1 Hm1 Hn1 Hab Hfa.
  pose proof (pow_pos (e1 + 1074) ltac:(lia)) as HP.
  assert (Hlt : m1 * 2 ^ (e1 + 1074) < sval f) by nia.
  destruct (fin_cases _ Hf) as [[s ->]|(s & m & e & -> & He & Hm & Hn)]; [simpl in *; nia|].
  destruct s; [pose proof (sval_neg_nonpos m e ltac:(lia)); nia|].
  rewrite sval_pos_eq in *. destruct (Z.le_gt_cases e1 e) as [Hle|Hgt].
  - replace (e + 1074) with ((e1 + 1074) + (e - e1)) in * by lia.
    rewrite (pow_1074_add (e1 + 1074) (e - e1)) in * by lia. set (P := 2 ^ (e1 + 1074)) in *.
    set (q := Zpos m * 2 ^ (e - e1)) in *.
    replace (Zpos m * (2 ^ (e - e1) * P)) with (q * P) in * by (unfold q; ring).
    assert (m1 < q) by (apply Z.mul_lt_mono_pos_r with P; nia). nia.
  - pose proof (smaller_exponent (Zpos m) m1 e e1 ltac:(lia) ltac:(lia) ltac:(lia)). lia.
Qed.

Lemma rounded_finite a b r m1 e1 m3 e3 : rounded false a b r m1 e1 m3 e3 ->
  0 < b -> a <= big * b -> fin r /\ sval r = m3 * 2 ^ (e3 + 1074).
Proof.
  intros [Hr He1 Hm1 Hn1 Ht Hv He3 Hm3 Hn3] Hb Ha.
  assert (Hbig : m3 * 2 ^ (e3 + 1074) <= big).
  { set (g := S754_finite false (2 ^ 52) 971).
    assert (Hg : fin g) by reflexivity.
    assert (Hgv : sval g = big) by reflexivity.
    destruct Hv as [->|[-> Hlt]].
    - pose proof (pow_pos (e1 + 1074) ltac:(lia)). nia.
    - rewrite <- Hgv. apply (trunc_below g a b); try assumption; try lia; now rewrite Hgv. }
  assert (He : e3 <= 971).
  { destruct Hn3 as [->|Hn3]; [lia|].
    destruct (Z.le_gt_cases e3 971) as [|Hgt]; [assumption|exfalso].
    assert (2 * 2 ^ 2045 <= 2 ^ (e3 + 1074))
      by (rewrite <- Z.pow_succ_r by lia; apply Z.pow_le_mono_r; lia).
    assert (big = 2 ^ 52 * 2 ^ 2045) by reflexivity.
    pose proof (pow_pos 2045 ltac:(lia)). nia. }
  rewrite Hr. destruct m3 as [|m|m]; [now split| |lia].
  rewrite (proj2 (Z.leb_le _ _) He). split; [|reflexivity].
  apply fin_finite. lia.
Qed.

Lemma rounded_rounds a b r m1 e1 m3 e3 : rounded false a b r m1 e1 m3 e3 ->
  0 < b -> a <= big * b -> rounds a b r /\ close a b r.
Proof.
  intros Hrd Hb Ha. destruct (rounded_finite _ _ _ _ _ _ _ Hrd Hb Ha) as [Hf Hs].
  destruct Hrd as [_ He1 Hm1 Hn1 Ht Hv He3 Hm3 Hn3]. rewrite <- Hs in Hv.
  pose proof (pow_pos (e1 + 1074) ltac:(lia)) as HP.
  split; [split; [assumption|]|].
  - intros f Hff. split; intros Hle.
    + pose proof (trunc_above f a b m1 e1 Hff Hb He1 ltac:(lia) Hn1 Ht Hle).
      destruct Hv as [->|[-> _]]; lia.
    + destruct Hv as [->|[-> Hlt]].
      * apply Z.mul_le_mono_pos_r with b; lia.
      * apply (trunc_below f a b); try assumption; lia.
  - set (P := 2 ^ (e1 + 1074)) in *.
    assert (Habs : Z.abs (sval r * b - a) <= b * P)
      by (destruct Hv as [->|[-> _]]; lia).
    destruct Hn1 as [->|Hn1]; [left; unfold P in Habs; lia|right].
    assert (2 ^ 52 * (b * P) <= m1 * (b * P)) by (apply Z.mul_le_mono_nonneg_r; nia).
    assert (Z.abs (sval r * b - a) * 2 ^ 52 <= b * P * 2 ^ 52)
      by (apply Z.mul_le_mono_nonneg_r; lia). lia.
Qed.

Lemma rounds_opp a b r : rounds a b r -> rounds (- a) b (SFopp r).
Proof.
  intros [Hf H]. split; [now apply fin_opp|]. intros f Hff. rewrite sval_opp.
  destruct (H (SFopp f) (fin_opp _ Hff)) as [H1 H2]. rewrite sval_opp in *.
  split; intros; [assert (sval r <= - sval f) by (apply H2; lia)|
                  assert (- sval f <= sval r) by (apply H1; lia)]; lia.
Qed.

Lemma close_opp a b r : close a b r -> close (- a) b (SFopp r).
Proof. unfold close. rewrite sval_opp. intros [H|H]; [left|right]; lia. Qed.

Lemma binary_round_aux_opp s mx ex lx :
  binary_round_aux 53 1024 s mx ex lx =
  if s then SFopp (binary_round_aux 53 1024 false mx ex lx)
  else binary_round_aux 53 1024 false mx ex lx.
Proof.
  destruct s; [|reflexivity]. unfold binary_round_aux.
  destruct (shr_fexp 53 1024 mx ex lx) as [mrs e].
  destruct (shr_fexp 53 1024 _ e loc_Exact) as [mrs' e'].
  destruct (shr_m mrs'); try reflexivity. now destruct (_ <=? _).
Qed.

Lemma round_aux_rounds s mx ex lx a b W :
  0 <= mx -> 0 < b -> 0 < W ->
  (forall n, 0 <= n -> -1074 <= ex + n -> 2 ^ n * W = b * 2 ^ (ex + n + 1074)) ->
  ex <= fexp 53 1024 (Zdigits2 mx + ex) ->
  between (shr_record_of_loc mx lx) W a -> a <= big * b ->
  rounds (cond_Zopp s a) b (binary_round_aux 53 1024 s mx ex lx) /\
  close (cond_Zopp s a) b (binary_round_aux 53 1024 s mx ex lx).
Proof.
  intros Hmx Hb HW Hu Hex Hbt Ha.
  destruct (round_aux_spec false mx ex lx a b W) as (m1 & e1 & m3 & e3 & Hrd); try assumption.
  destruct (rounded_rounds _ _ _ _ _ _ _ Hrd Hb Ha) as [Hr Hc].
  rewrite binary_round_aux_opp. destruct s; simpl cond_Zopp; [|now split].
  split; [now apply rounds_opp|now apply close_opp].
Qed.

Lemma rounds_self b r : fin r -> 0 < b -> rounds (sval r * b) b r /\ close (sval r * b) b r.
Proof.
  intros Hf Hb. split; [split; [assumption|intros f Hff; split; nia]|left; lia].
Qed.

(** An exact value that is a double is returned unchanged. *)
Lemma rounds_exact a b r f : rounds a b r -> 0 < b -> fin f -> sval f * b = a -> sval r = sval f.
Proof. intros [_ H] Hb Hf He. destruct (H f Hf). lia. Qed.

Lemma rounds_nonneg a b r : rounds a b r -> 0 <= a -> 0 <= sval r.
Proof. intros [_ H] Ha. destruct (H (S754_zero false) eq_refl) as [H1 _]. simpl in H1. lia. Qed.

(** ** The operations *)

Lemma shl_align_spec m e e' : let '(m', e'') := shl_align m e e' in
  e'' = Z.min e e' /\ Zpos m' = Zpos m * 2 ^ (e - e'').
Proof.
  unfold shl_align. destruct (e' - e) as [|d|d] eqn:E.
  - split; [lia|]. replace (e - e) with 0 by lia. lia.
  - split; [lia|]. replace (e - e) with 0 by lia. lia.
  - split; [lia|]. replace (e - e') with (Zpos d) by lia.
    clear. revert m.
    induction d as [|d IH] using Pos.peano_ind; intros m; [simpl; lia|].
    rewrite Pos.iter_succ, Pos2Z.inj_succ, Z.pow_succ_r by lia.
    change (Zpos (Pos.iter xO m d)~0) with (2 * Zpos (Pos.iter xO m d)). rewrite IH. lia.
Qed.

Lemma Zdigits2_shift m k : 0 < m -> 0 <= k -> Zdigits2 (m * 2 ^ k) = Zdigits2 m + k.
Proof.
  intros Hm Hk. pose proof (pow_pos k Hk).
  destruct (Zdigits2_bounds m ltac:(lia)) as (Hd & Hu & Hl). specialize (Hl Hm).
  assert (0 < Zdigits2 m) by (destruct m; simpl; lia).
  apply Z.le_antisymm.
  - apply Zdigits2_le; [nia|lia|]. rewrite Z.pow_add_r by lia. nia.
  - enough (Zdigits2 m + k - 1 < Zdigits2 (m * 2 ^ k)) by lia.
    apply Zdigits2_ge; [lia|].
    replace (Zdigits2 m + k - 1) with ((Zdigits2 m - 1) + k) by lia.
    rewrite Z.pow_add_r by lia. nia.
Qed.

Lemma binary_round_rounds s m e : -1074 <= e -> Zpos m * 2 ^ (e + 1074) <= big ->
  rounds (cond_Zopp s (Zpos m * 2 ^ (e + 1074))) 1 (binary_round 53 1024 s m e) /\
  close (cond_Zopp s (Zpos m * 2 ^ (e + 1074))) 1 (binary_round 53 1024 s m e).
Proof.
  intros He Hbig. unfold binary_round. rewrite fexp_eq.
  set (d := Zpos (digits2_pos m)).
  pose proof (shl_align_spec m e (Z.max (d + e - 53) (-1074))) as Hs.
  destruct (shl_align _ _ _) as [mz ez]. destruct Hs as [Hez Hmz].
  assert (Hv : Zpos m * 2 ^ (e + 1074) = Zpos mz * 2 ^ (ez + 1074)).
  { rewrite Hmz, <- Z.mul_assoc, <- Z.pow_add_r by lia. f_equal. f_equal. lia. }
  rewrite Hv in Hbig |- *.
  refine (round_aux_rounds s (Zpos mz) ez loc_Exact _ 1 (2 ^ (ez + 1074)) _ _ _ _ _ _ _); try lia.
  - intros n Hn _. rewrite <- Z.pow_add_r by lia. rewrite Z.mul_1_l. f_equal. lia.
  - rewrite fexp_eq, Hmz, Zdigits2_shift by lia. change (Zdigits2 (Zpos m)) with d. lia.
  - pose proof (pow_pos (ez + 1074) ltac:(lia)).
    apply between_of_loc; [lia|lia|]. tauto.
Qed.

Lemma binary_normalize_rounds z e s : -1074 <= e -> Z.abs z * 2 ^ (e + 1074) <= big ->
  rounds (z * 2 ^ (e + 1074)) 1 (binary_normalize 53 1024 z e s) /\
  close (z * 2 ^ (e + 1074)) 1 (binary_normalize 53 1024 z e s).
Proof.
  intros He Hbig. destruct z as [|m|m]; simpl binary_normalize.
  - rewrite Z.mul_0_l. apply (rounds_self 1 (S754_zero s)); [reflexivity|lia].
  - now apply (binary_round_rounds false).
  - destruct (binary_round_rounds true m e He Hbig) as [H1 H2]. simpl cond_Zopp in *.
    replace (Zneg m * 2 ^ (e + 1074)) with (- (Zpos m * 2 ^ (e + 1074))) by lia. now split.
Qed.

Lemma shl_fst m e e' : e' <= e -> Zpos (fst (shl_align m e e')) = Zpos m * 2 ^ (e - e').
Proof.
  intros He. pose proof (shl_align_spec m e e') as H.
  destruct (shl_align m e e') as [m' e'']. destruct H as [-> H]. cbn [fst].
  now rewrite H, Z.min_r by lia.
Qed.

Lemma cond_Zopp_mul s a b : cond_Zopp s a * b = cond_Zopp s (a * b).
Proof. destruct s; simpl; lia. Qed.

Theorem fadd_rounds x y : fin x -> fin y -> Z.abs (sval x + sval y) <= big ->
  rounds (sval x + sval y) 1 (fadd x y) /\ close (sval x + sval y) 1 (fadd x y).
Proof.
  intros Hx Hy Hbig.
  assert (Hself : forall z, fin z -> rounds (sval z) 1 z /\ close (sval z) 1 z).
  { intros z Hz. pose proof (rounds_self 1 z Hz ltac:(lia)) as H. now rewrite Z.mul_1_r in H. }
  destruct (fin_cases _ Hx) as [[sx ->]|(sx & mx & ex & -> & Hex & Hmx & Hnx)];
    destruct (fin_cases _ Hy) as [[sy ->]|(sy & my & ey & -> & Hey & Hmy & Hny)].
  - change (sval (S754_zero sx) + sval (S754_zero sy)) with (sval (fadd (S754_zero sx) (S754_zero sy)))
      || replace (sval (S754_zero sx) + sval (S754_zero sy)) with (sval (fadd (S754_zero sx) (S754_zero sy)))
           by (now destruct sx, sy).
    apply Hself. now destruct sx, sy.
  - now apply Hself.
  - rewrite Z.add_0_r. now apply Hself.
  - set (ez := Z.min ex ey).
    assert (Hsum : sval (S754_finite sx mx ex) + sval (S754_finite sy my ey) =
      (cond_Zopp sx (Zpos (fst (shl_align mx ex ez))) +
       cond_Zopp sy (Zpos (fst (shl_align my ey ez)))) * 2 ^ (ez + 1074)).
    { rewrite !shl_fst by (unfold ez; lia). rewrite Z.mul_add_distr_r, !cond_Zopp_mul.
      rewrite <- !Z.mul_assoc, <- !Z.pow_add_r by (unfold ez; lia).
      simpl sval. rewrite !cond_Zopp_mul.
      replace (ex - ez + (ez + 1074)) with (ex + 1074) by lia.
      replace (ey - ez + (ez + 1074)) with (ey + 1074) by lia. reflexivity. }
    rewrite Hsum in Hbig |- *. apply binary_normalize_rounds; [unfold ez; lia|].
    rewrite Z.abs_mul, (Z.abs_eq (2 ^ _)) in Hbig by (apply Z.pow_nonneg; lia). exact Hbig.
Qed.

Lemma fsub_fadd x y : fsub x y = fadd x (SFopp y).
Proof.
  destruct x as [[]|[]| |sx mx ex], y as [[]|[]| |sy my ey]; try reflexivity.
  unfold fsub, fadd, SFsub, SFadd, SFopp. f_equal.
  rewrite <- Z.add_opp_r. f_equal. destruct sy; simpl; lia.
Qed.

Theorem fsub_rounds x y : fin x -> fin y -> Z.abs (sval x - sval y) <= big ->
  rounds (sval x - sval y) 1 (fsub x y) /\ close (sval x - sval y) 1 (fsub x y).
Proof.
  intros Hx Hy Hbig. rewrite fsub_fadd, <- Z.add_opp_r, <- sval_opp in *.
  apply fadd_rounds; [assumption|now apply fin_opp|assumption].
Qed.

Lemma sval_finite s m e : sval (S754_finite s m e) = cond_Zopp s (Zpos m * 2 ^ (e + 1074)).
Proof. apply cond_Zopp_mul. Qed.

Theorem fmul_rounds x y : fin x -> fin y -> Z.abs (sval x * sval y) <= big * one ->
  rounds (sval x * sval y) one (fmul x y) /\ close (sval x * sval y) one (fmul x y).
Proof.
  intros Hx Hy Hbig. pose proof one_pos as Hone.
  assert (Hz : forall s, rounds 0 one (S754_zero s) /\ close 0 one (S754_zero s)).
  { intros s. apply (rounds_self one (S754_zero s)); [reflexivity|assumption]. }
  destruct (fin_cases _ Hx) as [[sx ->]|(sx & mx & ex & -> & Hex & Hmx & Hnx)];
    destruct (fin_cases _ Hy) as [[sy ->]|(sy & my & ey & -> & Hey & Hmy & Hny)];
    try (simpl; rewrite ?Z.mul_0_r; apply Hz).
  set (v := Zpos (mx * my) * 2 ^ (ex + ey + 2148)).
  assert (Hv : sval (S754_finite sx mx ex) * sval (S754_finite sy my ey) =
               cond_Zopp (xorb sx sy) v).
  { rewrite !sval_finite. unfold v. rewrite Pos2Z.inj_mul.
    replace (ex + ey + 2148) with ((ex + 1074) + (ey + 1074)) by lia.
    rewrite (Z.pow_add_r 2 (ex + 1074)) by lia. destruct sx, sy; cbn [cond_Zopp xorb]; ring. }
  rewrite Hv in *. unfold fmul, SFmul.
  pose proof (pow_pos (ex + ey + 2148) ltac:(lia)) as HP.
  apply round_aux_rounds with (W := 2 ^ (ex + ey + 2148)); try lia.
  - intros n Hn Hge. unfold one. rewrite <- !Z.pow_add_r by lia. f_equal. lia.
  - rewrite fexp_eq. enough (53 <= Zdigits2 (Zpos (mx * my)) \/ ex + ey <= -1074) by lia.
    destruct (Z.le_gt_cases (ex + ey) (-1074)); [now right|left].
    enough (52 < Zdigits2 (Zpos (mx * my))) by lia. apply Zdigits2_ge; [lia|]. nia.
  - apply between_of_loc; [lia|unfold v; lia|]. unfold v. tauto.
  - destruct (xorb sx sy); simpl cond_Zopp in Hbig; lia.
Qed.

Lemma new_location_exact n k : new_location n k = loc_Exact <-> k = 0.
Proof.
  unfold new_location, new_location_even, new_location_odd.
  destruct (Z.even n), (Z.eqb_spec k 0); intuition discriminate.
Qed.

Lemma div_core_spec mx ex my ey : -1074 <= ex -> -1074 <= ey ->
  let '(q, e', l) := SFdiv_core_binary 53 1024 (Zpos mx) ex (Zpos my) ey in
  exists m', Zpos mx * 2 ^ (ex + 2148) = m' * 2 ^ (ey + e' + 2148) /\
    0 <= ey + e' + 2148 /\ 0 <= q /\ q * Zpos my <= m' < (q + 1) * Zpos my /\
    (m' = q * Zpos my <-> l = loc_Exact) /\ e' <= fexp 53 1024 (Zdigits2 q + e').
Proof.
  intros Hex Hey. unfold SFdiv_core_binary. rewrite !fexp_eq.
  set (d1 := Zdigits2 (Zpos mx)). set (d2 := Zdigits2 (Zpos my)).
  set (e' := Z.min _ (ex - ey)). set (s := ex - ey - e').
  assert (Hs : 0 <= s) by (unfold s, e'; lia).
  assert (Hm' : (match s with 0 => Zpos mx | Zpos _ => Z.shiftl (Zpos mx) s | Zneg _ => 0 end)
                = Zpos mx * 2 ^ s).
  { destruct s as [|p|p] eqn:E; [lia| |lia]. now rewrite Z.shiftl_mul_pow2. }
  rewrite Hm'. clear Hm'. set (m' := Zpos mx * 2 ^ s).
  pose proof (Z.div_eucl_eq m' (Zpos my) ltac:(lia)) as Heq.
  pose proof (Z.mod_pos_bound m' (Zpos my) ltac:(lia)) as Hr. unfold Z.modulo in Hr.
  destruct (Z.div_eucl m' (Zpos my)) as [q r].
  pose proof (pow_pos s Hs) as Hps.
  assert (Hm0 : 0 < m') by (unfold m'; nia).
  exists m'. split; [|split; [|split; [|split; [|split]]]].
  - unfold m'. rewrite <- Z.mul_assoc, <- Z.pow_add_r by (unfold s, e'; lia).
    f_equal. f_equal. unfold s. lia.
  - unfold e'. lia.
  - nia.
  - lia.
  - rewrite new_location_exact. lia.
  - rewrite fexp_eq.
    destruct (Z.le_gt_cases e' (-1074)); [lia|].
    enough (52 < Zdigits2 q) by lia. apply Zdigits2_ge; [lia|].
    assert (Hds : d2 - d1 + 53 <= s) by (unfold s, e' in *; lia).
    destruct (Zdigits2_bounds (Zpos mx) ltac:(lia)) as (Hd1 & _ & Hl1).
    specialize (Hl1 ltac:(lia)). fold d1 in Hd1, Hl1.
    destruct (Zdigits2_bounds (Zpos my) ltac:(lia)) as (Hd2 & Hu2 & _). fold d2 in Hd2, Hu2.
    assert (0 < d1) by (unfold d1; simpl; lia).
    assert (2 ^ 52 * 2 ^ d2 <= m').
    { unfold m'. rewrite <- Z.pow_add_r by lia.
      apply Z.le_trans with (2 ^ ((d1 - 1) + s)); [apply Z.pow_le_mono_r; lia|].
      rewrite Z.pow_add_r by lia. apply Z.mul_le_mono_nonneg_r; lia. }
    enough (2 ^ 52 < q + 1) by lia. apply Z.mul_lt_mono_pos_r with (Zpos my); [lia|].
    assert (2 ^ 52 * Zpos my < 2 ^ 52 * 2 ^ d2) by (apply Z.mul_lt_mono_pos_l; lia). lia.
Qed.

Theorem fdiv_rounds x y : fin x -> fin y -> 0 < sval y ->
  Z.abs (sval x * one) <= big * sval y ->
  rounds (sval x * one) (sval y) (fdiv x y) /\ close (sval x * one) (sval y) (fdiv x y).
Proof.
  intros Hx Hy Hpos Hbig.
  destruct (fin_cases _ Hy) as [[sy ->]|(sy & my & ey & -> & Hey & Hmy & Hny)]; [simpl in Hpos; lia|].
  destruct sy; [pose proof (sval_neg_nonpos my ey ltac:(lia)); lia|].
  destruct (fin_cases _ Hx) as [[sx ->]|(sx & mx & ex & -> & Hex & Hmx & Hnx)].
  - destruct (rounds_self (sval (S754_finite false my ey)) (S754_zero (xorb sx false))) as [H1 H2];
      [reflexivity|assumption|]. now split.
  - unfold fdiv, SFdiv. rewrite xorb_false_r.
    pose proof (div_core_spec mx ex my ey ltac:(lia) ltac:(lia)) as Hcore.
    destruct (SFdiv_core_binary 53 1024 (Zpos mx) ex (Zpos my) ey) as [[q e'] l].
    destruct Hcore as (m' & Hm' & He' & Hq & Hqm & Hl & Hfe).
    set (v := Zpos mx * 2 ^ (ex + 2148)).
    assert (Hv : sval (S754_finite sx mx ex) * one = cond_Zopp sx v).
    { rewrite sval_finite, cond_Zopp_mul. unfold v, one. f_equal.
      rewrite <- Z.mul_assoc, <- Z.pow_add_r by lia. f_equal. f_equal. lia. }
    rewrite Hv in *. rewrite sval_pos_eq in *.
    pose proof (pow_pos (ey + e' + 2148) He') as HP.
    fold v in Hm'.
    apply round_aux_rounds with (W := Zpos my * 2 ^ (ey + e' + 2148)); try nia.
    + intros n Hn Hge. rewrite Z.mul_comm, <- !Z.mul_assoc, <- !Z.pow_add_r by lia.
      f_equal. f_equal. lia.
    + apply between_of_loc; [lia|nia|]. rewrite <- Hl, Hm'. split; nia.
    + destruct sx; simpl cond_Zopp in Hbig; lia.
Qed.

(** ** Comparison *)

Lemma finite_lt_exponent m1 e1 m2 e2 :
  -1074 <= e1 -> 0 < m1 < 2 ^ 53 -> (e2 = -1074 \/ 2 ^ 52 <= m2) -> e1 < e2 ->
  m1 * 2 ^ (e1 + 1074) < m2 * 2 ^ (e2 + 1074).
Proof.
  intros He1 Hm1 Hn2 Hlt. pose proof (pow_pos (e1 + 1074) ltac:(lia)).
  pose proof (smaller_exponent (m1 + 1) m2 e1 e2) as H2.
  pose proof (smaller_exponent m1 m2 e1 e2 ltac:(lia) ltac:(lia) ltac:(lia)) as H1.
  destruct (Z.eq_dec m1 (2 ^ 53 - 1)) as [->|]; [|nia].
  replace (e2 + 1074) with ((e1 + 1074) + (e2 - e1)) in * by lia.
  rewrite (pow_1074_add (e1 + 1074) (e2 - e1)) in * by lia.
  assert (2 ^ 1 <= 2 ^ (e2 - e1)) by (apply Z.pow_le_mono_r; lia).
  assert (2 ^ 52 * 2 ^ 1 <= m2 * 2 ^ (e2 - e1)) by (apply Z.mul_le_mono_nonneg; lia). nia.
Qed.

Lemma compare_finite_pos m1 e1 m2 e2 :
  fin (S754_finite false m1 e1) -> fin (S754_finite false m2 e2) ->
  match e1 ?= e2 with Lt => Lt | Gt => Gt | Eq => Pos.compare_cont Eq m1 m2 end =
  (Zpos m1 * 2 ^ (e1 + 1074) ?= Zpos m2 * 2 ^ (e2 + 1074)).
Proof.
  intros H1%fin_finite H2%fin_finite. symmetry.
  destruct (Z.compare_spec e1 e2) as [->|Hlt|Hlt].
  - rewrite <- Zmult_compare_compat_r by (apply Z.lt_gt, pow_pos; lia). reflexivity.
  - apply Z.compare_lt_iff. apply finite_lt_exponent; lia.
  - apply Z.compare_gt_iff. apply finite_lt_exponent; lia.
Qed.

Theorem fcompare_spec x y : fin x -> fin y ->
  SFcompare x y = Some (Z.compare (sval x) (sval y)).
Proof.
  intros Hx Hy.
  destruct (fin_cases _ Hx) as [[sx ->]|(sx & mx & ex & -> & Hex & Hmx & Hnx)];
    destruct (fin_cases _ Hy) as [[sy ->]|(sy & my & ey & -> & Hey & Hmy & Hny)];
    rewrite ?sval_finite;
    try pose proof (pow_pos (ex + 1074) ltac:(lia)); try pose proof (pow_pos (ey + 1074) ltac:(lia)).
  - reflexivity.
  - simpl SFcompare. f_equal. symmetry.
    destruct sy; cbn [cond_Zopp sval]; [apply Z.compare_gt_iff|apply Z.compare_lt_iff]; lia.
  - simpl SFcompare. f_equal. symmetry.
    destruct sx; cbn [cond_Zopp sval]; [apply Z.compare_lt_iff|apply Z.compare_gt_iff]; lia.
  - pose proof (compare_finite_pos mx ex my ey Hx Hy) as Hp.
    destruct sx, sy; cbn [cond_Zopp].
    + simpl SFcompare. f_equal.
      rewrite Z.compare_opp, (Z.compare_antisym (Zpos mx * _)), <- Hp.
      destruct (Z.compare_spec ex ey); reflexivity.
    + simpl SFcompare. f_equal. symmetry. apply Z.compare_lt_iff. lia.
    + simpl SFcompare. f_equal. symmetry. apply Z.compare_gt_iff. lia.
    + simpl SFcompare. now rewrite <- Hp.
Qed.

Lemma fltb_spec x y : fin x -> fin y -> fltb x y = (sval x <? sval y).
Proof.
  intros Hx Hy. unfold fltb, SFltb, Z.ltb. rewrite fcompare_spec by assumption.
  now destruct (_ ?= _).
Qed.

Lemma fleb_spec x y : fin x -> fin y -> fleb x y = (sval x <=? sval y).
Proof.
  intros Hx Hy. unfold fleb, SFleb, Z.leb. rewrite fcompare_spec by assumption.
  now destruct (_ ?= _).
Qed.

Lemma feqb_spec x y : fin x -> fin y -> feqb x y = (sval x =? sval y).
Proof.
  intros Hx Hy. unfold feqb, SFeqb. rewrite fcompare_spec, Z.eqb_compare by assumption.
  now destruct (_ ?= _).
Qed.

(** ** Integers *)

Lemma fin_scaled m k : Z.abs m <= 2 ^ 53 -> -1074 <= k <= 970 ->
  exists f, fin f /\ sval f = m * 2 ^ (k + 1074).
Proof.
  assert (Hpos : forall p, Zpos p < 2 ^ 53 -> forall j, -1074 <= j <= 971 ->
    exists f, fin f /\ sval f = Zpos p * 2 ^ (j + 1074)).
  { intros p Hp j Hj. set (d := Zpos (digits2_pos p)).
    assert (Hd : d <= 53) by (apply (Zdigits2_le (Zpos p)); lia).
    destruct (Zdigits2_bounds (Zpos p) ltac:(lia)) as (_ & Hu & Hl).
    specialize (Hl ltac:(lia)). change (Zdigits2 (Zpos p)) with d in *.
    assert (0 < d) by (unfold d; lia).
    set (t := Z.min (53 - d) (j + 1074)).
    pose proof (pow_pos t ltac:(lia)) as Ht.
    assert (Heq : Zpos (Z.to_pos (Zpos p * 2 ^ t)) = Zpos p * 2 ^ t) by (apply Z2Pos.id; nia).
    exists (S754_finite false (Z.to_pos (Zpos p * 2 ^ t)) (j - t)). split.
    - apply fin_finite. rewrite Heq. split; [lia|split].
      + apply Z.lt_le_trans with (2 ^ d * 2 ^ t); [apply Z.mul_lt_mono_pos_r; lia|].
        rewrite <- Z.pow_add_r by lia. apply Z.pow_le_mono_r; lia.
      + destruct (Z.eq_dec (j - t) (-1074)); [now left|right].
        assert (t = 53 - d) by lia.
        apply Z.le_trans with (2 ^ (d - 1) * 2 ^ t); [|apply Z.mul_le_mono_nonneg_r; lia].
        rewrite <- Z.pow_add_r by lia. apply Z.pow_le_mono_r; lia.
    - rewrite sval_pos_eq, Heq, <- Z.mul_assoc, <- Z.pow_add_r by lia. f_equal. f_equal. lia. }
  assert (Hp : forall p, Zpos p <= 2 ^ 53 -> -1074 <= k <= 970 ->
    exists f, fin f /\ sval f = Zpos p * 2 ^ (k + 1074)).
  { intros p Hp Hk. destruct (Z.eq_dec (Zpos p) (2 ^ 53)) as [E|]; [|apply Hpos; lia].
    destruct (Hpos (2 ^ 52)%positive ltac:(lia) (k + 1) ltac:(lia)) as (f & Hf & Hs).
    exists f. split; [assumption|]. rewrite Hs, E.
    replace (k + 1 + 1074) with (k + 1074 + 1) by lia. rewrite (Z.pow_add_r 2 (k + 1074)) by lia. lia. }
  intros Hm Hk. destruct m as [|p|p].
  - exists (S754_zero false). now split.
  - apply Hp; lia.
  - destruct (Hp p ltac:(lia) Hk) as (f & Hf & Hs). exists (SFopp f).
    split; [now apply fin_opp|]. rewrite sval_opp, Hs. lia.
Qed.

Lemma int_double z : Z.abs z <= 2 ^ 53 -> exists f, is_int f z.
Proof. intros Hz. apply (fin_scaled z 0); lia. Qed.

Lemma rounds_int a b r z : rounds a b r -> 0 < b -> Z.abs z <= 2 ^ 53 -> a = z * one * b ->
  is_int r z.
Proof.
  intros Hr Hb Hz Ha. destruct (int_double z Hz) as (f & Hf & Hs).
  split; [apply Hr|]. rewrite <- Hs. apply (rounds_exact a b r f); try assumption.
  rewrite Hs. lia.
Qed.

Lemma big_ge_int z : Z.abs z <= 2 ^ 64 -> Z.abs (z * one) <= big.
Proof.
  intros Hz. pose proof one_pos. rewrite Z.abs_mul, (Z.abs_eq one) by lia.
  assert (2 ^ 64 * one <= big) by (vm_compute; discriminate).
  apply Z.le_trans with (2 ^ 64 * one); [apply Z.mul_le_mono_nonneg_r; lia|assumption].
Qed.

Lemma normalize_int z s : Z.abs z <= 2 ^ 53 -> is_int (binary_normalize 53 1024 z 0 s) z.
Proof.
  intros Hz. pose proof (big_ge_int z ltac:(lia)) as Hbig.
  rewrite Z.abs_mul, (Z.abs_eq one) in Hbig by (pose proof one_pos; lia).
  destruct (binary_normalize_rounds z 0 s ltac:(lia) Hbig) as [Hr _].
  apply (rounds_int _ 1 _ z Hr); try lia. unfold one. simpl (0 + 1074). lia.
Qed.

Lemma of_Z_int z : Z.abs z <= 2 ^ 53 -> is_int (of_Z z) z.
Proof. apply normalize_int. Qed.

Lemma is_int_add x y a b : is_int x a -> is_int y b -> Z.abs (a + b) <= 2 ^ 53 ->
  is_int (fadd x y) (a + b).
Proof.
  intros [Hx Hsx] [Hy Hsy] Hab.
  destruct (fadd_rounds x y Hx Hy) as [Hr _].
  - rewrite Hsx, Hsy, <- Z.mul_add_distr_r. apply big_ge_int. lia.
  - apply (rounds_int _ 1 _ _ Hr); lia.
Qed.

Lemma is_int_sub x y a b : is_int x a -> is_int y b -> Z.abs (a - b) <= 2 ^ 53 ->
  is_int (fsub x y) (a - b).
Proof.
  intros Hx [Hy Hsy] Hab. rewrite fsub_fadd, <- Z.add_opp_r.
  apply is_int_add; [assumption| |lia]. split; [now apply fin_opp|]. rewrite sval_opp. lia.
Qed.

Lemma is_int_mul x y a b : is_int x a -> is_int y b -> Z.abs (a * b) <= 2 ^ 53 ->
  is_int (fmul x y) (a * b).
Proof.
  intros [Hx Hsx] [Hy Hsy] Hab. pose proof one_pos.
  pose proof (big_ge_int (a * b) ltac:(lia)) as Hbig.
  destruct (fmul_rounds x y Hx Hy) as [Hr _].
  - rewrite Hsx, Hsy. replace (a * one * (b * one)) with (a * b * one * one) by ring.
    rewrite Z.abs_mul, (Z.abs_eq one) by lia. apply Z.mul_le_mono_nonneg_r; lia.
  - apply (rounds_int _ one _ _ Hr); [assumption|lia|]. rewrite Hsx, Hsy. ring.
Qed.

Theorem ffloor_spec x : fin x -> is_int (ffloor x) (sval x / one).
Proof.
  intros Hx. pose proof one_pos as Hone.
  destruct (fin_cases _ Hx) as [[s ->]|(s & m & e & -> & He & Hm & Hn)]; [now split|].
  unfold ffloor. destruct (Z.leb_spec 0 e).
  - split; [assumption|]. rewrite sval_finite.
    replace (e + 1074) with (1074 + e) by lia. rewrite Z.pow_add_r by lia. fold one.
    replace (Zpos m * (one * 2 ^ e)) with (Zpos m * 2 ^ e * one) by ring.
    rewrite <- cond_Zopp_mul, Z.div_mul by lia. reflexivity.
  - assert (Hdiv : sval (S754_finite s m e) / one = cond_Zopp s (Zpos m) / 2 ^ (- e)).
    { rewrite sval_finite, <- cond_Zopp_mul. unfold one.
      replace 1074 with (- e + (e + 1074)) at 2 by lia. rewrite (Z.pow_add_r 2 (- e)) by lia.
      apply Z.div_mul_cancel_r; apply Z.pow_nonzero; lia. }
    rewrite Hdiv. pose proof (pow_pos (- e) ltac:(lia)) as HP.
    apply normalize_int. set (P := 2 ^ (- e)) in *. set (v := cond_Zopp s (Zpos m)).
    assert (Z.abs v < 2 ^ 53) by (unfold v; destruct s; simpl cond_Zopp; lia).
    pose proof (Z.div_mod v P ltac:(lia)). pose proof (Z.mod_pos_bound v P HP). nia.
Qed.

Lemma fceil_spec x : fin x -> is_int (fceil x) (- (- sval x / one)).
Proof.
  intros Hx. destruct (ffloor_spec (SFopp x) (fin_opp _ Hx)) as [Hf Hs].
  rewrite sval_opp in Hs. unfold fceil. split; [now apply fin_opp|]. rewrite sval_opp. lia.
Qed.

Lemma is_int_fin x a : is_int x a -> fin x.
Proof. now intros [H _]. Qed.

Lemma is_int_unique x a b : is_int x a -> is_int x b -> a = b.
Proof. intros [_ Ha] [_ Hb]. pose proof one_pos. nia. Qed.

Lemma is_int_ltb x y a b : is_int x a -> is_int y b -> fltb x y = (a <? b).
Proof.
  intros [Hx Ha] [Hy Hb]. rewrite fltb_spec, Ha, Hb by assumption. pose proof one_pos.
  destruct (Z.ltb_spec (a * one) (b * one)), (Z.ltb_spec a b); try reflexivity; nia.
Qed.

Lemma is_int_leb x y a b : is_int x a -> is_int y b -> fleb x y = (a <=? b).
Proof.
  intros [Hx Ha] [Hy Hb]. rewrite fleb_spec, Ha, Hb by assumption. pose proof one_pos.
  destruct (Z.leb_spec (a * one) (b * one)), (Z.leb_spec a b); try reflexivity; nia.
Qed.

Lemma is_int_eqb x y a b : is_int x a -> is_int y b -> feqb x y = (a =? b).
Proof.
  intros [Hx Ha] [Hy Hb]. rewrite feqb_spec, Ha, Hb by assumption. pose proof one_pos.
  destruct (Z.eqb_spec (a * one) (b * one)), (Z.eqb_spec a b); try reflexivity; nia.
Qed.

(** A quotient of integers is rounded to the same side of every integer as
    the exact quotient, so [math.floor(a / b)] is the integer quotient. *)
Theorem floor_div_int x y a b : is_int x a -> is_int y b ->
  0 <= a -> 0 < b -> a + b <= 2 ^ 51 -> is_int (ffloor (fdiv x y)) (a / b).
Proof.
  intros [Hx Hsx] [Hy Hsy] Ha Hb Hab. pose proof one_pos as Hone.
  destruct (fdiv_rounds x y Hx Hy) as [Hr _]; [nia| |].
  { rewrite Hsx, Hsy. pose proof (big_ge_int a ltac:(lia)) as Hbig.
    assert (Hab0 : 0 <= a * one) by nia. rewrite Z.abs_eq in Hbig by lia.
    rewrite Z.abs_eq by nia. apply Z.le_trans with (big * one); [nia|].
    apply Z.mul_le_mono_nonneg_l; nia. }
  rewrite Hsx, Hsy in Hr. set (v := fdiv x y) in *. set (k := a / b).
  pose proof (Z.div_mod a b ltac:(lia)) as Hdm. fold k in Hdm.
  pose proof (Z.mod_pos_bound a b Hb) as Hmod.
  assert (Hk : 0 <= k) by (apply Z.div_pos; lia).
  assert (Hlow : k * one <= sval v).
  { destruct (int_double k ltac:(nia)) as (f & Hf & Hs). rewrite <- Hs.
    apply (proj1 (proj2 Hr f Hf)). rewrite Hs.
    replace (k * one * (b * one)) with (k * b * one * one) by ring.
    apply Z.mul_le_mono_nonneg_r; [lia|]. apply Z.mul_le_mono_nonneg_r; lia. }
  assert (Hup : sval v < (k + 1) * one).
  { set (j := Z.log2_up b).
    assert (Hj : 0 <= j) by apply Z.log2_up_nonneg.
    assert (Hbj : b <= 2 ^ j) by (destruct (Z.eq_dec b 1) as [E|]; [rewrite E; apply (pow_pos j) in Hj; lia|apply Z.log2_up_spec; lia]).
    assert (Hjb : 2 ^ j <= 2 * b).
    { destruct (Z.eq_dec b 1) as [E|]; [unfold j; rewrite E; simpl; lia|].
      destruct (Z.log2_up_spec b ltac:(lia)) as [H1 _]. fold j in H1.
      assert (0 < j) by (apply Z.log2_up_pos; lia).
      replace j with (Z.succ (Z.pred j)) by lia. rewrite Z.pow_succ_r by lia. lia. }
    assert (Hjs : j <= 52) by (apply (Z.pow_le_mono_r_iff 2); lia).
    set (g := (k + 1) * 2 ^ j - 1).
    assert (Hone' : one = 2 ^ (- j + 1074) * 2 ^ j)
      by (unfold one; rewrite <- Z.pow_add_r by lia; f_equal; lia).
    assert (Hg : (k + 1) * 2 ^ j <= (k + 1) * (2 * b)) by (apply Z.mul_le_mono_nonneg_l; lia).
    assert (Hg0 : 1 * 1 <= (k + 1) * 2 ^ j) by (apply Z.mul_le_mono_nonneg; lia).
    destruct (fin_scaled g (- j)) as (f & Hf & Hs); [unfold g; lia|lia|].
    set (P := 2 ^ (- j + 1074)) in *. assert (HP : 0 < P) by (apply pow_pos; lia).
    apply Z.le_lt_trans with (sval f).
    - apply (proj2 (proj2 Hr f Hf)). rewrite Hs, Hone'.
      replace (g * P * (b * (P * 2 ^ j))) with (g * b * (P * (P * 2 ^ j))) by ring.
      replace (a * (P * 2 ^ j) * (P * 2 ^ j)) with (a * 2 ^ j * (P * (P * 2 ^ j))) by ring.
      apply Z.mul_le_mono_nonneg_r; [nia|]. unfold g. nia.
    - rewrite Hs, Hone'. unfold g. nia. }
  assert (Hkv : k = sval v / one) by (apply Z.div_unique with (sval v - one * k); lia).
  rewrite Hkv. apply ffloor_spec, Hr.
Qed.

(** ** Bounds and signs *)

Lemma big_one : big = 2 ^ 1023 * one.
Proof. reflexivity. Qed.

(** Everything below [2^200] is far from overflow. *)
Lemma below_big x : x <= 2 ^ 200 * one -> x <= big.
Proof.
  intros Hx. rewrite big_one. pose proof one_pos.
  assert (2 ^ 200 <= 2 ^ 1023) by (apply Z.pow_le_mono_r; lia). nia.
Qed.

(** A faithful rounding stays below any power of two above the exact value. *)
Lemma rounds_le_pow a b r k : rounds a b r -> 0 <= k <= 200 -> a <= 2 ^ k * one * b ->
  sval r <= 2 ^ k * one.
Proof.
  intros [_ Hr] Hk Ha. destruct (fin_scaled 1 k) as (f & Hf & Hs); [lia|lia|].
  rewrite Z.mul_1_l, Z.pow_add_r in Hs by lia. fold one in Hs. rewrite <- Hs.
  apply (proj2 (Hr f Hf)). now rewrite Hs.
Qed.

Lemma rounds_le_int a b r z : rounds a b r -> Z.abs z <= 2 ^ 53 -> a <= z * one * b ->
  sval r <= z * one.
Proof.
  intros [_ Hr] Hz Ha. destruct (int_double z Hz) as (f & Hf & Hs). rewrite <- Hs.
  apply (proj2 (Hr f Hf)). now rewrite Hs.
Qed.

Lemma rounds_ge_int a b r z : rounds a b r -> Z.abs z <= 2 ^ 53 -> z * one * b <= a ->
  z * one <= sval r.
Proof.
  intros [_ Hr] Hz Ha. destruct (int_double z Hz) as (f & Hf & Hs). rewrite <- Hs.
  apply (proj1 (Hr f Hf)). now rewrite Hs.
Qed.

Lemma rounds_le_double a b r f : rounds a b r -> fin f -> a <= sval f * b -> sval r <= sval f.
Proof. intros [_ Hr] Hf. apply (Hr f Hf). Qed.

Lemma rounds_ge_double a b r f : rounds a b r -> fin f -> sval f * b <= a -> sval f <= sval r.
Proof. intros [_ Hr] Hf. apply (Hr f Hf). Qed.

(** Taking an integer away from a double that is at least as large is exact:
    the two share the finer of their grids. *)
Lemma fsub_int_exact x z : fin x -> 0 <= z -> z * one <= sval x -> sval x <= 2 ^ 53 * one ->
  fin (fsub x (of_Z z)) /\ sval (fsub x (of_Z z)) = sval x - z * one.
Proof.
  intros Hx Hz Hle Hub. pose proof one_pos as Hone.
  assert (Hz53 : z <= 2 ^ 53) by nia.
  destruct (of_Z_int z) as [Hzf Hzs]; [lia|].
  assert (Hbig : Z.abs (sval x - sval (of_Z z)) <= big).
  { rewrite Hzs. apply Z.le_trans with (2 ^ 53 * one); [nia|]. apply below_big. lia. }
  destruct (fsub_rounds x (of_Z z) Hx Hzf Hbig) as [Hr _].
  split; [apply Hr|]. rewrite Hzs in Hr.
  enough (exists f, fin f /\ sval f = sval x - z * one) as (f & Hf & Hs).
  { rewrite (rounds_exact _ _ _ f Hr); [assumption|lia|assumption|lia]. }
  destruct (fin_cases x Hx) as [[s ->]|(s & m & e & -> & He & Hm & _)].
  - simpl in *. assert (z = 0) as -> by nia. exists (S754_zero false). split; [reflexivity|]. simpl. lia.
  - destruct s; [pose proof (sval_neg_nonpos m e ltac:(lia)); assert (z = 0) as -> by nia;
                 exists (S754_finite true m e); split; [assumption|lia]|].
    rewrite sval_pos_eq in *. destruct (Z.le_gt_cases 0 e) as [Hpos|Hneg].
    + replace (Zpos m * 2 ^ (e + 1074)) with (Zpos m * 2 ^ e * one) in *
        by (unfold one; rewrite <- Z.mul_assoc, <- Z.pow_add_r by lia; reflexivity).
      destruct (int_double (Zpos m * 2 ^ e - z)) as (f & Hf & Hs); [nia|].
      exists f. split; [assumption|]. lia.
    + assert (Hw : one = 2 ^ (- e) * 2 ^ (e + 1074))
        by (unfold one; rewrite <- Z.pow_add_r by lia; f_equal; lia).
      pose proof (pow_pos (e + 1074) ltac:(lia)). pose proof (pow_pos (- e) ltac:(lia)).
      destruct (fin_scaled (Zpos m - z * 2 ^ (- e)) e) as (f & Hf & Hs); [nia|lia|].
      exists f. split; [assumption|]. rewrite Hs, Hw. ring.
Qed.

(** A double below a positive integer stays away from it. *)
Lemma double_gap x z : fin x -> 0 < z -> sval x < z * one -> 2 ^ 31 <= z * one - sval x.
Proof.
  intros Hx Hz Hlt. assert (Hone : 2 ^ 100 <= one) by (apply Z.pow_le_mono_r; lia).
  assert (Hzo : one <= z * one) by nia.
  destruct (fin_cases x Hx) as [[s ->]|(s & m & e & -> & He & Hm & _)]; [simpl; lia|].
  destruct s; [pose proof (sval_neg_nonpos m e ltac:(lia)); lia|].
  rewrite sval_pos_eq in *.
  destruct (Z.le_gt_cases 0 e) as [Hpos|Hneg].
  { replace (Zpos m * 2 ^ (e + 1074)) with (Zpos m * 2 ^ e * one) in *
      by (unfold one; rewrite <- Z.mul_assoc, <- Z.pow_add_r by lia; reflexivity).
    apply Z.mul_lt_mono_pos_r in Hlt; [|lia].
    assert (1 * one <= (z - Zpos m * 2 ^ e) * one) by (apply Z.mul_le_mono_nonneg_r; lia). lia. }
  destruct (Z.le_gt_cases (-1043) e) as [Hbig|Hsmall].
  - assert (Hp : 2 ^ 31 <= 2 ^ (e + 1074)) by (apply Z.pow_le_mono_r; lia).
    assert (Hw : z * one = z * 2 ^ (- e) * 2 ^ (e + 1074))
      by (unfold one; rewrite <- Z.mul_assoc, <- Z.pow_add_r by lia; repeat f_equal; lia).
    rewrite Hw in *. set (u := 2 ^ (e + 1074)) in *. apply Z.mul_lt_mono_pos_r in Hlt; [|lia].
    assert (1 * u <= (z * 2 ^ (- e) - Zpos m) * u) by (apply Z.mul_le_mono_nonneg_r; lia). lia.
  - assert (2 ^ (e + 1074) <= 2 ^ 31) by (apply Z.pow_le_mono_r; lia).
    assert (Zpos m * 2 ^ (e + 1074) <= 2 ^ 53 * 2 ^ 31) by (apply Z.mul_le_mono_nonneg; lia). nia.
Qed.
