(* ===== verification/GoStrings.v ===== *)
(** Go strings: byte sequences with the operations of [strings], [strconv]
    and [encoding/hex] that the program calls.

    A string is a [string] of bytes.  [TrimSpace] strips the UTF-8 encodings
    of every Unicode white-space character; [ToLower] maps ASCII letters on
    ASCII strings and defers to the Unicode tables (the class [GoText])
    otherwise, as Go does. *)

From stdpp Require Import base strings list pretty.
From Stdlib Require Import ZArith Lia Ascii String.
From S2P Require Import Prelude.

(** What the model takes from the Unicode tables of Go's library: lower case
    of a string that is not ASCII, and the quoted form of the [%q] verb. *)
Class GoText := {
  unicode_lower : string -> string;
  quote : string -> string
}.

Definition byte_of (n : nat) : ascii := ascii_of_nat n.
Definition bytes (l : list nat) : string := string_of_list_ascii (map byte_of l).
Definition explode : string -> list ascii := list_ascii_of_string.
Definition implode : list ascii -> string := string_of_list_ascii.

(** [len(s)] *)
Definition len (s : string) : Z := Z.of_nat (String.length s).

(** [strings.HasPrefix], [strings.HasSuffix], [strings.TrimSuffix],
    [strings.CutPrefix] *)
Definition HasPrefix (s p : string) : bool := String.prefix p s.

Definition HasSuffix (s q : string) : bool :=
  (String.length q <=? String.length s)%nat &&
  String.eqb (substring (String.length s - String.length q) (String.length q) s) q.

Definition TrimSuffix (s q : string) : string :=
  if HasSuffix s q then substring 0 (String.length s - String.length q) s else s.

Definition CutPrefix (s p : string) : string * bool :=
  if HasPrefix s p
  then (substring (String.length p) (String.length s - String.length p) s, true)
  else (s, false).

(** The UTF-8 encodings of the characters [unicode.IsSpace] accepts. *)
Definition space_encodings : list (list ascii) :=
  map (map byte_of)
    ([[9]; [10]; [11]; [12]; [13]; [32]; [194; 133]; [194; 160]; [225; 154; 128]] ++
     map (fun n => [226; 128; 128 + n]) (seq 0 11) ++
     [[226; 128; 168]; [226; 128; 169]; [226; 128; 175]; [226; 129; 159]; [227; 128; 128]])%nat.

Fixpoint strip_prefix (p l : list ascii) : option (list ascii) :=
  match p, l with
  | [], _ => Some l
  | a :: p', b :: l' => if Ascii.eqb a b then strip_prefix p' l' else None
  | _ :: _, [] => None
  end.

(** Remove one leading occurrence of an element of [ws]. *)
Fixpoint strip_one (ws : list (list ascii)) (l : list ascii) : option (list ascii) :=
  match ws with
  | [] => None
  | w :: ws' => match strip_prefix w l with Some l' => Some l' | None => strip_one ws' l end
  end.

(** Every removal shortens the text, so its length bounds the rounds. *)
Fixpoint strip_all (fuel : nat) (ws : list (list ascii)) (l : list ascii) : list ascii :=
  match fuel with
  | O => l
  | S fuel' => match strip_one ws l with
               | Some l' => strip_all fuel' ws l'
               | None => l
               end
  end.

Definition trim_left (l : list ascii) : list ascii :=
  strip_all (length l) space_encodings l.
Definition trim_right (l : list ascii) : list ascii :=
  rev (strip_all (length l) (map (@rev ascii) space_encodings) (rev l)).

(** [strings.TrimSpace] *)
Definition TrimSpace (s : string) : string := implode (trim_right (trim_left (explode s))).

Definition is_ascii_byte (c : ascii) : bool := (nat_of_ascii c <? 128)%nat.
Definition lower_byte (c : ascii) : ascii :=
  let n := nat_of_ascii c in
  if ((65 <=? n) && (n <=? 90))%nat then ascii_of_nat (n + 32) else c.

(** [strings.ToLower] *)
Definition ToLower `{GoText} (s : string) : string :=
  if forallb is_ascii_byte (explode s) then implode (map lower_byte (explode s))
  else unicode_lower s.

(** [strings.Split(s, sep)] for a separator of one byte; [part] is the text
    since the last one. *)
Fixpoint split_on (sep : ascii) (l part : list ascii) : list string :=
  match l with
  | [] => [implode part]
  | c :: l' => if Ascii.eqb c sep then implode part :: split_on sep l' [] else split_on sep l' (part ++ [c])
  end.

(** [strconv.FormatInt(v, 10)] *)
Definition FormatInt (z : Z) : string := pretty z.

(** [encoding/hex.EncodeToString] on a list of byte values *)
Definition hex_digit (n : Z) : ascii :=
  if (n <? 10)%Z then ascii_of_nat (Z.to_nat (48 + n)) else ascii_of_nat (Z.to_nat (87 + n)).
Definition hex_encode (l : list Z) : string :=
  implode (flat_map (fun b => [hex_digit (b / 16); hex_digit (b mod 16)]) l).

(** ** Strings and lists of bytes *)

Lemma explode_implode l : explode (implode l) = l.
Proof. apply list_ascii_of_string_of_list_ascii. Qed.

Lemma implode_explode s : implode (explode s) = s.
Proof. apply string_of_list_ascii_of_string. Qed.

Lemma explode_app s t : explode (s +:+ t) = explode s ++ explode t.
Proof. induction s as [|c s IH]; [done|]. simpl. by rewrite <- IH. Qed.

Lemma implode_app l k : implode (l ++ k) = implode l +:+ implode k.
Proof. induction l as [|c l IH]; [done|]. simpl. by rewrite IH. Qed.

Lemma explode_inj s t : explode s = explode t -> s = t.
Proof. intros E. by rewrite <- (implode_explode s), E, implode_explode. Qed.

Lemma length_explode s : length (explode s) = String.length s.
Proof. induction s; simpl; congruence. Qed.

Lemma string_length_app s t : String.length (s +:+ t) = (String.length s + String.length t)%nat.
Proof. by rewrite <- !length_explode, explode_app, length_app. Qed.

Lemma string_app_assoc (s t u : string) : s +:+ t +:+ u = (s +:+ t) +:+ u.
Proof. apply explode_inj. by rewrite !explode_app, app_assoc. Qed.

Lemma string_app_nil_r (s : string) : s +:+ "" = s.
Proof. apply explode_inj. by rewrite explode_app, app_nil_r. Qed.

Lemma string_app_inj_l (s t u : string) : s +:+ t = s +:+ u -> t = u.
Proof.
  intros E%(f_equal explode). rewrite !explode_app in E. apply app_inv_head in E. by apply explode_inj.
Qed.

Lemma string_app_inj_len (s t u v : string) :
  String.length s = String.length t -> s +:+ u = t +:+ v -> s = t /\ u = v.
Proof.
  intros Hl E%(f_equal explode). rewrite !explode_app in E.
  apply app_inj_1 in E as [E1 E2]; [|by rewrite !length_explode].
  split; by apply explode_inj.
Qed.

Lemma substring_app_l s t : substring 0 (String.length s) (s +:+ t) = s.
Proof. induction s as [|c s IH]; simpl; [by destruct t|]. by rewrite IH. Qed.

Lemma substring_all s : substring 0 (String.length s) s = s.
Proof. induction s as [|c s IH]; simpl; congruence. Qed.

Lemma substring_app_r s t : substring (String.length s) (String.length t) (s +:+ t) = t.
Proof. induction s as [|c s IH]; simpl; [apply substring_all|done]. Qed.

Lemma substring_split n s : (n <= String.length s)%nat ->
  s = substring 0 n s +:+ substring n (String.length s - n) s.
Proof.
  revert s. induction n as [|n IH]; intros s Hn.
  - rewrite Nat.sub_0_r, substring_all. by destruct s.
  - destruct s as [|c s]; simpl in *; [lia|]. apply (f_equal (String c)), IH. lia.
Qed.

Lemma string_app_cons c s t : String c s +:+ t = String c (s +:+ t).
Proof. done. Qed.

Lemma HasPrefix_spec s p : HasPrefix s p = true <-> exists t, s = p +:+ t.
Proof.
  unfold HasPrefix. revert s. induction p as [|c p IH]; intros s.
  - split; [by exists s|by destruct s].
  - destruct s as [|c' s]; simpl; [split; [done|by intros [t Ht]]|].
    destruct (ascii_dec c c') as [->|Hc].
    + rewrite IH. split; intros [t Ht]; exists t; rewrite string_app_cons in *; congruence.
    + split; [done|]. intros [t Ht]. by injection Ht.
Qed.

Lemma HasSuffix_spec s q : HasSuffix s q = true <-> exists t, s = t +:+ q.
Proof.
  unfold HasSuffix. rewrite andb_true_iff, Nat.leb_le, String.eqb_eq. split.
  - intros [Hl Hq]. exists (substring 0 (String.length s - String.length q) s).
    rewrite <- Hq at 2. pose proof (substring_split (String.length s - String.length q) s) as Hs.
    replace (String.length s - (String.length s - String.length q))%nat
      with (String.length q) in Hs by lia. apply Hs. lia.
  - intros [t ->]. rewrite string_length_app.
    replace (String.length t + String.length q - String.length q)%nat with (String.length t) by lia.
    split; [lia|apply substring_app_r].
Qed.

Lemma TrimSuffix_app t q : TrimSuffix (t +:+ q) q = t.
Proof.
  unfold TrimSuffix. rewrite (proj2 (HasSuffix_spec (t +:+ q) q)) by eauto.
  rewrite string_length_app.
  replace (String.length t + String.length q - String.length q)%nat with (String.length t) by lia.
  apply substring_app_l.
Qed.

Lemma CutPrefix_app p t : CutPrefix (p +:+ t) p = (t, true).
Proof.
  unfold CutPrefix. rewrite (proj2 (HasPrefix_spec (p +:+ t) p)) by eauto.
  rewrite string_length_app.
  replace (String.length p + String.length t - String.length p)%nat with (String.length t) by lia.
  by rewrite substring_app_r.
Qed.

Lemma CutPrefix_cases s p :
  (exists t, s = p +:+ t /\ CutPrefix s p = (t, true)) \/
  (CutPrefix s p = (s, false) /\ forall t, s <> p +:+ t).
Proof.
  destruct (HasPrefix s p) eqn:Hp.
  - pose proof (proj1 (HasPrefix_spec s p) Hp) as [t ->]. left. exists t. by rewrite CutPrefix_app.
  - right. unfold CutPrefix. rewrite Hp. split; [done|]. intros t ->.
    by rewrite (proj2 (HasPrefix_spec _ _)) in Hp by eauto.
Qed.

(** Text without the separator stays in one part. *)
Lemma split_on_part sep s l part : sep ∉ explode s ->
  split_on sep (explode s ++ l) part = split_on sep l (part ++ explode s).
Proof.
  revert part. induction s as [|c s IH]; intros part Hs; [by rewrite app_nil_r|].
  change (explode (String c s)) with (c :: explode s) in *. apply not_elem_of_cons in Hs as [Hc Hs].
  simpl. destruct (Ascii.eqb_spec c sep) as [->|_]; [done|]. rewrite IH by done. by rewrite <- app_assoc.
Qed.

(** [strings.Split] takes [strings.Join] apart. *)
Lemma split_on_concat sep (l : list string) : l <> [] -> Forall (fun s => sep ∉ explode s) l ->
  split_on sep (explode (String.concat (String sep EmptyString) l)) [] = l.
Proof.
  induction l as [|s l IH]; intros Hl Hs; [done|]. apply Forall_cons in Hs as [Hs Hrest].
  destruct l as [|s' l].
  - simpl. rewrite <- (app_nil_r (explode s)), split_on_part by done. simpl. by rewrite implode_explode.
  - change (String.concat (String sep EmptyString) (s :: s' :: l)) with
      (s +:+ (String sep EmptyString +:+ String.concat (String sep EmptyString) (s' :: l))).
    rewrite explode_app, split_on_part by done. rewrite explode_app. simpl app.
    change (explode (String sep EmptyString)) with [sep]. cbn [split_on app].
    rewrite Ascii.eqb_refl, implode_explode. f_equal. by apply IH.
Qed.

(** ** Trimming and lower case of plain text *)

(** Bytes that are not white space and start no encoding of one. *)
Definition printable (c : ascii) : bool := (33 <=? nat_of_ascii c)%nat && (nat_of_ascii c <=? 126)%nat.

Lemma strip_one_printable c l : printable c = true ->
  strip_one space_encodings (c :: l) = None /\
  strip_one (map (@rev ascii) space_encodings) (c :: l) = None.
Proof. destruct c as [[] [] [] [] [] [] [] []]; vm_compute; done. Qed.

Lemma trim_left_printable l : forallb printable l = true -> trim_left l = l.
Proof.
  unfold trim_left. destruct l as [|c l]; [done|]. simpl length. cbn [strip_all forallb].
  intros [Hc _]%andb_prop. by rewrite (proj1 (strip_one_printable c l Hc)).
Qed.

Lemma forallb_rev {A} (f : A -> bool) l : forallb f (rev l) = forallb f l.
Proof.
  induction l as [|x l IH]; [done|]. simpl. rewrite forallb_app, IH. simpl.
  by rewrite andb_true_r, andb_comm.
Qed.

Lemma trim_right_printable l : forallb printable l = true -> trim_right l = l.
Proof.
  unfold trim_right. rewrite <- forallb_rev, <- (length_rev l), <- (rev_involutive l) at 1.
  rewrite rev_involutive. intros Hp. rewrite <- (rev_involutive l) at 3. f_equal.
  destruct (rev l) as [|c k]; [done|]. simpl length. cbn [strip_all].
  cbn [forallb] in Hp. apply andb_prop in Hp as [Hc _]. by rewrite (proj2 (strip_one_printable c k Hc)).
Qed.

Lemma TrimSpace_printable s : forallb printable (explode s) = true -> TrimSpace s = s.
Proof.
  intros Hp. unfold TrimSpace. rewrite trim_left_printable by done.
  rewrite trim_right_printable by done. apply implode_explode.
Qed.

(** ASCII text without capital letters *)
Definition lower_ascii (c : ascii) : bool := is_ascii_byte c && Ascii.eqb (lower_byte c) c.

Lemma ToLower_lower `{GoText} s : forallb lower_ascii (explode s) = true -> ToLower s = s.
Proof.
  intros Hl. unfold ToLower. rewrite forallb_forall in Hl.
  replace (forallb is_ascii_byte (explode s)) with true.
  - rewrite <- (implode_explode s) at 2. f_equal. rewrite <- (map_id (explode s)) at 2.
    apply map_ext_in. intros c Hc. apply Hl, andb_prop in Hc as [_ Hc%Ascii.eqb_eq]. done.
  - symmetry. apply forallb_forall. intros c Hc. by apply Hl, andb_prop in Hc as [? _].
Qed.

(** A concrete reading of the tables: other letters are left alone, quoting
    adds the quotes. *)
Definition plain_text : GoText :=
  {| unicode_lower := fun s => s;
     quote := fun s => String (ascii_of_nat 34) s +:+ String (ascii_of_nat 34) EmptyString |}.
