(* ===== verification/Sha256.v ===== *)
(** SHA-256 ([crypto/sha256]), on lists of byte values.

    The round constants are computed from their definition (fractional parts
    of cube and square roots of the first primes) rather than listed.  The
    program uses the digest for key names and for API key lookup, always
    through [hex.EncodeToString]. *)

From stdpp Require Import base strings list.
From Stdlib Require Import ZArith Lia Ascii.
From S2P Require Import Prelude GoStrings.

Local Open Scope Z_scope.

(** ** 32-bit words *)

Definition mask32 : Z := 2 ^ 32 - 1.
Definition add32 (x y : Z) : Z := (x + y) mod 2 ^ 32.
Definition not32 (x : Z) : Z := Z.lxor x mask32.
Definition rotr (n x : Z) : Z :=
  Z.lor (Z.shiftr x n) (Z.land (Z.shiftl x (32 - n)) mask32).
Definition xor3 (x y z : Z) : Z := Z.lxor x (Z.lxor y z).

(** ** Constants *)

(** The integer cube root below [2^41], one bit at a time. *)
Definition icbrt (n : Z) : Z :=
  fold_left (fun r k => let r' := r + 2 ^ Z.of_nat k in if r' ^ 3 <=? n then r' else r)
    (rev (seq 0 41)) 0.

Definition is_prime (n : nat) : bool :=
  forallb (fun d => negb (Nat.eqb (n mod d) 0)) (seq 2 (n - 2)).
Definition primes : list Z := map Z.of_nat (List.filter is_prime (seq 2 310)).

Definition round_constants : list Z :=
  Eval vm_compute in map (fun p => icbrt (p * 2 ^ 96) mod 2 ^ 32) (take 64 primes).
Definition initial_state : list Z :=
  Eval vm_compute in map (fun p => Z.sqrt (p * 2 ^ 64) mod 2 ^ 32) (take 8 primes).

(** ** Padding and parsing *)

Fixpoint big_endian (n : nat) (x : Z) : list Z :=
  match n with
  | O => []
  | S n' => (x / 256 ^ Z.of_nat n') mod 256 :: big_endian n' x
  end.

Definition pad (msg : list Z) : list Z :=
  let l := Z.of_nat (length msg) in
  msg ++ [128] ++ repeat 0 (Z.to_nat ((55 - l) mod 64)) ++ big_endian 8 (8 * l).

Fixpoint words (l : list Z) : list Z :=
  match l with
  | a :: b :: c :: d :: l' => a * 2 ^ 24 + b * 2 ^ 16 + c * 2 ^ 8 + d :: words l'
  | _ => []
  end.

(** The padded message in blocks of 16 words; the fuel counts words. *)
Fixpoint blocks (fuel : nat) (l : list Z) : list (list Z) :=
  match fuel, l with
  | S fuel', _ :: _ => take 16 l :: blocks fuel' (drop 16 l)
  | _, _ => []
  end.

(** ** Compression *)

(** The next schedule word from a window of the last sixteen. *)
Definition next_word (w : list Z) : Z :=
  let at_ i := nth i w 0 in
  let s0 := xor3 (rotr 7 (at_ 1%nat)) (rotr 18 (at_ 1%nat)) (Z.shiftr (at_ 1%nat) 3) in
  let s1 := xor3 (rotr 17 (at_ 14%nat)) (rotr 19 (at_ 14%nat)) (Z.shiftr (at_ 14%nat) 10) in
  add32 (add32 s1 (at_ 9%nat)) (add32 s0 (at_ 0%nat)).

(** One round on the eight working variables and the schedule window. *)
Definition sha_round (st : list Z * list Z) (k : Z) : list Z * list Z :=
  match st with
  | ([a; b; c; d; e; f; g; h], w) =>
      let ch := Z.lxor (Z.land e f) (Z.land (not32 e) g) in
      let maj := xor3 (Z.land a b) (Z.land a c) (Z.land b c) in
      let big0 := xor3 (rotr 2 a) (rotr 13 a) (rotr 22 a) in
      let big1 := xor3 (rotr 6 e) (rotr 11 e) (rotr 25 e) in
      let t1 := add32 (add32 (add32 h big1) (add32 ch k)) (nth 0 w 0) in
      ([add32 t1 (add32 big0 maj); a; b; c; add32 d t1; e; f; g], drop 1 w ++ [next_word w])
  | _ => st
  end.

Definition compress (state block : list Z) : list Z :=
  zip_with add32 state (fst (fold_left sha_round round_constants (state, block))).

(** [sha256.Sum256] *)
Definition Sum256 (msg : list Z) : list Z :=
  let ws := words (pad msg) in
  flat_map (big_endian 4) (fold_left compress (blocks (length ws) ws) initial_state).

Definition bytes_of_string (s : string) : list Z :=
  map (fun c => Z.of_nat (nat_of_ascii c)) (explode s).

(** [hex.EncodeToString(sum[:n])] for [sum := sha256.Sum256([]byte(s))] *)
Definition sha256_hex (n : nat) (s : string) : string :=
  hex_encode (take n (Sum256 (bytes_of_string s))).

(** ** Shape of the digest *)

Lemma big_endian_length n x : length (big_endian n x) = n.
Proof. induction n; simpl; congruence. Qed.

Lemma big_endian_byte n x : Forall (fun b => 0 <= b < 256) (big_endian n x).
Proof. induction n; simpl; constructor; [apply Z.mod_pos_bound; lia|done]. Qed.

Lemma compress_length state block :
  length state = 8%nat -> length (compress state block) = 8%nat.
Proof.
  intros Hs. unfold compress. rewrite length_zip_with.
  enough (length (fst (fold_left sha_round round_constants (state, block))) = 8%nat) by lia.
  generalize round_constants. intros ks.
  revert state block Hs. induction ks as [|k ks IH]; intros state block Hs; [done|].
  do 8 (destruct state as [|? state]; [done|]). destruct state; [|done]. by apply IH.
Qed.

Lemma Sum256_length msg : length (Sum256 msg) = 32%nat.
Proof.
  unfold Sum256. set (bs := blocks _ _). clearbody bs.
  assert (Hs : length (fold_left compress bs initial_state) = 8%nat).
  { generalize (eq_refl : length initial_state = 8%nat). generalize initial_state.
    induction bs as [|b bs IH]; intros st Hst; [done|]. apply IH. by apply compress_length. }
  set (st := fold_left compress bs initial_state) in *. clearbody st.
  do 8 (destruct st as [|? st]; [done|]). by destruct st.
Qed.

Lemma Sum256_bytes msg : Forall (fun b => 0 <= b < 256) (Sum256 msg).
Proof.
  unfold Sum256. generalize (fold_left compress (blocks (length (words (pad msg))) (words (pad msg))) initial_state).
  intros st. induction st as [|x st IH]; cbn [flat_map]; [constructor|].
  apply Forall_app. split; [apply big_endian_byte|done].
Qed.

(** ** Shape of the hexadecimal text *)

Definition is_hex_char (c : ascii) : bool :=
  let n := nat_of_ascii c in ((48 <=? n) && (n <=? 57) || (97 <=? n) && (n <=? 102))%nat.

Lemma hex_digit_char n : 0 <= n < 16 -> is_hex_char (hex_digit n) = true.
Proof.
  intros Hn. assert (Hin : In n (map Z.of_nat (seq 0 16))).
  { apply in_map_iff. exists (Z.to_nat n). rewrite in_seq. lia. }
  revert n Hin Hn. apply (proj1 (List.Forall_forall (fun n => 0 <= n < 16 -> is_hex_char (hex_digit n) = true) _)).
  by repeat constructor.
Qed.

Lemma hex_encode_length l : String.length (hex_encode l) = (2 * length l)%nat.
Proof.
  unfold hex_encode. rewrite <- length_explode, explode_implode.
  induction l as [|b l IH]; simpl in *; lia.
Qed.

Lemma hex_encode_chars l : Forall (fun b => 0 <= b < 256) l ->
  forallb is_hex_char (explode (hex_encode l)) = true.
Proof.
  intros Hl. unfold hex_encode. rewrite explode_implode.
  induction Hl as [|b l Hb _ IH]; [done|]. cbn [flat_map app forallb].
  rewrite !hex_digit_char; [done| |].
  - apply Z.mod_pos_bound. lia.
  - split; [apply Z.div_pos; lia|apply Z.div_lt_upper_bound; lia].
Qed.

Lemma sha256_hex_length n s : (n <= 32)%nat -> String.length (sha256_hex n s) = (2 * n)%nat.
Proof. intros Hn. unfold sha256_hex. by rewrite hex_encode_length, length_take, Sum256_length, Nat.min_l. Qed.

Lemma sha256_hex_chars n s : forallb is_hex_char (explode (sha256_hex n s)) = true.
Proof. apply hex_encode_chars, Forall_take, Sum256_bytes. Qed.
