(* ===== verification/Domain.v ===== *)
(** The domain layer: error values ([internal/domain/errors]) and entities
    ([internal/domain/entity]).

    Error values are trees of wrapped errors, so [errors.Is] is the search
    through the chain that Go performs.  Entity statuses and algorithm names
    are Go strings: the database may hold any text. *)

From stdpp Require Import base strings list pretty.
From Stdlib Require Import ZArith Lia.
From S2P Require Import Prelude Float64 GoStrings.

Local Open Scope Z_scope.

(** ** Errors *)

(** The sentinel values of [errors.go]. *)
Inductive sentinel : Set :=
  | ErrTenantNotFound
  | ErrTenantSuspended
  | ErrAPIKeyNotFound
  | ErrAPIKeyRevoked
  | ErrInvalidRule
  | ErrRateLimitBackend
  | ErrProjectExists
  | ErrInvalidInput.

#[export] Instance sentinel_eq_dec : EqDecision sentinel.
Proof. solve_decision. Defined.

Definition sentinel_text (e : sentinel) : string :=
  match e with
  | ErrTenantNotFound => "tenant not found"
  | ErrTenantSuspended => "tenant suspended"
  | ErrAPIKeyNotFound => "api key not found"
  | ErrAPIKeyRevoked => "api key revoked"
  | ErrInvalidRule => "invalid rule"
  | ErrRateLimitBackend => "rate limit backend unavailable"
  | ErrProjectExists => "project already exists"
  | ErrInvalidInput => "invalid input"
  end.

(** An error value: a sentinel, a plain text, or the result of [fmt.Errorf]
    with a [%w] verb (its text and the wrapped error). *)
Inductive goerror : Type :=
  | Sentinel (e : sentinel)
  | Text (msg : string)
  | Wrap (msg : string) (inner : goerror).

(** [err.Error()] *)
Definition Error (e : goerror) : string :=
  match e with
  | Sentinel s => sentinel_text s
  | Text m => m
  | Wrap m _ => m
  end.

(** [errors.Is(err, target)] for a sentinel target *)
Fixpoint Is (e : goerror) (target : sentinel) : bool :=
  match e with
  | Sentinel s => bool_decide (s = target)
  | Text _ => false
  | Wrap _ inner => Is inner target
  end.

(** [fmt.Errorf("op: %w", err)] and [fmt.Errorf("%w: detail", err)] *)
Definition wrap_op (op : string) (e : goerror) : goerror :=
  Wrap (op +:+ ": " +:+ Error e) e.
Definition wrap_detail (e : goerror) (detail : string) : goerror :=
  Wrap (Error e +:+ ": " +:+ detail) e.

(** ** Entities *)

(** A UUID is its 128-bit value; [uuid.Nil] is the zero value. *)
Abbreviation uuid := N (only parsing).
Definition uuid_Nil : uuid := 0%N.

Abbreviation Algorithm := string (only parsing).
Definition AlgorithmTokenBucket : Algorithm := "token_bucket".
Definition AlgorithmSlidingWindow : Algorithm := "sliding_window".

Definition Algorithm_Valid (a : Algorithm) : bool :=
  String.eqb a AlgorithmTokenBucket || String.eqb a AlgorithmSlidingWindow.

Definition ParseAlgorithm `{GoText} (value : string) : result goerror Algorithm :=
  if String.eqb value AlgorithmTokenBucket || String.eqb value AlgorithmSlidingWindow
  then Ok value
  else Err (Text ("unknown algorithm " +:+ quote value)).

Record Rule := {
  Rule_ID : uuid;
  Rule_TenantID : uuid;
  RoutePattern : string;
  Rule_Algorithm : Algorithm;
  Enabled : bool;
  LimitCount : Z;
  WindowSeconds : Z;
  BucketCapacity : Z;
  RefillRate : float
}.

(** [Rule.Validate]: [Ok tt] is the nil error. *)
Definition Validate `{GoText} (r : Rule) : result goerror unit :=
  if bool_decide (Rule_TenantID r = uuid_Nil) then Err (Text "tenant id is required")
  else if String.eqb (TrimSpace (RoutePattern r)) "" then Err (Text "route pattern is required")
  else if negb (Algorithm_Valid (Rule_Algorithm r))
  then Err (Text ("invalid algorithm " +:+ quote (Rule_Algorithm r)))
  else if String.eqb (Rule_Algorithm r) AlgorithmSlidingWindow then
    if LimitCount r <=? 0 then Err (Text "limit count must be positive")
    else if WindowSeconds r <=? 0 then Err (Text "window seconds must be positive")
    else Ok tt
  else if String.eqb (Rule_Algorithm r) AlgorithmTokenBucket then
    if BucketCapacity r <=? 0 then Err (Text "bucket capacity must be positive")
    else if fleb (RefillRate r) (of_Z 0) then Err (Text "refill rate must be positive")
    else Ok tt
  else Ok tt.

(** [Rule.Matches] *)
Definition Matches (r : Rule) (route : string) : bool :=
  let pattern := RoutePattern r in
  if String.eqb pattern "*" then true
  else if HasSuffix pattern "*" then
    let prefix := TrimSuffix pattern "*" in
    HasPrefix route prefix
  else String.eqb route pattern.

(** Precedence classes, in the order of their [iota] values. *)
Inductive MatchKind : Set := MatchNone | MatchDefault | MatchPrefix | MatchExact.

#[export] Instance MatchKind_eq_dec : EqDecision MatchKind.
Proof. solve_decision. Defined.

(** [Rule.MatchKindFor] *)
Definition MatchKindFor (r : Rule) (route : string) : MatchKind :=
  if negb (Matches r route) then MatchNone
  else if String.eqb (RoutePattern r) "*" then MatchDefault
  else if HasSuffix (RoutePattern r) "*" then MatchPrefix
  else MatchExact.

(** [Rule.Specificity]; the Go [int] sum cannot overflow, a string being far
    shorter than [2^63 - 1000] bytes. *)
Definition Specificity (r : Rule) (route : string) : Z :=
  match MatchKindFor r route with
  | MatchExact => 1000 + len (RoutePattern r)
  | MatchPrefix => len (TrimSuffix (RoutePattern r) "*")
  | MatchDefault => 1
  | MatchNone => 0
  end.

(** [Rule.Limit] *)
Definition Limit (r : Rule) : Z :=
  if String.eqb (Rule_Algorithm r) AlgorithmTokenBucket then BucketCapacity r else LimitCount r.

Record RateLimitDecision := {
  Allowed : bool;
  Decision_Limit : Z;
  Remaining : Z;
  ResetAt : Z;
  RetryAfter : Z;
  Decision_Algorithm : Algorithm
}.

(** The zero value, and the decision when no rule applies. *)
Definition zero_decision : RateLimitDecision :=
  {| Allowed := false; Decision_Limit := 0; Remaining := 0; ResetAt := 0; RetryAfter := 0;
     Decision_Algorithm := "" |}.
Definition allow_decision : RateLimitDecision :=
  {| Allowed := true; Decision_Limit := 0; Remaining := 0; ResetAt := 0; RetryAfter := 0;
     Decision_Algorithm := "" |}.

Record RateLimitKey := { Key_TenantID : uuid; Key_Route : string; Key_Subject : string }.

(** API keys *)
Definition APIKeyStatusActive : string := "active".
Definition APIKeyStatusRevoked : string := "revoked".
Definition RoleCheck : string := "check".
Definition RoleAdmin : string := "admin".

Record APIKey := {
  APIKey_ID : uuid;
  APIKey_TenantID : uuid;
  KeyPrefix : string;
  APIKey_Status : string;
  APIKey_Role : string
}.

Definition CanManageProject (k : APIKey) : bool := String.eqb (APIKey_Role k) RoleAdmin.
Definition CanCheck (k : APIKey) : bool := String.eqb (APIKey_Role k) RoleCheck.
Definition APIKey_IsActive (k : APIKey) : bool := String.eqb (APIKey_Status k) APIKeyStatusActive.

(** Tenants *)
Definition TenantStatusActive : string := "active".
Definition TenantStatusSuspended : string := "suspended".

Record Tenant := { Tenant_ID : uuid; Tenant_Name : string; Tenant_Status : string }.

Definition Tenant_IsActive (t : Tenant) : bool := String.eqb (Tenant_Status t) TenantStatusActive.

(** ** Theorems *)

(** Which requests a pattern applies to, by the shape of the pattern. *)
Inductive pattern_matches : string -> string -> MatchKind -> Prop :=
  | pm_default route : pattern_matches "*" route MatchDefault
  | pm_prefix p rest : p <> "" -> pattern_matches (p +:+ "*") (p +:+ rest) MatchPrefix
  | pm_exact p : HasSuffix p "*" = false -> pattern_matches p p MatchExact.

Lemma eqb_string_true s t : String.eqb s t = true <-> s = t.
Proof. apply String.eqb_eq. Qed.

Lemma star_suffix_inv p : HasSuffix p "*" = true -> p <> "*" ->
  exists q, q <> "" /\ p = q +:+ "*".
Proof.
  intros [q ->]%HasSuffix_spec Hne. exists q. split; [|done]. intros ->. by apply Hne.
Qed.

Lemma Error_wrap_is e d s : Is (wrap_detail e d) s = Is e s.
Proof. done. Qed.

Lemma Specificity_nonneg r route : 0 <= Specificity r route.
Proof. unfold Specificity, len. destruct (MatchKindFor r route); lia. Qed.

Lemma MatchKindFor_none r route : MatchKindFor r route = MatchNone <-> Matches r route = false.
Proof.
  unfold MatchKindFor. destruct (Matches r route); simpl; [|done].
  by destruct (String.eqb (RoutePattern r) "*"), (HasSuffix (RoutePattern r) "*").
Qed.

Lemma MatchKindFor_spec r route k : k <> MatchNone ->
  MatchKindFor r route = k <-> pattern_matches (RoutePattern r) route k.
Proof.
  intros Hk. unfold MatchKindFor, Matches. split.
  - destruct (String.eqb_spec (RoutePattern r) "*") as [->|Hne]; simpl.
    { intros <-. constructor. }
    destruct (HasSuffix (RoutePattern r) "*") eqn:Hs; simpl.
    + destruct (star_suffix_inv _ Hs Hne) as (q & Hq & ->). rewrite TrimSuffix_app.
      destruct (HasPrefix route q) eqn:Hp; simpl; [|intros <-; done].
      intros <-. apply HasPrefix_spec in Hp as [rest ->]. by constructor.
    + destruct (String.eqb_spec route (RoutePattern r)) as [->|]; simpl; [|intros <-; done].
      intros <-. by constructor.
  - intros H. inversion H as [route' Hp|p rest Hp Hpat|p Hp Hpat]; subst.
    + done.
    + destruct (String.eqb_spec (p +:+ "*") "*") as [E|_].
      { exfalso. apply (f_equal String.length) in E. rewrite string_length_app in E.
        destruct p; [done|simpl in E; lia]. }
      rewrite (proj2 (HasSuffix_spec (p +:+ "*") "*")) by eauto. rewrite TrimSuffix_app.
      by rewrite (proj2 (HasPrefix_spec (p +:+ rest) p)) by eauto.
    + destruct (String.eqb_spec (RoutePattern r) "*") as [E|_]; [by rewrite E in Hp|].
      by rewrite Hp, String.eqb_refl.
Qed.

Lemma pattern_matches_fun p route k1 k2 :
  pattern_matches p route k1 -> pattern_matches p route k2 -> k1 = k2.
Proof.
  intros H1 H2.
  set (r := {| Rule_ID := 0%N; Rule_TenantID := 0%N; RoutePattern := p; Rule_Algorithm := "";
               Enabled := true; LimitCount := 0; WindowSeconds := 0; BucketCapacity := 0;
               RefillRate := of_Z 0 |}).
  assert (Hne : forall k, pattern_matches p route k -> k <> MatchNone) by (by destruct 1).
  apply (MatchKindFor_spec r route k1 (Hne _ H1)) in H1.
  apply (MatchKindFor_spec r route k2 (Hne _ H2)) in H2. congruence.
Qed.
