(* ===== verification/Uuid.v ===== *)
(** The text form of UUIDs.  [github.com/google/uuid] is not part of the
    repository: what the program relies on are the laws of [UUIDText], and
    [canonical] is a concrete codec that satisfies them. *)

From stdpp Require Import base strings list.
From Stdlib Require Import ZArith NArith Lia Ascii.
From S2P Require Import Prelude GoStrings Domain.

(** [uuid.UUID.String] writes 36 bytes that [uuid.Parse] reads back. *)
Class UUIDText := {
  uuid_String : uuid -> string;
  uuid_Parse : string -> result string uuid;
  uuid_String_length u : String.length (uuid_String u) = 36%nat;
  uuid_Parse_String u : (u < 2 ^ 128)%N -> uuid_Parse (uuid_String u) = Ok u
}.

Lemma uuid_String_inj `{UUIDText} u v : (u < 2 ^ 128)%N -> (v < 2 ^ 128)%N ->
  uuid_String u = uuid_String v -> u = v.
Proof.
  intros Hu Hv E. apply (f_equal uuid_Parse) in E. rewrite !uuid_Parse_String in E by done.
  by injection E.
Qed.

(** ** A concrete codec: 32 lower-case digits in groups of 8-4-4-4-12 *)

Fixpoint hex_of (n : nat) (u : N) : list Z :=
  match n with
  | O => []
  | S n' => hex_of n' (u / 16)%N ++ [Z.of_N (u mod 16)]
  end.

Definition from_hex (l : list Z) : N := fold_left (fun a d => 16 * a + Z.to_N d)%N l 0%N.

Definition hex_value (c : ascii) : option Z :=
  let n := nat_of_ascii c in
  if ((48 <=? n) && (n <=? 57))%nat then Some (Z.of_nat n - 48)%Z
  else if ((97 <=? n) && (n <=? 102))%nat then Some (Z.of_nat n - 87)%Z
  else None.

Definition is_dash (c : ascii) : bool := Ascii.eqb c "-".

Definition canonical_String (u : uuid) : string :=
  let d := map hex_digit (hex_of 32 u) in
  implode (take 8 d ++ ["-"%char] ++ take 4 (drop 8 d) ++ ["-"%char] ++ take 4 (drop 12 d) ++
           ["-"%char] ++ take 4 (drop 16 d) ++ ["-"%char] ++ drop 20 d).

Definition canonical_Parse (s : string) : result string uuid :=
  if (String.length s =? 36)%nat then
    match mapM hex_value (List.filter (fun c => negb (is_dash c)) (explode s)) with
    | Some l => Ok (from_hex l)
    | None => Err "invalid UUID format"%string
    end
  else Err "invalid UUID length"%string.

Lemma hex_of_length n u : length (hex_of n u) = n.
Proof. revert u. induction n as [|n IH]; intros u; simpl; [done|]. rewrite length_app, IH. simpl. lia. Qed.

Lemma hex_of_range n u : Forall (fun d => 0 <= d < 16)%Z (hex_of n u).
Proof.
  revert u. induction n as [|n IH]; intros u; simpl; [constructor|]. apply Forall_app. split; [done|].
  apply Forall_singleton.
  assert (Hm : (u mod 16 < 16)%N) by (apply N.mod_upper_bound; lia).
  generalize dependent (u mod 16)%N. intros m Hm. lia.
Qed.

Lemma from_hex_of n u : (u < 16 ^ N.of_nat n)%N -> from_hex (hex_of n u) = u.
Proof.
  unfold from_hex. revert u. induction n as [|n IH]; intros u Hu.
  - change (16 ^ N.of_nat 0)%N with 1%N in Hu. simpl. lia.
  - rewrite Nat2N.inj_succ, N.pow_succ_r in Hu by lia. cbn [hex_of]. rewrite fold_left_snoc.
    rewrite IH by (apply N.Div0.div_lt_upper_bound; lia).
    rewrite N2Z.id. symmetry. apply N.Div0.div_mod.
Qed.

Lemma hex_digit_value d : (0 <= d < 16)%Z ->
  hex_value (hex_digit d) = Some d /\ is_dash (hex_digit d) = false.
Proof.
  intros Hd. assert (Hin : d ∈ map Z.of_nat (seq 0 16)).
  { apply list_elem_of_In, in_map_iff. exists (Z.to_nat d). rewrite in_seq. lia. }
  clear Hd. revert d Hin. apply Forall_forall. by repeat constructor.
Qed.

Lemma hex_digits_read l : Forall (fun d => 0 <= d < 16)%Z l ->
  mapM hex_value (map hex_digit l) = Some l /\
  List.filter (fun c => negb (is_dash c)) (map hex_digit l) = map hex_digit l.
Proof.
  induction 1 as [|d l Hd _ [IH1 IH2]]; [done|]. destruct (hex_digit_value d Hd) as [H1 H2].
  simpl. rewrite H1, H2. simpl. by rewrite IH1, IH2.
Qed.

Lemma canonical_length u : String.length (canonical_String u) = 36%nat.
Proof.
  unfold canonical_String. rewrite <- length_explode, explode_implode.
  rewrite !length_app, !length_take, !length_drop, length_map, hex_of_length. done.
Qed.

Lemma filter_keeps {A} (f : A -> bool) (l : list A) : List.filter f l = l -> Forall (fun c => f c = true) l.
Proof.
  intros Hl. apply Forall_forall. intros c Hc. rewrite <- Hl, list_elem_of_In, filter_In in Hc. tauto.
Qed.

Lemma filter_all {A} (f : A -> bool) (l : list A) : Forall (fun c => f c = true) l -> List.filter f l = l.
Proof. induction 1 as [|c l Hc _ IH]; simpl; [done|]. by rewrite Hc, IH. Qed.

(** Dropping the dashes gives the digits back. *)
Lemma undash {A} (f : A -> bool) (x : A) (d : list A) : f x = false -> List.filter f d = d ->
  List.filter f (take 8 d ++ [x] ++ take 4 (drop 8 d) ++ [x] ++ take 4 (drop 12 d) ++
                 [x] ++ take 4 (drop 16 d) ++ [x] ++ drop 20 d) = d.
Proof.
  intros Hx Hd%filter_keeps. rewrite !List.filter_app. simpl. rewrite Hx.
  rewrite !filter_all by (try apply Forall_take; try apply Forall_drop; done). simpl.
  change 20 with (16 + 4). rewrite <- drop_drop, take_drop.
  change 16 with (12 + 4). rewrite <- drop_drop, take_drop.
  change 12 with (8 + 4). rewrite <- drop_drop, take_drop. apply take_drop.
Qed.

Lemma canonical_roundtrip u : (u < 2 ^ 128)%N -> canonical_Parse (canonical_String u) = Ok u.
Proof.
  intros Hu. unfold canonical_Parse. rewrite canonical_length. change (36 =? 36) with true. cbv iota.
  destruct (hex_digits_read (hex_of 32 u) (hex_of_range 32 u)) as [Hm Hf].
  unfold canonical_String. rewrite explode_implode.
  rewrite undash by done. rewrite Hm. f_equal. by apply from_hex_of.
Qed.

Definition canonical : UUIDText :=
  {| uuid_String := canonical_String; uuid_Parse := canonical_Parse;
     uuid_String_length := canonical_length; uuid_Parse_String := canonical_roundtrip |}.
