(* ===== verification/RuleResolver.v ===== *)
(** Rule resolution ([internal/application/rule_resolver.go]): the loop over
    the tenant's rules, its specification as the first rule of greatest
    specificity, and the documented order of precedence. *)

From stdpp Require Import base strings list.
From Stdlib Require Import ZArith Lia Permutation Ascii.
From S2P Require Import Prelude Float64 GoStrings Domain.

Local Open Scope Z_scope.

(** ** The loop *)

(** One iteration: [best] is the pointer, [bestScore] the running score. *)
Definition resolve_step (route : string) (st : option Rule * Z) (rule : Rule) : option Rule * Z :=
  let '(best, bestScore) := st in
  if negb (Enabled rule) then (best, bestScore)
  else
    let score := Specificity rule route in
    if score <=? 0 then (best, bestScore)
    else if bestScore <? score then (Some rule, score)
    else (best, bestScore).

Definition Resolve (rules : list Rule) (route : string) : option Rule :=
  fst (fold_left (resolve_step route) rules (None, -1)).

(** ** What the loop promises *)

(** A rule that may be chosen: enabled and matching. *)
Definition applicable (route : string) (r : Rule) : Prop :=
  Enabled r = true /\ Matches r route = true.

(** [r] is the first applicable rule of greatest specificity. *)
Definition first_best (rules : list Rule) (route : string) (r : Rule) : Prop :=
  exists l1 l2, rules = l1 ++ r :: l2 /\ applicable route r /\
    (forall r', r' ∈ l1 -> applicable route r' -> Specificity r' route < Specificity r route) /\
    (forall r', r' ∈ l2 -> applicable route r' -> Specificity r' route <= Specificity r route).

(** Precedence of the README: exact, then prefix, then default. *)
Definition rank (k : MatchKind) : Z :=
  match k with MatchNone => 0 | MatchDefault => 1 | MatchPrefix => 2 | MatchExact => 3 end.

(** The documented order between two applicable rules: the kind decides, and
    between prefixes the length of the pattern. *)
Definition precedes (route : string) (r r' : Rule) : Prop :=
  rank (MatchKindFor r' route) < rank (MatchKindFor r route) \/
  (MatchKindFor r' route = MatchKindFor r route /\
   len (RoutePattern r') <= len (RoutePattern r)).

(** A prefix pattern of a single character before the star. *)
Definition one_char_prefix (r : Rule) : Prop := exists c, RoutePattern r = String c "*".

(** ** Scores *)

Lemma kind_pattern r route k : k <> MatchNone -> MatchKindFor r route = k ->
  pattern_matches (RoutePattern r) route k.
Proof. intros Hk. by apply MatchKindFor_spec. Qed.

Lemma Specificity_default r route : MatchKindFor r route = MatchDefault ->
  Specificity r route = 1 /\ RoutePattern r = "*".
Proof.
  intros H. unfold Specificity. rewrite H. split; [done|].
  apply kind_pattern in H; [|done]. by inversion H.
Qed.

Lemma Specificity_prefix r route : MatchKindFor r route = MatchPrefix ->
  exists p rest, p <> "" /\ RoutePattern r = p +:+ "*" /\ route = p +:+ rest /\
    Specificity r route = len p.
Proof.
  intros H. unfold Specificity. rewrite H.
  apply kind_pattern in H; [|done]. inversion H as [|p rest Hp|]; subst.
  exists p, rest. by rewrite TrimSuffix_app.
Qed.

Lemma Specificity_exact r route : MatchKindFor r route = MatchExact ->
  RoutePattern r = route /\ Specificity r route = 1000 + len route.
Proof.
  intros H. unfold Specificity. rewrite H.
  apply kind_pattern in H; [|done]. inversion H; subst. split; congruence.
Qed.

Lemma len_nonempty s : s <> "" -> 1 <= len s.
Proof. intros H. unfold len. destruct s; [done|]. simpl. lia. Qed.

Lemma len_app s t : len (s +:+ t) = len s + len t.
Proof. unfold len. rewrite string_length_app. lia. Qed.

Lemma Specificity_pos r route : Matches r route = true <-> 0 < Specificity r route.
Proof.
  destruct (MatchKindFor r route) eqn:Hk.
  - pose proof Hk as Hm. apply MatchKindFor_none in Hm. rewrite Hm. unfold Specificity. rewrite Hk. done.
  - destruct (Specificity_default _ _ Hk) as [-> _]. split; [lia|].
    destruct (Matches r route) eqn:E; [done|]. apply MatchKindFor_none in E. congruence.
  - destruct (Specificity_prefix _ _ Hk) as (p & rest & Hp & _ & _ & ->).
    pose proof (len_nonempty p Hp). split; [lia|].
    destruct (Matches r route) eqn:E; [done|]. apply MatchKindFor_none in E. congruence.
  - destruct (Specificity_exact _ _ Hk) as [_ ->]. split; [unfold len; lia|].
    destruct (Matches r route) eqn:E; [done|]. apply MatchKindFor_none in E. congruence.
Qed.

Lemma applicable_dec route r : {applicable route r} + {~ applicable route r}.
Proof. unfold applicable. destruct (Enabled r), (Matches r route); first [by left|by right; intros []]. Qed.

Lemma applicable_kind route r : applicable route r -> MatchKindFor r route <> MatchNone.
Proof. intros [_ Hm] E. apply MatchKindFor_none in E. congruence. Qed.

(** ** The loop finds the first best rule *)

Lemma resolve_step_inapplicable route st r : ~ applicable route r ->
  resolve_step route st r = st.
Proof.
  intros Hn. unfold resolve_step. destruct st as [best s].
  destruct (Enabled r) eqn:He; [|done]. simpl.
  destruct (Z.leb_spec (Specificity r route) 0); [done|].
  exfalso. apply Hn. split; [done|]. by apply Specificity_pos.
Qed.

Lemma resolve_step_applicable route b s r : applicable route r ->
  resolve_step route (b, s) r =
    if s <? Specificity r route then (Some r, Specificity r route) else (b, s).
Proof.
  intros [He Hm]. unfold resolve_step. rewrite He. simpl.
  apply Specificity_pos in Hm. by destruct (Z.leb_spec (Specificity r route) 0); [lia|].
Qed.

(** The loop invariant: either nothing applicable was seen, or [best] is the
    first best rule of the rules seen. *)
Lemma resolve_loop_inv rules route :
  let '(best, s) := fold_left (resolve_step route) rules (None, -1) in
  match best with
  | None => s = -1 /\ forall r, r ∈ rules -> ~ applicable route r
  | Some r => s = Specificity r route /\ first_best rules route r
  end.
Proof.
  induction rules as [|x rules IH] using rev_ind; simpl.
  { split; [done|]. intros r Hr. by apply not_elem_of_nil in Hr. }
  rewrite fold_left_snoc. destruct (fold_left _ rules _) as [best s].
  destruct (applicable_dec route x) as [Hx|Hx].
  2:{ rewrite resolve_step_inapplicable by done. destruct best as [r|].
      - destruct IH as [-> (l1 & l2 & -> & Hr & H1 & H2)]. split; [done|].
        exists l1, (l2 ++ [x]). rewrite <- app_assoc. split; [done|]. split; [done|]. split; [done|].
        intros r' [Hin|Hin%list_elem_of_singleton]%elem_of_app; [by apply H2|by subst r'].
      - destruct IH as [-> H]. split; [done|].
        intros r [Hin|Hin%list_elem_of_singleton]%elem_of_app; [by apply H|by subst r]. }
  rewrite resolve_step_applicable by done.
  pose proof (proj1 (Specificity_pos _ _) (proj2 Hx)) as Hpos.
  destruct best as [r|].
  - destruct IH as [-> (l1 & l2 & -> & Hr & H1 & H2)].
    destruct (Z.ltb_spec (Specificity r route) (Specificity x route)).
    + split; [done|]. exists (l1 ++ r :: l2), []. split; [done|]. split; [done|]. split.
      * intros r' [Hin|[->|Hin]%elem_of_cons]%elem_of_app Ha; [|done|].
        -- specialize (H1 _ Hin Ha). lia.
        -- specialize (H2 _ Hin Ha). lia.
      * intros r' Hin. by apply not_elem_of_nil in Hin.
    + split; [done|]. exists l1, (l2 ++ [x]). rewrite <- app_assoc.
      split; [done|]. split; [done|]. split; [done|].
      intros r' [Hin|Hin%list_elem_of_singleton]%elem_of_app; [by apply H2|by subst r'].
  - destruct IH as [-> H]. destruct (Z.ltb_spec (-1) (Specificity x route)); [|lia].
    split; [done|]. exists rules, []. split; [done|]. split; [done|]. split.
    + intros r' Hin Ha. by destruct (H r' Hin).
    + intros r' Hin. by apply not_elem_of_nil in Hin.
Qed.

Lemma Resolve_Some_best rules route r :
  Resolve rules route = Some r -> first_best rules route r.
Proof.
  unfold Resolve. pose proof (resolve_loop_inv rules route) as H.
  destruct (fold_left _ rules _) as [best s]. simpl. intros ->. tauto.
Qed.

Lemma Resolve_None_inapplicable rules route :
  Resolve rules route = None -> forall r, r ∈ rules -> ~ applicable route r.
Proof.
  unfold Resolve. pose proof (resolve_loop_inv rules route) as H.
  destruct (fold_left _ rules _) as [best s]. simpl. intros ->. tauto.
Qed.

Lemma first_best_max rules route r : first_best rules route r ->
  r ∈ rules /\ applicable route r /\
  forall r', r' ∈ rules -> applicable route r' -> Specificity r' route <= Specificity r route.
Proof.
  intros (l1 & l2 & -> & Hr & H1 & H2). split; [set_solver|]. split; [done|].
  intros r' [Hin|[->|Hin]%elem_of_cons]%elem_of_app Ha.
  - specialize (H1 _ Hin Ha). lia.
  - lia.
  - by apply H2.
Qed.

(** Two first best rules sit at the same place of the list. *)
Lemma first_best_unique rules route r r' :
  first_best rules route r -> first_best rules route r' -> r = r'.
Proof.
  intros (l1 & l2 & -> & Hr & H1 & H2) (k1 & k2 & E & Hr' & G1 & G2).
  assert (Hcases : l1 = k1 \/ r' ∈ l1 \/ r ∈ k1).
  { apply app_eq_inv in E as [(k & -> & E)|(k & -> & E)]; destruct k as [|z k]; simpl in *; simplify_eq.
    - left. by rewrite app_nil_r.
    - right; left. set_solver.
    - left. by rewrite app_nil_r.
    - right; right. set_solver. }
  destruct Hcases as [->|[Hin|Hin]].
  - apply app_inv_head in E. by simplify_eq.
  - specialize (H1 _ Hin Hr').
    assert (Hin2 : r ∈ k1 \/ r = r' \/ r ∈ k2).
    { assert (Hr2 : r ∈ k1 ++ r' :: k2) by (rewrite <- E; set_solver). set_solver. }
    destruct Hin2 as [Hin2|[->|Hin2]]; [specialize (G1 _ Hin2 Hr)|done|specialize (G2 _ Hin2 Hr)]; lia.
  - specialize (G1 _ Hin Hr).
    assert (Hin2 : r' ∈ l1 \/ r' = r \/ r' ∈ l2).
    { assert (Hr2 : r' ∈ l1 ++ r :: l2) by (rewrite E; set_solver). set_solver. }
    destruct Hin2 as [Hin2|[->|Hin2]]; [specialize (H1 _ Hin2 Hr')|done|specialize (H2 _ Hin2 Hr')]; lia.
Qed.

(** ** Properties *)

(** The loop returns exactly the first rule of greatest specificity among
    the enabled rules that match the route. *)
Theorem Resolve_first_best rules route r :
  Resolve rules route = Some r <-> first_best rules route r.
Proof.
  split; [apply Resolve_Some_best|]. intros Hb.
  destruct (Resolve rules route) as [r'|] eqn:E.
  - f_equal. eapply first_best_unique; [by apply Resolve_Some_best|done].
  - destruct (first_best_max _ _ _ Hb) as (Hin & Ha & _).
    by destruct (Resolve_None_inapplicable _ _ E r Hin).
Qed.

(** Limiting is opt-in: no rule is returned exactly when no enabled rule
    matches the route. *)
Lemma Resolve_None_iff rules route :
  Resolve rules route = None <-> forall r, r ∈ rules -> ~ applicable route r.
Proof.
  split; [apply Resolve_None_inapplicable|]. intros H.
  destruct (Resolve rules route) as [r|] eqn:E; [|done].
  apply Resolve_Some_best, first_best_max in E as (Hin & Ha & _). by destruct (H r Hin).
Qed.

Lemma score_order r r' route :
  applicable route r -> applicable route r' ->
  Specificity r' route <= Specificity r route ->
  ~ (MatchKindFor r route = MatchDefault /\ one_char_prefix r') ->
  precedes route r r'.
Proof.
  intros Ha Ha' Hle Hone. unfold precedes.
  pose proof (applicable_kind _ _ Ha) as Hk. pose proof (applicable_kind _ _ Ha') as Hk'.
  destruct (MatchKindFor r route) eqn:E; [done| | |];
    destruct (MatchKindFor r' route) eqn:E'; try done; simpl; try (left; lia).
  - right. apply Specificity_default in E as [_ ->], E' as [_ ->]. done.
  - exfalso. apply Specificity_default in E as [Hs _].
    apply Specificity_prefix in E' as (p & rest & Hp & Hpat & _ & Hs').
    apply Hone. split; [done|]. destruct p as [|c [|c' p]]; [done|exists c; by rewrite Hpat|].
    rewrite Hs, Hs' in Hle. unfold len in Hle. simpl in Hle. lia.
  - exfalso. apply Specificity_default in E as [Hs _].
    apply Specificity_exact in E' as [_ Hs']. rewrite Hs, Hs' in Hle. unfold len in Hle. lia.
  - right. split; [done|].
    apply Specificity_prefix in E as (p & rest & Hp & -> & _ & Hs).
    apply Specificity_prefix in E' as (p' & rest' & Hp' & -> & _ & Hs').
    rewrite !len_app. lia.
  - exfalso. apply Specificity_prefix in E as (p & rest & Hp & _ & -> & Hs).
    apply Specificity_exact in E' as [_ Hs']. rewrite Hs, Hs', len_app in Hle.
    unfold len in Hle. lia.
  - right. split; [done|].
    apply Specificity_exact in E as [-> _], E' as [-> _]. done.
Qed.

(** C19: the documented precedence.  The chosen rule comes before every other
    enabled matching rule in the order exact, longer prefix, shorter prefix,
    default; the only exception is a default rule chosen over a prefix
    pattern of one character. *)
Theorem Resolve_precedence rules route r r' :
  Resolve rules route = Some r -> r' ∈ rules -> applicable route r' ->
  ~ (MatchKindFor r route = MatchDefault /\ one_char_prefix r') ->
  precedes route r r'.
Proof.
  intros E Hin Ha' Hone.
  apply Resolve_Some_best, first_best_max in E as (_ & Ha & Hmax).
  apply score_order; auto.
Qed.

(** A default rule listed before a one-character prefix rule hides it:
    both score 1 and the first one wins, so a route under [/*] is decided by
    the [*] rule although prefixes should come before the default. *)
Theorem default_hides_one_char_prefix d q route c rest :
  Enabled d = true -> RoutePattern d = "*" ->
  Enabled q = true -> RoutePattern q = String c "*" ->
  route = String c rest ->
  Resolve [d; q] route = Some d /\ Resolve [q; d] route = Some q.
Proof.
  intros Hd Hdp Hq Hqp ->.
  assert (Hkd : MatchKindFor d (String c rest) = MatchDefault)
    by (apply MatchKindFor_spec; [done|]; rewrite Hdp; constructor).
  assert (Hkq : MatchKindFor q (String c rest) = MatchPrefix).
  { apply MatchKindFor_spec; [done|]. rewrite Hqp. by apply (pm_prefix (String c "") rest). }
  assert (Hsd : Specificity d (String c rest) = 1) by by apply Specificity_default.
  assert (Hsq : Specificity q (String c rest) = 1).
  { unfold Specificity. rewrite Hkq, Hqp. change (String c "*") with (String c "" +:+ "*"). by rewrite TrimSuffix_app. }
  assert (Had : applicable (String c rest) d) by (split; [done|]; apply Specificity_pos; lia).
  assert (Haq : applicable (String c rest) q) by (split; [done|]; apply Specificity_pos; lia).
  unfold Resolve. cbn [fold_left].
  rewrite (resolve_step_applicable _ None (-1) d), (resolve_step_applicable _ None (-1) q) by done.
  rewrite Hsd, Hsq. cbn [Z.ltb Z.compare].
  by rewrite !resolve_step_applicable, Hsd, Hsq by done.
Qed.

Lemma NoDup_fmap_unique {A B} (f : A -> B) (l : list A) x y :
  NoDup (f <$> l) -> x ∈ l -> y ∈ l -> f x = f y -> x = y.
Proof.
  induction l as [|z l IH]; simpl; [set_solver|].
  intros [Hz Hnd]%NoDup_cons [->|Hx]%elem_of_cons [->|Hy]%elem_of_cons Hf; auto.
  - destruct Hz. rewrite Hf. by apply list_elem_of_fmap_2.
  - destruct Hz. rewrite <- Hf. by apply list_elem_of_fmap_2.
Qed.

Lemma same_score_same_pattern r r' route :
  applicable route r -> applicable route r' ->
  Specificity r route = Specificity r' route ->
  ~ (MatchKindFor r route = MatchDefault /\ one_char_prefix r') ->
  ~ (MatchKindFor r' route = MatchDefault /\ one_char_prefix r) ->
  RoutePattern r = RoutePattern r'.
Proof.
  intros Ha Ha' Hs H1 H2.
  assert (Hp : precedes route r r') by (apply score_order; auto with lia).
  assert (Hp' : precedes route r' r) by (apply score_order; auto with lia).
  destruct Hp as [Hp|[Hk _]]; [destruct Hp' as [Hp'|[Hk' _]]; [lia|rewrite Hk' in Hp; lia]|].
  destruct (MatchKindFor r route) eqn:E.
  - by destruct (applicable_kind _ _ Ha).
  - apply Specificity_default in E as [_ ->]. by apply Specificity_default in Hk as [_ ->].
  - apply Specificity_prefix in E as (p & rest & _ & -> & -> & Hl).
    apply Specificity_prefix in Hk as (p' & rest' & _ & -> & Happ & Hl').
    rewrite Hl, Hl' in Hs. unfold len in Hs.
    apply string_app_inj_len in Happ as [-> _]; [done|lia].
  - apply Specificity_exact in E as [-> _]. by apply Specificity_exact in Hk as [-> _].
Qed.

(** The order in which the repository returns the rules does not matter
    when their patterns are distinct (the table's unique constraint) and no
    one-character prefix competes with a default rule. *)
Theorem Resolve_permutation rules rules' route :
  NoDup (RoutePattern <$> rules) -> rules ≡ₚ rules' ->
  (forall d q, d ∈ rules -> q ∈ rules -> applicable route d -> applicable route q ->
     ~ (MatchKindFor d route = MatchDefault /\ one_char_prefix q)) ->
  Resolve rules route = Resolve rules' route.
Proof.
  intros Hnd Hp Hone.
  destruct (Resolve rules route) as [r|] eqn:E; destruct (Resolve rules' route) as [r'|] eqn:E'.
  - apply Resolve_Some_best, first_best_max in E as (Hr & Ha & Hmax).
    apply Resolve_Some_best, first_best_max in E' as (Hr' & Ha' & Hmax').
    rewrite <- Hp in Hr'. f_equal. apply (NoDup_fmap_unique RoutePattern rules); auto.
    assert (Hr2 : r ∈ rules') by by rewrite <- Hp.
    specialize (Hmax r' Hr' Ha'). specialize (Hmax' r Hr2 Ha).
    apply (same_score_same_pattern r r' route); auto; lia.
  - apply Resolve_Some_best, first_best_max in E as (Hr & Ha & _). rewrite Hp in Hr.
    by destruct (Resolve_None_inapplicable _ _ E' r Hr).
  - apply Resolve_Some_best, first_best_max in E' as (Hr & Ha & _). rewrite <- Hp in Hr.
    by destruct (Resolve_None_inapplicable _ _ E r' Hr).
  - done.
Qed.

(** ** Witnesses *)

Definition sample_rule (pattern : string) : Rule :=
  {| Rule_ID := 1; Rule_TenantID := 7; RoutePattern := pattern;
     Rule_Algorithm := AlgorithmSlidingWindow; Enabled := true; LimitCount := 100;
     WindowSeconds := 60; BucketCapacity := 0; RefillRate := of_Z 0 |}.

Definition sample_rules : list Rule :=
  map sample_rule ["*"; "/api/*"; "/api/payments*"; "/api/payments/1"].

Lemma Resolve_precedence_witness :
  Resolve sample_rules "/api/payments/42" = Some (sample_rule "/api/payments*") /\
  precedes "/api/payments/42" (sample_rule "/api/payments*") (sample_rule "/api/*").
Proof.
  split; [by vm_compute|].
  apply (Resolve_precedence sample_rules); [by vm_compute| | |].
  - rewrite list_elem_of_In. simpl. tauto.
  - split; by vm_compute.
  - intros [H _]. by vm_compute in H.
Defined.

Lemma default_hides_one_char_prefix_witness :
  Resolve [sample_rule "*"; sample_rule "/*"] "/users" = Some (sample_rule "*").
Proof.
  apply (default_hides_one_char_prefix (sample_rule "*") (sample_rule "/*") "/users" "/" "users");
    by vm_compute.
Defined.

Lemma Resolve_permutation_witness :
  Resolve sample_rules "/api/payments/1" = Resolve (rev sample_rules) "/api/payments/1".
Proof.
  apply Resolve_permutation.
  - apply (bool_decide_unpack (NoDup (RoutePattern <$> sample_rules))). by vm_compute.
  - apply Permutation_rev.
  - intros d q Hd Hq _ _ [_ [c Hc]]. apply list_elem_of_In in Hq. simpl in Hq.
    by destruct Hq as [<-|[<-|[<-|[<-|[]]]]].
Defined.
