(* ===== verification/Redis.v ===== *)
(** The Redis server as the limiter uses it: the interface of the commands
    the Lua scripts issue and of the script cache.

    The server is not part of the repository.  [RedisServer] states what the
    limiter relies on: every command acts on one key as documented, given by
    an [effect] on the entry the command sees; a script runs to completion on
    the server, and an error raised by a command stops it but keeps the
    writes already made.  [redis7] is a concrete server that satisfies the
    interface. *)

From stdpp Require Import base gmap strings list.
From Stdlib Require Import ZArith Lia SpecFloat.
From S2P Require Import Prelude Float64.

Local Open Scope Z_scope.

(** The scripts embedded by [rate_limiter.go]. *)
Inductive script_name : Set := token_bucket_lua | sliding_window_lua.

#[export] Instance script_name_eq_dec : EqDecision script_name.
Proof. solve_decision. Defined.

(** ** Entries and the documented effect of the commands *)

(** A number written by a script has 17 significant digits and reads back as
    the same double, so the model keeps the double. *)
Inductive rvalue : Type :=
  | RNum (n : float)
  | RHash (h : gmap string float).

(** A key's value and the instant, in milliseconds, it expires at. *)
Record entry := { e_val : rvalue; e_expire : option Z }.

Definition expired_at (t : Z) (e : entry) : bool :=
  match e_expire e with Some x => x <? t | None => false end.

(** What is left of an entry at instant [t]. *)
Definition survives (t : Z) (e : option entry) : option entry :=
  match e with Some e' => if expired_at t e' then None else Some e' | None => None end.

Lemma survives_later t t' e : t <= t' -> survives t' (survives t e) = survives t' e.
Proof.
  intros Ht. destruct e as [e|]; [|done]. simpl. unfold expired_at.
  destruct (e_expire e) as [x|] eqn:E; simpl; unfold expired_at; rewrite ?E; [|done].
  destruct (Z.ltb_spec x t); simpl; unfold expired_at; rewrite ?E; [|done].
  by destruct (Z.ltb_spec x t'); [|lia].
Qed.

(** What a command on one key replies and leaves behind, from the entry it
    sees and the server's clock. *)
Definition effect (A : Type) : Type := option entry -> Z -> result string A * option entry.

Definition wrong_type : string :=
  "WRONGTYPE Operation against a key holding the wrong kind of value".

(** [tonumber(redis.call('GET', k))]: [None] is Lua's [nil]. *)
Definition GET_effect : effect (option float) := fun e _ =>
  match e with
  | None => (Ok None, e)
  | Some {| e_val := RNum n |} => (Ok (Some n), e)
  | Some {| e_val := RHash _ |} => (Err wrong_type, e)
  end.

(** [SET k v] replaces the value and clears the expiry. *)
Definition SET_effect (v : float) : effect unit := fun _ _ =>
  (Ok tt, Some {| e_val := RNum v; e_expire := None |}).

(** [HMGET k f g] followed by [tonumber] on both fields. *)
Definition HMGET_effect (f g : string) : effect (option float * option float) := fun e _ =>
  match e with
  | None => (Ok (None, None), e)
  | Some {| e_val := RHash h |} => (Ok (h !! f, h !! g), e)
  | Some {| e_val := RNum _ |} => (Err wrong_type, e)
  end.

(** [HSET k f v g w] keeps the expiry of an existing hash. *)
Definition HSET_effect (f : string) (v : float) (g : string) (w : float) : effect unit := fun e _ =>
  match e with
  | None => (Ok tt, Some {| e_val := RHash (<[g := w]> {[f := v]}); e_expire := None |})
  | Some {| e_val := RHash h; e_expire := x |} =>
      (Ok tt, Some {| e_val := RHash (<[g := w]> (<[f := v]> h)); e_expire := x |})
  | Some {| e_val := RNum _ |} => (Err wrong_type, e)
  end.

(** [EXPIRE k seconds], given the integer the server reads from the text of
    the argument: a time that is not positive deletes the key. *)
Definition EXPIRE_effect (seconds : option Z) : effect unit := fun e now =>
  match seconds, e with
  | None, _ => (Err "ERR value is not an integer or out of range", e)
  | Some _, None => (Ok tt, None)
  | Some z, Some e' =>
      if z <=? 0 then (Ok tt, None)
      else (Ok tt, Some {| e_val := e_val e'; e_expire := Some (now + 1000 * z) |})
  end.

(** A command on the key [k] has the effect [eff] and does nothing else. *)
Definition acts_on {S A : Type} (clock : S -> Z) (look : S -> string -> option entry)
    (scripts : S -> string -> option script_name) (k : string) (eff : effect A)
    (m : S -> result string A * S) : Prop :=
  forall s, fst (m s) = fst (eff (look s k) (clock s)) /\
    look (snd (m s)) k = snd (eff (look s k) (clock s)) /\
    (forall k', k' <> k -> look (snd (m s)) k' = look s k') /\
    clock (snd (m s)) = clock s /\
    forall sha, scripts (snd (m s)) sha = scripts s sha.

(** ** The interface

    Integers below [10^8] are written without an exponent, so [EXPIRE] reads
    them back; a reply of a script truncates numbers towards zero. *)
Class RedisServer := {
  redis : Type;
  clock : redis -> Z;
  look : redis -> string -> option entry;
  scripts : redis -> string -> option script_name;
  script_sha : script_name -> string;
  expire_seconds : float -> option Z;
  reply_integer : float -> Z;
  GET : string -> redis -> result string (option float) * redis;
  SET : string -> float -> redis -> result string unit * redis;
  HMGET2 : string -> string -> string -> redis -> result string (option float * option float) * redis;
  HSET2 : string -> string -> float -> string -> float -> redis -> result string unit * redis;
  EXPIRE : string -> float -> redis -> result string unit * redis;
  SCRIPT_LOAD : script_name -> redis -> string * redis;
  GET_law k : acts_on clock look scripts k GET_effect (GET k);
  SET_law k v : acts_on clock look scripts k (SET_effect v) (SET k v);
  HMGET_law k f g : acts_on clock look scripts k (HMGET_effect f g) (HMGET2 k f g);
  HSET_law k f v g w : acts_on clock look scripts k (HSET_effect f v g w) (HSET2 k f v g w);
  EXPIRE_law k x : acts_on clock look scripts k (EXPIRE_effect (expire_seconds x)) (EXPIRE k x);
  expire_seconds_int x z : is_int x z -> 0 <= z < 10 ^ 8 -> expire_seconds x = Some z;
  reply_integer_int x z : is_int x z -> Z.abs z <= 2 ^ 53 -> reply_integer x = z;
  script_sha_inj : script_sha token_bucket_lua <> script_sha sliding_window_lua;
  SCRIPT_LOAD_law n s :
    fst (SCRIPT_LOAD n s) = script_sha n /\
    (forall k, look (snd (SCRIPT_LOAD n s)) k = look s k) /\
    clock (snd (SCRIPT_LOAD n s)) = clock s /\
    (forall sha, scripts (snd (SCRIPT_LOAD n s)) sha =
                 if String.eqb sha (script_sha n) then Some n else scripts s sha)
}.

(** ** The script monad *)

Section Monad.
Context `{RedisServer}.

Definition Script (A : Type) : Type := redis -> result string A * redis.

#[export] Instance Script_ret : MRet Script := fun A a s => (Ok a, s).
#[export] Instance Script_bind : MBind Script := fun A B k m s =>
  match m s with
  | (Ok a, s') => k a s'
  | (Err e, s') => (Err e, s')
  end.

Definition script_error {A} (e : string) : Script A := fun s => (Err e, s).

(** [if c then m end] *)
Definition when (c : bool) (m : Script unit) : Script unit := if c then m else mret tt.

(** ** The server around the limiter *)

(** What the rest of the system may do to a key between two commands of the
    limiter: time passes, other keys change, and the key goes when it
    expires. *)
Definition untouched (key : string) (s s' : redis) : Prop :=
  clock s <= clock s' /\ look s' key = survives (clock s') (look s key).

(** Time passes, keys expire and the server may lose scripts. *)
Definition drifts (s s' : redis) : Prop :=
  (forall k, untouched k s s') /\ forall sha, scripts s' sha = scripts s sha \/ scripts s' sha = None.

(** An expired key is not seen. *)
Definition hides_expired : Prop := forall s k, survives (clock s) (look s k) = look s k.

Lemma drifts_refl s : hides_expired -> drifts s s.
Proof. intros Hlive. split; [|by left]. intros k. split; [done|]. by rewrite Hlive. Qed.

Lemma drifts_trans s1 s2 s3 : drifts s1 s2 -> drifts s2 s3 -> drifts s1 s3.
Proof.
  intros [U1 S1] [U2 S2]. split.
  - intros k. destruct (U1 k) as [C1 L1], (U2 k) as [C2 L2]. split; [lia|]. by rewrite L2, L1, survives_later.
  - intros sha. destruct (S2 sha) as [->| ->]; [apply S1|by right].
Qed.

(** A restart of the server: the keyspace may be reloaded from disk, the
    script cache never is. *)
Definition restarted (s : redis) : Prop := forall sha, scripts s sha = None.

(** Two servers that look the same through the keys [K]. *)
Record agree (K : list string) (s1 s2 : redis) : Prop := {
  ag_keys : forall k, k ∈ K -> look s1 k = look s2 k;
  ag_clock : clock s1 = clock s2;
  ag_scripts : forall sha, scripts s1 sha = scripts s2 sha
}.

(** Only the keys [K] differ. *)
Record framed (K : list string) (s s' : redis) : Prop := {
  fr_keys : forall k, k ∉ K -> look s' k = look s k;
  fr_clock : clock s' = clock s;
  fr_scripts : forall sha, scripts s' sha = scripts s sha
}.

(** ** Lemmas *)

Lemma bind_ok {A B} (m : Script A) (k : A -> Script B) s a s' :
  m s = (Ok a, s') -> (m ≫= k) s = k a s'.
Proof. intros E. unfold mbind, Script_bind. by rewrite E. Qed.

Lemma bind_err {A B} (m : Script A) (k : A -> Script B) s e s' :
  m s = (Err e, s') -> (m ≫= k) s = (Err e, s').
Proof. intros E. unfold mbind, Script_bind. by rewrite E. Qed.

Lemma framed_refl K s : framed K s s.
Proof. done. Qed.

Lemma framed_trans K s1 s2 s3 : framed K s1 s2 -> framed K s2 s3 -> framed K s1 s3.
Proof.
  intros [H1 C1 S1] [H2 C2 S2]. constructor; [|congruence|].
  - intros k Hk. by rewrite H2, H1.
  - intros sha. by rewrite S2, S1.
Qed.

Lemma framed_mono K K' s s' : K ⊆ K' -> framed K s s' -> framed K' s s'.
Proof. intros HK [Hk Hc Hs]. constructor; [|done|done]. intros k Hk'. apply Hk. set_solver. Qed.

(** What a run of a command on one key gives. *)
Lemma acts_run {A} k (eff : effect A) (m : Script A) s r e' :
  acts_on clock look scripts k eff m -> eff (look s k) (clock s) = (r, e') ->
  exists s', m s = (r, s') /\ look s' k = e' /\ framed [k] s s'.
Proof.
  intros Hm He. destruct (Hm s) as (Hr & Hk & Ho & Hc & Hs). rewrite He in Hr, Hk. simpl in Hr, Hk.
  exists (snd (m s)). split; [by rewrite <- Hr; destruct (m s)|]. split; [done|].
  constructor; [|done|done]. intros k' Hk'. apply Ho. set_solver.
Qed.

Lemma GET_run s k : exists s', GET k s = (fst (GET_effect (look s k) (clock s)), s') /\
  look s' k = look s k /\ framed [k] s s'.
Proof.
  destruct (GET_effect (look s k) (clock s)) as [r e'] eqn:E.
  destruct (acts_run k GET_effect (GET k) s r e' (GET_law k) E) as (s' & Hm & Hl & Hf).
  exists s'. split; [done|]. split; [|done]. rewrite Hl.
  unfold GET_effect in E. destruct (look s k) as [[[n|h] x]|]; congruence.
Qed.

Lemma EXPIRE_run s k e x z : look s k = Some e -> is_int x z -> 0 < z < 10 ^ 8 ->
  exists s', EXPIRE k x s = (Ok tt, s') /\
    look s' k = Some {| e_val := e_val e; e_expire := Some (clock s + 1000 * z) |} /\
    framed [k] s s'.
Proof.
  intros Hl Hx Hz. apply (acts_run k _ (EXPIRE k x) s _ _ (EXPIRE_law k x)).
  rewrite (expire_seconds_int x z) by (done || lia). rewrite Hl. simpl.
  by destruct (Z.leb_spec z 0); [lia|].
Qed.

Lemma SET_run s k v : exists s', SET k v s = (Ok tt, s') /\
  look s' k = Some {| e_val := RNum v; e_expire := None |} /\ framed [k] s s'.
Proof. by apply (acts_run k _ (SET k v) s _ _ (SET_law k v)). Qed.

(** A missing key stays missing; a live one stays as it is until it expires. *)
Lemma untouched_none k s s' : untouched k s s' -> look s k = None -> look s' k = None.
Proof. intros [_ ->] ->. done. Qed.

Lemma untouched_some k s s' v t : untouched k s s' ->
  look s k = Some {| e_val := v; e_expire := Some t |} ->
  look s' k = if t <? clock s' then None else Some {| e_val := v; e_expire := Some t |}.
Proof. intros [_ ->] ->. done. Qed.

End Monad.

(** ** Lua's mathematics on numbers *)

(** [math.max(x, y)] and [math.min(x, y)] *)
Definition math_max (x y : float) : float := if fltb x y then y else x.
Definition math_min (x y : float) : float := if fltb y x then y else x.

Lemma math_min_sval x y : fin x -> fin y ->
  fin (math_min x y) /\ sval (math_min x y) = Z.min (sval x) (sval y).
Proof.
  intros Hx Hy. unfold math_min. rewrite fltb_spec by done.
  destruct (Z.ltb_spec (sval y) (sval x)); split; auto; lia.
Qed.

Lemma is_int_max x y a b : is_int x a -> is_int y b -> is_int (math_max x y) (Z.max a b).
Proof.
  intros Hx Hy. unfold math_max. rewrite (is_int_ltb _ _ _ _ Hx Hy).
  destruct (Z.ltb_spec a b); [rewrite Z.max_r by lia|rewrite Z.max_l by lia]; done.
Qed.

(** ** A concrete server

    Integral numbers below [10^17] are valid [EXPIRE] arguments (the [%.17g]
    format writes them without an exponent); a reply is the C conversion of a
    double to [long long], with the x86-64 result when it is out of range. *)

Record store := {
  db : gmap string entry;
  now_ms : Z;
  cache : gmap string script_name
}.

Definition seen (s : store) (k : string) : option entry := survives (now_ms s) (db s !! k).

(** Run an effect on one key of the store. *)
Definition apply_effect {A} (k : string) (eff : effect A) (s : store) : result string A * store :=
  let '(r, e) := eff (seen s k) (now_ms s) in
  (r, {| db := partial_alter (fun _ => e) k (db s); now_ms := now_ms s; cache := cache s |}).

(** The integer part of a double, and whether the double is integral. *)
Definition truncate (x : float) : option (Z * bool) :=
  match x with
  | S754_zero _ => Some (0, true)
  | S754_finite s m e =>
      if 0 <=? e then Some (cond_Zopp s (Zpos m * 2 ^ e), true)
      else Some (cond_Zopp s (Zpos m / 2 ^ (- e)), Zpos m mod 2 ^ (- e) =? 0)
  | _ => None
  end.

Definition server_expire (x : float) : option Z :=
  match truncate x with
  | Some (z, true) => if Z.abs z <? 10 ^ 17 then Some z else None
  | _ => None
  end.

Definition server_reply (x : float) : Z :=
  match truncate x with
  | Some (z, _) => if Z.abs z <? 2 ^ 63 then z else - 2 ^ 63
  | None => - 2 ^ 63
  end.

Definition server_sha (n : script_name) : string :=
  match n with
  | token_bucket_lua => "sha-of-token-bucket"
  | sliding_window_lua => "sha-of-sliding-window"
  end.

Definition server_load (n : script_name) (s : store) : string * store :=
  (server_sha n, {| db := db s; now_ms := now_ms s; cache := <[server_sha n := n]> (cache s) |}).

(** An effect that leaves nothing expired acts as the interface asks. *)
Definition fresh {A} (eff : effect A) : Prop :=
  forall e t, survives t e = e -> survives t (snd (eff e t)) = snd (eff e t).

Lemma survives_idem t e : survives t (survives t e) = survives t e.
Proof. destruct e as [e|]; [|done]. simpl. destruct (expired_at t e) eqn:E; [done|]. simpl. by rewrite E. Qed.

Lemma apply_effect_law {A} k (eff : effect A) : fresh eff ->
  acts_on now_ms seen (fun s sha => cache s !! sha) k eff (apply_effect k eff).
Proof.
  intros Hf s. unfold apply_effect.
  pose proof (Hf (seen s k) (now_ms s) (survives_idem _ _)) as Hfr.
  destruct (eff (seen s k) (now_ms s)) as [r e]. simpl in *. split; [done|].
  unfold seen. simpl. rewrite lookup_partial_alter_eq. split; [done|]. split; [|done].
  intros k' Hk'. by rewrite lookup_partial_alter_ne by done.
Qed.

Lemma fresh_GET : fresh GET_effect.
Proof. intros [[[n|h] x]|] t; done. Qed.

Lemma fresh_SET v : fresh (SET_effect v).
Proof. done. Qed.

Lemma fresh_HMGET f g : fresh (HMGET_effect f g).
Proof. intros [[[n|h] x]|] t; done. Qed.

Lemma fresh_HSET f v g w : fresh (HSET_effect f v g w).
Proof.
  intros [[[n|h] x]|] t; [done| |done]. unfold survives, expired_at. simpl. by case_match.
Qed.

Lemma fresh_EXPIRE z : fresh (EXPIRE_effect z).
Proof.
  intros e t He. unfold EXPIRE_effect. destruct z as [z|]; [|done]. destruct e as [e'|]; [|done].
  destruct (Z.leb_spec z 0); [done|]. simpl. unfold expired_at. simpl.
  by destruct (Z.ltb_spec (t + 1000 * z) t); [lia|].
Qed.

Lemma truncate_int x z : is_int x z -> truncate x = Some (z, true).
Proof.
  intros [Hf Hs]. pose proof one_pos. destruct (fin_cases x Hf) as [[s ->]|(s & m & e & -> & He & _)].
  - simpl in *. do 2 f_equal. nia.
  - rewrite sval_finite in Hs. unfold truncate. destruct (Z.leb_spec 0 e).
    + do 2 f_equal. apply (Z.mul_reg_r _ _ one); [lia|]. rewrite <- Hs, cond_Zopp_mul. f_equal.
      unfold one. by rewrite <- Z.mul_assoc, <- Z.pow_add_r by lia.
    + assert (Hw : one = 2 ^ (- e) * 2 ^ (e + 1074))
        by (unfold one; rewrite <- Z.pow_add_r by lia; f_equal; lia).
      assert (Hm : cond_Zopp s (Zpos m) = z * 2 ^ (- e)).
      { apply (Z.mul_reg_r _ _ (2 ^ (e + 1074))); [pose proof (pow_pos (e + 1074)); lia|].
        rewrite cond_Zopp_mul, Hs, Hw. ring. }
      pose proof (pow_pos (- e) ltac:(lia)) as Hp.
      assert (Hm' : Zpos m = cond_Zopp s z * 2 ^ (- e)) by (destruct s; simpl in *; lia).
      rewrite Hm', Z.div_mul, Z.mod_mul by lia. by destruct s; simpl; rewrite ?Z.opp_involutive.
Qed.

Lemma server_expire_int x z : is_int x z -> 0 <= z < 10 ^ 8 -> server_expire x = Some z.
Proof.
  intros Hx Hz. unfold server_expire. rewrite (truncate_int x z Hx).
  destruct (Z.ltb_spec (Z.abs z) (10 ^ 17)); [done|lia].
Qed.

Lemma server_reply_int x z : is_int x z -> Z.abs z <= 2 ^ 53 -> server_reply x = z.
Proof.
  intros Hx Hz. unfold server_reply. rewrite (truncate_int x z Hx).
  destruct (Z.ltb_spec (Z.abs z) (2 ^ 63)); [done|lia].
Qed.

Lemma server_sha_inj : server_sha token_bucket_lua <> server_sha sliding_window_lua.
Proof. done. Qed.

Lemma server_load_law n s :
  fst (server_load n s) = server_sha n /\
  (forall k, seen (snd (server_load n s)) k = seen s k) /\
  now_ms (snd (server_load n s)) = now_ms s /\
  (forall sha, cache (snd (server_load n s)) !! sha =
               if String.eqb sha (server_sha n) then Some n else cache s !! sha).
Proof.
  repeat split; auto. intros sha. simpl. destruct (String.eqb_spec sha (server_sha n)) as [->|Hne].
  - apply lookup_insert_eq.
  - by rewrite lookup_insert_ne by congruence.
Qed.

Definition redis7 : RedisServer := {|
  redis := store;
  clock := now_ms;
  look := seen;
  scripts := fun s sha => cache s !! sha;
  script_sha := server_sha;
  expire_seconds := server_expire;
  reply_integer := server_reply;
  GET k := apply_effect k GET_effect;
  SET k v := apply_effect k (SET_effect v);
  HMGET2 k f g := apply_effect k (HMGET_effect f g);
  HSET2 k f v g w := apply_effect k (HSET_effect f v g w);
  EXPIRE k x := apply_effect k (EXPIRE_effect (server_expire x));
  SCRIPT_LOAD := server_load;
  GET_law k := apply_effect_law k _ fresh_GET;
  SET_law k v := apply_effect_law k _ (fresh_SET v);
  HMGET_law k f g := apply_effect_law k _ (fresh_HMGET f g);
  HSET_law k f v g w := apply_effect_law k _ (fresh_HSET f v g w);
  EXPIRE_law k x := apply_effect_law k _ (fresh_EXPIRE _);
  expire_seconds_int := server_expire_int;
  reply_integer_int := server_reply_int;
  script_sha_inj := server_sha_inj;
  SCRIPT_LOAD_law := server_load_law
|}.

(** The concrete server's clock moves to [t]. *)
Definition at_time (t : Z) (s : store) : store :=
  {| db := db s; now_ms := t; cache := cache s |}.

Definition empty_redis (t : Z) : store := {| db := ∅; now_ms := t; cache := ∅ |}.

Lemma untouched_at_time k (s : store) t : now_ms s <= t ->
  @untouched redis7 k s (at_time t s).
Proof. intros Ht. split; [done|]. simpl. unfold seen. simpl. by rewrite survives_later. Qed.
