(* ===== verification/LuaScripts.v ===== *)
(** The two Lua scripts of [internal/infrastructure/redis/scripts], statement
    by statement, in the script monad of [Redis].  Lua numbers are binary64
    doubles throughout; [KEYS] and [ARGV] arrive as lists. *)

From stdpp Require Import base gmap strings list.
From Stdlib Require Import ZArith Lia.
From S2P Require Import Prelude Float64 Redis.

Local Open Scope Z_scope.

Section Scripts.
Context `{RedisServer}.

(** ** token_bucket.lua *)

(** Lines 15-27: the tokens available now.  A hash without [last_refill_ms]
    makes [now_ms - last_refill_ms] an arithmetic error. *)
Definition refilled (capacity refill_rate now_ms : float)
    (data : option float * option float) : result string float :=
  match data with
  | (None, _) => Ok capacity
  | (Some tokens, Some last_refill_ms) =>
      let elapsed_ms := math_max (of_Z 0) (fsub now_ms last_refill_ms) in
      let refill := fmul (fdiv elapsed_ms (of_Z 1000)) refill_rate in
      Ok (math_min capacity (fadd tokens refill))
  | (Some _, None) => Err "attempt to perform arithmetic on a nil value"
  end.

(** Lines 29-39: the verdict, the remaining tokens and the advised wait. *)
Definition spend (refill_rate tokens cost : float) : float * float * float :=
  if fleb cost tokens then (of_Z 1, fsub tokens cost, of_Z 0)
  else (of_Z 0, tokens,
        if fltb (of_Z 0) refill_rate
        then fceil (fdiv (fsub cost tokens) refill_rate)
        else of_Z 0).

(** Lines 47-52: when the bucket is full again. *)
Definition refill_time (capacity refill_rate now_ms tokens : float) : float :=
  let reset_at := ffloor (fdiv now_ms (of_Z 1000)) in
  if fltb (of_Z 0) refill_rate && fltb tokens capacity
  then fadd (ffloor (fdiv now_ms (of_Z 1000)))
            (fceil (fdiv (fsub capacity tokens) refill_rate))
  else reset_at.

Definition token_bucket (key : string) (capacity refill_rate now_ms cost : float) :
    Script (list float) :=
  data ← HMGET2 key "tokens" "last_refill_ms";
  match refilled capacity refill_rate now_ms data with
  | Err e => script_error e
  | Ok tokens =>
      let '(allowed, tokens, retry_after) := spend refill_rate tokens cost in
      HSET2 key "tokens" tokens "last_refill_ms" now_ms ;;
      when (fltb (of_Z 0) refill_rate)
        (EXPIRE key (fadd (fceil (fdiv capacity refill_rate)) (of_Z 60))) ;;
      mret [allowed; ffloor tokens; refill_time capacity refill_rate now_ms tokens; retry_after]
  end.

(** ** sliding_window.lua *)

(** [tonumber(redis.call('GET', k) or '0')] *)
Definition GET_or_0 (k : string) : Script float :=
  v ← GET k; mret (default (of_Z 0) v).

(** Lines 23-35: entering a new window moves the current count to the
    previous one, or clears both after a gap. *)
Definition roll (curr_key prev_key idx_key : string) (window curr_window : float)
    (stored_window : option float) : Script unit :=
  when (match stored_window with None => true | Some w => fltb w curr_window end)
    ((if match stored_window with
         | Some w => feqb w (fsub curr_window (of_Z 1))
         | None => false
         end
      then curr_val ← GET_or_0 curr_key; SET prev_key curr_val
      else SET prev_key (of_Z 0)) ;;
     SET curr_key (of_Z 0) ;;
     SET idx_key curr_window ;;
     EXPIRE prev_key (fmul window (of_Z 2)) ;;
     EXPIRE curr_key (fmul window (of_Z 2)) ;;
     EXPIRE idx_key (fmul window (of_Z 2))).

(** Lines 39-59: the weighted estimate, the verdict and its stores. *)
Definition judge (curr_key prev_key idx_key : string)
    (limit window now cost curr_window prev_count curr_count : float) : Script (list float) :=
  let window_start := fmul curr_window window in
  let elapsed := fsub now window_start in
  let weight := fsub (of_Z 1) (fdiv elapsed window) in
  let estimate := fadd (fmul prev_count weight) curr_count in
  if fltb limit (fadd estimate cost) then
    mret [of_Z 0; math_max (of_Z 0) (ffloor (fsub limit estimate));
          fadd window_start window; fceil (fsub window elapsed)]
  else
    SET curr_key (fadd curr_count cost) ;;
    EXPIRE curr_key (fmul window (of_Z 2)) ;;
    EXPIRE prev_key (fmul window (of_Z 2)) ;;
    EXPIRE idx_key (fmul window (of_Z 2)) ;;
    mret [of_Z 1; math_max (of_Z 0) (ffloor (fsub limit (fadd estimate cost)));
          fadd window_start window; of_Z 0].

Definition sliding_window (curr_key prev_key idx_key : string)
    (limit window now cost : float) : Script (list float) :=
  let curr_window := ffloor (fdiv now window) in
  stored_window ← GET idx_key;
  roll curr_key prev_key idx_key window curr_window stored_window ;;
  prev_count ← GET_or_0 prev_key;
  curr_count ← GET_or_0 curr_key;
  judge curr_key prev_key idx_key limit window now cost curr_window prev_count curr_count.

(** ** Running a script by name *)

(** A script called with other numbers of keys or arguments than it reads
    finds [nil] in their place and fails. *)
Definition run_script (n : script_name) (KEYS : list string) (ARGV : list float) :
    Script (list float) :=
  match n, KEYS, ARGV with
  | token_bucket_lua, [key], [capacity; refill_rate; now_ms; cost] =>
      token_bucket key capacity refill_rate now_ms cost
  | sliding_window_lua, [curr_key; prev_key; idx_key], [limit; window; now; cost] =>
      sliding_window curr_key prev_key idx_key limit window now cost
  | _, _, _ => script_error "attempt to perform arithmetic on a nil value"
  end.

(** [EVALSHA sha numkeys KEYS ARGV]: the reply holds integers. *)
Definition EvalSha (sha : string) (KEYS : list string) (ARGV : list float) :
    Script (list Z) := fun s =>
  match scripts s sha with
  | None => (Err "NOSCRIPT No matching script. Please use EVAL.", s)
  | Some n => (reply ← run_script n KEYS ARGV; mret (map reply_integer reply)) s
  end.

End Scripts.
