(* ===== verification/Locality.v ===== *)
(** What a script can see and change: only the keys it is given.

    [OnlyKeys K m] is closed under the monad's operations and holds of every
    command on a key of [K], so the instances below derive it for the scripts
    by resolution.  It gives both a frame property (no other key changes) and
    non-interference (the result depends on no other key). *)

From stdpp Require Import base gmap strings list.
From Stdlib Require Import ZArith Lia.
From S2P Require Import Prelude Float64 Redis LuaScripts.

Local Open Scope Z_scope.

Section OnlyKeys.
Context `{RedisServer}.

Class OnlyKeys (K : list string) {A} (m : Script A) : Prop := {
  ok_frame s : framed K s (snd (m s));
  ok_agree s1 s2 : agree K s1 s2 -> fst (m s1) = fst (m s2) /\ agree K (snd (m s1)) (snd (m s2))
}.

Lemma framed_agree K K' s s' : framed K s s' -> (forall k, k ∈ K' -> k ∉ K) -> agree K' s' s.
Proof. intros [H1 C1 S1] Hd. constructor; auto. Qed.

(** Every command on a key of [K] qualifies. *)
Lemma acts_on_only K k {A} (eff : effect A) (m : Script A) :
  acts_on clock look scripts k eff m -> k ∈ K -> OnlyKeys K m.
Proof.
  intros Hm Hk. constructor.
  - intros s. destruct (Hm s) as (_ & _ & Ho & Hc & Hs). constructor; [|done|done].
    intros k' Hk'. apply Ho. set_solver.
  - intros s1 s2 [Ak Ac As]. destruct (Hm s1) as (R1 & L1 & O1 & C1 & S1).
    destruct (Hm s2) as (R2 & L2 & O2 & C2 & S2). rewrite (Ak k Hk), Ac in R1, L1.
    split; [congruence|]. constructor; [|congruence|].
    + intros k' Hk'. destruct (decide (k' = k)) as [->|Hne]; [congruence|].
      rewrite O1, O2 by done. by apply Ak.
    + intros sha. by rewrite S1, S2.
Qed.

End OnlyKeys.

(** ** The monad *)

Section Monad.
Context `{RedisServer}.

#[export] Instance only_ret K A (a : A) : OnlyKeys K (mret (M := Script) a).
Proof. constructor; [intros s; apply framed_refl|done]. Qed.

#[export] Instance only_error K A e : OnlyKeys K (script_error (A := A) e).
Proof. constructor; [intros s; apply framed_refl|done]. Qed.

#[export] Instance only_bind K A B (m : Script A) (f : A -> Script B) :
  OnlyKeys K m -> (forall a, OnlyKeys K (f a)) -> OnlyKeys K (m ≫= f).
Proof.
  intros [Fm Am] Hf. constructor.
  - intros s. unfold mbind, Script_bind. specialize (Fm s).
    destruct (m s) as [[a|e] s']; [|done]. simpl in Fm.
    eapply framed_trans; [exact Fm|]. apply (Hf a).
  - intros s1 s2 Hag. unfold mbind, Script_bind. destruct (Am s1 s2 Hag) as [He Ha].
    destruct (m s1) as [r1 t1], (m s2) as [r2 t2]. simpl in *. subst r2.
    destruct r1 as [a|e]; [|done]. by apply (Hf a).
Qed.

#[export] Instance only_when K c (m : Script unit) : OnlyKeys K m -> OnlyKeys K (when c m).
Proof. intros Hm. destruct c; [done|apply only_ret]. Qed.

End Monad.

(** The commands on a key that the list names. *)
Ltac command law := eapply acts_on_only; [apply law|set_solver].

#[export] Hint Extern 1 (OnlyKeys _ (GET _)) => command GET_law : typeclass_instances.
#[export] Hint Extern 1 (OnlyKeys _ (SET _ _)) => command SET_law : typeclass_instances.
#[export] Hint Extern 1 (OnlyKeys _ (HMGET2 _ _ _)) => command HMGET_law : typeclass_instances.
#[export] Hint Extern 1 (OnlyKeys _ (HSET2 _ _ _ _ _)) => command HSET_law : typeclass_instances.
#[export] Hint Extern 1 (OnlyKeys _ (EXPIRE _ _)) => command EXPIRE_law : typeclass_instances.

(** ** The scripts *)

Section Scripts.
Context `{RedisServer}.

#[export] Instance only_token_bucket key C rate now cost :
  OnlyKeys [key] (token_bucket key C rate now cost).
Proof.
  unfold token_bucket. apply only_bind; [apply _|]. intros data.
  destruct (refilled C rate now data); [|apply _].
  destruct (spend rate a cost) as [[? ?] ?]. apply _.
Qed.

#[export] Instance only_GET_or_0 K k : k ∈ K -> OnlyKeys K (GET_or_0 k).
Proof. intros Hk. unfold GET_or_0. apply only_bind; [command GET_law|apply _]. Qed.

#[export] Instance only_roll ck pk ik W w o : OnlyKeys [ck; pk; ik] (roll ck pk ik W w o).
Proof.
  assert (Hc : OnlyKeys [ck; pk; ik] (GET_or_0 ck)) by (apply only_GET_or_0; set_solver).
  unfold roll. apply only_when. apply only_bind; [|apply _].
  destruct o as [x|]; [destruct (feqb x _)|]; apply _.
Qed.

#[export] Instance only_sliding_window ck pk ik L W now cost :
  OnlyKeys [ck; pk; ik] (sliding_window ck pk ik L W now cost).
Proof.
  assert (Hc : OnlyKeys [ck; pk; ik] (GET_or_0 ck)) by (apply only_GET_or_0; set_solver).
  assert (Hp : OnlyKeys [ck; pk; ik] (GET_or_0 pk)) by (apply only_GET_or_0; set_solver).
  unfold sliding_window, judge. apply only_bind; [apply _|]. intros o.
  apply only_bind; [apply _|]. intros _. apply only_bind; [apply _|]. intros p.
  apply only_bind; [apply _|]. intros c. destruct (fltb L _); apply _.
Qed.

#[export] Instance only_run_script n KEYS ARGV : OnlyKeys KEYS (run_script n KEYS ARGV).
Proof. unfold run_script. repeat case_match; apply _. Qed.

Lemma only_EvalSha sha KEYS ARGV : OnlyKeys KEYS (EvalSha sha KEYS ARGV).
Proof.
  assert (Hrun : forall n, OnlyKeys KEYS
    (reply ← run_script n KEYS ARGV; mret (map reply_integer reply))) by (intros n; apply _).
  unfold EvalSha. constructor.
  - intros s. destruct (scripts s sha) as [n|]; [|apply framed_refl]. apply (Hrun n).
  - intros s1 s2 Hag. rewrite (ag_scripts _ _ _ Hag).
    destruct (scripts s2 sha) as [n|]; [|done]. by apply (Hrun n).
Qed.

End Scripts.
