(* ===== verification/History.v ===== *)
(** Histories of checks on one limiter, shared by the two algorithms: what
    each check asked and got, and the cost admitted. *)

From stdpp Require Import base list.
From Stdlib Require Import ZArith Lia.
From S2P Require Import Prelude.

Local Open Scope Z_scope.

(** One check of a history: the caller's clock, the cost, the verdict. *)
Record check := { c_now : Z; c_cost : Z; c_allowed : bool }.

(** The cost admitted by the checks of a history at the instants [p] selects. *)
Definition admitted_where (p : Z -> bool) (l : list check) : Z :=
  sumZ (map (fun c => if c_allowed c && p (c_now c) then c_cost c else 0) l).

Definition admitted (l : list check) : Z := admitted_where (fun _ => true) l.

(** ** Lemmas *)

Lemma admitted_where_snoc p l c :
  admitted_where p (l ++ [c]) =
    admitted_where p l + if c_allowed c && p (c_now c) then c_cost c else 0.
Proof. unfold admitted_where. rewrite map_app, sumZ_app. f_equal. apply Z.add_0_r. Qed.

Lemma admitted_where_nonneg p l : Forall (fun c => 0 <= c_cost c) l -> 0 <= admitted_where p l.
Proof.
  intros H. apply sumZ_nonneg. apply Forall_map. eapply Forall_impl; [exact H|].
  intros c Hc. cbn beta in *. destruct (c_allowed c), (p (c_now c)); simpl; lia.
Qed.

(** Selecting with [p] counts no more than with [q] and [r] together. *)
Lemma admitted_where_cover p q r l : Forall (fun c => 0 <= c_cost c) l ->
  (forall c, c ∈ l -> p (c_now c) = true -> q (c_now c) = true \/ r (c_now c) = true) ->
  admitted_where p l <= admitted_where q l + admitted_where r l.
Proof.
  intros Hl Hp. unfold admitted_where. induction Hl as [|c l Hc Hl IH]; simpl; [lia|].
  assert (IH' : forall c', c' ∈ l -> p (c_now c') = true -> q (c_now c') = true \/ r (c_now c') = true)
    by (intros c' Hin; apply Hp; by right).
  specialize (IH IH'). specialize (Hp c (list_elem_of_here c l)).
  destruct (c_allowed c), (p (c_now c)), (q (c_now c)), (r (c_now c)); simpl;
    try lia; destruct (Hp eq_refl); discriminate.
Qed.

Lemma admitted_where_none p l : (forall c, c ∈ l -> p (c_now c) = false) -> admitted_where p l = 0.
Proof.
  intros Hp. unfold admitted_where. induction l as [|c l IH]; simpl; [done|].
  rewrite (Hp c (list_elem_of_here c l)), andb_false_r. apply IH. intros c' Hin. apply Hp. by right.
Qed.
