(* ===== verification/TokenBucket.v ===== *)
(** The token bucket script: what one run does to its key and what the
    caller is told, with doubles rounded as the server rounds them. *)

From stdpp Require Import base gmap strings list.
From Stdlib Require Import ZArith Lia.
From S2P Require Import Prelude Float64 Redis LuaScripts.

Local Open Scope Z_scope.

(** The parameters of a bucket the limiter serves: an [INT] capacity, a
    positive finite rate not below the smallest positive [NUMERIC(10, 2)],
    and a time to live that [EXPIRE] accepts. *)
Record bucket_params (C : Z) (rate : float) : Prop := {
  bp_capacity : 1 <= C <= 2 ^ 31;
  bp_rate_fin : fin rate;
  bp_rate_min : one <= 128 * sval rate;
  bp_rate_max : sval rate <= 2 ^ 31 * one;
  bp_ttl : C * one <= (10 ^ 8 - 100) * sval rate
}.

Section TokenBucket.
Context `{RedisServer} (key : string) (C : Z) (rate : float).

(** The seconds the key lives after a check. *)
Definition bucket_ttl : Z := - (- sval (fdiv (of_Z C) rate) / one) + 60.

(** What [HMGET] finds is absent, or a bucket holding between nothing and the
    capacity, last refilled at a plausible time. *)
Definition data_ok (data : option float * option float) : Prop :=
  fst data = None \/
  exists t last L, data = (Some t, Some last) /\ fin t /\ 0 <= sval t <= C * one /\
    is_int last L /\ 0 <= L <= 2 ^ 52.

Definition hash_data (h : gmap string float) : option float * option float :=
  (h !! "tokens", h !! "last_refill_ms").

Definition stored (s : redis) : option float * option float :=
  match look s key with
  | Some {| e_val := RHash h |} => hash_data h
  | _ => (None, None)
  end.

(** The key is missing or holds a well-formed bucket. *)
Definition bucket_ok (s : redis) : Prop :=
  match look s key with
  | None => True
  | Some e => exists h, e_val e = RHash h /\ data_ok (hash_data h)
  end.

Definition tokens_now (s : redis) (now : Z) : float :=
  match refilled (of_Z C) rate (of_Z now) (stored s) with Ok a => a | Err _ => of_Z 0 end.

(** The bucket a check at [now] leaves behind. *)
Definition next_tokens (a : float) (cost : Z) : float :=
  if fleb (of_Z cost) a then fsub a (of_Z cost) else a.

Definition after_check (s : redis) (now : Z) (t : float) (s' : redis) : Prop :=
  framed [key] s s' /\
  exists h, look s' key = Some {| e_val := RHash h; e_expire := Some (clock s + 1000 * bucket_ttl) |} /\
    hash_data h = (Some t, Some (of_Z now)).

(** ** The quantities of the script *)

Context (HP : bucket_params C rate).

Lemma cap_int : is_int (of_Z C) C.
Proof. apply of_Z_int. destruct HP. lia. Qed.

Lemma rate_pos : 0 < sval rate.
Proof. destruct HP. pose proof one_pos. lia. Qed.

Lemma zero_int : is_int (of_Z 0) 0.
Proof. apply of_Z_int. lia. Qed.

Lemma rate_positive_test : fltb (of_Z 0) rate = true.
Proof.
  pose proof rate_pos. rewrite fltb_spec; [|apply zero_int|apply HP].
  rewrite (proj2 zero_int). apply Z.ltb_lt. lia.
Qed.

Lemma elapsed_int now last L : 0 <= now <= 2 ^ 52 -> is_int last L -> 0 <= L <= 2 ^ 52 ->
  is_int (math_max (of_Z 0) (fsub (of_Z now) last)) (Z.max 0 (now - L)).
Proof.
  intros Hn HL HLb. apply is_int_max; [apply zero_int|].
  apply is_int_sub; [apply of_Z_int; lia|done|lia].
Qed.

Lemma seconds_rounds el E : is_int el E -> 0 <= E <= 2 ^ 52 ->
  rounds (E * one * one) (1000 * one) (fdiv el (of_Z 1000)) /\
  close (E * one * one) (1000 * one) (fdiv el (of_Z 1000)) /\
  0 <= sval (fdiv el (of_Z 1000)) <= E * one.
Proof.
  intros [Hf Hs] HE. pose proof one_pos as Hone.
  destruct (of_Z_int 1000) as [Hkf Hks]; [lia|].
  destruct (fdiv_rounds el (of_Z 1000) Hf Hkf) as [Hr Hc].
  - rewrite Hks. lia.
  - rewrite Hs, Hks. rewrite Z.abs_eq by nia.
    apply Z.le_trans with (big * one); [|apply Z.mul_le_mono_nonneg_l; [pose proof big_one; nia|lia]].
    apply Z.mul_le_mono_nonneg_r; [lia|]. apply below_big.
    apply Z.mul_le_mono_nonneg_r; lia.
  - rewrite Hs, Hks in Hr, Hc. split; [done|]. split; [done|]. split.
    + apply (rounds_nonneg _ _ _ Hr). nia.
    + apply (rounds_le_int _ _ _ _ Hr); [lia|]. nia.
Qed.

Definition refill_of (el : float) : float := fmul (fdiv el (of_Z 1000)) rate.

Lemma refill_rounds el E : is_int el E -> 0 <= E <= 2 ^ 52 ->
  rounds (sval (fdiv el (of_Z 1000)) * sval rate) one (refill_of el) /\
  close (sval (fdiv el (of_Z 1000)) * sval rate) one (refill_of el) /\
  0 <= sval (refill_of el) <= 2 ^ 83 * one.
Proof.
  intros Hel HE. pose proof one_pos as Hone. pose proof rate_pos as Hrp.
  destruct (seconds_rounds el E Hel HE) as (Hr & _ & Hq). set (q := fdiv el (of_Z 1000)) in *.
  destruct HP as [HC HRf HRmin HRmax _].
  assert (Hprod : 0 <= sval q * sval rate <= 2 ^ 83 * one * one).
  { split; [nia|]. apply Z.le_trans with ((2 ^ 52 * one) * (2 ^ 31 * one)).
    - apply Z.mul_le_mono_nonneg; try lia. nia.
    - change (2 ^ 83) with (2 ^ 52 * 2 ^ 31). lia. }
  destruct (fmul_rounds q rate (proj1 Hr) HRf) as [Hm Hc].
  - rewrite Z.abs_eq by lia. apply Z.le_trans with (2 ^ 83 * one * one); [lia|].
    apply Z.mul_le_mono_nonneg_r; [lia|]. apply below_big, Z.mul_le_mono_nonneg_r; lia.
  - split; [done|]. split; [done|]. split.
    + apply (rounds_nonneg _ _ _ Hm). lia.
    + apply (rounds_le_pow _ _ _ 83 Hm); lia.
Qed.

Lemma topped_up t el E : fin t -> 0 <= sval t <= C * one -> is_int el E -> 0 <= E <= 2 ^ 52 ->
  rounds (sval t + sval (refill_of el)) 1 (fadd t (refill_of el)) /\
  close (sval t + sval (refill_of el)) 1 (fadd t (refill_of el)).
Proof.
  intros Ht Htb Hel HE. destruct (refill_rounds el E Hel HE) as (Hr & _ & Hb).
  pose proof one_pos. apply fadd_rounds; [done|apply Hr|].
  rewrite Z.abs_eq by lia. apply below_big. destruct HP as [HC _ _ _ _].
  assert (C * one <= 2 ^ 31 * one) by (apply Z.mul_le_mono_nonneg_r; lia). nia.
Qed.

(** The available tokens never exceed the capacity and are never negative. *)
Lemma refilled_ok now data : 0 <= now <= 2 ^ 52 -> data_ok data ->
  exists a, refilled (of_Z C) rate (of_Z now) data = Ok a /\ fin a /\ 0 <= sval a <= C * one.
Proof.
  intros Hn Hd. pose proof one_pos. destruct cap_int as [Hcf Hcs].
  assert (Hcap : 0 <= C * one) by (destruct HP; nia).
  destruct Hd as [Hnone|(t & last & L & -> & Ht & Htb & HL & HLb)].
  - destruct data as [[t|] last]; [done|]. exists (of_Z C). simpl. split; [done|]. split; [done|lia].
  - simpl. eexists. split; [done|].
    pose proof (elapsed_int now last L Hn HL HLb) as Hel.
    set (el := math_max _ _) in *. change (fmul (fdiv el (of_Z 1000)) rate) with (refill_of el).
    destruct (topped_up t el _ Ht Htb Hel ltac:(lia)) as [Hr _].
    destruct (refill_rounds el _ Hel ltac:(lia)) as (_ & _ & Hp).
    pose proof (rounds_nonneg _ _ _ Hr ltac:(lia)) as Hpos.
    destruct (math_min_sval (of_Z C) (fadd t (refill_of el)) Hcf (proj1 Hr)) as [Hmf Hms].
    split; [done|]. rewrite Hms, Hcs. lia.
Qed.

Lemma ttl_quotient :
  fin (fdiv (of_Z C) rate) /\ 0 <= sval (fdiv (of_Z C) rate) <= (10 ^ 8 - 100) * one /\
  rounds (C * one * one) (sval rate) (fdiv (of_Z C) rate) /\
  close (C * one * one) (sval rate) (fdiv (of_Z C) rate).
Proof.
  pose proof one_pos. pose proof rate_pos. destruct cap_int as [Hcf Hcs].
  destruct HP as [HC HRf HRmin HRmax HT].
  destruct (fdiv_rounds (of_Z C) rate Hcf HRf) as [Hr Hc]; [done| |].
  - rewrite Hcs, Z.abs_eq by nia.
    apply Z.le_trans with ((10 ^ 8 - 100) * sval rate * one); [nia|].
    replace ((10 ^ 8 - 100) * sval rate * one) with ((10 ^ 8 - 100) * one * sval rate) by ring.
    apply Z.mul_le_mono_nonneg_r; [lia|]. apply below_big, Z.mul_le_mono_nonneg_r; lia.
  - rewrite Hcs in Hr, Hc. split; [apply Hr|]. split; [|done]. split.
    + apply (rounds_nonneg _ _ _ Hr). nia.
    + apply (rounds_le_int _ _ _ _ Hr); [lia|]. nia.
Qed.

Lemma ttl_int :
  is_int (fadd (fceil (fdiv (of_Z C) rate)) (of_Z 60)) bucket_ttl /\ 60 <= bucket_ttl < 10 ^ 8.
Proof.
  destruct ttl_quotient as (Hf & Hb & _). pose proof one_pos. unfold bucket_ttl.
  set (q := sval (fdiv (of_Z C) rate)) in *.
  assert (Hc : 0 <= - (- q / one) <= 10 ^ 8 - 100).
  { split.
    - enough (- q / one <= 0) by lia. apply Z.div_le_upper_bound; lia.
    - enough (- (10 ^ 8 - 100) <= - q / one) by lia. apply Z.div_le_lower_bound; lia. }
  split; [|lia]. apply is_int_add; [by apply fceil_spec|apply of_Z_int; lia|lia].
Qed.

(** ** One run of the script *)

Lemma hash_data_insert (h : gmap string float) t n :
  hash_data (<["last_refill_ms" := n]> (<["tokens" := t]> h)) = (Some t, Some n).
Proof. unfold hash_data. by rewrite lookup_insert_ne, !lookup_insert_eq. Qed.

Lemma HMGET_stored s : bucket_ok s ->
  exists s', HMGET2 key "tokens" "last_refill_ms" s = (Ok (stored s), s') /\
    look s' key = look s key /\ framed [key] s s' /\ data_ok (stored s).
Proof.
  intros Hok. unfold bucket_ok, stored in *.
  destruct (HMGET_effect "tokens" "last_refill_ms" (look s key) (clock s)) as [r e'] eqn:E.
  destruct (acts_run key _ _ s r e' (HMGET_law key "tokens" "last_refill_ms") E) as (s' & Hm & Hl & Hf).
  exists s'. rewrite Hm, Hl. unfold HMGET_effect in E.
  destruct (look s key) as [[v x]|]; [|simplify_eq; split; [done|]; split; [done|]; split; [done|by left]].
  destruct Hok as (h & Hv & Hd). simpl in Hv. subst v. by simplify_eq.
Qed.

Lemma HSET_after s now t : bucket_ok s ->
  exists h x s1, HSET2 key "tokens" t "last_refill_ms" (of_Z now) s = (Ok tt, s1) /\
    hash_data h = (Some t, Some (of_Z now)) /\
    look s1 key = Some {| e_val := RHash h; e_expire := x |} /\ framed [key] s s1.
Proof.
  intros Hok. unfold bucket_ok in Hok.
  destruct (HSET_effect "tokens" t "last_refill_ms" (of_Z now) (look s key) (clock s)) as [r e'] eqn:E.
  destruct (acts_run key _ _ s r e' (HSET_law key "tokens" t "last_refill_ms" (of_Z now)) E)
    as (s1 & Hm & Hl & Hf).
  unfold HSET_effect in E. destruct (look s key) as [[v x]|].
  - destruct Hok as (h & Hv & _). simpl in Hv. subst v. injection E as <- <-.
    eexists _, _, s1. split; [done|]. split; [|split; [exact Hl|done]]. apply hash_data_insert.
  - injection E as <- <-. eexists _, _, s1. split; [done|]. split; [|split; [exact Hl|done]].
    apply (hash_data_insert ∅).
Qed.

Lemma token_bucket_run s now cost : bucket_ok s -> 0 <= now <= 2 ^ 52 ->
  exists s', after_check s now (next_tokens (tokens_now s now) cost) s' /\
    let a := tokens_now s now in
    let '(allowed, t, retry_after) := spend rate a (of_Z cost) in
    token_bucket key (of_Z C) rate (of_Z now) (of_Z cost) s =
      (Ok [allowed; ffloor t; refill_time (of_Z C) rate (of_Z now) t; retry_after], s') /\
    fin a /\ 0 <= sval a <= C * one.
Proof.
  intros Hok Hn. destruct (HMGET_stored s Hok) as (s0 & Hget & Hl0 & Hf0 & Hd).
  destruct (refilled_ok now _ Hn Hd) as (a & Ha & Haf & Hab).
  unfold tokens_now. rewrite Ha.
  assert (Ht : snd (fst (spend rate a (of_Z cost))) = next_tokens a cost).
  { unfold spend, next_tokens. by destruct (fleb (of_Z cost) a). }
  destruct (spend rate a (of_Z cost)) as [[allowed t] retry_after] eqn:Hsp. simpl in Ht. subst t.
  assert (Hok0 : bucket_ok s0) by (unfold bucket_ok; by rewrite Hl0).
  destruct (HSET_after s0 now (next_tokens a cost) Hok0) as (h & x & s1 & Hset & Hh & Hl & Hf1).
  destruct ttl_int as [Hti Htb].
  destruct (EXPIRE_run s1 key _ _ bucket_ttl Hl Hti ltac:(lia)) as (s2 & Hexp & Hl2 & Hf2).
  assert (Hf : framed [key] s s2) by (do 2 (eapply framed_trans; [|done]); done).
  exists s2. split.
  { split; [done|]. exists h. split; [|done]. rewrite Hl2. simpl.
    by rewrite (fr_clock _ _ _ Hf1), (fr_clock _ _ _ Hf0). }
  split; [|done]. unfold token_bucket. rewrite (bind_ok _ _ _ _ _ Hget). rewrite Ha, Hsp.
  rewrite (bind_ok _ _ _ _ _ Hset). rewrite rate_positive_test. unfold when.
  by rewrite (bind_ok _ _ _ _ _ Hexp).
Qed.

(** ** What one check decides *)

Lemma next_tokens_sval a cost : fin a -> 0 <= sval a <= C * one -> 0 <= cost <= 2 ^ 45 ->
  fin (next_tokens a cost) /\
  sval (next_tokens a cost) = if cost * one <=? sval a then sval a - cost * one else sval a.
Proof.
  intros Ha Hb Hc. destruct (of_Z_int cost) as [Hcf Hcs]; [lia|].
  unfold next_tokens. rewrite fleb_spec, Hcs by done.
  destruct (Z.leb_spec (cost * one) (sval a)); [|done].
  destruct HP as [HC _ _ _ _]. pose proof one_pos. apply fsub_int_exact; nia || done.
Qed.

Lemma next_tokens_bounds a cost : fin a -> 0 <= sval a <= C * one -> 0 <= cost <= 2 ^ 45 ->
  fin (next_tokens a cost) /\ 0 <= sval (next_tokens a cost) <= C * one.
Proof.
  intros Ha Hb Hc. destruct (next_tokens_sval a cost Ha Hb Hc) as [Hf ->]. split; [done|].
  pose proof one_pos. destruct (Z.leb_spec (cost * one) (sval a)); nia.
Qed.

Lemma after_check_stored s now t s' : after_check s now t s' ->
  stored s' = (Some t, Some (of_Z now)).
Proof. intros (_ & h & Hl & Hh). unfold stored. by rewrite Hl. Qed.

Lemma after_check_ok s now t s' : after_check s now t s' -> 0 <= now <= 2 ^ 52 ->
  fin t -> 0 <= sval t <= C * one -> bucket_ok s'.
Proof.
  intros (_ & h & Hl & Hh) Hn Hf Ht.
  unfold bucket_ok. rewrite Hl. exists h. split; [done|]. rewrite Hh. right.
  exists t, (of_Z now), now. repeat split; auto; try lia; apply of_Z_int; lia.
Qed.

(** Waiting [w] seconds brings [D] units, up to the roundings of the quotient
    and of the difference. *)
Definition covers (D w : Z) : Prop :=
  (2 ^ 52 - 1) * (2 ^ 52 - 1) * D <= 2 ^ 104 * (w * sval rate) + 2 ^ 136.

Lemma quotient_covers D d q w : 0 <= sval d -> 0 <= D -> 0 <= w ->
  close D 1 d -> close (sval d * one) (sval rate) q -> sval q <= w * one -> covers D w.
Proof.
  unfold close, covers. intros Hd HD Hw0 Hc Hq Hw. pose proof one_pos. pose proof rate_pos.
  destruct HP as [_ _ _ HRmax _]. set (R := sval rate) in *.
  rewrite (Z.abs_eq D) in Hc by lia. rewrite (Z.abs_eq (sval d * one)) in Hq by nia.
  assert (HqR : sval q * R <= one * (w * R)) by nia.
  assert (Hdw : (2 ^ 52 - 1) * sval d <= 2 ^ 52 * (w * R) + 2 ^ 83).
  { apply (Z.mul_le_mono_pos_r _ _ one); [lia|]. assert (0 <= one * (w * R)) by nia. lia. }
  lia.
Qed.

(** [ceil((x - t) / rate)]: a number of seconds the reply can carry, at
    least one when [t < x]. *)
Lemma wait_int x X t : is_int x X -> 0 <= X <= 2 ^ 45 -> fin t -> 0 <= sval t <= X * one ->
  exists w, is_int (fceil (fdiv (fsub x t) rate)) w /\ 0 <= w <= 2 ^ 52 /\
    (sval t < X * one -> 1 <= w) /\ covers (X * one - sval t) w.
Proof.
  intros [Hxf Hxs] HX Ht Htb. pose proof one_pos. pose proof rate_pos.
  destruct HP as [_ HRf HRmin HRmax _].
  destruct (fsub_rounds x t Hxf Ht) as [Hd Hdc].
  { rewrite Hxs. apply Z.le_trans with (2 ^ 45 * one); [nia|apply below_big; nia]. }
  rewrite Hxs in Hd, Hdc. pose proof (rounds_nonneg _ _ _ Hd ltac:(lia)) as Hdn.
  pose proof (rounds_le_int _ _ _ X Hd ltac:(lia) ltac:(lia)) as Hdu.
  set (d := fsub x t) in *.
  assert (Hq0 : sval d * one <= 2 ^ 52 * one * sval rate).
  { apply Z.le_trans with (2 ^ 45 * one * one); [nia|].
    replace (2 ^ 52 * one * sval rate) with (2 ^ 45 * one * (128 * sval rate)) by ring.
    apply Z.mul_le_mono_nonneg_l; lia. }
  destruct (fdiv_rounds d rate (proj1 Hd) HRf) as [Hq Hqc]; [done| |].
  { rewrite Z.abs_eq by nia. apply Z.le_trans with (1 := Hq0).
    apply Z.mul_le_mono_nonneg_r; [lia|]. apply below_big. lia. }
  pose proof (rounds_le_int _ _ _ (2 ^ 52) Hq ltac:(lia) Hq0) as Hqu.
  pose proof (rounds_nonneg _ _ _ Hq ltac:(nia)) as Hqn.
  exists (- (- sval (fdiv d rate) / one)). split; [by apply fceil_spec, Hq|].
  pose proof (Z.mul_div_le (- sval (fdiv d rate)) one ltac:(lia)).
  assert (Hw0 : 0 <= - (- sval (fdiv d rate) / one) <= 2 ^ 52).
  { split.
    - enough (- sval (fdiv d rate) / one <= 0) by lia. apply Z.div_le_upper_bound; lia.
    - enough (- 2 ^ 52 <= - sval (fdiv d rate) / one) by lia. apply Z.div_le_lower_bound; lia. }
  split; [done|]. split; [|apply (quotient_covers _ d (fdiv d rate)); auto; lia].
  intros Hlt. enough (1 <= sval (fdiv d rate)) by nia.
  destruct (fin_scaled (2 ^ 31) (-1074)) as (f & Hf & Hs); [lia|lia|].
  destruct (fin_scaled 1 (-1074)) as (g & Hg & Hgs); [lia|lia|].
  pose proof (double_gap t X Ht ltac:(nia) Hlt) as Hgap.
  assert (Hd31 : 2 ^ 31 <= sval d).
  { change (2 ^ 31) with (2 ^ 31 * 2 ^ (-1074 + 1074)). rewrite <- Hs.
    apply (rounds_ge_double _ _ _ f Hd Hf). rewrite Hs. change (2 ^ (-1074 + 1074)) with 1. lia. }
  change 1 with (1 * 2 ^ (-1074 + 1074)). rewrite <- Hgs.
  apply (rounds_ge_double _ _ _ g Hq Hg). rewrite Hgs. change (1 * 2 ^ (-1074 + 1074)) with 1. nia.
Qed.

(** The last element of the reply, for a bucket holding [t] at [now]. *)
Lemma refill_time_int now t : 0 <= now <= 2 ^ 50 -> fin t -> 0 <= sval t <= C * one ->
  exists w, is_int (refill_time (of_Z C) rate (of_Z now) t) (now / 1000 + w) /\ 0 <= w <= 2 ^ 52 /\
    (w = 0 <-> sval t = C * one) /\ now / 1000 + w <= 2 ^ 53.
Proof.
  intros Hn Ht Htb. pose proof one_pos. destruct cap_int as [Hcf Hcs].
  assert (Hnow : is_int (ffloor (fdiv (of_Z now) (of_Z 1000))) (now / 1000))
    by (apply floor_div_int; [apply of_Z_int; lia|apply of_Z_int; lia|lia|lia|lia]).
  assert (Hnb : 0 <= now / 1000 <= 2 ^ 50).
  { split; [apply Z.div_pos; lia|]. apply Z.div_le_upper_bound; lia. }
  unfold refill_time. rewrite rate_positive_test, (fltb_spec _ _ Ht Hcf), Hcs. simpl.
  destruct HP as [HC _ _ _ _].
  destruct (Z.ltb_spec (sval t) (C * one)) as [Hlt|Hge].
  - destruct (wait_int (of_Z C) C t cap_int ltac:(lia) Ht ltac:(lia)) as (w & Hw & Hwb & Hw1 & _).
    specialize (Hw1 Hlt). exists w. split; [|lia]. apply is_int_add; [done|done|lia].
  - exists 0. rewrite Z.add_0_r. split; [done|lia].
Qed.

(** Whether a check at [now] for [cost] is admitted. *)
Definition admits (s : redis) (now cost : Z) : bool := cost * one <=? sval (tokens_now s now).

(** The verdict of the script, as integers. *)
Lemma spend_verdict a cost : fin a -> 0 <= sval a <= C * one -> 1 <= cost <= 2 ^ 45 ->
  exists x r, spend rate a (of_Z cost) =
      (of_Z (Z.b2z (cost * one <=? sval a)), next_tokens a cost, x) /\
    is_int x r /\ 0 <= r <= 2 ^ 52 /\ 
    (if cost * one <=? sval a then r = 0 else 1 <= r /\ covers (cost * one - sval a) r).
Proof.
  intros Ha Hab Hc. destruct (of_Z_int cost) as [Hcf Hcs]; [lia|].
  unfold spend, next_tokens. rewrite (fleb_spec _ _ Hcf Ha), Hcs.
  destruct (Z.leb_spec (cost * one) (sval a)) as [Hle|Hgt].
  - exists (of_Z 0), 0. split; [done|]. split; [apply zero_int|lia].
  - destruct (wait_int (of_Z cost) cost a (conj Hcf Hcs) ltac:(lia) Ha ltac:(lia)) as (r & Hr & Hrb & Hr1 & Hcov).
    rewrite rate_positive_test. exists (fceil (fdiv (fsub (of_Z cost) a) rate)), r.
    split; [done|]. split; [done|]. split; [done|auto].
Qed.

(** What a check on a well-formed bucket does: it touches only its key and
    keeps the bucket well formed; it admits exactly when the refilled bucket
    covers the cost, takes exactly the cost, and replies the whole tokens
    left, the instant the bucket is full again and the advised wait. *)
Record verdict (s : redis) (now cost : Z) (reply : list Z) (s' : redis) : Prop := {
  vd_ok : bucket_ok s';
  vd_frame : framed [key] s s';
  vd_avail : 0 <= sval (tokens_now s now) <= C * one;
  vd_reply : exists t w retry_after,
    stored s' = (Some t, Some (of_Z now)) /\ fin t /\ 0 <= sval t <= C * one /\
    sval t = (if admits s now cost then sval (tokens_now s now) - cost * one
              else sval (tokens_now s now)) /\
    reply = [Z.b2z (admits s now cost); sval t / one; now / 1000 + w; retry_after] /\
    0 <= w /\ (w = 0 <-> sval t = C * one) /\
    if admits s now cost then retry_after = 0
    else 1 <= retry_after /\ covers (cost * one - sval (tokens_now s now)) retry_after
}.

Lemma token_bucket_verdict s now cost :
  bucket_ok s -> 0 <= now <= 2 ^ 50 -> 1 <= cost <= 2 ^ 45 ->
  exists s' reply, token_bucket key (of_Z C) rate (of_Z now) (of_Z cost) s = (Ok reply, s') /\
    after_check s now (next_tokens (tokens_now s now) cost) s' /\
    verdict s now cost (map reply_integer reply) s'.
Proof.
  intros Hok Hn Hc. pose proof one_pos.
  destruct (token_bucket_run s now cost Hok ltac:(lia)) as (s' & Haft & Hrun).
  unfold admits in *. set (a := tokens_now s now) in *. set (t := next_tokens a cost) in *.
  assert (Hab : fin a /\ 0 <= sval a <= C * one) by (destruct (spend _ _ _) as [[? ?] ?]; tauto).
  destruct Hab as [Haf Hab]. cbv zeta in Hrun.
  destruct (spend_verdict a cost Haf Hab Hc) as (x & r & Hsp & Hx & Hrb & Hra).
  rewrite Hsp in Hrun. destruct Hrun as [Hrun _].
  destruct (next_tokens_sval a cost Haf Hab ltac:(lia)) as [Htf Hts].
  destruct (next_tokens_bounds a cost Haf Hab ltac:(lia)) as [_ Htb]. fold t in Htf, Hts, Htb, Hrun.
  destruct (refill_time_int now t Hn Htf Htb) as (w & Hw & Hwb & Hwz & Hwm).
  assert (Hfl : 0 <= sval t / one <= C)
    by (split; [apply Z.div_pos; lia|apply Z.div_le_upper_bound; lia]).
  assert (Hnp : 0 <= now / 1000) by (apply Z.div_pos; lia).
  assert (HC : 1 <= C <= 2 ^ 31) by apply HP.
  exists s'. eexists. split; [exact Hrun|]. split; [done|]. cbn [map].
  rewrite (reply_integer_int _ (Z.b2z (cost * one <=? sval a)))
    by (try apply of_Z_int; destruct (cost * one <=? sval a); simpl; lia).
  rewrite (reply_integer_int _ _ (ffloor_spec t Htf)), (reply_integer_int _ _ Hw),
    (reply_integer_int _ _ Hx) by lia.
  constructor; [eapply after_check_ok; eauto; lia| |done|].
  - apply Haft.
  - exists t, w, r. split; [by eapply after_check_stored|]. repeat split; auto; lia.
Qed.

End TokenBucket.
