(* ===== verification/TokenBucketRun.v ===== *)
(** Histories of a token bucket: many checks on one key, from any number of
    processes whose clocks are within 30 seconds of the server's, while the
    server works on other keys and expires this one.

    The specification is the one of the algorithm: over any span of time the
    bucket admits its capacity plus the rate times the span, and a caller that
    waits as advised is served. *)

From stdpp Require Import base gmap strings list.
From Stdlib Require Import ZArith Lia.
From S2P Require Import Prelude Float64 Redis LuaScripts History TokenBucket.

Local Open Scope Z_scope.

(** The time the callers' clocks move forward along a history. *)
Fixpoint forward_time (from : Z) (l : list check) : Z :=
  match l with
  | [] => 0
  | c :: l' => Z.max 0 (c_now c - from) + forward_time (c_now c) l'
  end.

Definition elapsed_time (l : list check) : Z :=
  match l with [] => 0 | c :: l' => forward_time (c_now c) l' end.

Section History.
Context `{RedisServer} (key : string) (C : Z) (rate : float).

Definition skew : Z := 30000.

Inductive history : redis -> list check -> redis -> Prop :=
  | h_done s : history s [] s
  | h_other s s' l s'' : untouched key s s' -> history s' l s'' -> history s l s''
  | h_check s now cost reply s' l s'' :
      0 <= now <= 2 ^ 50 -> Z.abs (now - clock s) <= skew -> 1 <= cost <= 2 ^ 45 ->
      token_bucket key (of_Z C) rate (of_Z now) (of_Z cost) s = (Ok reply, s') ->
      history s' l s'' ->
      history s ({| c_now := now; c_cost := cost;
                    c_allowed := hd 0 (map reply_integer reply) =? 1 |} :: l) s''.

(** ** The bucket as time passes *)

Context (HP : bucket_params C rate).

(** The key as the check at [last] (server time [w]) left it, or expired. *)
Definition left_at (w last : Z) (t : float) (s : redis) : Prop :=
  (exists h, look s key = Some {| e_val := RHash h;
                                  e_expire := Some (w + 1000 * bucket_ttl C rate) |} /\
     hash_data h = (Some t, Some (of_Z last))) \/
  look s key = None /\ w + 1000 * bucket_ttl C rate < clock s.

Lemma after_check_left s now t s' : after_check key C rate s now t s' ->
  left_at (clock s) now t s'.
Proof. intros (_ & h & Hl & Hh). left. eauto. Qed.

Lemma untouched_left w last t s s' : untouched key s s' -> left_at w last t s -> left_at w last t s'.
Proof.
  intros Hu Hl. pose proof (proj1 Hu) as Hc. destruct Hl as [(h & Hl & Hh)|[Hn Hx]].
  - pose proof (untouched_some _ _ _ _ _ Hu Hl) as Hl'.
    destruct (Z.ltb_spec (w + 1000 * bucket_ttl C rate) (clock s')); [by right|left; eauto].
  - right. split; [by eapply untouched_none|lia].
Qed.

Lemma left_stored w last t s : left_at w last t s ->
  stored key s = (Some t, Some (of_Z last)) \/
  stored key s = (None, None) /\ w + 1000 * bucket_ttl C rate < clock s.
Proof.
  unfold stored. intros [(h & -> & Hd)|[-> Hx]]; [by left|by right].
Qed.

Lemma untouched_ok s s' : untouched key s s' -> bucket_ok key C s -> bucket_ok key C s'.
Proof.
  intros [_ Hl] Hok. unfold bucket_ok in *. rewrite Hl.
  destruct (look s key) as [e|]; [|done]. simpl. by destruct (expired_at (clock s') e).
Qed.

(** ** How much a bucket gains *)

(** Three roundings cost less than [2^-49] of the capacity. *)
Lemma refill_at_most last t now : fin t -> 0 <= sval t <= C * one ->
  0 <= last <= 2 ^ 52 -> 0 <= now <= 2 ^ 52 ->
  let el := math_max (of_Z 0) (fsub (of_Z now) (of_Z last)) in
  let a := math_min (of_Z C) (fadd t (refill_of rate el)) in
  2 ^ 49 * (1000 * sval a - 1000 * sval t - sval rate * Z.max 0 (now - last)) <= 1000 * (C * one).
Proof.
  intros Ht Htb Hl Hn el a. pose proof one_pos as Hone. set (D := Z.max 0 (now - last)).
  assert (Hel : is_int el D) by (apply elapsed_int; [lia|apply of_Z_int; lia|lia]).
  destruct (cap_int C rate HP) as [Hcf Hcs].
  destruct (seconds_rounds el D Hel ltac:(lia)) as (_ & Hq & Hqb).
  destruct (refill_rounds C rate HP el D Hel ltac:(lia)) as (_ & Hm & Hmb).
  destruct (topped_up C rate HP t el D Ht Htb Hel ltac:(lia)) as [Har Ha].
  destruct (math_min_sval (of_Z C) (fadd t (refill_of rate el)) Hcf (proj1 Har)) as [_ Has].
  fold a in Has. rewrite Hcs in Has.
  assert (Huse : sval rate * D < 1000 * (C * one) - 1000 * sval t \/
                 1000 * (C * one) - 1000 * sval t <= sval rate * D) by lia.
  destruct Huse as [Hsmall|]; [|lia].
  destruct HP as [HC _ HRmin HRmax _]. pose proof (rate_pos C rate HP).
  set (q := sval (fdiv el (of_Z 1000))) in *. set (m := sval (refill_of rate el)) in *.
  set (s := sval (fadd t (refill_of rate el))) in *. set (R := sval rate) in *. set (T := sval t) in *.
  assert (Hq' : 2 ^ 52 * (1000 * q) <= (2 ^ 52 + 1) * (D * one) + 1000 * 2 ^ 52).
  { unfold close in Hq. fold q in Hq.
    apply (Z.mul_le_mono_pos_r _ _ one); [lia|]. rewrite (Z.abs_eq (D * one * one)) in Hq by nia. lia. }
  assert (Hqr : 2 ^ 52 * (1000 * (q * R)) <= one * ((2 ^ 52 + 1) * (R * D) + 1000 * 2 ^ 83)).
  { apply Z.le_trans with (R * ((2 ^ 52 + 1) * (D * one) + 1000 * 2 ^ 52)); nia. }
  assert (Hm' : 2 ^ 104 * (1000 * m) <=
      (2 ^ 52 + 1) * ((2 ^ 52 + 1) * (R * D) + 1000 * 2 ^ 83) + 1000 * 2 ^ 104).
  { unfold close in Hm. fold q R m in Hm.
    rewrite (Z.abs_eq (q * R)) in Hm by nia. apply (Z.mul_le_mono_pos_r _ _ one); lia. }
  unfold close in Ha. fold s T m in Ha. rewrite (Z.abs_eq (T + m)) in Ha by lia.
  assert (HK : 2 ^ 200 <= C * one)
    by (assert (2 ^ 200 <= one) by (apply Z.pow_le_mono_r; lia); nia).
  lia.
Qed.

(** An expired bucket counts as full, and by then it would have been. *)
Lemma ttl_refills last now w clk :
  Z.abs (last - w) <= skew -> Z.abs (now - clk) <= skew -> w + 1000 * bucket_ttl C rate < clk ->
  2 ^ 49 * (1000 * (C * one) - sval rate * Z.max 0 (now - last)) <= 1000 * (C * one).
Proof.
  unfold skew. intros Hl Hn Hx. pose proof one_pos as Hone. pose proof (rate_pos C rate HP) as HR.
  destruct (ttl_quotient C rate HP) as (_ & Hqb & _ & Hc). unfold bucket_ttl in Hx.
  set (q := sval (fdiv (of_Z C) rate)) in *. destruct HP as [HC _ HRmin HRmax _].
  set (R := sval rate) in *. set (k := - (- q / one)) in *.
  pose proof (Z.mul_div_le (- q) one ltac:(lia)) as Hk.
  assert (Hk2 : q <= k * one) by (unfold k; lia).
  assert (Hd : 1000 * k <= Z.max 0 (now - last)) by lia.
  unfold close in Hc. fold q R in Hc. rewrite (Z.abs_eq (C * one * one)) in Hc by nia.
  assert (HqR : q * R <= one * (k * R)) by nia.
  assert (HkR : (2 ^ 52 - 1) * (C * one) <= 2 ^ 52 * (k * R) + 2 ^ 83).
  { apply (Z.mul_le_mono_pos_r _ _ one); [lia|]. lia. }
  assert (HDR : 1000 * (k * R) <= R * Z.max 0 (now - last)) by nia.
  assert (HK : 2 ^ 200 <= C * one)
    by (assert (2 ^ 200 <= one) by (apply Z.pow_le_mono_r; lia); nia).
  lia.
Qed.

Lemma gain_at_most w last t s now : left_at w last t s ->
  fin t -> 0 <= sval t <= C * one -> 0 <= last <= 2 ^ 52 -> 0 <= now <= 2 ^ 52 ->
  Z.abs (last - w) <= skew -> Z.abs (now - clock s) <= skew ->
  2 ^ 49 * (1000 * sval (tokens_now key C rate s now) - 1000 * sval t
            - sval rate * Z.max 0 (now - last)) <= 1000 * (C * one).
Proof.
  intros Hl Ht Htb Hlb Hnb Hlw Hnw. unfold tokens_now.
  destruct (left_stored _ _ _ _ Hl) as [->|[-> Hx]]; simpl.
  - by apply refill_at_most.
  - rewrite (proj2 (cap_int C rate HP)).
    pose proof (ttl_refills last now w (clock s) Hlw Hnw Hx). lia.
Qed.

(** ** Histories *)

Definition rate_bound (n : Z) (l : list check) (budget time : Z) : Prop :=
  2 ^ 49 * (1000 * (admitted l * one) - 1000 * budget - sval rate * time) <= n * (1000 * (C * one)).

Lemma hd_b2z (b : bool) l : (hd 0 (Z.b2z b :: l) =? 1) = b.
Proof. by destruct b. Qed.

(** One check, seen from the level the bucket was left at. *)
Lemma history_step s now cost reply s' : bucket_ok key C s ->
  0 <= now <= 2 ^ 50 -> 1 <= cost <= 2 ^ 45 ->
  token_bucket key (of_Z C) rate (of_Z now) (of_Z cost) s = (Ok reply, s') ->
  let a := tokens_now key C rate s now in
  let allowed := hd 0 (map reply_integer reply) =? 1 in
  exists t, left_at (clock s) now t s' /\ bucket_ok key C s' /\ fin t /\
    0 <= sval t <= C * one /\ 0 <= sval a <= C * one /\
    sval t = sval a - (if allowed then cost else 0) * one.
Proof.
  intros Hok Hn Hc Hrun a allowed.
  destruct (token_bucket_verdict key C rate HP s now cost Hok Hn Hc) as (s2 & r2 & Hr2 & Haft & V).
  rewrite Hrun in Hr2. injection Hr2 as <- <-.
  destruct V as [Hok' _ Hab (t & w & ra & Hst & Htf & Htb & Hts & Hrep & _)].
  pose proof (after_check_left _ _ _ _ Haft) as Hleft.
  pose proof (after_check_stored key C rate _ _ _ _ Haft) as Hst'.
  rewrite Hst in Hst'. injection Hst' as ->.
  exists (next_tokens a cost). repeat (split; [done|]). unfold a, allowed. rewrite Hts.
  rewrite Hrep, hd_b2z. destruct (admits key C rate s now cost); lia.
Qed.

Lemma history_from s l s' : history s l s' -> forall w last t,
  left_at w last t s -> bucket_ok key C s -> fin t -> 0 <= sval t <= C * one ->
  0 <= last <= 2 ^ 50 -> Z.abs (last - w) <= skew ->
  rate_bound (Z.of_nat (length l)) l (sval t) (forward_time last l).
Proof.
  unfold rate_bound. pose proof one_pos.
  induction 1 as [s|s s' l s'' Hu Hh IH|s now cost reply s' l s'' Hn Hclk Hc Hrun Hh IH];
    intros w last t Hl Hok Ht Htb Hlb Hlw.
  - unfold admitted, admitted_where. simpl. lia.
  - apply (IH w last t); auto; [by eapply untouched_left|by eapply untouched_ok].
  - destruct (history_step s now cost reply s' Hok Hn Hc Hrun)
      as (t' & Hl' & Hok' & Hf' & Hb' & Hab & Ht').
    specialize (IH _ _ _ Hl' Hok' Hf' Hb' Hn ltac:(lia)).
    pose proof (gain_at_most w last t s now Hl Ht Htb ltac:(lia) ltac:(lia) Hlw Hclk) as Hg.
    set (allowed := hd 0 (map reply_integer reply) =? 1) in *.
    unfold admitted, admitted_where in *.
    cbn [map sumZ c_allowed c_cost c_now length forward_time]. rewrite andb_true_r.
    rewrite Nat2Z.inj_succ, !Z.mul_add_distr_l. lia.
Qed.

Lemma history_bound s l s' : history s l s' -> bucket_ok key C s ->
  rate_bound (Z.of_nat (length l)) l (C * one) (elapsed_time l).
Proof.
  unfold rate_bound. pose proof one_pos. assert (1 <= C) by apply HP.
  induction 1 as [s|s s' l s'' Hu Hh IH|s now cost reply s' l s'' Hn Hclk Hc Hrun Hh IH]; intros Hok.
  - unfold admitted, admitted_where. simpl. lia.
  - apply IH. by eapply untouched_ok.
  - destruct (history_step s now cost reply s' Hok Hn Hc Hrun)
      as (t' & Hl' & Hok' & Hf' & Hb' & Hab & Ht').
    pose proof (history_from s' l s'' Hh _ _ _ Hl' Hok' Hf' Hb' Hn ltac:(lia)) as IH'.
    unfold rate_bound in IH'. set (allowed := hd 0 (map reply_integer reply) =? 1) in *.
    unfold admitted, admitted_where in *.
    cbn [map sumZ c_allowed c_cost c_now length elapsed_time]. rewrite andb_true_r.
    rewrite Nat2Z.inj_succ. nia.
Qed.

(** ** The advised wait *)

Lemma wait_refills last t now D w : fin t -> 0 <= sval t <= C * one ->
  0 <= last <= 2 ^ 52 -> 0 <= now <= 2 ^ 52 -> 0 <= w -> D <= 2 ^ 31 * one ->
  last + 1000 * (w + 1) <= now -> covers rate D w ->
  D <= sval (refill_of rate (math_max (of_Z 0) (fsub (of_Z now) (of_Z last)))).
Proof.
  intros Ht Htb Hl Hn Hw HD Hlate Hcov. pose proof one_pos as Hone.
  set (el := math_max (of_Z 0) (fsub (of_Z now) (of_Z last))).
  assert (Hel : is_int el (Z.max 0 (now - last))) by (apply elapsed_int; [lia|apply of_Z_int; lia|lia]).
  destruct (seconds_rounds el _ Hel ltac:(lia)) as (Hqr & _ & Hqb).
  destruct (refill_rounds C rate HP el _ Hel ltac:(lia)) as (_ & Hm & Hmb).
  pose proof (rounds_ge_int _ _ _ (w + 1) Hqr ltac:(lia) ltac:(nia)) as Hq.
  destruct HP as [HC _ HRmin HRmax _].
  set (q := sval (fdiv el (of_Z 1000))) in *. set (m := sval (refill_of rate el)) in *.
  unfold close in Hm. unfold covers in Hcov. fold q m in Hm. set (R := sval rate) in *.
  assert (HR : 0 < R) by lia. rewrite (Z.abs_eq (q * R)) in Hm by (apply Z.mul_nonneg_nonneg; lia).
  assert (HqR : (w + 1) * one * R <= q * R) by (apply Z.mul_le_mono_nonneg_r; lia).
  assert (Hw0 : 0 <= w * R) by (apply Z.mul_nonneg_nonneg; lia).
  assert (Hmm : (2 ^ 52 - 1) * ((w + 1) * R) <= 2 ^ 52 * m + 2 ^ 52)
    by (apply (Z.mul_le_mono_pos_r _ _ one); lia).
  assert (HK : 2 ^ 200 <= one) by (apply Z.pow_le_mono_r; lia). lia.
Qed.

Lemma waited_admits w0 last t s now cost w : left_at w0 last t s -> bucket_ok key C s ->
  fin t -> 0 <= sval t <= C * one -> 0 <= last <= 2 ^ 52 -> 0 <= now <= 2 ^ 52 ->
  1 <= cost <= C -> 0 <= w -> last + 1000 * (w + 1) <= now ->
  covers rate (cost * one - sval t) w -> admits key C rate s now cost = true.
Proof.
  intros Hl Hok Ht Htb Hlb Hnb Hc Hw Hlate Hcov. unfold admits, tokens_now. apply Z.leb_le.
  destruct (cap_int C rate HP) as [Hcf Hcs]. pose proof one_pos.
  assert (HC : 1 <= C <= 2 ^ 31) by apply HP.
  destruct (left_stored _ _ _ _ Hl) as [->|[-> _]]; simpl; [|rewrite Hcs; nia].
  assert (Hco : cost * one <= 2 ^ 31 * one) by (apply Z.mul_le_mono_nonneg_r; lia).
  pose proof (wait_refills last t now (cost * one - sval t) w Ht Htb Hlb Hnb Hw ltac:(lia) Hlate Hcov) as Hm.
  pose proof (elapsed_int now (of_Z last) last Hnb ltac:(apply of_Z_int; lia) Hlb) as Hel.
  destruct (topped_up C rate HP t _ (Z.max 0 (now - last)) Ht Htb Hel ltac:(lia)) as [Har _].
  unfold refill_of in *. set (el := math_max _ _) in *.
  destruct (math_min_sval (of_Z C) _ Hcf (proj1 Har)) as [_ ->]. rewrite Hcs.
  pose proof (rounds_ge_int _ _ _ cost Har ltac:(lia) ltac:(lia)). nia.
Qed.

End History.

(** ** Properties *)

Section Properties.
Context `{RedisServer}.

(** C15: one run of the token bucket script on a well-formed (or missing)
    bucket.  It never fails and keeps the bucket well formed; it admits
    exactly when the refilled bucket covers the cost and then takes exactly
    the cost, a denial takes nothing; the reply is the whole tokens left
    (between zero and the capacity), the reset instant (now when the bucket is
    full, later otherwise) and an advised wait that is zero when admitted and
    at least a second when denied; no other key changes. *)
Theorem token_bucket_check key C rate s now cost :
  bucket_params C rate -> bucket_ok key C s -> 0 <= now <= 2 ^ 50 -> 1 <= cost <= 2 ^ 45 ->
  exists reply s', token_bucket key (of_Z C) rate (of_Z now) (of_Z cost) s = (Ok reply, s') /\
    verdict key C rate s now cost (map reply_integer reply) s'.
Proof.
  intros HP Hok Hn Hc.
  destruct (token_bucket_verdict key C rate HP s now cost Hok Hn Hc) as (s' & reply & Hr & _ & Hv). eauto.
Qed.

(** The contract of the token bucket.  Along any history of fewer than
    [2^49 / C] checks on a key, by processes whose clocks are within 30
    seconds of the server's, with other keys changing and this one expiring
    in between, the cost admitted is below the capacity plus one token plus
    the rate times the time the callers' clocks moved forward.  In particular
    a burst at one instant is bounded by the capacity exactly, and the
    double-precision refill and the expiry never leak tokens. *)
Theorem token_bucket_rate_bound key C rate s l s' :
  bucket_params C rate -> bucket_ok key C s -> history key C rate s l s' ->
  Z.of_nat (length l) * C < 2 ^ 49 ->
  1000 * one * admitted l < 1000 * one * (C + 1) + sval rate * elapsed_time l.
Proof.
  intros HP Hok Hh Hn. pose proof (history_bound key C rate HP s l s' Hh Hok) as Hb.
  unfold rate_bound in Hb. pose proof one_pos. nia.
Qed.

(** C40: the advised wait works.  After a denial of a cost the bucket can hold,
    a caller that waits the advised seconds and one more, while nobody else
    uses the key, is admitted (whether or not the key expired meanwhile). *)
Theorem token_bucket_retry key C rate s now cost reply s' s2 now2 :
  bucket_params C rate -> bucket_ok key C s -> 0 <= now <= 2 ^ 50 -> 1 <= cost <= C ->
  token_bucket key (of_Z C) rate (of_Z now) (of_Z cost) s = (Ok reply, s') ->
  nth 0 (map reply_integer reply) 0 = 0 ->
  untouched key s' s2 ->
  now + 1000 * (nth 3 (map reply_integer reply) 0 + 1) <= now2 <= 2 ^ 50 ->
  exists reply2 s3,
    token_bucket key (of_Z C) rate (of_Z now2) (of_Z cost) s2 = (Ok reply2, s3) /\
    nth 0 (map reply_integer reply2) 0 = 1.
Proof.
  intros HP Hok Hn Hc Hrun Hden Hu Hlate. assert (HC : 1 <= C <= 2 ^ 31) by apply HP.
  destruct (token_bucket_verdict key C rate HP s now cost Hok Hn ltac:(lia))
    as (s1 & r1 & Hr1 & Haft & V).
  rewrite Hrun in Hr1. injection Hr1 as <- <-.
  destruct V as [Hok' _ Hab (t & w & ra & Hst & Htf & Htb & Hts & Hrep & _ & _ & Hra)].
  rewrite Hrep in Hden, Hlate. cbn [nth] in Hden, Hlate.
  destruct (admits key C rate s now cost); [done|]. destruct Hra as [Hra Hcov]. rewrite <- Hts in Hcov.
  pose proof (after_check_stored key C rate _ _ _ _ Haft) as Hst'.
  rewrite Hst in Hst'. injection Hst' as ->.
  pose proof (untouched_left key C rate _ _ _ _ _ Hu (after_check_left _ _ _ _ _ _ _ Haft)) as Hl2.
  pose proof (untouched_ok key C _ _ Hu Hok') as Hok2.
  destruct (token_bucket_verdict key C rate HP s2 now2 cost Hok2 ltac:(lia) ltac:(lia))
    as (s3 & r2 & Hr2 & _ & [_ _ _ (t2 & w2 & ra2 & _ & _ & _ & _ & Hrep2 & _)]).
  exists r2, s3. split; [done|]. rewrite Hrep2. cbn [nth].
  by rewrite (waited_admits key C rate HP _ now _ s2 now2 cost ra Hl2 Hok2 Htf Htb ltac:(lia) ltac:(lia) Hc
                ltac:(lia) ltac:(lia) Hcov).
Qed.

End Properties.

(** ** Witnesses: a bucket of 2 tokens refilled at 1 token per second *)

Section Witnesses.
#[local] Existing Instance redis7.

Lemma sample_bucket : bucket_params 2 (of_Z 1).
Proof.
  destruct (of_Z_int 1) as [Hf Hs]; [lia|].
  constructor; [lia|done| | |]; rewrite ?Hs; pose proof one_pos; lia.
Qed.

Definition sample_state : store := empty_redis 1000000.

(** The state after a check, with the server's clock set. *)
Definition after (now cost : Z) (s : store) : store :=
  snd (token_bucket (H := redis7) "b" (of_Z 2) (of_Z 1) (of_Z now) (of_Z cost) (at_time now s)).

Lemma after_ok s now cost : bucket_ok "b" 2 (at_time now s) -> 0 <= now <= 2 ^ 50 ->
  1 <= cost <= 2 ^ 45 -> bucket_ok "b" 2 (after now cost s).
Proof.
  intros Hok Hn Hc.
  destruct (token_bucket_verdict "b" 2 (of_Z 1) sample_bucket _ now cost Hok Hn Hc)
    as (s' & r & Hr & _ & V).
  unfold after. rewrite Hr. apply V.
Qed.

Lemma token_bucket_check_witness :
  exists reply s', token_bucket "b" (of_Z 2) (of_Z 1) (of_Z 1000000) (of_Z 1) sample_state = (Ok reply, s') /\
    verdict "b" 2 (of_Z 1) sample_state 1000000 1 (map reply_integer reply) s'.
Proof. apply token_bucket_check; [apply sample_bucket|done|lia|lia]. Defined.

Definition sample_history : list check :=
  [{| c_now := 1000000; c_cost := 2; c_allowed := true |};
   {| c_now := 1000500; c_cost := 1; c_allowed := false |};
   {| c_now := 1001000; c_cost := 1; c_allowed := true |}].

Lemma sample_check s now cost allowed reply l s'' :
  0 <= now <= 2 ^ 50 -> clock s <= now -> 1 <= cost <= 2 ^ 45 ->
  fst (token_bucket "b" (of_Z 2) (of_Z 1) (of_Z now) (of_Z cost) (at_time now s)) = Ok reply ->
  (hd 0 (map reply_integer reply) =? 1) = allowed ->
  history "b" 2 (of_Z 1) (after now cost s) l s'' ->
  history "b" 2 (of_Z 1) s ({| c_now := now; c_cost := cost; c_allowed := allowed |} :: l) s''.
Proof.
  intros Hn Hclk Hc Hr <- Hh.
  apply (h_other (H := redis7) _ _ _ _ (at_time now s)); [by apply untouched_at_time|].
  apply (h_check (H := redis7) _ _ _ (at_time now s) now cost reply (after now cost s)); auto.
  - unfold skew. simpl. lia.
  - unfold after. rewrite <- Hr. by destruct (token_bucket _ _ _ _ _ _).
Qed.

Lemma sample_history_runs : exists s', history "b" 2 (of_Z 1) sample_state sample_history s'.
Proof.
  eexists. unfold sample_history.
  repeat (eapply sample_check; [lia|by vm_compute|lia|by vm_compute|by vm_compute|]). apply h_done.
Qed.

Lemma token_bucket_rate_bound_witness :
  admitted sample_history = 3 /\
  1000 * one * admitted sample_history < 1000 * one * (2 + 1) + sval (of_Z 1) * elapsed_time sample_history.
Proof.
  split; [done|]. destruct sample_history_runs as [s' Hs'].
  apply (token_bucket_rate_bound (H := redis7) "b" 2 (of_Z 1) sample_state sample_history s'
           sample_bucket); [done|exact Hs'|by vm_compute].
Defined.

Lemma token_bucket_retry_witness :
  exists reply s3, token_bucket "b" (of_Z 2) (of_Z 1) (of_Z 1002000) (of_Z 1)
      (at_time 1002000 (after 1000000 1 (after 1000000 2 sample_state))) = (Ok reply, s3) /\
    nth 0 (map reply_integer reply) 0 = 1.
Proof.
  apply (token_bucket_retry (H := redis7) "b" 2 (of_Z 1) (after 1000000 2 sample_state) 1000000 1
           [of_Z 0; of_Z 0; of_Z 1002; of_Z 1] (after 1000000 1 (after 1000000 2 sample_state)));
    [apply sample_bucket| |lia|lia|by vm_compute|by vm_compute| |by vm_compute].
  - apply after_ok; [done|lia|lia].
  - apply untouched_at_time. by vm_compute.
Defined.

End Witnesses.
