(* ===== verification/SlidingWindow.v ===== *)
(** The sliding window script: the three keys of a counter seen as one
    record, and one run of the script against the exact counting rule. *)

From stdpp Require Import base gmap strings list.
From Stdlib Require Import ZArith Lia.
From S2P Require Import Prelude Float64 Redis LuaScripts.

Local Open Scope Z_scope.

(** The parameters of a counter the limiter serves: [EXPIRE] accepts twice
    the window, and the counts stay far below the precision of a double. *)
Record window_params (L W : Z) : Prop := {
  wp_limit : 1 <= L;
  wp_window : 1 <= W < 5 * 10 ^ 7;
  wp_size : L * W <= 2 ^ 46
}.

(** The three keys as one record: the counts of the stored window and of the
    one before it, the index of the stored window, and the common expiry. *)
Record counters := { curr : Z; prev : Z; idx : Z; expires : Z }.

Record counters_ok (L : Z) (c : counters) : Prop := {
  co_curr : 0 <= curr c <= L;
  co_prev : 0 <= prev c <= L;
  co_idx : 0 <= idx c <= 2 ^ 40
}.

(** The counters a check in window [k] works with: the window is entered if
    it is later than the stored one. *)
Definition enters (st : option counters) (k : Z) : bool :=
  match st with None => true | Some c => idx c <? k end.

Definition entered (st : option counters) (k expiry : Z) : counters :=
  match st with
  | None => {| curr := 0; prev := 0; idx := k; expires := expiry |}
  | Some c =>
      if idx c <? k
      then {| curr := 0; prev := if idx c =? k - 1 then curr c else 0; idx := k; expires := expiry |}
      else c
  end.

(** The counting rule times the window: the previous count weighted by the
    part of it that the last [W] seconds still cover, the current count and
    the cost, against the limit. *)
Definition weighted (W : Z) (c : counters) (e cost : Z) : Z :=
  prev c * (W - e) + (curr c + cost) * W.

Definition spent (c : counters) (cost expiry : Z) : counters :=
  {| curr := curr c + cost; prev := prev c; idx := idx c; expires := expiry |}.

Section SlidingWindow.
Context `{RedisServer} (ck pk ik : string).

(** A key holds the number [z] and expires at [t]. *)
Definition number_at (s : redis) (k : string) (z t : Z) : Prop :=
  exists x, look s k = Some {| e_val := RNum x; e_expire := Some t |} /\ is_int x z.

Definition holds (s : redis) (st : option counters) : Prop :=
  match st with
  | None => look s ck = None /\ look s pk = None /\ look s ik = None
  | Some c => number_at s ck (curr c) (expires c) /\ number_at s pk (prev c) (expires c) /\
              number_at s ik (idx c) (expires c)
  end.

Context (Hcp : ck <> pk) (Hci : ck <> ik) (Hpi : pk <> ik).

(** ** Commands on the three keys *)

Lemma framed_other k k' s s' : framed [k'] s s' -> k <> k' -> look s' k = look s k.
Proof. intros Hf Hne. apply (fr_keys _ _ _ Hf). by intros ?%list_elem_of_singleton. Qed.

(** Look up a key behind commands on other keys. *)
Ltac see :=
  repeat match goal with
  | Hf : framed [?k'] ?s ?s' |- context [look ?s' ?k] =>
      rewrite (framed_other k k' s s' Hf) by done
  end; eassumption.

Lemma GET_same s k r : fst (GET_effect (look s k) (clock s)) = r ->
  exists s', GET k s = (r, s') /\ framed [k] s s' /\ forall k', look s' k' = look s k'.
Proof.
  intros <-. destruct (GET_run s k) as (s' & Hg & Hl & Hf). exists s'. split; [done|]. split; [done|].
  intros k'. destruct (decide (k' = k)) as [->|Hne]; [done|]. by apply framed_other with k.
Qed.

(** States that show the same entries at the same time. *)
Definition looks_like (s s' : redis) : Prop :=
  framed [] s s'.

Lemma GET_looks s k r : fst (GET_effect (look s k) (clock s)) = r ->
  exists s', GET k s = (r, s') /\ looks_like s s'.
Proof.
  intros Hr. destruct (GET_same s k r Hr) as (s' & Hg & [_ Hc Hs] & Hl).
  exists s'. split; [done|]. by constructor.
Qed.

Lemma GET_number s k z t : number_at s k z t ->
  exists x s', GET k s = (Ok (Some x), s') /\ GET_or_0 k s = (Ok x, s') /\ is_int x z /\ looks_like s s'.
Proof.
  intros (x & Hl & Hx). destruct (GET_looks s k (Ok (Some x))) as (s' & Hg & Hs); [by rewrite Hl|].
  exists x, s'. split; [done|]. split; [|done]. unfold GET_or_0. by rewrite (bind_ok _ _ _ _ _ Hg).
Qed.

Lemma looks_holds s s' st : looks_like s s' -> holds s st -> holds s' st.
Proof.
  intros [Hl _ _]. assert (E : forall k, look s' k = look s k) by (intros k; apply Hl, not_elem_of_nil).
  unfold holds, number_at. by rewrite !E.
Qed.

Lemma framed_three k s s' : k ∈ [ck; pk; ik] -> framed [k] s s' -> framed [ck; pk; ik] s s'.
Proof. intros Hk. apply framed_mono. in_list. Qed.

(** Compose the frames of commands on the three keys. *)
Ltac frames :=
  repeat match goal with
  | Hf : framed [?k] ?s ?s' |- framed _ _ ?s' =>
      eapply framed_trans; [|apply (framed_three k s s'); [in_list|exact Hf]]; clear Hf
  end; apply framed_refl.

Lemma three_numbers s x y z c p i t :
  is_int x c -> is_int y p -> is_int z i ->
  look s ck = Some {| e_val := RNum x; e_expire := Some t |} ->
  look s pk = Some {| e_val := RNum y; e_expire := Some t |} ->
  look s ik = Some {| e_val := RNum z; e_expire := Some t |} ->
  holds s (Some {| curr := c; prev := p; idx := i; expires := t |}).
Proof. intros. by split; [|split]; eexists. Qed.

(** Renewing three keys gives them one expiry. *)
Lemma EXPIRE_three a b d s xa xb xd ta tb td y z :
  a <> b -> a <> d -> b <> d ->
  look s a = Some {| e_val := RNum xa; e_expire := ta |} ->
  look s b = Some {| e_val := RNum xb; e_expire := tb |} ->
  look s d = Some {| e_val := RNum xd; e_expire := td |} ->
  is_int y z -> 0 < z < 10 ^ 8 ->
  exists s1 s2 s3, EXPIRE a y s = (Ok tt, s1) /\ EXPIRE b y s1 = (Ok tt, s2) /\
    EXPIRE d y s2 = (Ok tt, s3) /\ framed [a; b; d] s s3 /\
    look s3 a = Some {| e_val := RNum xa; e_expire := Some (clock s + 1000 * z) |} /\
    look s3 b = Some {| e_val := RNum xb; e_expire := Some (clock s + 1000 * z) |} /\
    look s3 d = Some {| e_val := RNum xd; e_expire := Some (clock s + 1000 * z) |}.
Proof.
  intros Hab Had Hbd Ha Hb Hd Hy Hz.
  destruct (EXPIRE_run s a _ y z Ha Hy Hz) as (s1 & E1 & L1 & F1). simpl in L1.
  assert (Hb1 : look s1 b = Some {| e_val := RNum xb; e_expire := tb |}) by see.
  destruct (EXPIRE_run s1 b _ y z Hb1 Hy Hz) as (s2 & E2 & L2 & F2). simpl in L2.
  assert (Hd2 : look s2 d = Some {| e_val := RNum xd; e_expire := td |}) by see.
  destruct (EXPIRE_run s2 d _ y z Hd2 Hy Hz) as (s3 & E3 & L3 & F3). simpl in L3.
  assert (C1 := fr_clock _ _ _ F1). assert (C2 := fr_clock _ _ _ F2).
  rewrite C2, C1 in L3. rewrite C1 in L2.
  exists s1, s2, s3. split; [done|]. split; [done|]. split; [done|]. split.
  - eapply framed_trans; [|eapply framed_trans].
    + apply (framed_mono [a]); [in_list|exact F1].
    + apply (framed_mono [b]); [in_list|exact F2].
    + apply (framed_mono [d]); [in_list|exact F3].
  - split; [|split]; [see|see|done].
Qed.

(** ** Entering a window *)

Context (L W : Z) (HP : window_params L W).

Definition ttl_end (s : redis) : Z := clock s + 1000 * (W * 2).

Lemma double_window Wf : is_int Wf W -> is_int (fmul Wf (of_Z 2)) (W * 2) /\ 0 < W * 2 < 10 ^ 8.
Proof.
  intros HW. destruct HP as [_ Hw _]. split; [|lia].
  apply is_int_mul; [done|apply of_Z_int; lia|lia].
Qed.

(** The stores of [roll], given the value moved to the previous count. *)
Lemma roll_stores s Wf kf k x p : is_int Wf W -> is_int kf k -> is_int x p ->
  exists s', (SET pk x ;; SET ck (of_Z 0) ;; SET ik kf ;;
       EXPIRE pk (fmul Wf (of_Z 2)) ;; EXPIRE ck (fmul Wf (of_Z 2)) ;;
       EXPIRE ik (fmul Wf (of_Z 2)) : Script unit) s
     = (Ok tt, s') /\ framed [ck; pk; ik] s s' /\
    holds s' (Some {| curr := 0; prev := p; idx := k; expires := ttl_end s |}).
Proof.
  intros HW Hk Hx. destruct (double_window Wf HW) as [H2 Hb].
  destruct (SET_run s pk x) as (s1 & E1 & L1 & F1).
  destruct (SET_run s1 ck (of_Z 0)) as (s2 & E2 & L2 & F2).
  destruct (SET_run s2 ik kf) as (s3 & E3 & L3 & F3).
  destruct (EXPIRE_three pk ck ik s3 x (of_Z 0) kf None None None _ _
    ltac:(done) Hpi Hci ltac:(see) ltac:(see) L3 H2 Hb) as (s4 & s5 & s6 & E4 & E5 & E6 & F6 & P6 & C6 & I6).
  assert (Hclk : clock s3 = clock s)
    by (by rewrite (fr_clock _ _ _ F3), (fr_clock _ _ _ F2), (fr_clock _ _ _ F1)).
  rewrite Hclk in P6, C6, I6. exists s6. split; [|split].
  - by rewrite (bind_ok _ _ _ _ _ E1), (bind_ok _ _ _ _ _ E2), (bind_ok _ _ _ _ _ E3),
      (bind_ok _ _ _ _ _ E4), (bind_ok _ _ _ _ _ E5).
  - apply (framed_mono _ [ck; pk; ik]) in F6; [|in_list].
    eapply framed_trans; [|exact F6]. frames.
  - apply (three_numbers _ (of_Z 0) x kf); [apply of_Z_int; lia|done|done|done|done|done].
Qed.

Lemma stored_window_read s st : holds s st ->
  exists w s', GET ik s = (Ok w, s') /\ looks_like s s' /\
    match st with
    | None => w = None
    | Some c => exists x, w = Some x /\ is_int x (idx c)
    end.
Proof.
  destruct st as [c|]; simpl.
  - intros (_ & _ & Hi). destruct (GET_number _ _ _ _ Hi) as (x & s' & Hg & _ & Hx & Hs). eauto 8.
  - intros (_ & _ & Hn). destruct (GET_looks s ik (Ok None)) as (s' & Hg & Hs); [by rewrite Hn|].
    by exists None, s'.
Qed.

Lemma looks_framed s1 s2 s3 K : looks_like s1 s2 -> framed K s2 s3 -> framed K s1 s3.
Proof. intros Hl Hf. eapply framed_trans; [|exact Hf]. apply (framed_mono []); [in_list|exact Hl]. Qed.

Lemma roll_run s st w Wf kf k : holds s st ->
  match st with None => w = None | Some c => exists x, w = Some x /\ is_int x (idx c) end ->
  match st with Some c => 0 <= idx c <= 2 ^ 40 | None => True end ->
  is_int Wf W -> is_int kf k -> 0 <= k <= 2 ^ 40 ->
  exists s', roll ck pk ik Wf kf w s = (Ok tt, s') /\ framed [ck; pk; ik] s s' /\
    holds s' (Some (entered st k (ttl_end s))).
Proof.
  intros Hs Hw Hi HW Hk Hkb. unfold roll, when. destruct st as [c|]; simpl in Hw.
  - destruct Hw as (x & -> & Hx). rewrite (is_int_ltb _ _ _ _ Hx Hk). simpl.
    destruct (Z.ltb_spec (idx c) k); [|by exists s].
    assert (Hk1 : is_int (fsub kf (of_Z 1)) (k - 1)) by (apply is_int_sub; [done|apply of_Z_int; lia|lia]).
    rewrite (is_int_eqb _ _ _ _ Hx Hk1).
    destruct (Z.eqb_spec (idx c) (k - 1)).
    + destruct (GET_number _ _ _ _ (proj1 Hs)) as (v & s1 & _ & Hg & Hv & Hl).
      destruct (roll_stores s1 Wf kf k v (curr c) HW Hk Hv) as (s' & Hr & Hf & Hh).
      exists s'. split; [|split; [by eapply looks_framed|]].
      * rewrite <- Hr. unfold mbind, Script_bind. by rewrite Hg.
      * unfold ttl_end in *. by rewrite (fr_clock _ _ _ Hl) in Hh.
    + apply (roll_stores s Wf kf k (of_Z 0) 0 HW Hk). apply of_Z_int. lia.
  - subst w. apply (roll_stores s Wf kf k (of_Z 0) 0 HW Hk). apply of_Z_int. lia.
Qed.

(** ** The estimate in doubles *)

Definition weight_of (ef Wf : float) : float := fsub (of_Z 1) (fdiv ef Wf).
Definition estimate_of (pf cf ef Wf : float) : float := fadd (fmul pf (weight_of ef Wf)) cf.

Lemma weight_close ef Wf e : is_int ef e -> is_int Wf W -> 0 <= e < W ->
  let w := weight_of ef Wf in
  fin w /\ 0 <= sval w <= one /\
  2 ^ 51 * Z.abs (sval w * W - (W - e) * one) <= W * one + 2 ^ 53 * W.
Proof.
  intros [Hef Hes] [HWf HWs] He w. pose proof one_pos as Hone. destruct HP as [HL HW _].
  destruct (of_Z_int 1) as [H1f H1s]; [lia|]. rewrite Z.mul_1_l in H1s.
  assert (HWo : 1 * one <= W * one) by (apply Z.mul_le_mono_nonneg_r; lia).
  assert (Heo : 0 <= e * one <= W * one)
    by (split; [apply Z.mul_nonneg_nonneg; lia|apply Z.mul_le_mono_nonneg_r; lia]).
  assert (Heoo : 0 <= e * one * one <= W * one * one)
    by (split; [apply Z.mul_nonneg_nonneg; lia|apply Z.mul_le_mono_nonneg_r; lia]).
  destruct (fdiv_rounds ef Wf Hef HWf) as [Hr Hc]; [lia| |].
  { rewrite Hes, HWs, Z.abs_eq by lia. apply Z.le_trans with (one * (W * one)); [lia|].
    apply Z.mul_le_mono_nonneg_r; [lia|]. apply below_big. lia. }
  rewrite Hes, HWs in Hr, Hc. set (x := fdiv ef Wf) in *.
  pose proof (rounds_nonneg _ _ _ Hr ltac:(lia)) as Hx0.
  pose proof (rounds_le_int _ _ _ 1 Hr ltac:(lia) ltac:(lia)) as Hx1.
  destruct (fsub_rounds (of_Z 1) x H1f (proj1 Hr)) as [Hwr Hwc].
  { rewrite H1s. apply Z.le_trans with one; [lia|]. apply below_big. lia. }
  rewrite H1s in Hwr, Hwc. change (fsub (of_Z 1) x) with w in Hwr, Hwc.
  pose proof (rounds_nonneg _ _ _ Hwr ltac:(lia)) as Hw0.
  pose proof (rounds_le_int _ _ _ 1 Hwr ltac:(lia) ltac:(lia)) as Hw1.
  split; [apply Hwr|]. split; [lia|]. unfold close in Hc, Hwc.
  rewrite (Z.abs_eq (one - sval x)) in Hwc by lia.
  assert (HxW : 2 ^ 52 * Z.abs (sval x * W - e * one) <= W * one + 2 ^ 52 * W).
  { apply (Z.mul_le_mono_pos_r _ _ one); [lia|].
    replace (2 ^ 52 * Z.abs (sval x * W - e * one) * one)
      with (2 ^ 52 * Z.abs ((sval x * W - e * one) * one))
      by (rewrite Z.abs_mul, (Z.abs_eq one) by lia; ring).
    replace ((sval x * W - e * one) * one) with (sval x * (W * one) - e * one * one) by ring.
    rewrite (Z.abs_eq (e * one * one)) in Hc by lia. lia. }
  assert (HwW : 2 ^ 52 * (Z.abs (sval w - (one - sval x)) * W) <= W * one + 2 ^ 52 * W).
  { set (d := Z.abs (sval w - (one - sval x))) in *.
    assert (2 ^ 52 * d * W <= (one + 2 ^ 52) * W) by (apply Z.mul_le_mono_nonneg_r; lia). lia. }
  assert (Habs : Z.abs (sval w * W - (W - e) * one)
                 <= Z.abs (sval w - (one - sval x)) * W + Z.abs (sval x * W - e * one)).
  { replace (sval w * W - (W - e) * one)
      with ((sval w - (one - sval x)) * W + - (sval x * W - e * one)) by ring.
    eapply Z.le_trans; [apply Z.abs_triangle|].
    rewrite Z.abs_opp, Z.abs_mul, (Z.abs_eq W) by lia. lia. }
  lia.
Qed.

Lemma limit_bound : 1 <= L <= 2 ^ 46.
Proof. destruct HP as [HL HW Hs]. nia. Qed.

Lemma estimate_bounds pf cf ef Wf P c e : is_int pf P -> is_int cf c -> is_int ef e -> is_int Wf W ->
  0 <= P <= L -> 0 <= c <= L -> 0 <= e < W ->
  let est := estimate_of pf cf ef Wf in
  fin est /\ c * one <= sval est <= (P + c) * one /\
  2 ^ 52 * Z.abs (sval est - (P * sval (weight_of ef Wf) + c * one))
    <= (P + (P + c)) * one + 2 * 2 ^ 52.
Proof.
  intros [Hpf Hps] [Hcf Hcs] He HWf HPb Hcb Heb est. pose proof one_pos as Hone.
  pose proof limit_bound as HL.
  destruct (weight_close ef Wf e He HWf Heb) as (Hwf & Hwb & _).
  unfold est, estimate_of. set (w := weight_of ef Wf) in *.
  assert (HPo : 0 <= P * one) by (apply Z.mul_nonneg_nonneg; lia).
  assert (HPv : 0 <= P * sval w <= P * one)
    by (split; [apply Z.mul_nonneg_nonneg; lia|apply Z.mul_le_mono_nonneg_l; lia]).
  destruct (fmul_rounds pf w Hpf Hwf) as [Hmr Hmc].
  { rewrite Hps. replace (P * one * sval w) with (P * sval w * one) by ring.
    rewrite Z.abs_eq by (apply Z.mul_nonneg_nonneg; lia).
    apply Z.mul_le_mono_nonneg_r; [lia|]. apply below_big.
    apply Z.le_trans with (P * one); [lia|]. apply Z.mul_le_mono_nonneg_r; lia. }
  rewrite Hps in Hmr, Hmc. replace (P * one * sval w) with (P * sval w * one) in Hmr, Hmc by ring.
  pose proof (rounds_nonneg _ _ _ Hmr ltac:(apply Z.mul_nonneg_nonneg; lia)) as Hm0.
  pose proof (rounds_le_int _ _ _ P Hmr ltac:(lia) ltac:(apply Z.mul_le_mono_nonneg_r; lia)) as Hm1.
  set (m := fmul pf w) in *.
  assert (Hmv : 2 ^ 52 * Z.abs (sval m - P * sval w) <= P * one + 2 ^ 52).
  { apply (Z.mul_le_mono_pos_r _ _ one); [lia|]. unfold close in Hmc.
    rewrite (Z.abs_eq (P * sval w * one)) in Hmc by (apply Z.mul_nonneg_nonneg; lia).
    rewrite <- Z.mul_sub_distr_r, Z.abs_mul, (Z.abs_eq one) in Hmc by lia. nia. }
  assert (Hco : 0 <= c * one <= 2 ^ 46 * one)
    by (split; [apply Z.mul_nonneg_nonneg; lia|apply Z.mul_le_mono_nonneg_r; lia]).
  destruct (fadd_rounds m cf (proj1 Hmr) Hcf) as [Har Hac].
  { rewrite Hcs, Z.abs_eq by lia. apply below_big. nia. }
  rewrite Hcs in Har, Hac. set (x := fadd m cf) in *.
  split; [apply Har|]. split.
  - split; [apply (rounds_ge_int _ _ _ c Har); lia|].
    apply (rounds_le_int _ _ _ (P + c) Har); lia.
  - unfold close in Hac. rewrite (Z.abs_eq (sval m + c * one)) in Hac by lia. lia.
Qed.

(** The sum the script compares with the limit, against the exact one. *)
Lemma total_close pf cf costf ef Wf c e cost :
  is_int pf (prev c) -> is_int cf (curr c) -> is_int ef e -> is_int Wf W -> is_int costf cost ->
  counters_ok L c -> 0 <= e < W -> 1 <= cost <= 2 ^ 45 ->
  let est := estimate_of pf cf ef Wf in let tot := fadd est costf in
  fin tot /\ (curr c + cost) * one <= sval tot /\
  (cost <= L -> 2 * Z.abs (sval tot * W - weighted W c e cost * one) < one).
Proof.
  intros Hp Hc He HWf [Hkf Hks] [Hcb HPb _] Heb Hkb est tot. pose proof one_pos as Hone.
  pose proof limit_bound as HL.
  destruct (estimate_bounds pf cf ef Wf _ _ e Hp Hc He HWf HPb Hcb Heb) as (Hef & Heb' & Hec).
  destruct (weight_close ef Wf e He HWf Heb) as (_ & Hwb & Hwc). fold est in Hef, Heb', Hec.
  set (P := prev c) in *. set (n := curr c) in *. set (v := sval (weight_of ef Wf)) in *.
  destruct (fadd_rounds est costf Hef Hkf) as [Htr Htc].
  { rewrite Hks, Z.abs_eq by nia. apply below_big.
    assert ((P + n) * one <= 2 ^ 47 * one) by (apply Z.mul_le_mono_nonneg_r; lia).
    assert (cost * one <= 2 ^ 45 * one) by (apply Z.mul_le_mono_nonneg_r; lia). lia. }
  rewrite Hks in Htr, Htc. fold tot in Htr, Htc. split; [apply Htr|]. split.
  { apply (rounds_ge_int _ _ _ (n + cost) Htr); lia. }
  intros Hkl. unfold close in Htc. rewrite (Z.abs_eq (sval est + cost * one)) in Htc by nia.
  destruct HP as [_ HW Hs]. unfold weighted. fold P n.
  assert (Hsum : 2 ^ 52 * Z.abs (sval tot - (P * v + (n + cost) * one))
                 <= 6 * (L * one) + 3 * 2 ^ 52).
  { assert (P * one <= L * one) by (apply Z.mul_le_mono_nonneg_r; lia).
    assert (n * one <= L * one) by (apply Z.mul_le_mono_nonneg_r; lia).
    assert (cost * one <= L * one) by (apply Z.mul_le_mono_nonneg_r; lia). lia. }
  assert (HsumW : 2 ^ 52 * (Z.abs (sval tot - (P * v + (n + cost) * one)) * W)
                  <= 6 * 2 ^ 46 * one + 3 * 2 ^ 52 * W).
  { apply (Z.mul_le_mono_nonneg_r _ _ W) in Hsum; [|lia].
    assert (L * W * one <= 2 ^ 46 * one) by (apply Z.mul_le_mono_nonneg_r; lia). lia. }
  assert (HPv : 2 ^ 51 * (P * Z.abs (v * W - (W - e) * one)) <= 2 ^ 46 * one + 2 ^ 99).
  { assert (HPW : P * W <= 2 ^ 46).
    { apply Z.le_trans with (L * W); [apply Z.mul_le_mono_nonneg_r; lia|lia]. }
    apply (Z.mul_le_mono_nonneg_r _ _ P) in Hwc; [|lia].
    assert (P * W * one <= 2 ^ 46 * one) by (apply Z.mul_le_mono_nonneg_r; lia). lia. }
  assert (Habs : Z.abs (sval tot * W - (P * (W - e) + (n + cost) * W) * one)
     <= Z.abs (sval tot - (P * v + (n + cost) * one)) * W + P * Z.abs (v * W - (W - e) * one)).
  { replace (sval tot * W - (P * (W - e) + (n + cost) * W) * one)
      with ((sval tot - (P * v + (n + cost) * one)) * W + P * (v * W - (W - e) * one)) by ring.
    eapply Z.le_trans; [apply Z.abs_triangle|].
    rewrite !Z.abs_mul, (Z.abs_eq W), (Z.abs_eq P) by lia. lia. }
  assert (HK : 2 ^ 200 <= one) by (apply Z.pow_le_mono_r; lia). lia.
Qed.

(** ** The reply *)

(** [math.max(0, math.floor(limit - used))] for a sum of at least nothing. *)
Definition remaining_of (limit used : float) : float :=
  math_max (of_Z 0) (ffloor (fsub limit used)).

Lemma remaining_bounds Lf x : is_int Lf L -> fin x -> 0 <= sval x <= 2 ^ 50 * one ->
  exists r, is_int (remaining_of Lf x) r /\ 0 <= r <= L /\
    (sval x <= L * one -> forall Y, 2 * Z.abs (sval x * W - Y * one) < one ->
       r * W <= L * W - Y <= (r + 1) * W).
Proof.
  intros [HLf HLs] Hx Hxb. pose proof one_pos as Hone. pose proof limit_bound as HL.
  assert (HLo : L * one <= 2 ^ 46 * one) by (apply Z.mul_le_mono_nonneg_r; lia).
  assert (HL0 : 0 <= L * one) by lia.
  destruct (fsub_rounds Lf x HLf Hx) as [Hr Hc].
  { rewrite HLs. apply Z.le_trans with (2 ^ 50 * one); [lia|]. apply below_big. lia. }
  rewrite HLs in Hr, Hc. set (d := fsub Lf x) in *.
  pose proof (rounds_le_int _ _ _ L Hr ltac:(lia) ltac:(lia)) as Hd1.
  exists (Z.max 0 (sval d / one)). split.
  { apply is_int_max; [apply of_Z_int; lia|]. apply ffloor_spec, Hr. }
  assert (Hq : sval d / one <= L) by (apply Z.div_le_upper_bound; lia).
  split; [lia|]. intros Hle Y HY.
  pose proof (rounds_nonneg _ _ _ Hr ltac:(lia)) as Hd0.
  assert (Hq0 : 0 <= sval d / one) by (apply Z.div_pos; lia).
  rewrite Z.max_r by lia. set (r := sval d / one) in *.
  assert (Hrd : r * one <= sval d < (r + 1) * one).
  { pose proof (Z.mul_div_le (sval d) one ltac:(lia)).
    pose proof (Z.mul_succ_div_gt (sval d) one ltac:(lia)). unfold r. lia. }
  destruct HP as [_ HW Hs]. unfold close in Hc. rewrite (Z.abs_eq (L * one - sval x)) in Hc by lia.
  assert (Hdc : 2 ^ 52 * Z.abs (sval d - (L * one - sval x)) <= L * one + 2 ^ 52) by lia.
  apply (Z.mul_le_mono_nonneg_r _ _ W) in Hdc; [|lia].
  assert (HLW : L * W * one <= 2 ^ 46 * one) by (apply Z.mul_le_mono_nonneg_r; lia).
  assert (Habs : 16 * Z.abs ((sval d - (L * one - sval x)) * W) <= one).
  { rewrite Z.abs_mul, (Z.abs_eq W) by lia.
    assert (HK : 2 ^ 200 <= one) by (apply Z.pow_le_mono_r; lia). lia. }
  assert (H1 : r * one * W <= sval d * W) by (apply Z.mul_le_mono_nonneg_r; lia).
  assert (H2 : sval d * W < (r + 1) * one * W) by (apply Z.mul_lt_mono_pos_r; lia).
  split.
  - enough (r * W * one < (L * W - Y + 1) * one) by (apply Z.mul_lt_mono_pos_r in H0; lia). lia.
  - enough ((L * W - Y - 1) * one < (r + 1) * W * one) by (apply Z.mul_lt_mono_pos_r in H0; lia). lia.
Qed.

(** ** One run of the script *)

(** What a check at [now] for [cost] does to counters seen as [st]: with [c]
    the counters of the window of [now] and [e] the seconds since its start,
    it admits only what the counting rule allows and denies only what the rule
    denies or what reaches the limit exactly; an admission adds the cost to
    the current count. *)
Record sw_verdict (s : redis) (st : option counters) (now cost : Z) (reply : list Z) (s' : redis)
    (c : counters) (allowed : bool) : Prop := {
  sw_entered : c = entered st (now / W) (ttl_end s);
  sw_frame : framed [ck; pk; ik] s s';
  sw_ok : counters_ok L (if allowed then spent c cost (ttl_end s) else c);
  sw_holds : holds s' (Some (if allowed then spent c cost (ttl_end s) else c));
  sw_rule : if allowed then weighted W c (now mod W) cost <= L * W
            else L * W <= weighted W c (now mod W) cost;
  sw_reply : exists remaining,
    reply = [Z.b2z allowed; remaining; (now / W + 1) * W; if allowed then 0 else W - now mod W] /\
    0 <= remaining <= L /\
    (allowed = true -> remaining * W <= L * W - weighted W c (now mod W) cost <= (remaining + 1) * W)
}.

Definition state_ok (st : option counters) : Prop :=
  match st with Some c => counters_ok L c | None => True end.

Lemma entered_ok st k t : state_ok st -> 0 <= k <= 2 ^ 40 -> counters_ok L (entered st k t).
Proof.
  pose proof limit_bound. destruct st as [c|]; simpl.
  - intros [Hc Hp Hi] Hk. destruct (Z.ltb_spec (idx c) k); [|done].
    destruct (Z.eqb_spec (idx c) (k - 1)); constructor; simpl; lia.
  - intros _ Hk. constructor; simpl; lia.
Qed.

(** The admission stores the new count and renews the three keys. *)
Lemma admit_stores (m : Script (list float)) s c Wf x z :
  is_int Wf W -> holds s (Some c) -> is_int x z ->
  exists s', (SET ck x ;; EXPIRE ck (fmul Wf (of_Z 2)) ;; EXPIRE pk (fmul Wf (of_Z 2)) ;;
     EXPIRE ik (fmul Wf (of_Z 2)) ;; m : Script (list float)) s = m s' /\
    framed [ck; pk; ik] s s' /\
    holds s' (Some {| curr := z; prev := prev c; idx := idx c; expires := ttl_end s |}).
Proof.
  intros HW (Hc & (y & Hly & Hy) & (w & Hlw & Hw)) Hx.
  destruct (double_window Wf HW) as [H2 Hb].
  destruct (SET_run s ck x) as (s1 & E1 & L1 & F1).
  destruct (EXPIRE_three ck pk ik s1 x y w None (Some (expires c)) (Some (expires c)) _ _
    Hcp Hci Hpi L1 ltac:(see) ltac:(see) H2 Hb) as (s2 & s3 & s4 & E2 & E3 & E4 & F4 & C4 & P4 & I4).
  rewrite (fr_clock _ _ _ F1) in C4, P4, I4.
  exists s4. split; [|split; [eapply framed_trans; [|exact F4]; frames|]].
  - by rewrite (bind_ok _ _ _ _ _ E1), (bind_ok _ _ _ _ _ E2), (bind_ok _ _ _ _ _ E3),
      (bind_ok _ _ _ _ _ E4).
  - by apply (three_numbers _ x y w).
Qed.

Lemma ceil_int x z : is_int x z -> is_int (fceil x) z.
Proof.
  intros [Hf Hs]. pose proof one_pos. pose proof (fceil_spec x Hf) as Hc.
  rewrite Hs, <- Z.mul_opp_l, Z.div_mul, Z.opp_involutive in Hc by lia. done.
Qed.

(** The window of an instant: index, start and seconds since the start. *)
Lemma window_ints now : 0 <= now <= 2 ^ 40 ->
  let kf := ffloor (fdiv (of_Z now) (of_Z W)) in
  is_int kf (now / W) /\ is_int (fmul kf (of_Z W)) (now / W * W) /\
  is_int (fsub (of_Z now) (fmul kf (of_Z W))) (now mod W) /\
  is_int (fadd (fmul kf (of_Z W)) (of_Z W)) ((now / W + 1) * W) /\
  0 <= now / W <= 2 ^ 40 /\ 0 <= now mod W < W.
Proof.
  intros Hn kf. destruct HP as [_ HW _].
  pose proof (Z.mod_pos_bound now W ltac:(lia)) as Hm. pose proof (Z.div_mod now W ltac:(lia)) as Hdm.
  assert (Hk : 0 <= now / W) by (apply Z.div_pos; lia).
  assert (Hk2 : now / W <= now) by (apply Z.div_le_upper_bound; nia).
  assert (HWi : is_int (of_Z W) W) by (apply of_Z_int; lia).
  assert (Hni : is_int (of_Z now) now) by (apply of_Z_int; lia).
  assert (Hki : is_int kf (now / W)) by (apply floor_div_int; auto; lia).
  assert (Hst : is_int (fmul kf (of_Z W)) (now / W * W)) by (apply is_int_mul; [done|done|lia]).
  split; [done|]. split; [done|]. split.
  { replace (now mod W) with (now - now / W * W) by lia. apply is_int_sub; [done|done|lia]. }
  split; [|lia].
  replace ((now / W + 1) * W) with (now / W * W + W) by ring. apply is_int_add; [done|done|lia].
Qed.

(** The comparison with the limit, and what it means for the exact rule. *)
Lemma decide_rule pf cf ef c e cost :
  is_int pf (prev c) -> is_int cf (curr c) -> is_int ef e ->
  counters_ok L c -> 0 <= e < W -> 1 <= cost <= 2 ^ 45 ->
  let tot := fadd (estimate_of pf cf ef (of_Z W)) (of_Z cost) in
  fin tot /\ 0 <= sval tot /\
  if fltb (of_Z L) tot then L * W <= weighted W c e cost
  else sval tot <= L * one /\ curr c + cost <= L /\ weighted W c e cost <= L * W /\
       2 * Z.abs (sval tot * W - weighted W c e cost * one) < one.
Proof.
  intros Hp Hc He Hok Heb Hkb tot. pose proof one_pos as Hone. pose proof limit_bound as HL.
  assert (HWi : is_int (of_Z W) W) by (apply of_Z_int; destruct HP; lia).
  destruct (of_Z_int L) as [HLf HLs]; [lia|].
  destruct (total_close pf cf (of_Z cost) ef (of_Z W) c e cost Hp Hc He HWi
              ltac:(apply of_Z_int; lia) Hok Heb Hkb) as (Htf & Htl & Htc). fold tot in Htf, Htl, Htc.
  split; [done|]. destruct Hok as [Hcb HPb _].
  assert (Hsum : 0 <= (curr c + cost) * one) by (apply Z.mul_nonneg_nonneg; lia).
  split; [lia|]. rewrite (fltb_spec _ _ HLf Htf), HLs. destruct HP as [_ HW _].
  destruct (Z.ltb_spec (L * one) (sval tot)) as [Hgt|Hle].
  - destruct (Z.le_gt_cases cost L) as [Hcl|Hcl].
    + specialize (Htc Hcl). apply (Z.mul_lt_mono_pos_r W) in Hgt; [|lia].
      enough ((L * W - 1) * one < weighted W c e cost * one)
        by (apply Z.mul_lt_mono_pos_r in H0; lia). lia.
    + unfold weighted. assert (0 <= prev c * (W - e)) by (apply Z.mul_nonneg_nonneg; lia).
      assert (L * W <= (curr c + cost) * W) by (apply Z.mul_le_mono_nonneg_r; lia). lia.
  - assert (Hcl : curr c + cost <= L) by (apply (Z.mul_le_mono_pos_r _ _ one); lia).
    specialize (Htc ltac:(lia)). split; [done|]. split; [done|]. split; [|done].
    apply (Z.mul_le_mono_nonneg_r _ _ W) in Hle; [|lia].
    enough (weighted W c e cost * one < (L * W + 1) * one)
      by (apply Z.mul_lt_mono_pos_r in H0; lia). lia.
Qed.

(** The reads of the script, up to the verdict. *)
Lemma window_read s st now cost : holds s st -> state_ok st -> 0 <= now <= 2 ^ 40 ->
  let kf := ffloor (fdiv (of_Z now) (of_Z W)) in
  let c := entered st (now / W) (ttl_end s) in
  exists s' pf cf,
    sliding_window ck pk ik (of_Z L) (of_Z W) (of_Z now) (of_Z cost) s =
      judge ck pk ik (of_Z L) (of_Z W) (of_Z now) (of_Z cost) kf pf cf s' /\
    framed [ck; pk; ik] s s' /\ holds s' (Some c) /\ is_int pf (prev c) /\ is_int cf (curr c).
Proof.
  intros Hs Hok Hn kf c.
  destruct (window_ints now Hn) as (Hki & _ & _ & _ & Hkb & _). fold kf in Hki.
  assert (HWi : is_int (of_Z W) W) by (apply of_Z_int; destruct HP; lia).
  destruct (stored_window_read s st Hs) as (w & s0 & Hget & Hlk0 & Hw).
  destruct (roll_run s0 st w (of_Z W) kf (now / W)) as (s1 & Hroll & Hfr & Hs1); auto.
  { by apply looks_holds with s. }
  { destruct st; [apply Hok|done]. }
  replace (ttl_end s0) with (ttl_end s) in Hs1 by (unfold ttl_end; by rewrite (fr_clock _ _ _ Hlk0)).
  fold c in Hs1.
  destruct (GET_number _ _ _ _ (proj1 (proj2 Hs1))) as (pf & s2 & _ & Hpg & Hpf & Hlk2).
  pose proof (looks_holds _ _ _ Hlk2 Hs1) as Hs2.
  destruct (GET_number _ _ _ _ (proj1 Hs2)) as (cf & s3 & _ & Hcg & Hcf & Hlk3).
  exists s3, pf, cf. split.
  { unfold sliding_window. fold kf. by rewrite (bind_ok _ _ _ _ _ Hget), (bind_ok _ _ _ _ _ Hroll),
      (bind_ok _ _ _ _ _ Hpg), (bind_ok _ _ _ _ _ Hcg). }
  split; [|split; [by apply looks_holds with s2|done]].
  eapply looks_framed; [exact Hlk0|]. eapply framed_trans; [exact Hfr|].
  eapply looks_framed; [exact Hlk2|]. eapply looks_framed; [exact Hlk3|]. apply framed_refl.
Qed.

Lemma reply_eq x z : is_int x z -> 0 <= z <= 2 ^ 53 -> reply_integer x = z.
Proof. intros Hx Hz. apply reply_integer_int; [done|lia]. Qed.

Lemma estimate_small c pf cf ef e : counters_ok L c -> is_int pf (prev c) -> is_int cf (curr c) ->
  is_int ef e -> 0 <= e < W ->
  let est := estimate_of pf cf ef (of_Z W) in fin est /\ 0 <= sval est <= 2 ^ 50 * one.
Proof.
  intros [Hcb Hpb _] Hp Hc He Heb est. pose proof limit_bound as HL. pose proof one_pos.
  destruct (estimate_bounds pf cf ef (of_Z W) _ _ e Hp Hc He ltac:(apply of_Z_int; destruct HP; lia)
    Hpb Hcb Heb) as (Hf & Hb & _). split; [done|]. fold est in Hb.
  assert ((prev c + curr c) * one <= 2 ^ 50 * one) by (apply Z.mul_le_mono_nonneg_r; lia).
  assert (0 <= curr c * one) by (apply Z.mul_nonneg_nonneg; lia). lia.
Qed.

Lemma sliding_window_run s st now cost : holds s st -> state_ok st ->
  0 <= now <= 2 ^ 40 -> 1 <= cost <= 2 ^ 45 ->
  exists reply s' c allowed,
    sliding_window ck pk ik (of_Z L) (of_Z W) (of_Z now) (of_Z cost) s = (Ok reply, s') /\
    sw_verdict s st now cost (map reply_integer reply) s' c allowed.
Proof.
  intros Hs Hok Hn Hc. pose proof one_pos as Hone. pose proof limit_bound as HL.
  destruct (window_ints now Hn) as (Hki & Hst & Hei & Hre & Hkb & Heb).
  assert (HWi : is_int (of_Z W) W) by (apply of_Z_int; destruct HP; lia).
  assert (HLi : is_int (of_Z L) L) by (apply of_Z_int; lia).
  destruct (window_read s st now cost Hs Hok Hn) as (s1 & pf & cf & -> & Hfr & Hs1 & Hpf & Hcf).
  set (kf := ffloor _) in *.
  pose proof (entered_ok st (now / W) (ttl_end s) Hok Hkb) as Hcok.
  set (c := entered st (now / W) (ttl_end s)) in *. unfold judge. cbv zeta.
  set (ef := fsub (of_Z now) _) in *.
  change (fadd (fmul pf (fsub (of_Z 1) (fdiv ef (of_Z W)))) cf) with (estimate_of pf cf ef (of_Z W)).
  destruct (decide_rule pf cf ef c _ cost Hpf Hcf Hei Hcok Heb Hc) as (Htf & Ht0 & Hrule).
  assert (Hreset : 0 <= (now / W + 1) * W <= 2 ^ 53 /\ W <= 2 ^ 53).
  { destruct HP as [_ HW _]. pose proof (Z.mul_div_le now W ltac:(lia)). nia. }
  destruct (estimate_small c pf cf ef _ Hcok Hpf Hcf Hei Heb) as [Hef Heub].
  set (est := estimate_of pf cf ef (of_Z W)) in *.
  destruct (fltb (of_Z L) (fadd est (of_Z cost))).
  - destruct (remaining_bounds (of_Z L) est HLi Hef Heub) as (r & Hr & Hrb & _).
    change (math_max _ (ffloor (fsub (of_Z L) est))) with (remaining_of (of_Z L) est).
    assert (Hra : is_int (fceil (fsub (of_Z W) ef)) (W - now mod W))
      by (apply ceil_int, is_int_sub; [done|done|lia]).
    eexists _, s1, c, false. split; [reflexivity|]. cbn [map].
    rewrite (reply_eq (of_Z 0) 0), (reply_eq _ _ Hr), (reply_eq _ _ Hre), (reply_eq _ _ Hra)
      by (first [apply of_Z_int; lia|lia]).
    constructor; auto. exists r. split; [done|]. split; [done|done].
  - destruct Hrule as (Hle & Hcl & Hrule & Hclose).
    assert (Hcost : is_int (fadd cf (of_Z cost)) (curr c + cost))
      by (destruct Hcok; apply is_int_add; [done|apply of_Z_int; lia|lia]).
    assert (HLo : L * one <= 2 ^ 50 * one) by (apply Z.mul_le_mono_nonneg_r; lia).
    destruct (remaining_bounds (of_Z L) (fadd est (of_Z cost)) HLi Htf ltac:(lia)) as (r & Hr & Hrb & Hrx).
    change (math_max _ (ffloor (fsub (of_Z L) (fadd est (of_Z cost)))))
      with (remaining_of (of_Z L) (fadd est (of_Z cost))).
    destruct (admit_stores (mret [of_Z 1; remaining_of (of_Z L) (fadd est (of_Z cost));
      fadd (fmul kf (of_Z W)) (of_Z W); of_Z 0]) s1 c (of_Z W) _ _ HWi Hs1 Hcost) as (s2 & Hm & Hfr2 & Hs2).
    eexists _, s2, c, true. split; [exact Hm|]. cbn [map].
    rewrite (reply_eq (of_Z 1) 1), (reply_eq _ _ Hr), (reply_eq _ _ Hre), (reply_eq (of_Z 0) 0)
      by (first [apply of_Z_int; lia|lia]).
    replace (ttl_end s1) with (ttl_end s) in Hs2 by (unfold ttl_end; by rewrite (fr_clock _ _ _ Hfr)).
    constructor; auto.
    + by eapply framed_trans.
    + destruct Hcok. constructor; simpl; lia.
    + exists r. split; [done|]. split; [done|]. intros _. by apply Hrx.
Qed.

End SlidingWindow.
