(* ===== verification/SlidingWindowRun.v ===== *)
(** The sliding window as a state machine: the states reachable by checks,
    by the passing of time and by the expiry of the keys, against the log of
    the checks made so far.

    The specification is the counting rule evaluated on the log: the cost
    admitted in the previous window, weighted by the part of it the last [W]
    seconds still cover, plus the cost admitted in the current window. *)

From stdpp Require Import base gmap strings list.
From Stdlib Require Import ZArith Lia.
From S2P Require Import Prelude Float64 Redis LuaScripts History SlidingWindow.

Local Open Scope Z_scope.

(** The cost a log admits in the aligned window [j], and in the instants from
    [a] up to [b]. *)
Definition in_window (W j : Z) (log : list check) : Z :=
  admitted_where (fun t => t / W =? j) log.
Definition between (a b : Z) (log : list check) : Z :=
  admitted_where (fun t => (a <=? t) && (t <? b)) log.

(** The counting rule on the log, times the window. *)
Definition demand (W : Z) (log : list check) (now cost : Z) : Z :=
  in_window W (now / W - 1) log * (W - now mod W) + (in_window W (now / W) log + cost) * W.

Section Reachable.
Context `{RedisServer} (ck pk ik : string) (L W : Z).

Definition keys_untouched (s s' : redis) : Prop :=
  untouched ck s s' /\ untouched pk s s' /\ untouched ik s s'.

(** Reachable from a server without the keys; the callers' clock agrees with
    the server's to the second. *)
Inductive reach : list check -> redis -> Prop :=
  | reach_init s : 0 <= clock s -> holds ck pk ik s None -> reach [] s
  | reach_other log s s' : reach log s -> keys_untouched s s' -> reach log s'
  | reach_check log s now cost reply s' :
      reach log s -> now = clock s / 1000 -> now <= 2 ^ 40 -> 1 <= cost <= 2 ^ 45 ->
      sliding_window ck pk ik (of_Z L) (of_Z W) (of_Z now) (of_Z cost) s = (Ok reply, s') ->
      reach (log ++ [{| c_now := now; c_cost := cost;
                        c_allowed := nth 0 (map reply_integer reply) 0 =? 1 |}]) s'.

Context (Hcp : ck <> pk) (Hci : ck <> ik) (Hpi : pk <> ik) (HP : window_params L W).

(** The counters stand for the log. *)
Definition stands_for (log : list check) (clk : Z) (st : option counters) : Prop :=
  match st with
  | None => forall j, clk / 1000 / W <= j + 1 -> in_window W j log = 0
  | Some c => curr c = in_window W (idx c) log /\ prev c = in_window W (idx c - 1) log /\
              (forall j, idx c < j -> in_window W j log = 0) /\
              1000 * (W * (idx c + 2)) <= expires c /\ idx c <= clk / 1000 / W
  end.

Record inv (log : list check) (s : redis) : Prop := {
  inv_clock : 0 <= clock s;
  inv_log : Forall (fun c => 0 <= c_cost c /\ c_now c <= clock s / 1000) log;
  inv_limit : forall j, in_window W j log <= L;
  inv_state : exists st, holds ck pk ik s st /\ state_ok L st /\ stands_for log (clock s) st
}.

Lemma window_mono x y : x <= y -> x / 1000 / W <= y / 1000 / W.
Proof. intros Hxy. destruct HP. apply Z.div_le_mono; [lia|]. apply Z.div_le_mono; lia. Qed.

(** The other keys' traffic and the expiry keep the counters true to the log:
    when the keys expire, the log has nothing in the last two windows. *)
Lemma untouched_holds s s' st log :
  keys_untouched s s' -> 0 <= clock s -> holds ck pk ik s st -> stands_for log (clock s) st ->
  exists st', holds ck pk ik s' st' /\ (st' = st \/ st' = None) /\ stands_for log (clock s') st'.
Proof.
  intros (Hc & Hp & Hi) Hclk Hs Hlog. pose proof (proj1 Hc) as Hle.
  pose proof (window_mono _ _ Hle) as Hw. destruct st as [c|].
  2:{ exists None. split; [|split; [by left|]].
      - destruct Hs as (? & ? & ?). repeat split; by eapply untouched_none.
      - intros j Hj. apply Hlog. lia. }
  destruct Hs as ((x & Hx & Hxi) & (y & Hy & Hyi) & (z & Hz & Hzi)).
  pose proof (untouched_some _ _ _ _ _ Hc Hx) as Hx'. pose proof (untouched_some _ _ _ _ _ Hp Hy) as Hy'.
  pose proof (untouched_some _ _ _ _ _ Hi Hz) as Hz'.
  destruct (Z.ltb_spec (expires c) (clock s')) as [Hexp|Hexp].
  - exists None. split; [done|]. split; [by right|].
    destruct Hlog as (_ & _ & Hafter & Hend & _). intros j Hj. apply Hafter.
    enough (idx c + 2 <= clock s' / 1000 / W) by lia. destruct HP as [_ HW _].
    apply Z.div_le_lower_bound; [lia|]. apply Z.div_le_lower_bound; lia.
  - exists (Some c). split; [split; [|split]; eexists; eauto|]. split; [by left|].
    destruct Hlog as (? & ? & ? & ? & ?). repeat split; auto; lia.
Qed.

(** The window a check works in, read off the log. *)
Lemma entered_log st log clk k expiry : stands_for log clk st -> k = clk / 1000 / W ->
  let c := entered st k expiry in
  curr c = in_window W k log /\ prev c = in_window W (k - 1) log /\ idx c = k.
Proof.
  intros Hst Hk. destruct st as [c|]; simpl.
  - destruct Hst as (Hcur & Hprev & Hafter & _ & Hi).
    destruct (Z.ltb_spec (idx c) k); simpl.
    + rewrite (Hafter k) by lia. split; [done|]. split; [|done].
      destruct (Z.eqb_spec (idx c) (k - 1)) as [<-|]; [done|]. rewrite Hafter; [done|lia].
    + assert (idx c = k) as <- by lia. auto.
  - split; [|split; [|done]]; rewrite Hst; lia.
Qed.

Lemma stands_for_later log clk st j : stands_for log clk st -> clk / 1000 / W < j ->
  in_window W j log = 0.
Proof.
  destruct st as [c|]; simpl; [|intros Hst Hj; apply Hst; lia].
  intros (_ & _ & Hafter & _ & Hi) Hj. apply Hafter. lia.
Qed.

(** The keys outlive the window after the one they count. *)
Lemma entered_expires st log s : stands_for log (clock s) st ->
  1000 * (W * (clock s / 1000 / W + 2)) <= ttl_end W s /\
  1000 * (W * (clock s / 1000 / W + 2)) <=
    expires (entered st (clock s / 1000 / W) (ttl_end W s)).
Proof.
  intros Hst. assert (Httl : 1000 * (W * (clock s / 1000 / W + 2)) <= ttl_end W s).
  { unfold ttl_end. destruct HP as [_ HW _].
    pose proof (Z.mul_div_le (clock s / 1000) W ltac:(lia)).
    pose proof (Z.mul_div_le (clock s) 1000 ltac:(lia)). lia. }
  split; [done|]. destruct st as [c|]; simpl; [|done].
  destruct (Z.ltb_spec (idx c) (clock s / 1000 / W)); [done|].
  destruct Hst as (_ & _ & _ & Hend & Hi).
  by replace (clock s / 1000 / W) with (idx c) by lia.
Qed.

Lemma in_window_snoc j log c :
  in_window W j (log ++ [c]) =
    in_window W j log + if c_allowed c && (c_now c / W =? j) then c_cost c else 0.
Proof. apply admitted_where_snoc. Qed.

Definition rule_holds (log : list check) (now cost : Z) (allowed : bool) : Prop :=
  if allowed then demand W log now cost <= L * W else L * W <= demand W log now cost.

(** One check from a state that stands for the log. *)
Lemma check_step log s now cost reply s' : inv log s -> now = clock s / 1000 -> now <= 2 ^ 40 ->
  1 <= cost <= 2 ^ 45 ->
  sliding_window ck pk ik (of_Z L) (of_Z W) (of_Z now) (of_Z cost) s = (Ok reply, s') ->
  exists allowed remaining,
    map reply_integer reply = [Z.b2z allowed; remaining; (now / W + 1) * W;
                               if allowed then 0 else W - now mod W] /\
    0 <= remaining <= L /\
    (allowed = true ->
      remaining * W <= L * W - demand W log now cost <= (remaining + 1) * W) /\
    rule_holds log now cost allowed /\
    inv (log ++ [{| c_now := now; c_cost := cost; c_allowed := allowed |}]) s'.
Proof.
  intros [Hclk Hlog Hlim (st & Hs & Hok & Hst)] Hnow Hn Hc Hrun.
  assert (Hn0 : 0 <= now) by (rewrite Hnow; apply Z.div_pos; lia).
  destruct (sliding_window_run ck pk ik Hcp Hci Hpi L W HP s st now cost Hs Hok ltac:(lia) Hc)
    as (reply' & s2 & c & allowed & Hrun' & [Hce Hfr Hcok Hholds Hrule (r & Hrep & Hrb & Hrx)]).
  rewrite Hrun in Hrun'. injection Hrun' as <- <-.
  destruct (entered_log st log (clock s) (now / W) (ttl_end W s) Hst ltac:(by rewrite Hnow))
    as (Hcur & Hprev & Hidx). rewrite <- Hce in Hcur, Hprev, Hidx.
  assert (Hdem : weighted W c (now mod W) cost = demand W log now cost)
    by (unfold weighted, demand; by rewrite Hcur, Hprev).
  rewrite Hdem in Hrule, Hrx. exists allowed, r. split; [done|]. split; [done|].
  split; [done|]. split; [done|].
  assert (HW : 1 <= W) by (destruct HP; lia).
  pose proof (fr_clock _ _ _ Hfr) as Hclk'.
  assert (Hthis : forall j, in_window W j (log ++ [{| c_now := now; c_cost := cost; c_allowed := allowed |}])
    = in_window W j log + if allowed && (now / W =? j) then cost else 0)
    by (intros j; apply in_window_snoc).
  assert (Hnew : in_window W (now / W) log + (if allowed then cost else 0) <= L).
  { destruct allowed; [|rewrite Z.add_0_r; apply Hlim].
    rewrite <- Hcur. apply (co_curr _ _ Hcok). }
  constructor.
  - lia.
  - rewrite Hclk'. apply Forall_app. split; [done|]. apply Forall_singleton. simpl. lia.
  - intros j. rewrite Hthis. pose proof (Hlim j) as Hj.
    destruct (Z.eqb_spec (now / W) j) as [<-|]; [destruct allowed; simpl; lia|].
    rewrite andb_false_r. lia.
  - exists (Some (if allowed then spent c cost (ttl_end W s) else c)).
    split; [done|]. split; [done|].
    destruct (entered_expires st log s Hst) as [He1 He2]. rewrite <- Hnow, <- Hce in He2.
    rewrite <- Hnow in He1. unfold stands_for.
    replace (idx (if allowed then spent c cost (ttl_end W s) else c)) with (now / W)
      by (by destruct allowed). rewrite Hclk', <- Hnow.
    split; [|split; [|split; [|split]]].
    + rewrite Hthis, Z.eqb_refl. destruct allowed; simpl; lia.
    + rewrite Hthis. destruct (Z.eqb_spec (now / W) (now / W - 1)); [lia|].
      rewrite andb_false_r, Z.add_0_r. by destruct allowed.
    + intros j Hj. rewrite Hthis. destruct (Z.eqb_spec (now / W) j); [lia|].
      rewrite andb_false_r, (stands_for_later log (clock s) st j Hst); [done|by rewrite <- Hnow].
    + by destruct allowed.
    + lia.
Qed.

Lemma reach_inv log s : reach log s -> inv log s.
Proof.
  induction 1 as [s Hclk Hs|log s s' Hr IH Hu|log s now cost reply s' Hr IH Hnow Hn Hc Hrun].
  - constructor; [done|done| |].
    + intros j. pose proof (limit_bound L W HP). unfold in_window, admitted_where. simpl. lia.
    + exists None. split; [done|]. split; [done|]. by intros j _.
  - destruct IH as [Hclk Hlog Hlim (st & Hs & Hok & Hst)]. pose proof (proj1 (proj1 Hu)) as Hle.
    destruct (untouched_holds s s' st log Hu Hclk Hs Hst) as (st' & Hs' & Hst' & Hlog').
    constructor; [lia| |done|].
    + eapply Forall_impl; [exact Hlog|]. intros c [? ?]. split; [done|].
      assert (clock s / 1000 <= clock s' / 1000) by (apply Z.div_le_mono; lia). lia.
    + exists st'. split; [done|]. split; [|done]. by destruct Hst' as [->| ->].
  - destruct (check_step log s now cost reply s' IH Hnow Hn Hc Hrun)
      as (allowed & r & -> & _ & _ & _ & Hinv). cbn [nth]. by destruct allowed.
Qed.

(** ** Rolling windows *)

Lemma div_window t j : 0 < W -> t / W = j <-> j * W <= t < (j + 1) * W.
Proof.
  intros HW. split.
  - intros <-. pose proof (Z.mul_div_le t W HW). pose proof (Z.mul_succ_div_gt t W HW). lia.
  - intros Ht. symmetry. apply (Z.div_unique_pos t W j (t - j * W)); lia.
Qed.

Lemma rolling_step log now cost a : 2 <= W -> 1 <= cost ->
  Forall (fun c => 0 <= c_cost c /\ c_now c <= now) log ->
  (forall j, in_window W j log <= L) -> in_window W (now / W) log + cost <= L ->
  demand W log now cost <= L * W -> a <= now < a + W ->
  (between a (a + W) log + cost) * W <= L * (2 * W - 2).
Proof.
  intros HW Hc Hlog Hlim Hcur Hrule Ha. pose proof (limit_bound L W HP) as HL.
  assert (Hpos : Forall (fun c => 0 <= c_cost c) log)
    by (eapply Forall_impl; [exact Hlog|]; by intros ? []).
  assert (Hcover : between a (a + W) log <=
    in_window W (now / W) log + admitted_where (fun t => (t / W =? now / W - 1) && (a / W <? now / W)) log).
  { apply admitted_where_cover; [done|]. intros c Hin Hb.
    apply andb_true_iff in Hb as [H1%Z.leb_le H2%Z.ltb_lt].
    rewrite Forall_forall in Hlog. destruct (Hlog c Hin) as [_ Hcn].
    pose proof (Z.div_le_mono _ _ W ltac:(lia) Hcn). pose proof (Z.div_le_mono _ _ W ltac:(lia) H1).
    assert (now / W <= a / W + 1).
    { replace (a / W + 1) with ((a + 1 * W) / W) by (apply Z.div_add; lia). apply Z.div_le_mono; lia. }
    rewrite andb_true_iff, !Z.eqb_eq, Z.ltb_lt. lia. }
  destruct (Z.ltb_spec (a / W) (now / W)) as [Hlt|Hge].
  - assert (Hprev : admitted_where (fun t => (t / W =? now / W - 1) && true) log =
                    in_window W (now / W - 1) log).
    { unfold in_window, admitted_where. f_equal. apply map_ext. intros c. by rewrite andb_true_r. }
    rewrite Hprev in Hcover. unfold demand in Hrule.
    pose proof (Hlim (now / W - 1)) as HP1. pose proof (Z.div_mod now W ltac:(lia)) as Hdm.
    pose proof (Z.div_mod a W ltac:(lia)) as Hda. pose proof (Z.mod_pos_bound a W ltac:(lia)).
    pose proof (Z.mod_pos_bound now W ltac:(lia)).
    assert (He : now mod W <= W - 2).
    { assert (W * (a / W + 1) <= W * (now / W)) by (apply Z.mul_le_mono_nonneg_l; lia). lia. }
    set (P := in_window W (now / W - 1) log) in *. set (n := in_window W (now / W) log) in *.
    assert (HPe : P * (now mod W) <= L * (W - 2)).
    { assert (0 <= P) by (apply admitted_where_nonneg; done). apply Z.mul_le_mono_nonneg; lia. }
    assert ((between a (a + W) log + cost) * W <= (n + P + cost) * W)
      by (apply Z.mul_le_mono_nonneg_r; lia). lia.
  - rewrite (admitted_where_none (fun t => (t / W =? now / W - 1) && false)) in Hcover
      by (intros; apply andb_false_r).
    assert ((between a (a + W) log + cost) * W <= L * W) by (apply Z.mul_le_mono_nonneg_r; lia). nia.
Qed.

Lemma reach_rolling log s : reach log s -> 2 <= W ->
  forall a, between a (a + W) log * W <= L * (2 * W - 2).
Proof.
  intros Hr HW. induction Hr as [s Hclk Hs|log s s' Hr IH Hu|log s now cost reply s' Hr IH Hnow Hn Hc Hrun].
  - intros a. pose proof (limit_bound L W HP). unfold between, admitted_where. simpl. nia.
  - done.
  - intros a. pose proof (reach_inv log s Hr) as Hinv.
    destruct (check_step log s now cost reply s' Hinv Hnow Hn Hc Hrun)
      as (allowed & r & -> & _ & _ & Hrule & Hinv'). cbn [nth].
    unfold between. rewrite admitted_where_snoc. cbn [c_allowed c_now c_cost].
    destruct allowed; simpl; [|rewrite Z.add_0_r; apply IH].
    destruct (Z.leb_spec a now); simpl; [|rewrite Z.add_0_r; apply IH].
    destruct (Z.ltb_spec now (a + W)); simpl; [|rewrite Z.add_0_r; apply IH].
    destruct Hinv as [_ Hlog Hlim _]. rewrite <- Hnow in Hlog.
    apply (rolling_step log now cost a); auto; [lia|].
    pose proof (inv_limit _ _ Hinv' (now / W)) as Hl. rewrite in_window_snoc, Z.eqb_refl in Hl. apply Hl.
Qed.

End Reachable.

(** ** Properties *)

Section Properties.
Context `{RedisServer}.

(** C4: the script implements the counting rule on the log.  In every
    reachable state a check never fails; it admits only a demand that fits
    the limit and denies only one that reaches or exceeds it; the remaining
    count is the exact rest rounded down (or one less, at a rounding); the
    reset instant is the end of the window, the advised wait the time to it;
    and the state reached stands for the longer log. *)
Theorem sliding_window_refines_log ck pk ik L W log s now cost :
  ck <> pk -> ck <> ik -> pk <> ik -> window_params L W ->
  reach ck pk ik L W log s -> now = clock s / 1000 -> now <= 2 ^ 40 -> 1 <= cost <= 2 ^ 45 ->
  exists reply s' allowed remaining,
    sliding_window ck pk ik (of_Z L) (of_Z W) (of_Z now) (of_Z cost) s = (Ok reply, s') /\
    map reply_integer reply = [Z.b2z allowed; remaining; (now / W + 1) * W;
                               if allowed then 0 else W - now mod W] /\
    0 <= remaining <= L /\
    (if allowed
     then demand W log now cost <= L * W /\
          remaining * W <= L * W - demand W log now cost <= (remaining + 1) * W
     else L * W <= demand W log now cost) /\
    reach ck pk ik L W
      (log ++ [{| c_now := now; c_cost := cost; c_allowed := allowed |}]) s'.
Proof.
  intros Hcp Hci Hpi HP Hr Hnow Hn Hc. pose proof (reach_inv ck pk ik L W Hcp Hci Hpi HP _ _ Hr) as Hi.
  destruct (inv_state _ _ _ _ _ _ _ Hi) as (st & Hs & Hok & _).
  assert (Hn0 : 0 <= now) by (rewrite Hnow; apply Z.div_pos; [apply (inv_clock _ _ _ _ _ _ _ Hi)|lia]).
  destruct (sliding_window_run ck pk ik Hcp Hci Hpi L W HP s st now cost Hs Hok ltac:(lia) Hc)
    as (reply & s' & c & allowed' & Hrun & _).
  destruct (check_step ck pk ik L W Hcp Hci Hpi HP log s now cost reply s' Hi Hnow Hn Hc Hrun)
    as (allowed & r & Hrep & Hrb & Hrx & Hrule & _).
  exists reply, s', allowed, r. split; [done|]. split; [done|]. split; [done|]. split.
  - destruct allowed; [split; [done|by apply Hrx]|done].
  - pose proof (reach_check ck pk ik L W log s now cost reply s' Hr Hnow Hn Hc Hrun) as Hr'.
    rewrite Hrep in Hr'. cbn [nth] in Hr'. by destruct allowed.
Qed.

(** The limits a client can rely on.  In every reachable state the cost
    admitted in an aligned window is at most the limit, and the cost admitted
    in any [W] consecutive seconds is at most the limit times
    [2 - 2 / W]. *)
Theorem sliding_window_limit ck pk ik L W log s :
  ck <> pk -> ck <> ik -> pk <> ik -> window_params L W -> reach ck pk ik L W log s ->
  (forall j, in_window W j log <= L) /\
  (2 <= W -> forall a, between a (a + W) log * W <= L * (2 * W - 2)).
Proof.
  intros Hcp Hci Hpi HP Hr. split.
  - apply (inv_limit _ _ _ _ _ _ _ (reach_inv ck pk ik L W Hcp Hci Hpi HP _ _ Hr)).
  - by apply (reach_rolling ck pk ik L W Hcp Hci Hpi HP log s).
Qed.

(** Neither [Retry-After] nor the reset instant is when a client of a
    full window is served: at the start of the next window the full one still
    counts in whole, and every check made at that instant is denied. *)
Theorem sliding_window_retry_insufficient ck pk ik L W log s now cost reply s' :
  ck <> pk -> ck <> ik -> pk <> ik -> window_params L W -> reach ck pk ik L W log s ->
  in_window W (now / W - 1) log = L -> now mod W = 0 ->
  now = clock s / 1000 -> now <= 2 ^ 40 -> 1 <= cost <= 2 ^ 45 ->
  sliding_window ck pk ik (of_Z L) (of_Z W) (of_Z now) (of_Z cost) s = (Ok reply, s') ->
  nth 0 (map reply_integer reply) 0 = 0.
Proof.
  intros Hcp Hci Hpi HP Hr Hfull Hstart Hnow Hn Hc Hrun.
  pose proof (reach_inv ck pk ik L W Hcp Hci Hpi HP _ _ Hr) as Hi.
  destruct (check_step ck pk ik L W Hcp Hci Hpi HP log s now cost reply s' Hi Hnow Hn Hc Hrun)
    as (allowed & r & -> & _ & _ & Hrule & _).
  destruct allowed; [|done]. exfalso. simpl in Hrule. unfold demand in Hrule.
  rewrite Hfull, Hstart in Hrule.
  assert (0 <= in_window W (now / W) log).
  { apply admitted_where_nonneg. eapply Forall_impl; [exact (inv_log _ _ _ _ _ _ _ Hi)|]. by intros ? []. }
  destruct HP as [HL HW _]. nia.
Qed.

End Properties.

(** ** Concrete histories *)

Section Histories.
#[local] Existing Instance redis7.

(** The state after a check at second [now], with the server's clock set. *)
Definition checked (L W now cost : Z) (s : store) : store :=
  snd (sliding_window (H := redis7) "c" "p" "i" (of_Z L) (of_Z W) (of_Z now) (of_Z cost) (at_time (1000 * now) s)).

Definition verdict_of (L W now cost : Z) (s : store) : list Z :=
  match fst (sliding_window (H := redis7) "c" "p" "i" (of_Z L) (of_Z W) (of_Z now) (of_Z cost) (at_time (1000 * now) s)) with
  | Ok reply => map reply_integer reply
  | Err _ => []
  end.

Lemma reach_start L W : reach (H := redis7) "c" "p" "i" L W [] (empty_redis 0).
Proof. by apply reach_init. Qed.

Lemma reach_checked L W log (s : store) now cost allowed :
  reach (H := redis7) "c" "p" "i" L W log s -> now_ms s <= 1000 * now -> now <= 2 ^ 40 -> 1 <= cost <= 2 ^ 45 ->
  verdict_of L W now cost s <> [] -> (nth 0 (verdict_of L W now cost s) 0 =? 1) = allowed ->
  reach (H := redis7) "c" "p" "i" L W (log ++ [{| c_now := now; c_cost := cost; c_allowed := allowed |}])
    (checked L W now cost s).
Proof.
  intros Hr Hclk Hn Hc Hv <-. unfold verdict_of, checked in *.
  destruct (sliding_window _ _ _ _ _ _ _ _) as [[reply|e] s'] eqn:E; [|done].
  apply (reach_check (H := redis7) "c" "p" "i" L W log (at_time (1000 * now) s) now cost reply); auto.
  - apply (reach_other (H := redis7) "c" "p" "i" L W log s); [done|].
    split; [|split]; by apply untouched_at_time.
  - simpl. rewrite Z.mul_comm. symmetry. by apply Z.div_mul.
Qed.

Lemma sample_params : window_params 10 10.
Proof. by constructor. Qed.

Lemma sample_reach : reach (H := redis7) "c" "p" "i" 10 10 [{| c_now := 9; c_cost := 10; c_allowed := true |}]
  (checked 10 10 9 10 (empty_redis 0)).
Proof. apply (reach_checked 10 10 [] _ 9 10 true (reach_start 10 10)); by vm_compute. Qed.

Lemma sample_reach_15 : reach (H := redis7) "c" "p" "i" 15 3 [{| c_now := 2; c_cost := 15; c_allowed := true |}]
  (checked 15 3 2 15 (empty_redis 0)).
Proof. apply (reach_checked 15 3 [] _ 2 15 true (reach_start 15 3)); by vm_compute. Qed.

(** The rolling bound is met: with a limit of 10 per 10 seconds the limiter
    admits 18 requests within the 10 seconds from 9 to 18, although the
    README says there is no burst at window boundaries. *)
Theorem sliding_window_boundary_burst : exists log s,
  reach "c" "p" "i" 10 10 log s /\ between 9 19 log = 18.
Proof.
  eexists _, _. split.
  - apply (reach_checked 10 10 _ _ 18 8 true sample_reach); by vm_compute.
  - by vm_compute.
Qed.

(** At an exact fit a rounding can deny.  With a limit of 15 per 3
    seconds and 15 admitted in the previous window, 5 more at the first
    second demand exactly the limit, and the script denies them. *)
Theorem sliding_window_rounding_denies : exists log s s',
  reach "c" "p" "i" 15 3 log s /\
  demand 3 log 4 5 = 15 * 3 /\
  reach "c" "p" "i" 15 3 (log ++ [{| c_now := 4; c_cost := 5; c_allowed := false |}]) s'.
Proof.
  eexists _, _, _. split; [|split].
  - apply sample_reach_15.
  - by vm_compute.
  - apply (reach_checked 15 3 _ _ 4 5 false sample_reach_15); by vm_compute.
Qed.

Lemma sample_reach_later t : 9000 <= t ->
  reach (H := redis7) "c" "p" "i" 10 10 [{| c_now := 9; c_cost := 10; c_allowed := true |}]
    (at_time t (checked 10 10 9 10 (empty_redis 0))).
Proof.
  intros Ht. eapply reach_other; [apply sample_reach|].
  assert (Hclk : now_ms (checked 10 10 9 10 (empty_redis 0)) <= t)
    by (transitivity 9000; [by vm_compute|done]).
  split; [|split]; exact (untouched_at_time _ _ t Hclk).
Qed.

Lemma sliding_window_refines_log_witness : exists reply s' allowed remaining,
  sliding_window (H := redis7) "c" "p" "i" (of_Z 10) (of_Z 10) (of_Z 18) (of_Z 8)
    (at_time 18000 (checked 10 10 9 10 (empty_redis 0))) = (Ok reply, s') /\
  map reply_integer reply = [Z.b2z allowed; remaining; 20; if allowed then 0 else 2] /\
  0 <= remaining <= 10.
Proof.
  destruct (sliding_window_refines_log (H := redis7) "c" "p" "i" 10 10 _ _ 18 8 ltac:(done) ltac:(done) ltac:(done)
    sample_params (sample_reach_later 18000 ltac:(lia)) ltac:(done) ltac:(lia) ltac:(lia))
    as (reply & s' & allowed & remaining & Hrun & Hrep & Hrb & _).
  eauto 8.
Defined.

Lemma sliding_window_limit_witness :
  between 9 19 [{| c_now := 9; c_cost := 10; c_allowed := true |}] * 10 <= 10 * (2 * 10 - 2).
Proof.
  apply (proj2 (sliding_window_limit (H := redis7) "c" "p" "i" 10 10 _ _ ltac:(done) ltac:(done) ltac:(done)
    sample_params sample_reach) ltac:(lia) 9).
Defined.

Lemma sliding_window_retry_insufficient_witness :
  verdict_of 10 10 9 1 (checked 10 10 9 10 (empty_redis 0)) = [0; 0; 10; 1] /\
  nth 0 (verdict_of 10 10 10 1 (checked 10 10 9 10 (empty_redis 0))) 0 = 0.
Proof.
  split; [by vm_compute|]. unfold verdict_of.
  destruct (sliding_window (H := redis7) "c" "p" "i" (of_Z 10) (of_Z 10) (of_Z 10) (of_Z 1)
              (at_time (1000 * 10) (checked 10 10 9 10 (empty_redis 0)))) as [[reply|e] s'] eqn:E; cbn [fst].
  - apply (sliding_window_retry_insufficient (H := redis7) "c" "p" "i" 10 10 _ _ 10 1 reply s' ltac:(done) ltac:(done)
      ltac:(done) sample_params (sample_reach_later (1000 * 10) ltac:(lia)));
      [by vm_compute|by vm_compute|by vm_compute|lia|lia|exact E].
  - done.
Defined.

End Histories.
