(* ===== verification/SlidingWindowSkew.v ===== *)
(** The sliding window between processes whose clocks differ.  The script works
    with the caller's clock, but counts a check of a caller that lags behind in
    the window that is already stored.  Every check is booked in a stored
    window: that of its caller's clock or the one after, as long as twice the
    difference of the clocks is at most a window. *)

From stdpp Require Import base gmap strings list.
From Stdlib Require Import ZArith Lia.
From S2P Require Import Prelude Float64 Redis LuaScripts History SlidingWindow SlidingWindowRun.

Local Open Scope Z_scope.

(** The admitted cost of a log whose checks are booked in the windows [js], in
    the windows that [p] selects *)
Definition booked (p : Z -> bool) (log : list check) (js : list Z) : Z :=
  sumZ (zip_with (fun c j => if c_allowed c && p j then c_cost c else 0) log js).

(** The windows from [k] on, [n] of them *)
Definition windows (k n : Z) (j : Z) : bool := (k <=? j) && (j <? k + n).

Section Booking.

Lemma booked_snoc p log js c j : length log = length js ->
  booked p (log ++ [c]) (js ++ [j]) = booked p log js + if c_allowed c && p j then c_cost c else 0.
Proof. intros Hl. unfold booked. rewrite zip_with_app, sumZ_app by done. simpl. lia. Qed.

Lemma booked_none p log js : Forall (fun j => p j = false) js -> booked p log js = 0.
Proof.
  intros Hp. unfold booked. revert log. induction Hp as [|j js Hj _ IH]; intros [|c log]; simpl; try done.
  by rewrite Hj, andb_false_r, IH.
Qed.

Lemma windows_0 k j : windows k 0 j = false.
Proof. unfold windows. destruct (Z.leb_spec k j); [|done]. simpl. bool_cases; lia. Qed.

Lemma windows_succ k n j : 0 <= n -> windows k (n + 1) j = windows k n j || (j =? k + n).
Proof. intros Hn. unfold windows. bool_cases; simpl; lia. Qed.

Lemma booked_succ k n log js : 0 <= n ->
  booked (windows k (n + 1)) log js = booked (windows k n) log js + booked (fun j => j =? k + n) log js.
Proof.
  intros Hn. unfold booked. revert js. induction log as [|c log IH]; intros [|j js]; simpl; try done.
  rewrite IH, windows_succ by done. unfold windows. destruct (c_allowed c); bool_cases; simpl; lia.
Qed.

(** What is at most [L] in each window is at most [n] times [L] in [n]. *)
Lemma booked_windows log js L : (forall j, booked (fun i => i =? j) log js <= L) ->
  forall n k, 0 <= n -> booked (windows k n) log js <= n * L.
Proof.
  intros HL n k Hn. revert n Hn. apply natlike_ind.
  - rewrite booked_none; [lia|]. apply Forall_forall. intros j _. apply windows_0.
  - intros n Hn IH. rewrite <- Z.add_1_r, booked_succ by done. specialize (HL (k + n)). lia.
Qed.

(** Checks booked in the window of their clock or the next: the first [n]
    windows are booked in [n + 1]. *)
Lemma booked_covers W log js k n :
  Forall2 (fun c j => 0 <= c_cost c /\ c_now c / W <= j <= c_now c / W + 1) log js ->
  admitted_where (fun t => windows k n (t / W)) log <= booked (windows k (n + 1)) log js.
Proof.
  induction 1 as [|c j log js [Hc Hj] _ IH]; unfold admitted_where, booked in *; simpl; [done|].
  assert (windows k n (c_now c / W) = true -> windows k (n + 1) j = true).
  { unfold windows. rewrite !andb_true_iff, !Z.leb_le, !Z.ltb_lt. lia. }
  destruct (c_allowed c), (windows k n (c_now c / W)), (windows k (n + 1) j); simpl; try lia.
Qed.

End Booking.

Section Skewed.
Context `{RedisServer} (ck pk ik : string) (L W D : Z).

(** Reachable from a server without the keys; the callers' clocks, in
    milliseconds, are within [D] of the server's. *)
Inductive skew_reach : list check -> redis -> Prop :=
  | skew_init s : 0 <= clock s -> holds ck pk ik s None -> skew_reach [] s
  | skew_other log s s' : skew_reach log s -> keys_untouched ck pk ik s s' -> skew_reach log s'
  | skew_check log s t cost reply s' :
      skew_reach log s -> Z.abs (t - clock s) <= D -> 0 <= t -> t / 1000 <= 2 ^ 40 -> 1 <= cost <= 2 ^ 45 ->
      sliding_window ck pk ik (of_Z L) (of_Z W) (of_Z (t / 1000)) (of_Z cost) s = (Ok reply, s') ->
      skew_reach (log ++ [{| c_now := t / 1000; c_cost := cost;
                             c_allowed := nth 0 (map reply_integer reply) 0 =? 1 |}]) s'.

Context (Hcp : ck <> pk) (Hci : ck <> ik) (Hpi : pk <> ik) (HP : window_params L W).
Context (HD : 0 <= D /\ 2 * D <= 1000 * W).

(** The counters stand for the bookings: nothing is booked after the stored
    window, and the keys live until every clock has left it. *)
Definition books (log : list check) (js : list Z) (clk : Z) (st : option counters) : Prop :=
  match st with
  | None => Forall (fun j => 1000 * W * (j + 1) + D <= clk) js
  | Some c => curr c = booked (fun j => j =? idx c) log js /\ Forall (fun j => j <= idx c) js /\
              1000 * W * (idx c + 1) + D <= expires c /\ 1000 * W * idx c <= clk + D
  end.

Record skew_state (log : list check) (s : redis) (js : list Z) (st : option counters) : Prop := {
  sk_clock : 0 <= clock s;
  sk_windows : Forall2 (fun c j => 0 <= c_cost c /\ c_now c / W <= j <= c_now c / W + 1) log js;
  sk_limit : forall j, booked (fun i => i =? j) log js <= L;
  sk_holds : holds ck pk ik s st;
  sk_ok : state_ok L st;
  sk_books : books log js (clock s) st
}.

(** Traffic elsewhere and the expiry of the keys keep the books. *)
Lemma skew_state_other log s s' js st : keys_untouched ck pk ik s s' -> skew_state log s js st ->
  exists st', skew_state log s' js st'.
Proof.
  intros (Hc & Hp & Hi) [Hclk Hw Hl Hs Hok Hb]. pose proof (proj1 Hc) as Hle. destruct st as [c|].
  2:{ exists None. constructor; [lia|done|done| |done|].
      - destruct Hs as (? & ? & ?). repeat split; by eapply untouched_none.
      - eapply Forall_impl; [exact Hb|]. simpl. lia. }
  destruct Hs as ((x & Hx & Hxi) & (y & Hy & Hyi) & (z & Hz & Hzi)).
  pose proof (untouched_some _ _ _ _ _ Hc Hx) as Hx'. pose proof (untouched_some _ _ _ _ _ Hp Hy) as Hy'.
  pose proof (untouched_some _ _ _ _ _ Hi Hz) as Hz'. destruct Hb as (Hcur & Hjs & Hend & Hidx).
  destruct (Z.ltb_spec (expires c) (clock s')) as [Hexp|Hexp].
  - exists None. constructor; try done; [lia|]. eapply Forall_impl; [exact Hjs|].
    intros j Hj. cbv beta in Hj. simpl. destruct HP as [_ HW _]. nia.
  - exists (Some c). constructor; try done; [lia| |].
    + split; [|split]; eexists; eauto.
    + repeat split; try done. lia.
Qed.

(** The window a check is booked in *)
Lemma entered_books log js s st t : skew_state log s js st -> Z.abs (t - clock s) <= D ->
  let k := t / 1000 / W in let c := entered st k (ttl_end W s) in
  curr c = booked (fun j => j =? idx c) log js /\ Forall (fun j => j <= idx c) js /\
  1000 * W * (idx c + 1) + D <= expires c /\ 1000 * W * idx c <= clock s + D /\ k <= idx c <= k + 1.
Proof.
  intros [Hclk _ _ _ _ Hb] Ht k. assert (HW : 0 < W) by (destruct HP; lia).
  assert (Hk : 1000 * W * k <= t < 1000 * W * (k + 1)).
  { unfold k. rewrite Z.div_div by lia. pose proof (Z.mul_div_le t (1000 * W) ltac:(lia)).
    pose proof (Z.mul_succ_div_gt t (1000 * W) ltac:(lia)). lia. }
  assert (Hnew : Forall (fun j => j < k) js -> forall p,
    let c := {| curr := 0; prev := p; idx := k; expires := ttl_end W s |} in
    curr c = booked (fun j => j =? idx c) log js /\ Forall (fun j => j <= idx c) js /\
    1000 * W * (idx c + 1) + D <= expires c /\ 1000 * W * idx c <= clock s + D /\ k <= idx c <= k + 1).
  { intros Hjs p. simpl. unfold ttl_end. split; [|split; [eapply Forall_impl; [exact Hjs|]; simpl; lia|lia]].
    rewrite booked_none; [done|]. eapply Forall_impl; [exact Hjs|]. intros j Hj. cbv beta in *.
    apply Z.eqb_neq. lia. }
  destruct st as [c|]; cbn [entered].
  - destruct Hb as (Hcur & Hjs & Hend & Hidx). destruct (Z.ltb_spec (idx c) k) as [Hlt|Hge].
    + apply Hnew. eapply Forall_impl; [exact Hjs|]. simpl. lia.
    + split_and!; try done. assert (1000 * W * idx c < 1000 * W * (k + 2)) by lia. nia.
  - apply Hnew. eapply Forall_impl; [exact Hb|]. intros j Hj. cbv beta in Hj. nia.
Qed.

(** One check keeps the books. *)
Lemma skew_state_check log s js st t cost : skew_state log s js st ->
  Z.abs (t - clock s) <= D -> 0 <= t -> t / 1000 <= 2 ^ 40 -> 1 <= cost <= 2 ^ 45 ->
  exists reply s' allowed r,
    sliding_window ck pk ik (of_Z L) (of_Z W) (of_Z (t / 1000)) (of_Z cost) s = (Ok reply, s') /\
    framed [ck; pk; ik] s s' /\
    map reply_integer reply = [Z.b2z allowed; r; (t / 1000 / W + 1) * W; if allowed then 0 else W - t / 1000 mod W] /\
    exists js' st', skew_state (log ++ [{| c_now := t / 1000; c_cost := cost; c_allowed := allowed |}]) s' js' st'.
Proof.
  intros Hst Ht Ht0 Hn Hc. pose proof (entered_books log js s st t Hst Ht) as Hent.
  destruct Hst as [Hclk Hw Hl Hs Hok Hb]. assert (Hn0 : 0 <= t / 1000) by (apply Z.div_pos; lia).
  destruct (sliding_window_run ck pk ik Hcp Hci Hpi L W HP s st (t / 1000) cost Hs Hok ltac:(lia) Hc)
    as (reply & s' & c & allowed & Hrun & [Hce Hfr Hcok Hholds _ (r & Hrep & _)]).
  cbv zeta in Hent. rewrite <- Hce in Hent. destruct Hent as (Hcur & Hjs & Hend & Hidx & Hk).
  exists reply, s', allowed, r. split; [done|]. split; [done|]. split; [done|].
  exists (js ++ [idx c]), (Some (if allowed then spent c cost (ttl_end W s) else c)).
  pose proof (Forall2_length _ _ _ Hw) as Hlen. pose proof (fr_clock _ _ _ Hfr) as Hclk'.
  assert (Hnew : booked (fun j => j =? idx c) log js + (if allowed then cost else 0) <= L).
  { rewrite <- Hcur. destruct allowed; [apply (co_curr _ _ Hcok)|]. rewrite Z.add_0_r. apply (co_curr _ _ Hcok). }
  constructor; [lia| | |done|by destruct allowed|].
  - apply Forall2_app; [done|]. repeat constructor; simpl; lia.
  - intros j. rewrite booked_snoc by done. simpl. pose proof (Hl j) as Hj.
    destruct (Z.eqb_spec (idx c) j) as [<-|]; [destruct allowed; simpl; lia|]. rewrite andb_false_r. lia.
  - rewrite Hclk'. unfold books.
    replace (idx (if allowed then _ else c)) with (idx c) by (by destruct allowed).
    split_and!; [| | |done].
    + rewrite booked_snoc by done. cbn [c_allowed c_cost]. rewrite Z.eqb_refl. destruct allowed; simpl; lia.
    + apply Forall_app. split; [done|]. by apply Forall_singleton.
    + destruct allowed; [|done]. simpl. unfold ttl_end. lia.
Qed.

Lemma skew_reach_state log s : skew_reach log s -> exists js st, skew_state log s js st.
Proof.
  induction 1 as [s Hclk Hs|log s s' _ (js & st & Hst) Hu|log s t cost reply s' _ (js & st & Hst) Ht Ht0 Hn Hc Hrun].
  - exists [], None. pose proof (limit_bound L W HP). constructor; [done|constructor| |done|done|constructor].
    intros j. unfold booked. simpl. lia.
  - destruct (skew_state_other _ _ _ _ _ Hu Hst) as (st' & Hst'). by exists js, st'.
  - destruct (skew_state_check log s js st t cost Hst Ht Ht0 Hn Hc) as (reply' & s2 & allowed & r & Hrun' & _ & Hrep & Hst').
    rewrite Hrun in Hrun'. injection Hrun' as <- <-. rewrite Hrep. cbn [nth].
    by replace (Z.b2z allowed =? 1) with allowed by (by destruct allowed).
Qed.

(** In [n] consecutive windows of the callers' time at most [n + 1] times the
    limit is admitted. *)
Lemma skew_limit log s k n : skew_reach log s -> 0 <= n ->
  admitted_where (fun t => windows k n (t / W)) log <= (n + 1) * L.
Proof.
  intros (js & st & Hst)%skew_reach_state Hn. etrans; [by apply booked_covers, (sk_windows _ _ _ _ Hst)|].
  apply booked_windows; [apply (sk_limit _ _ _ _ Hst)|lia].
Qed.

End Skewed.

(** ** Two processes whose clocks differ by five seconds *)

Section Histories.
#[local] Existing Instance redis7.

(** A check by a caller whose clock shows [t] when the server's shows [clk],
    for the limit of 10 per 10 seconds: the state after it, and the verdict *)
Definition skewed_check (clk t cost : Z) (s : store) : result string (list float) * store :=
  sliding_window (H := redis7) "c" "p" "i" (of_Z 10) (of_Z 10) (of_Z (t / 1000)) (of_Z cost) (at_time clk s).

Definition skewed_verdict (clk t cost : Z) (s : store) : list Z :=
  match fst (skewed_check clk t cost s) with Ok reply => map reply_integer reply | Err _ => [] end.

Lemma skew_checked log (s : store) clk t cost allowed :
  skew_reach (H := redis7) "c" "p" "i" 10 10 5000 log s -> now_ms s <= clk -> Z.abs (t - clk) <= 5000 ->
  0 <= t -> t / 1000 <= 2 ^ 40 -> 1 <= cost <= 2 ^ 45 ->
  skewed_verdict clk t cost s <> [] -> (nth 0 (skewed_verdict clk t cost s) 0 =? 1) = allowed ->
  skew_reach (H := redis7) "c" "p" "i" 10 10 5000
    (log ++ [{| c_now := t / 1000; c_cost := cost; c_allowed := allowed |}]) (snd (skewed_check clk t cost s)).
Proof.
  intros Hr Hclk Ht Ht0 Hn Hc Hv <-. unfold skewed_verdict, skewed_check in *.
  destruct (sliding_window _ _ _ _ _ _ _ _) as [[reply|e] s'] eqn:E; [|done].
  apply (skew_check (H := redis7) "c" "p" "i" 10 10 5000 log (at_time clk s) t cost reply); auto.
  apply (skew_other (H := redis7) "c" "p" "i" 10 10 5000 log s); [done|].
  split; [|split]; by apply untouched_at_time.
Qed.

(** Clocks that differ let more than the limit through.  With a limit of
    10 per 10 seconds and processes whose clocks are five seconds apart, 19
    requests are admitted within one aligned window of the callers' clocks: a
    process ahead opens the next window, and the checks of the others, still in
    the old one, count in it. *)
Theorem clock_skew_exceeds_limit : exists log s,
  skew_reach "c" "p" "i" 10 10 5000 log s /\ in_window 10 0 log = 19.
Proof.
  pose proof (skew_checked [] (empty_redis 0) 0 0 10 true ltac:(by apply skew_init)) as S1.
  do 7 (specialize (S1 ltac:(by vm_compute))).
  pose proof (skew_checked _ _ 5000 10000 1 false S1) as S2. do 7 (specialize (S2 ltac:(by vm_compute))).
  pose proof (skew_checked _ _ 5000 5000 5 true S2) as S3. do 7 (specialize (S3 ltac:(by vm_compute))).
  pose proof (skew_checked _ _ 9999 9000 4 true S3) as S4. do 7 (specialize (S4 ltac:(by vm_compute))).
  eexists _, _. split; [exact S4|by vm_compute].
Qed.

End Histories.
