(* ===== verification/RateLimiter.v ===== *)
(** The Redis rate limiter ([internal/infrastructure/redis/keys.go] and
    [rate_limiter.go]): key construction, the call of the scripts over an
    unreliable connection, and the decoding of their reply. *)

From stdpp Require Import base gmap strings list.
From Stdlib Require Import ZArith Lia.
From S2P Require Import Prelude Float64 GoStrings Sha256 Domain Uuid Redis LuaScripts.

Local Open Scope Z_scope.

(** ** keys.go *)

Record TenantRouteKey := { TRK_TenantID : uuid; TRK_Route : string; TRK_Subject : string }.

Section Keys.
Context `{GoText} `{UUIDText}.

Definition keyPrefix : string := "rl".

(** The first 8 bytes of the digest, in hexadecimal. *)
Definition hashSegment (s : string) : string := sha256_hex 8 s.

Definition RouteHash (route : string) : string := hashSegment (ToLower (TrimSpace route)).

Definition SubjectHash (subject : string) : string := hashSegment (TrimSpace subject).

Definition subjectSegment (subject : string) : string :=
  if String.eqb (TrimSpace subject) "" then "" else ":" +:+ SubjectHash subject.

(** [fmt.Sprintf("%s:<kind>:%s:%s%s", ...)] *)
Definition key_base (kind : string) (key : TenantRouteKey) : string :=
  keyPrefix +:+ kind +:+ uuid_String (TRK_TenantID key) +:+ ":" +:+ RouteHash (TRK_Route key) +:+
  subjectSegment (TRK_Subject key).

Definition TokenBucketKey (key : TenantRouteKey) : string := key_base ":tb:" key.

Definition SlidingWindowKeys (key : TenantRouteKey) : string * string * string :=
  let base := key_base ":sw:" key in (base +:+ ":curr", base +:+ ":prev", base +:+ ":idx").

End Keys.

(** ** The connection

    What the client library makes of one call: the server may run the command
    [lost] times without its reply coming through (the client sends a command
    again after a network error), then once more with its reply, or never. *)
Record link := { lost : nat; answered : bool; failure : string }.

Definition call `{RedisServer} {A} (l : link) (m : Script A) : Script A := fun s =>
  let s1 := Nat.iter (lost l) (fun s => snd (m s)) s in
  if answered l then m s1 else (Err (failure l), s1).

(** ** rate_limiter.go *)

Record RateLimiter := { tokenBucketSHA : string; slidingWindowSHA : string }.

(** [strconv]-style text of a slice of integers under the [%v] verb. *)
Fixpoint join_ints (l : list Z) : string :=
  match l with
  | [] => ""
  | [x] => FormatInt x
  | x :: l' => FormatInt x +:+ " " +:+ join_ints l'
  end.
Definition show_ints (l : list Z) : string := "[" +:+ join_ints l +:+ "]".

(** [fmt.Errorf("%w: %v", domainerrors.ErrRateLimitBackend, err)] *)
Definition backend_error (detail : string) : goerror :=
  wrap_detail (Sentinel ErrRateLimitBackend) detail.

Section Limiter.
Context `{RedisServer} `{GoText} `{UUIDText}.

(** [NewRateLimiter]: the embedded files are always readable; each
    [ScriptLoad] is a call of its own. *)
Definition NewRateLimiter (l1 l2 : link) (s : redis) : result goerror RateLimiter * redis :=
  match call l1 (fun s => let '(sha, s') := SCRIPT_LOAD token_bucket_lua s in (Ok sha, s')) s with
  | (Err e, s1) => (Err (wrap_op "load token bucket script" (Text e)), s1)
  | (Ok tbSHA, s1) =>
      match call l2 (fun s => let '(sha, s') := SCRIPT_LOAD sliding_window_lua s in (Ok sha, s')) s1 with
      | (Err e, s2) => (Err (wrap_op "load sliding window script" (Text e)), s2)
      | (Ok swSHA, s2) => (Ok {| tokenBucketSHA := tbSHA; slidingWindowSHA := swSHA |}, s2)
      end
  end.

Definition parseDecision (reply : list Z) (rule : Rule) : result goerror RateLimitDecision :=
  match reply with
  | allowed :: remaining :: reset_at :: retry_after :: _ =>
      Ok {| Allowed := allowed =? 1;
            Decision_Limit := Limit rule;
            Remaining := if remaining <? 0 then 0 else remaining;
            ResetAt := reset_at;
            RetryAfter := retry_after;
            Decision_Algorithm := Rule_Algorithm rule |}
  | _ => Err (backend_error ("unexpected lua response " +:+ show_ints reply))
  end.

(** A reply or an error of the client, decoded. *)
Definition decide_reply (rule : Rule) (r : result string (list Z) * redis) :
    result goerror RateLimitDecision * redis :=
  match r with
  | (Err e, s) => (Err (backend_error e), s)
  | (Ok reply, s) => (parseDecision reply rule, s)
  end.

(** [clock_ms] is the instant [time.Now()] returns, in milliseconds. *)
Definition checkTokenBucket (r : RateLimiter) (clock_ms : Z) (l : link) (key : TenantRouteKey)
    (rule : Rule) (cost : Z) (s : redis) : result goerror RateLimitDecision * redis :=
  let nowMs := clock_ms in
  let redisKey := TokenBucketKey key in
  decide_reply rule
    (call l (EvalSha (tokenBucketSHA r) [redisKey]
               [of_Z (BucketCapacity rule); RefillRate rule; of_Z nowMs; of_Z cost]) s).

Definition checkSlidingWindow (r : RateLimiter) (clock_ms : Z) (l : link) (key : TenantRouteKey)
    (rule : Rule) (cost : Z) (s : redis) : result goerror RateLimitDecision * redis :=
  let nowSec := clock_ms / 1000 in
  let '(curr, prev, idx) := SlidingWindowKeys key in
  decide_reply rule
    (call l (EvalSha (slidingWindowSHA r) [curr; prev; idx]
               [of_Z (LimitCount rule); of_Z (WindowSeconds rule); of_Z nowSec; of_Z cost]) s).

(** [RateLimiter.Check] *)
Definition RateLimiter_Check (r : RateLimiter) (clock_ms : Z) (l : link) (key : RateLimitKey) (rule : Rule)
    (cost : Z) (s : redis) : result goerror RateLimitDecision * redis :=
  let cost := if cost <=? 0 then 1 else cost in
  let trk := {| TRK_TenantID := Key_TenantID key; TRK_Route := Key_Route key;
                TRK_Subject := Key_Subject key |} in
  if String.eqb (Rule_Algorithm rule) AlgorithmTokenBucket
  then checkTokenBucket r clock_ms l trk rule cost s
  else if String.eqb (Rule_Algorithm rule) AlgorithmSlidingWindow
  then checkSlidingWindow r clock_ms l trk rule cost s
  else (Err (wrap_detail (Sentinel ErrInvalidRule)
               ("unsupported algorithm " +:+ Rule_Algorithm rule)), s).

End Limiter.
