(* ===== verification/RateLimiterSpec.v ===== *)
(** What the Redis rate limiter promises its callers: counters of different
    identities never interact, every failure is reported as such, and the
    decision is the verdict of the algorithm. *)

From stdpp Require Import base gmap strings list.
From Stdlib Require Import ZArith Lia.
From S2P Require Import Prelude Float64 GoStrings Sha256 Domain Uuid Redis LuaScripts Locality.
From S2P Require Import History TokenBucket SlidingWindow SlidingWindowRun RateLimiter.

Local Open Scope Z_scope.

(** ** Definitions *)

Section Spec.
Context `{RedisServer} `{GoText} `{UUIDText}.

Definition to_trk (key : RateLimitKey) : TenantRouteKey :=
  {| TRK_TenantID := Key_TenantID key; TRK_Route := Key_Route key; TRK_Subject := Key_Subject key |}.

(** The Redis keys a check of [rule] for [key] uses. *)
Definition rule_keys (rule : Rule) (key : RateLimitKey) : list string :=
  if String.eqb (Rule_Algorithm rule) AlgorithmTokenBucket then [TokenBucketKey (to_trk key)]
  else if String.eqb (Rule_Algorithm rule) AlgorithmSlidingWindow then
    let '(c, p, i) := SlidingWindowKeys (to_trk key) in [c; p; i]
  else [].

(** The identity of a counter: the tenant, the hashed route and the hashed
    subject (if any). *)
Definition slot (key : RateLimitKey) : uuid * string * string :=
  (Key_TenantID key, RouteHash (Key_Route key), subjectSegment (Key_Subject key)).

(** One request to the limiter, with all that surrounds it. *)
Record request := {
  rq_clock : Z; rq_link : link; rq_key : RateLimitKey; rq_rule : Rule; rq_cost : Z
}.

Definition serve (r : RateLimiter) (q : request) (s : redis) : result goerror RateLimitDecision * redis :=
  RateLimiter_Check r (rq_clock q) (rq_link q) (rq_key q) (rq_rule q) (rq_cost q) s.

Definition serve_all (r : RateLimiter) (qs : list request) (s : redis) : redis :=
  fold_left (fun s q => snd (serve r q s)) qs s.

(** The scripts the limiter calls are in the server's cache. *)
Definition loaded (r : RateLimiter) (s : redis) : Prop :=
  scripts s (tokenBucketSHA r) = Some token_bucket_lua /\
  scripts s (slidingWindowSHA r) = Some sliding_window_lua.

(** ** Keys *)

Lemma RouteHash_length route : String.length (RouteHash route) = 16%nat.
Proof. by apply sha256_hex_length; lia. Qed.

Lemma subjectSegment_length s :
  String.length (subjectSegment s) = 0%nat \/ String.length (subjectSegment s) = 17%nat.
Proof.
  unfold subjectSegment. destruct (String.eqb (TrimSpace s) ""); [by left|right].
  rewrite string_length_app. unfold SubjectHash, hashSegment. rewrite sha256_hex_length by lia. done.
Qed.

Lemma key_base_length kind key : String.length kind = 4%nat ->
  String.length (key_base kind key) = 59%nat \/ String.length (key_base kind key) = 76%nat.
Proof.
  intros Hk. unfold key_base. rewrite !string_length_app, uuid_String_length, RouteHash_length, Hk.
  change (String.length keyPrefix) with 2%nat. change (String.length ":") with 1%nat.
  destruct (subjectSegment_length (TRK_Subject key)) as [->| ->]; [left|right]; done.
Qed.

Lemma key_base_inj kind1 kind2 k1 k2 :
  String.length kind1 = String.length kind2 ->
  (Key_TenantID k1 < 2 ^ 128)%N -> (Key_TenantID k2 < 2 ^ 128)%N ->
  key_base kind1 (to_trk k1) = key_base kind2 (to_trk k2) -> kind1 = kind2 /\ slot k1 = slot k2.
Proof.
  intros Hl Hv1 Hv2 E. unfold key_base in E. apply string_app_inj_l in E.
  apply string_app_inj_len in E as [-> E]; [|done]. split; [done|].
  apply string_app_inj_len in E as [Et E]; [|by rewrite !uuid_String_length].
  apply uuid_String_inj in Et; [|done..].
  apply string_app_inj_l, string_app_inj_len in E as [Er Es]; [|by rewrite !RouteHash_length].
  unfold slot. by f_equal; [f_equal|].
Qed.

(** The suffixes of the three window keys tell them apart. *)
Lemma suffix_inj k1 k2 t1 t2 :
  t1 ∈ [":curr"; ":prev"; ":idx"] -> t2 ∈ [":curr"; ":prev"; ":idx"] ->
  key_base ":sw:" k1 +:+ t1 = key_base ":sw:" k2 +:+ t2 ->
  t1 = t2 /\ key_base ":sw:" k1 = key_base ":sw:" k2.
Proof.
  intros Hv1 Hv2 E. pose proof (f_equal String.length E) as Hlen. rewrite !string_length_app in Hlen.
  pose proof (key_base_length ":sw:" k1 eq_refl) as L1. pose proof (key_base_length ":sw:" k2 eq_refl) as L2.
  assert (Hs : String.length (key_base ":sw:" k1) = String.length (key_base ":sw:" k2)).
  { clear E. set (n1 := String.length (key_base _ k1)) in *. set (n2 := String.length (key_base _ k2)) in *. clearbody n1 n2.
    rewrite !elem_of_cons, elem_of_nil in Hv1, Hv2.
    destruct Hv1 as [->|[->|[->|[]]]], Hv2 as [->|[->|[->|[]]]]; simpl in Hlen; lia. }
  apply string_app_inj_len in E as [-> ->]; done.
Qed.

Lemma window_key_inv key k :
  k ∈ (let '(c, p, i) := SlidingWindowKeys key in [c; p; i]) ->
  exists t, t ∈ [":curr"; ":prev"; ":idx"] /\ k = key_base ":sw:" key +:+ t.
Proof.
  simpl. rewrite !elem_of_cons, elem_of_nil.
  intros [->|[->|[->|[]]]]; eexists; (split; [|done]); set_solver.
Qed.

Lemma kinds_differ k1 k2 t : key_base ":tb:" k1 <> key_base ":sw:" k2 +:+ t.
Proof. done. Qed.

(** A key shared by two checks means one algorithm and one slot. *)
Lemma rule_keys_shared r1 r2 k1 k2 k :
  (Key_TenantID k1 < 2 ^ 128)%N -> (Key_TenantID k2 < 2 ^ 128)%N ->
  k ∈ rule_keys r1 k1 -> k ∈ rule_keys r2 k2 ->
  Rule_Algorithm r1 = Rule_Algorithm r2 /\ slot k1 = slot k2.
Proof.
  intros Hv1 Hv2. unfold rule_keys.
  destruct (String.eqb_spec (Rule_Algorithm r1) AlgorithmTokenBucket) as [->|];
    [|destruct (String.eqb_spec (Rule_Algorithm r1) AlgorithmSlidingWindow) as [->|]];
    (destruct (String.eqb_spec (Rule_Algorithm r2) AlgorithmTokenBucket) as [->|];
      [|destruct (String.eqb_spec (Rule_Algorithm r2) AlgorithmSlidingWindow) as [->|]]);
    intros Hk1 Hk2; try (by apply not_elem_of_nil in Hk1); try (by apply not_elem_of_nil in Hk2).
  - apply list_elem_of_singleton in Hk1, Hk2. subst k. by apply key_base_inj in Hk2 as [_ ?].
  - apply list_elem_of_singleton in Hk1. subst k. apply window_key_inv in Hk2 as (t & _ & E).
    by apply kinds_differ in E.
  - apply list_elem_of_singleton in Hk2. subst k. apply window_key_inv in Hk1 as (t & _ & E).
    by apply kinds_differ in E.
  - apply window_key_inv in Hk1 as (t1 & Ht1 & ->), Hk2 as (t2 & Ht2 & E).
    apply suffix_inj in E as [_ E]; [|done..]. by apply key_base_inj in E as [_ ?].
Qed.

(** ** Locality of a check *)

#[local] Instance only_call K A l (m : Script A) : OnlyKeys K m -> OnlyKeys K (call l m).
Proof.
  intros Hm. assert (Hf : forall n s, framed K s (Nat.iter n (fun s => snd (m s)) s)).
  { induction n as [|n IH]; intros s; [apply framed_refl|]. simpl.
    eapply framed_trans; [apply IH|apply ok_frame]. }
  assert (Ha : forall n s1 s2, agree K s1 s2 ->
    agree K (Nat.iter n (fun s => snd (m s)) s1) (Nat.iter n (fun s => snd (m s)) s2)).
  { induction n as [|n IH]; intros s1 s2 Hag; [done|]. simpl. by apply ok_agree, IH. }
  unfold call. constructor.
  - intros s. destruct (answered l); simpl; [|apply Hf].
    eapply framed_trans; [apply Hf|apply ok_frame].
  - intros s1 s2 Hag. specialize (Ha (lost l) s1 s2 Hag).
    destruct (answered l); [by apply ok_agree|done].
Qed.

Lemma decide_reply_split rule r :
  decide_reply rule r =
    (match fst r with Err e => Err (backend_error e) | Ok reply => parseDecision reply rule end, snd r).
Proof. by destruct r as [[reply|e] s]. Qed.

Lemma valid_has_keys rule key : Algorithm_Valid (Rule_Algorithm rule) = true -> rule_keys rule key <> [].
Proof.
  unfold rule_keys, Algorithm_Valid.
  destruct (String.eqb (Rule_Algorithm rule) AlgorithmTokenBucket); [done|].
  by destruct (String.eqb (Rule_Algorithm rule) AlgorithmSlidingWindow).
Qed.

Lemma serve_unfold r q s :
  let script := if String.eqb (Rule_Algorithm (rq_rule q)) AlgorithmTokenBucket
                then tokenBucketSHA r else slidingWindowSHA r in
  (rule_keys (rq_rule q) (rq_key q) = [] /\
   serve r q s = (Err (wrap_detail (Sentinel ErrInvalidRule)
                         ("unsupported algorithm " +:+ Rule_Algorithm (rq_rule q))), s)) \/
  Algorithm_Valid (Rule_Algorithm (rq_rule q)) = true /\
  exists ARGV, forall s,
    serve r q s = decide_reply (rq_rule q)
      (call (rq_link q) (EvalSha script (rule_keys (rq_rule q) (rq_key q)) ARGV) s).
Proof.
  unfold serve, RateLimiter_Check, rule_keys, Algorithm_Valid.
  destruct (String.eqb (Rule_Algorithm (rq_rule q)) AlgorithmTokenBucket).
  { right. split; [done|]. eexists. intros s'. reflexivity. }
  destruct (String.eqb (Rule_Algorithm (rq_rule q)) AlgorithmSlidingWindow); [|by left].
  right. split; [done|]. eexists. intros s'. reflexivity.
Qed.

Lemma serve_local r q :
  let K := rule_keys (rq_rule q) (rq_key q) in
  (forall s, framed K s (snd (serve r q s))) /\
  (forall s1 s2, agree K s1 s2 -> fst (serve r q s1) = fst (serve r q s2)).
Proof.
  intros K. split.
  - intros s. destruct (serve_unfold r q s) as [[_ ->]|(_ & ARGV & E)]; [apply framed_refl|].
    rewrite E, decide_reply_split. apply (ok_frame (OnlyKeys := only_call _ _ _ _ (only_EvalSha _ _ _))).
  - intros s1 s2 Hag. destruct (serve_unfold r q s1) as [[HK E1]|(_ & ARGV & E)].
    + rewrite E1. destruct (serve_unfold r q s2) as [[_ ->]|(Hv & ARGV & E2)]; [done|].
      by destruct (valid_has_keys _ (rq_key q) Hv).
    + rewrite !E, !decide_reply_split. simpl.
      set (script := if String.eqb _ _ then _ else _).
      destruct (ok_agree (OnlyKeys := only_call K _ (rq_link q) _ (only_EvalSha script K ARGV)) s1 s2 Hag)
        as [Heq _]. unfold K in Heq. by rewrite Heq.
Qed.

Lemma keys_apart q q' k :
  (Key_TenantID (rq_key q) < 2 ^ 128)%N -> (Key_TenantID (rq_key q') < 2 ^ 128)%N ->
  slot (rq_key q) <> slot (rq_key q') \/ Rule_Algorithm (rq_rule q) <> Rule_Algorithm (rq_rule q') ->
  k ∈ rule_keys (rq_rule q) (rq_key q) -> k ∉ rule_keys (rq_rule q') (rq_key q').
Proof.
  intros Hv1 Hv2 Hne Hk Hk'.
  destruct (rule_keys_shared _ _ _ _ _ Hv1 Hv2 Hk Hk') as [Ha Hs]. by destruct Hne.
Qed.

(** ** Replies and errors *)

Definition noscript : string := "NOSCRIPT No matching script. Please use EVAL.".

Lemma parse_four a b c d rule : parseDecision [a; b; c; d] rule =
  Ok {| Allowed := a =? 1; Decision_Limit := Limit rule; Remaining := Z.max 0 b; ResetAt := c;
        RetryAfter := d; Decision_Algorithm := Rule_Algorithm rule |}.
Proof.
  unfold parseDecision. do 2 f_equal. destruct (Z.ltb_spec b 0); [by rewrite Z.max_l by lia|by rewrite Z.max_r by lia].
Qed.

(** A call on a server without the scripts changes nothing and fails. *)
Lemma call_unloaded l sha KEYS ARGV s : restarted s ->
  call l (EvalSha sha KEYS ARGV) s = (Err (if answered l then noscript else failure l), s).
Proof.
  intros Hs. assert (He : EvalSha sha KEYS ARGV s = (Err noscript, s))
    by (unfold EvalSha; by rewrite Hs).
  assert (Hi : Nat.iter (lost l) (fun s => snd (EvalSha sha KEYS ARGV s)) s = s).
  { induction (lost l) as [|n IH]; simpl; [done|]. by rewrite IH, He. }
  unfold call. rewrite Hi, He. by destruct (answered l).
Qed.

Lemma serve_all_unloaded r qs s : restarted s -> serve_all r qs s = s.
Proof.
  intros Hs. unfold serve_all. induction qs as [|q qs IH]; simpl; [done|].
  enough (snd (serve r q s) = s) as -> by done.
  destruct (serve_unfold r q s) as [[_ ->]|(_ & ARGV & E)]; [done|].
  by rewrite E, call_unloaded.
Qed.

(** A call over a link that loses nothing is one run of the script. *)
Definition perfect (l : link) : Prop := lost l = 0%nat /\ answered l = true.

Lemma call_perfect l {A} (m : Script A) s : perfect l -> call l m s = m s.
Proof. intros [Hl Ha]. unfold call. by rewrite Hl, Ha. Qed.

Lemma window_keys_distinct key :
  let '(c, p, i) := SlidingWindowKeys key in c <> p /\ c <> i /\ p <> i.
Proof.
  simpl. split; [|split]; intros E; by apply string_app_inj_l in E.
Qed.

(** The cost a check charges: the request's, or one. *)
Definition charged (q : request) : Z := if rq_cost q <=? 0 then 1 else rq_cost q.

Lemma framed_loaded K r s s' : framed K s s' -> loaded r s -> loaded r s'.
Proof. intros [_ _ Hs] [H1' H2']. split; by rewrite Hs. Qed.

(** Loading a script, over any link that answers *)
Definition load_script (n : script_name) : Script string := fun s => let '(sha, s') := SCRIPT_LOAD n s in (Ok sha, s').

Lemma load_call l n s sha s' :
  call l (load_script n) s = (Ok sha, s') ->
  sha = script_sha n /\ scripts s' sha = Some n /\ forall sha', sha' <> sha -> scripts s' sha' = scripts s sha'.
Proof.
  unfold call.
  assert (Hstep : forall s sha', scripts (snd (load_script n s)) sha' = if String.eqb sha' (script_sha n) then Some n else scripts s sha').
  { intros s0 sha'. destruct (SCRIPT_LOAD_law n s0) as (_ & _ & _ & Hs). rewrite <- Hs. unfold load_script. by destruct (SCRIPT_LOAD n s0). }
  assert (Hiter : forall k sha', sha' <> script_sha n -> scripts (Nat.iter k (fun s => snd (load_script n s)) s) sha' = scripts s sha').
  { intros k sha' Hne. induction k as [|k IH]; [done|]. simpl. by rewrite Hstep, (proj2 (String.eqb_neq _ _) Hne). }
  destruct (answered l); [|done]. set (s1 := Nat.iter _ _ s) in *. specialize (Hstep s1).
  destruct (SCRIPT_LOAD_law n s1) as (Hsha & _). unfold load_script in *. destruct (SCRIPT_LOAD n s1) as [sha1 s2].
  simpl in Hsha, Hstep. subst sha1. intros [= <- <-]. split; [done|].
  split; [by rewrite Hstep, String.eqb_refl|]. intros sha' Hne. rewrite Hstep, (proj2 (String.eqb_neq _ _) Hne).
  by apply Hiter.
Qed.

(** A limiter that could be made has its scripts. *)
Lemma NewRateLimiter_loaded l1 l2 s r s' : NewRateLimiter l1 l2 s = (Ok r, s') -> loaded r s'.
Proof.
  unfold NewRateLimiter. destruct (call l1 _ s) as [[sha1|e] s1] eqn:E1; [|done].
  destruct (call l2 _ s1) as [[sha2|e] s2] eqn:E2; [|done]. intros [= <- <-].
  destruct (load_call _ _ _ _ _ E1) as (-> & L1 & _), (load_call _ _ _ _ _ E2) as (-> & L2 & L2').
  split; [|exact L2]. cbn [tokenBucketSHA]. rewrite L2'; [exact L1|]. by intros E%script_sha_inj.
Qed.

Lemma serve_token_bucket r q s :
  Rule_Algorithm (rq_rule q) = AlgorithmTokenBucket -> loaded r s -> perfect (rq_link q) ->
  serve r q s = decide_reply (rq_rule q)
    (match token_bucket (TokenBucketKey (to_trk (rq_key q))) (of_Z (BucketCapacity (rq_rule q)))
       (RefillRate (rq_rule q)) (of_Z (rq_clock q)) (of_Z (charged q)) s with
     | (Ok reply, s') => (Ok (map reply_integer reply), s')
     | (Err e, s') => (Err e, s')
     end).
Proof.
  intros Ha [Hl _] Hp. unfold serve, RateLimiter_Check. rewrite Ha.
  change (String.eqb AlgorithmTokenBucket AlgorithmTokenBucket) with true. cbv iota.
  unfold checkTokenBucket. rewrite call_perfect by done. unfold EvalSha. rewrite Hl.
  fold (charged q). fold (to_trk (rq_key q)). unfold run_script, mbind, Script_bind.
  by destruct (token_bucket _ _ _ _ _ s) as [[reply|e] s'].
Qed.

Lemma serve_sliding_window r q s :
  Rule_Algorithm (rq_rule q) = AlgorithmSlidingWindow -> loaded r s -> perfect (rq_link q) ->
  serve r q s = decide_reply (rq_rule q)
    (let '(c, p, i) := SlidingWindowKeys (to_trk (rq_key q)) in
     match sliding_window c p i (of_Z (LimitCount (rq_rule q))) (of_Z (WindowSeconds (rq_rule q)))
       (of_Z (rq_clock q / 1000)) (of_Z (charged q)) s with
     | (Ok reply, s') => (Ok (map reply_integer reply), s')
     | (Err e, s') => (Err e, s')
     end).
Proof.
  intros Ha [_ Hl] Hp. unfold serve, RateLimiter_Check. rewrite Ha.
  change (String.eqb AlgorithmSlidingWindow AlgorithmTokenBucket) with false.
  change (String.eqb AlgorithmSlidingWindow AlgorithmSlidingWindow) with true. cbv iota.
  unfold checkSlidingWindow. fold (to_trk (rq_key q)).
  destruct (SlidingWindowKeys (to_trk (rq_key q))) as [[c p] i].
  rewrite call_perfect by done. unfold EvalSha. rewrite Hl.
  fold (charged q). unfold run_script, mbind, Script_bind.
  by destruct (sliding_window _ _ _ _ _ _ _ s) as [[reply|e] s'].
Qed.

End Spec.

(** ** Properties *)

Section Properties.
Context `{RedisServer} `{GoText} `{UUIDText}.

(** C5: isolation.  Whatever checks are made for other counters (another
    tenant, another hashed route or subject, the other algorithm), over links
    that lose replies and at any instants, the decision of a check is the one
    it would have got without them. *)
Theorem limiter_isolation r others q s :
  (Key_TenantID (rq_key q) < 2 ^ 128)%N ->
  Forall (fun q' => (Key_TenantID (rq_key q') < 2 ^ 128)%N /\
    (slot (rq_key q) <> slot (rq_key q') \/
     Rule_Algorithm (rq_rule q) <> Rule_Algorithm (rq_rule q'))) others ->
  fst (serve r q (serve_all r others s)) = fst (serve r q s).
Proof.
  intros Hq Hothers. apply (serve_local r q). unfold serve_all. revert s.
  induction Hothers as [|q' others [Hq' Hne] _ IH]; intros s; [done|]. simpl.
  destruct (IH (snd (serve r q' s))) as [Ik Ic Is].
  assert (Hfr : agree (rule_keys (rq_rule q) (rq_key q)) (snd (serve r q' s)) s).
  { eapply framed_agree; [apply (proj1 (serve_local r q'))|]. intros k Hk. exact (keys_apart q q' k Hq Hq' Hne Hk). }
  destruct Hfr as [Fk Fc Fs]. constructor; [|congruence|congruence].
  intros k Hk. by rewrite Ik, Fk.
Qed.

(** C16: the token bucket decision.  For a token bucket rule, on a well-formed
    bucket and over a link that loses nothing, the limiter answers with the
    algorithm's verdict: allowed exactly when the refilled bucket covers the
    cost (a cost that is not positive counts as one), the limit is the
    capacity, the remaining count the whole tokens left. *)
Theorem limiter_token_bucket r q s :
  let rule := rq_rule q in let C := BucketCapacity rule in
  let key := TokenBucketKey (to_trk (rq_key q)) in
  Rule_Algorithm rule = AlgorithmTokenBucket -> loaded r s -> perfect (rq_link q) ->
  bucket_params C (RefillRate rule) -> bucket_ok key C s ->
  0 <= rq_clock q <= 2 ^ 50 -> rq_cost q <= 2 ^ 45 ->
  exists d s' left, serve r q s = (Ok d, s') /\ bucket_ok key C s' /\ loaded r s' /\
    Allowed d = admits key C (RefillRate rule) s (rq_clock q) (charged q) /\
    left = sval (tokens_now key C (RefillRate rule) s (rq_clock q))
           - (if Allowed d then charged q else 0) * one /\
    Decision_Limit d = C /\ Remaining d = left / one /\ 0 <= Remaining d <= C /\
    rq_clock q / 1000 <= ResetAt d /\ (if Allowed d then RetryAfter d = 0 else 1 <= RetryAfter d) /\
    Decision_Algorithm d = AlgorithmTokenBucket.
Proof.
  intros rule C key Ha Hl Hp HP Hok Hn Hc. pose proof one_pos.
  assert (Hcost : 1 <= charged q <= 2 ^ 45).
  { unfold charged. destruct (Z.leb_spec (rq_cost q) 0); lia. }
  destruct (token_bucket_verdict key C (RefillRate rule) HP s (rq_clock q) (charged q) Hok Hn Hcost)
    as (s' & reply & Hrun & _ & [Hok' Hfr Hav (t & w & ra & _ & Htf & Htb & Hts & Hrep & Hw & _ & Hra)]).
  rewrite (serve_token_bucket r q s Ha Hl Hp). fold rule C key. rewrite Hrun. simpl.
  rewrite Hrep, parse_four. eexists _, s', (sval t). split; [reflexivity|]. split; [done|].
  split; [by apply (framed_loaded _ _ _ _ Hfr)|]. simpl.
  set (adm := admits key C (RefillRate rule) s (rq_clock q) (charged q)) in *.
  assert (Hb : (Z.b2z adm =? 1) = adm) by by destruct adm. rewrite !Hb.
  assert (Hq : 0 <= sval t / one <= C)
    by (split; [apply Z.div_pos; lia|apply Z.div_le_upper_bound; lia]).
  assert (HL : Limit rule = C) by (unfold Limit; by rewrite Ha).
  rewrite Z.max_r by lia. split; [done|]. split; [rewrite Hts; destruct adm; lia|].
  split; [done|]. split; [done|]. split; [done|]. split; [lia|]. split; [destruct adm; [done|apply Hra]|done].
Qed.

(** C17: the sliding window decision.  For a sliding window rule, on
    well-formed counters and over a link that loses nothing, the limiter
    admits only what fits the counting rule for the counters of the caller's
    window and denies only what reaches the limit; the reset instant is the
    end of that window and the advised wait the time to it. *)
Theorem limiter_sliding_window r q s st :
  let rule := rq_rule q in let L := LimitCount rule in let W := WindowSeconds rule in
  let now := rq_clock q / 1000 in
  let c := entered st (now / W) (ttl_end W s) in
  let '(ck, pk, ik) := SlidingWindowKeys (to_trk (rq_key q)) in
  Rule_Algorithm rule = AlgorithmSlidingWindow -> loaded r s -> perfect (rq_link q) ->
  window_params L W -> holds ck pk ik s st -> state_ok L st ->
  0 <= now <= 2 ^ 40 -> rq_cost q <= 2 ^ 45 ->
  exists d s', serve r q s = (Ok d, s') /\ loaded r s' /\
    (if Allowed d then weighted W c (now mod W) (charged q) <= L * W
     else L * W <= weighted W c (now mod W) (charged q)) /\
    holds ck pk ik s' (Some (if Allowed d then spent c (charged q) (ttl_end W s) else c)) /\
    Decision_Limit d = L /\ 0 <= Remaining d <= L /\ ResetAt d = (now / W + 1) * W /\
    RetryAfter d = (if Allowed d then 0 else W - now mod W) /\
    Decision_Algorithm d = AlgorithmSlidingWindow.
Proof.
  intros rule L W now c. pose proof (window_keys_distinct (to_trk (rq_key q))) as Hd.
  destruct (SlidingWindowKeys (to_trk (rq_key q))) as [[ck pk] ik] eqn:Ek.
  destruct Hd as (Hcp & Hci & Hpi). intros Ha Hl Hp HP Hs Hok Hn Hc.
  assert (Hcost : 1 <= charged q <= 2 ^ 45).
  { unfold charged. destruct (Z.leb_spec (rq_cost q) 0); lia. }
  destruct (sliding_window_run ck pk ik Hcp Hci Hpi L W HP s st now (charged q) Hs Hok Hn Hcost)
    as (reply & s' & c' & adm & Hrun & [-> Hfr Hcok Hholds Hrule (rem & Hrep & Hrb & _)]).
  fold c in Hcok, Hholds, Hrule, Hrep |- *.
  rewrite (serve_sliding_window r q s Ha Hl Hp), Ek. fold rule L W now. rewrite Hrun. simpl.
  rewrite Hrep, parse_four. do 2 eexists. split; [reflexivity|].
  split; [by apply (framed_loaded _ _ _ _ Hfr)|]. simpl.
  assert (Hb : (Z.b2z adm =? 1) = adm) by by destruct adm. rewrite !Hb.
  assert (HL : Limit rule = L) by (unfold Limit; by rewrite Ha). rewrite Z.max_r by lia. auto 10.
Qed.

(** After a restart of the Redis server the limiter never works again.
    The scripts are gone from the server's cache and only [NewRateLimiter]
    loads them, so every later check of the running process fails with the
    backend error, whatever is checked in between; a new limiter works. *)
Theorem restart_disables_limiter r qs q s :
  Algorithm_Valid (Rule_Algorithm (rq_rule q)) = true -> restarted s ->
  fst (serve r q (serve_all r qs s)) =
    Err (backend_error (if answered (rq_link q) then noscript else failure (rq_link q))) /\
  (forall l1 l2 r' s', NewRateLimiter l1 l2 s = (Ok r', s') -> loaded r' s').
Proof.
  intros Hv Hres. split.
  - rewrite serve_all_unloaded by done.
    destruct (serve_unfold r q s) as [[Hk _]|(_ & ARGV & E)].
    + by destruct (valid_has_keys _ (rq_key q) Hv).
    + by rewrite E, call_unloaded.
  - intros l1 l2 r' s'. apply NewRateLimiter_loaded.
Qed.

(** C18: the limiter fails closed.  A rule with a known algorithm yields
    either a decision made from a complete reply of the script, or an error
    that [errors.Is] recognises as [ErrRateLimitBackend]; no decision is made
    without an answer from the server. *)
Theorem limiter_fails_closed r q s :
  Algorithm_Valid (Rule_Algorithm (rq_rule q)) = true ->
  match fst (serve r q s) with
  | Ok d => answered (rq_link q) = true /\
      exists reply, (exists n sha ARGV s0 s1, scripts s0 sha = Some n /\
          EvalSha sha (rule_keys (rq_rule q) (rq_key q)) ARGV s0 = (Ok reply, s1)) /\
        parseDecision reply (rq_rule q) = Ok d
  | Err e => Is e ErrRateLimitBackend = true
  end.
Proof.
  intros Hv. destruct (serve_unfold r q s) as [[Hk _]|(_ & ARGV & E)].
  { by destruct (valid_has_keys _ (rq_key q) Hv). }
  rewrite E. unfold call. set (sha := if String.eqb _ _ then _ else _).
  destruct (answered (rq_link q)); [|done].
  set (s0 := Nat.iter _ _ _). destruct (EvalSha sha _ ARGV s0) as [[reply|e] s1] eqn:Er; [|done].
  simpl. destruct (parseDecision reply (rq_rule q)) as [d|e] eqn:Ed.
  - split; [done|]. exists reply. split; [|done].
    unfold EvalSha in Er. destruct (scripts s0 sha) as [n|] eqn:En; [|done].
    exists n, sha, ARGV, s0, s1. split; [done|]. unfold EvalSha. by rewrite En.
  - unfold parseDecision in Ed. repeat (destruct reply as [|? reply]; [by injection Ed as <-|]). done.
Qed.

End Properties.

(** ** Witnesses *)

Section Witnesses.
#[local] Existing Instances redis7 plain_text canonical.
#[local] Canonical redis7.

Definition sample_limiter : RateLimiter :=
  {| tokenBucketSHA := server_sha token_bucket_lua; slidingWindowSHA := server_sha sliding_window_lua |}.

(** A server with both scripts loaded and no keys. *)
Definition sample_server : store :=
  {| db := ∅; now_ms := 1000000;
     cache := {[ server_sha token_bucket_lua := token_bucket_lua;
                   server_sha sliding_window_lua := sliding_window_lua ]} |}.

Definition sample_rule (algorithm : string) : Rule :=
  {| Rule_ID := 1; Rule_TenantID := 7; RoutePattern := "*"; Rule_Algorithm := algorithm;
     Enabled := true; LimitCount := 10; WindowSeconds := 10; BucketCapacity := 2;
     RefillRate := of_Z 1 |}.

Definition good_link : link := {| lost := 0; answered := true; failure := "" |}.
Definition bad_link : link := {| lost := 2; answered := false; failure := "i/o timeout" |}.

Definition sample_request (tenant : uuid) (algorithm : string) (l : link) : request :=
  {| rq_clock := 1000000; rq_link := l;
     rq_key := {| Key_TenantID := tenant; Key_Route := "/v1/check"; Key_Subject := "" |};
     rq_rule := sample_rule algorithm; rq_cost := 0 |}.

Lemma sample_loaded : loaded sample_limiter sample_server.
Proof. by split; vm_compute. Qed.

Lemma limiter_isolation_witness :
  fst (serve sample_limiter (sample_request 7 AlgorithmTokenBucket good_link)
         (serve_all sample_limiter [sample_request 8 AlgorithmTokenBucket bad_link;
                                    sample_request 7 AlgorithmSlidingWindow good_link] sample_server)) =
  fst (serve sample_limiter (sample_request 7 AlgorithmTokenBucket good_link) sample_server).
Proof.
  apply limiter_isolation; [done|]. constructor; [|constructor; [|constructor]].
  - split; [done|]. left. unfold slot. intros [E _]%pair_equal_spec.
    apply pair_equal_spec in E as [E _]. discriminate E.
  - split; [done|]. by right.
Defined.

Lemma limiter_token_bucket_witness : exists d s',
  serve sample_limiter (sample_request 7 AlgorithmTokenBucket good_link) sample_server = (Ok d, s') /\
  Decision_Limit d = 2 /\ 0 <= Remaining d <= 2.
Proof.
  destruct (limiter_token_bucket sample_limiter (sample_request 7 AlgorithmTokenBucket good_link) sample_server)
    as (d & s' & left & Hrun & _ & _ & _ & _ & Hl & _ & Hr & _); simpl.
  - done.
  - apply sample_loaded.
  - done.
  - destruct (of_Z_int 1) as [Hf Hs]; [lia|]. constructor; [lia|done| | |]; rewrite ?Hs; pose proof one_pos; lia.
  - done.
  - lia.
  - lia.
  - eauto.
Defined.

Lemma limiter_sliding_window_witness : exists d s',
  serve sample_limiter (sample_request 7 AlgorithmSlidingWindow good_link) sample_server = (Ok d, s') /\
  ResetAt d = 1010.
Proof.
  pose proof (limiter_sliding_window sample_limiter (sample_request 7 AlgorithmSlidingWindow good_link)
                sample_server None) as Hw.
  destruct (SlidingWindowKeys _) as [[ck pk] ik]. cbv zeta in Hw.
  destruct Hw as (d & s' & Hrun & _ & _ & _ & _ & _ & Hreset & _); simpl.
  - done.
  - apply sample_loaded.
  - done.
  - by constructor.
  - done.
  - done.
  - done.
  - lia.
  - exists d, s'. split; [exact Hrun|]. exact Hreset.
Defined.

Lemma restart_disables_limiter_witness :
  fst (serve sample_limiter (sample_request 7 AlgorithmTokenBucket good_link)
         (serve_all sample_limiter [sample_request 8 AlgorithmTokenBucket good_link]
            (empty_redis 5))) = Err (backend_error noscript).
Proof.
  apply (restart_disables_limiter sample_limiter [sample_request 8 AlgorithmTokenBucket good_link]
           (sample_request 7 AlgorithmTokenBucket good_link) (empty_redis 5)); done.
Defined.

Lemma limiter_fails_closed_witness : exists e,
  fst (serve sample_limiter (sample_request 7 AlgorithmTokenBucket bad_link) sample_server) = Err e /\
  Is e ErrRateLimitBackend = true.
Proof.
  pose proof (limiter_fails_closed sample_limiter (sample_request 7 AlgorithmTokenBucket bad_link)
                sample_server ltac:(done)) as Hf.
  destruct (fst (serve _ _ _)) as [d|e]; [by destruct Hf|]. eauto.
Defined.

End Witnesses.
