(* ===== verification/LimiterRun.v ===== *)
(** The limiter in service: any interleaving of checks of all tenants, over
    links that lose replies and repeat commands, with time passing and Redis
    losing its script cache in between.

    What a counter grants is accounted for by a log of runs of its script
    ([CounterLog]): checks of other counters leave its keys alone, a repeated
    command is one more run.  [LimiterWindow] and [LimiterBucket] keep such
    logs for the two algorithms. *)

From stdpp Require Import base gmap strings list.
From Stdlib Require Import ZArith Lia.
From S2P Require Import Prelude Float64 GoStrings Sha256 Domain Uuid Redis LuaScripts Locality.
From S2P Require Import History RateLimiter RateLimiterSpec.

Local Open Scope Z_scope.

Section Run.
Context `{RedisServer} `{GoText} `{UUIDText}.
Abbreviation answer := (result goerror RateLimitDecision).

(** The request is for the counter of [key] under the algorithm [alg]. *)
Definition on_counter (alg : string) (key : RateLimitKey) (q : request) : bool :=
  bool_decide (slot (rq_key q) = slot key) && String.eqb (Rule_Algorithm (rq_rule q)) alg.

Definition allows (d : answer) : bool := match d with Ok dec => Allowed dec | Err _ => false end.

(** The limiter in service: the requests and whether they were allowed;
    [admissible] restricts the requests by the state they meet. *)
Inductive runs (r : RateLimiter) (admissible : redis -> request -> Prop) : list (request * bool) -> redis -> Prop :=
  | runs_start s : loaded r s -> 0 <= clock s -> (forall k, look s k = None) -> runs r admissible [] s
  | runs_drift h s s' : runs r admissible h s -> drifts s s' -> runs r admissible h s'
  | runs_serve h s q d s' : runs r admissible h s -> admissible s q -> serve r q s = (d, s') ->
      runs r admissible (h ++ [(q, allows d)]) s'.

(** The requests for a counter *)
Definition on_it (alg : string) (key : RateLimitKey) (h : list (request * bool)) : list (request * bool) :=
  List.filter (fun qd => on_counter alg key (fst qd)) h.

(** The cost granted to a counter's callers whose clocks [p] selects *)
Definition granted (alg : string) (key : RateLimitKey) (p : Z -> bool) (h : list (request * bool)) : Z :=
  sumZ (map (fun qd => if snd qd && p (rq_clock (fst qd)) then charged (fst qd) else 0) (on_it alg key h)).

(** The commands sent for a counter, repeated ones included *)
Definition commands (alg : string) (key : RateLimitKey) (h : list (request * bool)) : Z :=
  sumZ (map (fun qd => Z.of_nat (lost (rq_link (fst qd))) + 1) (on_it alg key h)).

(** The clocks of a counter's callers, in the order they are served *)
Definition clocks (alg : string) (key : RateLimitKey) (h : list (request * bool)) : list Z :=
  map (fun qd => rq_clock (fst qd)) (on_it alg key h).

(** ** Checks in general *)

(** A rule of the algorithm, for its keys *)
Definition rule_of (alg : string) : Rule :=
  {| Rule_ID := 0%N; Rule_TenantID := 0%N; RoutePattern := ""; Rule_Algorithm := alg;
     Enabled := true; LimitCount := 0; WindowSeconds := 0; BucketCapacity := 0; RefillRate := of_Z 0 |}.

Lemma on_counter_spec alg key q : on_counter alg key q = true ->
  slot (rq_key q) = slot key /\ Rule_Algorithm (rq_rule q) = alg.
Proof. intros [Hs Ha]%andb_prop. apply bool_decide_eq_true in Hs. by apply String.eqb_eq in Ha. Qed.

(** A check of another counter uses none of the counter's keys. *)
Lemma off_counter_keys alg key q k : (Key_TenantID key < 2 ^ 128)%N -> (Key_TenantID (rq_key q) < 2 ^ 128)%N ->
  on_counter alg key q = false -> k ∈ rule_keys (rule_of alg) key -> k ∉ rule_keys (rq_rule q) (rq_key q).
Proof.
  intros Hkey Hq Hoff Hk Hk'.
  destruct (rule_keys_shared (rq_rule q) (rule_of alg) (rq_key q) key k Hq Hkey Hk' Hk) as [Ha Hs].
  unfold on_counter in Hoff. rewrite bool_decide_eq_true_2, Ha in Hoff by done.
  by rewrite String.eqb_refl in Hoff.
Qed.

Lemma framed_untouched K s s' k : hides_expired -> framed K s s' -> k ∉ K -> untouched k s s'.
Proof. intros Hlive [Hk Hc _] Hin. split; [lia|]. by rewrite Hk, Hc, Hlive. Qed.

Lemma charged_bounds q : rq_cost q <= 2 ^ 45 -> 1 <= charged q <= 2 ^ 45.
Proof. intros Hc. unfold charged. destruct (Z.leb_spec (rq_cost q) 0); lia. Qed.

(** What one answer adds *)
Lemma on_it_snoc alg key h q b :
  on_it alg key (h ++ [(q, b)]) = on_it alg key h ++ if on_counter alg key q then [(q, b)] else [].
Proof. unfold on_it. rewrite List.filter_app. simpl. by destruct (on_counter alg key q). Qed.

Lemma granted_snoc alg key p h q b : granted alg key p (h ++ [(q, b)]) =
  granted alg key p h + if on_counter alg key q && b && p (rq_clock q) then charged q else 0.
Proof.
  unfold granted. rewrite on_it_snoc, map_app, sumZ_app. destruct (on_counter alg key q); simpl; lia.
Qed.

Lemma charged_pos q : 1 <= charged q.
Proof. unfold charged. destruct (Z.leb_spec (rq_cost q) 0); lia. Qed.

(** A part of a history grants no more. *)
Lemma granted_part alg key p h1 h2 : h1 ⊆+ h2 -> granted alg key p h1 <= granted alg key p h2.
Proof.
  set (cost := fun qd : request * bool => if on_counter alg key (fst qd) && (snd qd && p (rq_clock (fst qd))) then charged (fst qd) else 0).
  assert (Eg : forall h, granted alg key p h = sumZ (map cost h)).
  { intros h. unfold granted, on_it. induction h as [|[q b] h IH]; [done|]. cbn [List.filter map sumZ]. unfold cost at 1.
    cbn [fst snd]. destruct (on_counter alg key q); cbn [map sumZ]; rewrite IH; cbn [fst snd andb]; lia. }
  rewrite !Eg. clear Eg. assert (Hc : forall x, 0 <= cost x).
  { intros [q b]. unfold cost. pose proof (charged_pos q). cbn [fst]. destruct (_ && _); lia. }
  induction 1 as [|x h1 h2 _ IH|x y h|x h1 h2 _ IH|h1 h2 h3 _ IH12 _ IH23]; cbn [map sumZ]; try lia.
  specialize (Hc x). lia.
Qed.

(** ** Logs of a counter's script *)

(** The log [ext] of one run of a command with the result [res]. *)
Definition logs_run (now cost : Z) (res : result string (list Z)) (ext : list check) : Prop :=
  (ext = [] \/ exists adm, ext = [{| c_now := now; c_cost := cost; c_allowed := adm |}]) /\
  forall reply, res = Ok reply -> exists adm a b c, reply = [Z.b2z adm; a; b; c] /\
    ext = [{| c_now := now; c_cost := cost; c_allowed := adm |}].

(** What the script of an algorithm promises for the counter of [key]: its
    state is reached by a log of runs ([unit] converts the callers'
    milliseconds to the script's time), traffic elsewhere keeps the log, and a
    run of the command extends it by at most one check. *)
Class CounterLog (r : RateLimiter) (alg : string) (key : RateLimitKey) (unit : Z -> Z)
    (admissible : redis -> request -> Prop) (reached : list check -> redis -> Prop) : Prop := {
  cl_start s : loaded r s -> 0 <= clock s -> (forall k, look s k = None) -> reached [] s;
  cl_elsewhere log s s' : (forall k, k ∈ rule_keys (rule_of alg) key -> untouched k s s') ->
    (forall sha, scripts s' sha = scripts s sha \/ scripts s' sha = None) -> reached log s -> reached log s';
  cl_tenant s q : admissible s q -> (Key_TenantID (rq_key q) < 2 ^ 128)%N;
  cl_command s q : on_counter alg key q = true -> admissible s q -> exists cmd : Script (list Z),
    (forall s0, serve r q s0 = decide_reply (rq_rule q) (call (rq_link q) cmd s0)) /\
    forall log s1, reached log s1 -> clock s1 = clock s ->
      clock (snd (cmd s1)) = clock s1 /\
      exists ext, logs_run (unit (rq_clock q)) (charged q) (fst (cmd s1)) ext /\ reached (log ++ ext) (snd (cmd s1))
}.

(** The time the entries of a list move forward *)
Fixpoint forward (ts : list Z) : Z :=
  match ts with
  | t :: (t' :: _) as rest => Z.max 0 (t' - t) + forward rest
  | _ => 0
  end.

(** The log accounts for the history. *)
Record accounts (alg : string) (key : RateLimitKey) (unit : Z -> Z) (h : list (request * bool))
    (log : list check) : Prop := {
  acc_granted p : granted alg key (fun t => p (unit t)) h <= admitted_where p log;
  acc_commands : Z.of_nat (length log) <= commands alg key h;
  acc_time y : forward (map c_now log ++ [y]) <= forward (map unit (clocks alg key h) ++ [y])
}.

Lemma forward_nonneg ts : 0 <= forward ts.
Proof. induction ts as [|t [|t' ts] IH]; simpl in *; lia. Qed.

Lemma forward_snoc ts x y : forward (ts ++ [x; y]) = forward (ts ++ [x]) + Z.max 0 (y - x).
Proof. induction ts as [|t [|t' ts] IH]; simpl in *; lia. Qed.

Lemma forward_stop ts y : forward ts <= forward (ts ++ [y]).
Proof. induction ts as [|t [|t' ts] IH]; simpl in *; lia. Qed.

Lemma forward_detour ts x y : forward (ts ++ [y]) <= forward (ts ++ [x; y]).
Proof. induction ts as [|t [|t' ts] IH]; simpl in *; lia. Qed.

Lemma forward_last ts : exists y, forward (ts ++ [y]) = forward ts.
Proof.
  induction ts as [|t ts _] using rev_ind; [by exists 0|]. exists t.
  rewrite <- app_assoc. simpl. rewrite forward_snoc. lia.
Qed.

Section Accounts.
Context {r : RateLimiter} {alg : string} {key : RateLimitKey} {unit : Z -> Z}.
Context {admissible : redis -> request -> Prop} {reached : list check -> redis -> Prop}.
Context `{!CounterLog r alg key unit admissible reached}.

(** While a request is served: [n] of its commands have run, and the log
    accounts for the history without its answer. *)
Record serving (h : list (request * bool)) (x : Z) (n : nat) (log : list check) : Prop := {
  sv_granted p : granted alg key (fun t => p (unit t)) h <= admitted_where p log;
  sv_commands : Z.of_nat (length log) <= commands alg key h + Z.of_nat n;
  sv_time y : forward (map c_now log ++ [y]) <= forward (map unit (clocks alg key h) ++ [x; y])
}.

Lemma accounts_serving h x log : accounts alg key unit h log -> serving h x 0 log.
Proof.
  intros [Hg Hc Ht]. constructor; [done|lia|]. intros y. etrans; [apply Ht|apply forward_detour].
Qed.

Lemma serving_run h x n log cost res ext : 0 <= cost -> serving h x n log ->
  logs_run x cost res ext -> serving h x (S n) (log ++ ext).
Proof.
  intros Hcost [Hg Hc Ht] [[->|[adm ->]] _].
  - rewrite app_nil_r. constructor; [done|lia|done].
  - constructor.
    + intros p. rewrite admitted_where_snoc. simpl. specialize (Hg p). destruct (adm && p x); lia.
    + rewrite length_app. simpl. lia.
    + intros y. rewrite map_app, <- app_assoc. simpl. rewrite !forward_snoc.
      specialize (Ht x). rewrite forward_snoc in Ht. lia.
Qed.

(** The lost commands of a request *)
Lemma serving_lost h x cost cmd clk n log s : 0 <= cost ->
  (forall log s1, reached log s1 -> clock s1 = clk -> clock (snd (cmd s1)) = clock s1 /\
     exists ext, logs_run x cost (fst (cmd s1)) ext /\ reached (log ++ ext) (snd (cmd s1))) ->
  serving h x 0 log -> reached log s -> clock s = clk ->
  let s' := Nat.iter n (fun s => snd ((cmd : Script (list Z)) s)) s in
  clock s' = clk /\ exists log', serving h x n log' /\ reached log' s'.
Proof.
  intros Hcost Hcmd Hsv Hr Hclk. induction n as [|n (IHc & log1 & Hsv1 & Hr1)]; [split; [done|by exists log]|].
  cbn [Nat.iter nat_rect]. set (s1 := Nat.iter n _ s) in *.
  destruct (Hcmd log1 s1 Hr1 IHc) as (Hc1 & ext & Hext & Hr2). split; [by etrans; [exact Hc1|]|].
  exists (log1 ++ ext). split; [by eapply serving_run|done].
Qed.

Lemma serving_done h q b n log : (n <= S (lost (rq_link q)))%nat -> on_counter alg key q = true ->
  serving h (unit (rq_clock q)) n log ->
  (forall p, granted alg key (fun t => p (unit t)) h +
               (if b && p (unit (rq_clock q)) then charged q else 0) <= admitted_where p log) ->
  accounts alg key unit (h ++ [(q, b)]) log.
Proof.
  intros Hn Hon [_ Hc Ht] Hg. constructor.
  - intros p. rewrite granted_snoc, Hon. apply Hg.
  - unfold commands in *. rewrite on_it_snoc, Hon, map_app, sumZ_app. simpl. lia.
  - intros y. unfold clocks in *. rewrite on_it_snoc, Hon, !map_app, <- app_assoc. apply Ht.
Qed.

Lemma accounts_serve h log s q d s' : rq_cost q <= 2 ^ 45 -> admissible s q ->
  accounts alg key unit h log -> reached log s -> on_counter alg key q = true -> serve r q s = (d, s') ->
  exists log', accounts alg key unit (h ++ [(q, allows d)]) log' /\ reached log' s'.
Proof.
  intros Hq Had Hacc Hr Hon Hserve. assert (Hcost : 0 <= charged q) by (pose proof (charged_bounds q Hq); lia).
  destruct (cl_command s q Hon Had) as (cmd & Hcall & Hcmd). rewrite Hcall in Hserve.
  destruct (serving_lost h _ (charged q) cmd (clock s) (lost (rq_link q)) log s Hcost Hcmd
              (accounts_serving _ _ _ Hacc) Hr eq_refl) as (Hclk & log1 & Hsv & Hr1).
  unfold call in Hserve. set (s1 := Nat.iter _ _ s) in *. destruct (answered (rq_link q)).
  - destruct (Hcmd log1 s1 Hr1 Hclk) as (_ & ext & Hext & Hr2).
    pose proof (serving_run _ _ _ _ _ _ _ Hcost Hsv Hext) as Hsv2.
    exists (log1 ++ ext). destruct (cmd s1) as [[reply|e] s2]; cbn [fst snd] in *;
      injection Hserve as <- <-; (split; [|done]); apply (serving_done _ _ _ _ _ (le_n _) Hon Hsv2); intros p.
    + destruct Hext as [_ Hext]. destruct (Hext reply eq_refl) as (adm & a & b & c & -> & ->).
      rewrite parse_four, admitted_where_snoc. cbn [allows Allowed c_allowed c_now c_cost].
      pose proof (sv_granted _ _ _ _ Hsv p). replace (Z.b2z adm =? 1) with adm by (by destruct adm). lia.
    + pose proof (sv_granted _ _ _ _ Hsv2 p) as Hg. cbn [decide_reply allows andb]. lia.
  - injection Hserve as <- <-. exists log1. split; [|done].
    eapply serving_done; [|exact Hon|exact Hsv|]; [lia|]. intros p. pose proof (sv_granted _ _ _ _ Hsv p). simpl. lia.
Qed.

Lemma accounts_elsewhere h log q b : on_counter alg key q = false ->
  accounts alg key unit h log -> accounts alg key unit (h ++ [(q, b)]) log.
Proof.
  intros Hoff [Hg Hc Ht].
  assert (E : on_it alg key (h ++ [(q, b)]) = on_it alg key h) by (by rewrite on_it_snoc, Hoff, app_nil_r).
  constructor; intros; unfold granted, commands, clocks; rewrite E; [apply Hg|apply Hc|apply Ht].
Qed.

(** Every history of the limiter has a log of the counter. *)
Lemma runs_accounts h s : hides_expired -> (Key_TenantID key < 2 ^ 128)%N ->
  (forall s q, admissible s q -> on_counter alg key q = true -> rq_cost q <= 2 ^ 45) ->
  runs r admissible h s -> exists log, reached log s /\ accounts alg key unit h log.
Proof.
  intros Hlive Hkey Hcost.
  induction 1 as [s Hl Hc Hk|h s s' _ (log & Hr & Hacc) [Hu Hsc]|h s q d s' _ (log & Hr & Hacc) Had Hq].
  - exists []. split; [by apply cl_start|]. constructor; [done|done|]. intros y. simpl. lia.
  - exists log. split; [|done]. eapply cl_elsewhere; eauto.
  - destruct (on_counter alg key q) eqn:Hon.
    + destruct (accounts_serve h log s q d s' (Hcost _ _ Had Hon) Had Hacc Hr Hon Hq) as (log' & Hacc' & Hr').
      by exists log'.
    + exists log. split; [|by apply accounts_elsewhere].
      pose proof (proj1 (serve_local r q) s) as Hf. rewrite Hq in Hf. eapply cl_elsewhere; [| |exact Hr].
      * intros k Hk. eapply framed_untouched; [done|exact Hf|].
        by apply (off_counter_keys alg key); [|eapply cl_tenant| |].
      * intros sha. left. apply (fr_scripts _ _ _ Hf).
Qed.

End Accounts.

(** ** Both counters *)

(** A script of the limiter, while the server keeps it *)
Definition script_kept (s : redis) (sha : string) (name : script_name) : Prop :=
  scripts s sha = Some name \/ scripts s sha = None.

Lemma script_kept_on s s' sha name : (forall sha, scripts s' sha = scripts s sha \/ scripts s' sha = None) ->
  script_kept s sha name -> script_kept s' sha name.
Proof. intros Hs Hk. unfold script_kept. destruct (Hs sha) as [->| ->]; [done|by right]. Qed.

End Run.

(** ** Two checks on the concrete server *)

Module Demo.
#[local] Existing Instances redis7 plain_text canonical.
#[local] Canonical redis7.

Lemma redis7_hides_expired : hides_expired.
Proof. intros s k. apply survives_idem. Qed.

Definition counter : RateLimitKey := {| Key_TenantID := 7%N; Key_Route := "/v1/check"; Key_Subject := "" |}.
Definition retried : link := {| lost := 1; answered := true; failure := "" |}.
Definition then_ (q : request) (s : store) : store := snd (serve sample_limiter q s).

Definition two_checks (q1 q2 : request) : list (request * bool) :=
  [(q1, allows (fst (serve sample_limiter q1 sample_server)));
   (q2, allows (fst (serve sample_limiter q2 (then_ q1 sample_server))))].

Lemma two_checks_run (admissible : store -> request -> Prop) q1 q2 :
  admissible sample_server q1 -> admissible (then_ q1 sample_server) q2 ->
  runs sample_limiter admissible (two_checks q1 q2) (then_ q2 (then_ q1 sample_server)).
Proof.
  intros H1 H2. apply (runs_serve _ _ [_] (then_ q1 sample_server)); [|done|apply surjective_pairing].
  apply (runs_serve _ _ [] sample_server); [|done|unfold then_; apply surjective_pairing].
  by apply runs_start; [exact sample_loaded| |].
Qed.

Lemma then_clock q : clock (then_ q sample_server) = 1000000.
Proof. exact (fr_clock _ _ _ (proj1 (serve_local sample_limiter q) sample_server)). Qed.

End Demo.
