(* ===== verification/LimiterWindow.v ===== *)
(** Sliding window rules in service: the limit of a counter holds over any
    history of the limiter ([LimiterRun]). *)

From stdpp Require Import base gmap strings list.
From Stdlib Require Import ZArith Lia.
From S2P Require Import Prelude Float64 GoStrings Sha256 Domain Uuid Redis LuaScripts.
From S2P Require Import History SlidingWindow SlidingWindowRun RateLimiter RateLimiterSpec LimiterRun.

Local Open Scope Z_scope.

Section Window.
Context `{RedisServer} `{GoText} `{UUIDText}.
Variable r : RateLimiter.
Variable key : RateLimitKey.
Variables L W : Z.

(** Requests for the counter come with its rule and the server's time, to the
    second. *)
Record window_request (s : redis) (q : request) : Prop := {
  wr_tenant : (Key_TenantID (rq_key q) < 2 ^ 128)%N;
  wr_rule : on_counter AlgorithmSlidingWindow key q = true ->
    LimitCount (rq_rule q) = L /\ WindowSeconds (rq_rule q) = W /\
    rq_clock q / 1000 = clock s / 1000 /\ rq_clock q / 1000 <= 2 ^ 40 /\ rq_cost q <= 2 ^ 45
}.

Definition curr_key : string := fst (fst (SlidingWindowKeys (to_trk key))).
Definition prev_key : string := snd (fst (SlidingWindowKeys (to_trk key))).
Definition idx_key : string := snd (SlidingWindowKeys (to_trk key)).

Abbreviation reached_by := (reach curr_key prev_key idx_key L W).

Definition window_reached (log : list check) (s : redis) : Prop :=
  script_kept s (slidingWindowSHA r) sliding_window_lua /\ reached_by log s.

Hypothesis HP : window_params L W.

Lemma keys_distinct : curr_key <> prev_key /\ curr_key <> idx_key /\ prev_key <> idx_key.
Proof. apply (window_keys_distinct (to_trk key)). Qed.

(** The command of a request *)
Definition window_call (now cost : Z) : Script (list Z) :=
  EvalSha (slidingWindowSHA r) [curr_key; prev_key; idx_key] [of_Z L; of_Z W; of_Z now; of_Z cost].

Lemma slot_window_keys k1 k2 : slot k1 = slot k2 ->
  SlidingWindowKeys (to_trk k1) = SlidingWindowKeys (to_trk k2).
Proof.
  unfold slot. intros [= Et Er Es]. unfold SlidingWindowKeys, key_base, to_trk. simpl. by rewrite Et, Er, Es.
Qed.

Lemma serve_window q s : on_counter AlgorithmSlidingWindow key q = true ->
  LimitCount (rq_rule q) = L -> WindowSeconds (rq_rule q) = W ->
  serve r q s = decide_reply (rq_rule q) (call (rq_link q) (window_call (rq_clock q / 1000) (charged q)) s).
Proof.
  intros Hq HL HW. apply on_counter_spec in Hq as [Hs Ha].
  unfold serve, RateLimiter_Check. rewrite Ha.
  change (String.eqb AlgorithmSlidingWindow AlgorithmTokenBucket) with false.
  change (String.eqb AlgorithmSlidingWindow AlgorithmSlidingWindow) with true. cbv iota.
  unfold checkSlidingWindow. fold (to_trk (rq_key q)). rewrite (slot_window_keys _ _ Hs), HL, HW. reflexivity.
Qed.

(** One run of the command: without the script, an error and nothing else;
    with it, one check more in the log. *)
Lemma window_call_step log s now cost : window_reached log s ->
  now = clock s / 1000 -> now <= 2 ^ 40 -> 1 <= cost <= 2 ^ 45 ->
  clock (snd (window_call now cost s)) = clock s /\
  exists ext, logs_run now cost (fst (window_call now cost s)) ext /\
    window_reached (log ++ ext) (snd (window_call now cost s)).
Proof.
  intros [[Hs|Hs] Hr] Hnow Hn Hc; unfold window_call, EvalSha; rewrite Hs.
  2: { split; [done|]. exists []. rewrite app_nil_r. repeat split; [by left|done|by right|done]. }
  destruct keys_distinct as (Hcp & Hci & Hpi).
  pose proof (reach_inv _ _ _ _ _ Hcp Hci Hpi HP _ _ Hr) as Hi.
  destruct (inv_state _ _ _ _ _ _ _ Hi) as (st & Hst & Hok & _).
  assert (Hn0 : 0 <= now) by (rewrite Hnow; apply Z.div_pos; [apply (inv_clock _ _ _ _ _ _ _ Hi)|lia]).
  destruct (sliding_window_run _ _ _ Hcp Hci Hpi L W HP s st now cost Hst Hok ltac:(lia) Hc)
    as (reply & s' & c & adm' & Hrun & [_ Hfr _ _ _ _]).
  destruct (check_step _ _ _ _ _ Hcp Hci Hpi HP log s now cost reply s' Hi Hnow Hn Hc Hrun)
    as (adm & rem & Hrep & _ & _ & _ & _).
  pose proof (reach_check _ _ _ _ _ log s now cost reply s' Hr Hnow Hn Hc Hrun) as Hr'.
  unfold mbind, Script_bind. cbn [run_script]. rewrite Hrun. cbn [mret Script_ret fst snd].
  split; [apply (fr_clock _ _ _ Hfr)|]. rewrite Hrep in *. cbn [nth] in Hr'.
  replace (Z.b2z adm =? 1) with adm in Hr' by (by destruct adm).
  eexists. split; [split; [by right; exists adm|]|split; [|exact Hr']].
  - intros ? [= <-]. by do 4 eexists.
  - eapply script_kept_on; [|left; exact Hs]. intros sha. left. apply (fr_scripts _ _ _ Hfr).
Qed.

#[export] Instance window_log :
  CounterLog r AlgorithmSlidingWindow key (fun t => t / 1000) window_request window_reached.
Proof.
  constructor.
  - intros s [_ Hl] Hc Hk. split; [by left|]. by apply reach_init.
  - intros log s s' Hu Hsc [Hs Hr]. split; [by eapply script_kept_on|]. eapply reach_other; [exact Hr|].
    assert (Hk : forall k, k ∈ [curr_key; prev_key; idx_key] -> untouched k s s') by exact Hu.
    unfold keys_untouched. split_and!; apply Hk; set_solver.
  - apply wr_tenant.
  - intros s q Hon [_ Had]. destruct (Had Hon) as (HL & HW & Hclk & Hn & Hcost).
    exists (window_call (rq_clock q / 1000) (charged q)). split; [intros s0; by apply serve_window|].
    intros log s1 Hr Hs1. apply window_call_step; [done|by rewrite Hs1|done|by apply charged_bounds].
Qed.

End Window.

(** ** Properties *)

(** The limiter keeps a sliding window rule's limit in service.  In any
    interleaving of checks of any tenants, routes, subjects and algorithms,
    over links that lose replies and repeat commands, with time passing and the
    script cache lost in between, the cost granted on one counter is at most
    the limit in every aligned window, and at most the limit times [2 - 2 / W]
    in any [W] consecutive seconds. *)
Theorem limiter_keeps_window_limit `{RedisServer} `{GoText} `{UUIDText} r key L W h s :
  hides_expired -> (Key_TenantID key < 2 ^ 128)%N -> window_params L W ->
  runs r (window_request key L W) h s ->
  (forall j, granted AlgorithmSlidingWindow key (fun t => t / 1000 / W =? j) h <= L) /\
  (2 <= W -> forall a,
     granted AlgorithmSlidingWindow key (fun t => (a <=? t / 1000) && (t / 1000 <? a + W)) h * W <= L * (2 * W - 2)).
Proof.
  intros Hlive Hkey HP Hr. destruct (keys_distinct key) as (Hcp & Hci & Hpi).
  pose proof (window_log r key L W HP) as Hlog.
  destruct (runs_accounts h s Hlive Hkey) as (log & [_ Hreach] & [Hg _ _]); [|exact Hr|].
  { intros s0 q Hw Hon. apply (wr_rule _ _ _ _ _ Hw Hon). }
  destruct (sliding_window_limit _ _ _ L W log s Hcp Hci Hpi HP Hreach) as [Hwin Hroll]. split.
  - intros j. specialize (Hwin j). specialize (Hg (fun t => t / W =? j)). cbv beta in Hg. unfold in_window in Hwin. lia.
  - intros HW a. specialize (Hroll HW a).
    specialize (Hg (fun t => (a <=? t) && (t <? a + W))). cbv beta in Hg. unfold between in Hroll. nia.
Qed.

(** ** A command that is repeated, and another tenant's check *)

Module Demo.
#[local] Existing Instances redis7 plain_text canonical.
#[local] Canonical redis7.
Import LimiterRun.Demo.

Definition first : request := sample_request 7%N AlgorithmSlidingWindow retried.
Definition second : request := sample_request 8%N AlgorithmSlidingWindow good_link.

Lemma sample_window_request t l (s : store) : (t < 2 ^ 128)%N -> clock s = 1000000 ->
  window_request counter 10 10 s (sample_request t AlgorithmSlidingWindow l).
Proof. intros Ht Hs. split; [done|]. intros _. rewrite Hs. vm_compute. repeat split; discriminate. Qed.

Lemma limiter_keeps_window_limit_witness :
  granted AlgorithmSlidingWindow counter (fun t => t / 1000 / 10 =? 100) (two_checks first second) = 1 /\
  granted AlgorithmSlidingWindow counter (fun t => t / 1000 / 10 =? 100) (two_checks first second) <= 10.
Proof.
  split; [by vm_compute|]. assert (HP : window_params 10 10) by (split; lia).
  refine (proj1 (limiter_keeps_window_limit sample_limiter counter 10 10 _ _ redis7_hides_expired ltac:(done) HP
                   (two_checks_run _ first second _ _)) 100).
  - by apply sample_window_request.
  - apply sample_window_request; [done|apply then_clock].
Defined.

End Demo.
