(* ===== verification/LimiterSkew.v ===== *)
(** Sliding window rules in service by processes whose clocks differ
    ([LimiterRun], [SlidingWindowSkew]). *)

From stdpp Require Import base gmap strings list.
From Stdlib Require Import ZArith Lia.
From S2P Require Import Prelude Float64 GoStrings Sha256 Domain Uuid Redis LuaScripts.
From S2P Require Import History SlidingWindow SlidingWindowRun SlidingWindowSkew RateLimiter RateLimiterSpec LimiterRun LimiterWindow.

Local Open Scope Z_scope.

Section Skew.
Context `{RedisServer} `{GoText} `{UUIDText}.
Variable r : RateLimiter.
Variable key : RateLimitKey.
(** The limit, the window in seconds, and how far, in milliseconds, a caller's
    clock may be from the server's when its check runs *)
Variables L W D : Z.

(** Requests for the counter come with its rule, from callers whose clocks
    are within [D] of the server's. *)
Record skew_request (s : redis) (q : request) : Prop := {
  sr_tenant : (Key_TenantID (rq_key q) < 2 ^ 128)%N;
  sr_rule : on_counter AlgorithmSlidingWindow key q = true ->
    LimitCount (rq_rule q) = L /\ WindowSeconds (rq_rule q) = W /\
    Z.abs (rq_clock q - clock s) <= D /\ 0 <= rq_clock q /\ rq_clock q / 1000 <= 2 ^ 40 /\ rq_cost q <= 2 ^ 45
}.

Abbreviation skew_reached_by := (skew_reach (curr_key key) (prev_key key) (idx_key key) L W D).

Definition skew_reached (log : list check) (s : redis) : Prop :=
  script_kept s (slidingWindowSHA r) sliding_window_lua /\ skew_reached_by log s.

Hypothesis HP : window_params L W.
Hypothesis HD : 0 <= D /\ 2 * D <= 1000 * W.

(** One run of the command: without the script, an error and nothing else;
    with it, one check more in the log. *)
Lemma skew_call_step log s t cost : skew_reached log s -> Z.abs (t - clock s) <= D -> 0 <= t ->
  t / 1000 <= 2 ^ 40 -> 1 <= cost <= 2 ^ 45 ->
  let run := window_call r key L W (t / 1000) cost s in
  clock (snd run) = clock s /\
  exists ext, logs_run (t / 1000) cost (fst run) ext /\ skew_reached (log ++ ext) (snd run).
Proof.
  intros [[Hs|Hs] Hr] Ht Ht0 Hn Hc; cbv zeta; unfold window_call, EvalSha; rewrite Hs.
  2: { split; [done|]. exists []. rewrite app_nil_r. repeat split; [by left|done|by right|done]. }
  destruct (keys_distinct key) as (Hcp & Hci & Hpi).
  destruct (skew_reach_state _ _ _ _ _ _ Hcp Hci Hpi HP HD _ _ Hr) as (js & st & Hst).
  destruct (skew_state_check _ _ _ _ _ _ Hcp Hci Hpi HP HD log s js st t cost Hst Ht Ht0 Hn Hc)
    as (reply & s' & adm & rem & Hrun & Hfr & Hrep & _).
  unfold mbind, Script_bind. cbn [run_script]. rewrite Hrun. cbn [mret Script_ret fst snd].
  split; [apply (fr_clock _ _ _ Hfr)|].
  pose proof (skew_check _ _ _ _ _ _ log s t cost reply s' Hr Ht Ht0 Hn Hc Hrun) as Hr'.
  rewrite Hrep in *. cbn [nth] in Hr'. replace (Z.b2z adm =? 1) with adm in Hr' by (by destruct adm).
  eexists. split; [split; [by right; exists adm|]|split; [|exact Hr']].
  - intros ? [= <-]. by do 4 eexists.
  - eapply script_kept_on; [|left; exact Hs]. intros sha. left. apply (fr_scripts _ _ _ Hfr).
Qed.

#[export] Instance skew_log :
  CounterLog r AlgorithmSlidingWindow key (fun t => t / 1000) skew_request skew_reached.
Proof.
  constructor.
  - intros s [_ Hl] Hc Hk. split; [by left|]. by apply skew_init.
  - intros log s s' Hu Hsc [Hs Hr]. split; [by eapply script_kept_on|]. eapply skew_other; [exact Hr|].
    assert (Hk : forall k, k ∈ [curr_key key; prev_key key; idx_key key] -> untouched k s s') by exact Hu.
    unfold keys_untouched. split_and!; apply Hk; rewrite !elem_of_cons; auto.
  - apply sr_tenant.
  - intros s q Hon [_ Had]. destruct (Had Hon) as (HL & HW & Hclk & Ht0 & Hn & Hcost).
    exists (window_call r key L W (rq_clock q / 1000) (charged q)). split; [intros s0; by apply serve_window|].
    intros log s1 Hr Hs1. apply skew_call_step; [done|by rewrite Hs1|done|done|by apply charged_bounds].
Qed.

(** The limiter keeps a sliding window rule among callers whose clocks differ:
    in [n] consecutive windows of their clocks, at most [n + 1] times the limit. *)
Lemma limiter_keeps_skewed_limit h s k n :
  hides_expired -> (Key_TenantID key < 2 ^ 128)%N -> 0 <= n -> runs r skew_request h s ->
  granted AlgorithmSlidingWindow key (fun t => windows k n (t / 1000 / W)) h <= (n + 1) * L.
Proof.
  intros Hlive Hkey Hn Hr. destruct (keys_distinct key) as (Hcp & Hci & Hpi).
  destruct (runs_accounts h s Hlive Hkey) as (log & [_ Hreach] & [Hg _ _]); [|exact Hr|].
  { intros s0 q Hw Hon. apply (sr_rule _ _ Hw Hon). }
  pose proof (skew_limit _ _ _ L W D Hcp Hci Hpi HP HD log s k n Hreach Hn) as Hl.
  specialize (Hg (fun t => windows k n (t / W))). cbv beta in Hg. lia.
Qed.

End Skew.
