(* ===== verification/LimiterBucket.v ===== *)
(** Token bucket rules in service: what a bucket grants over any history of
    the limiter ([LimiterRun]). *)

From stdpp Require Import base gmap strings list.
From Stdlib Require Import ZArith Lia.
From S2P Require Import Prelude Float64 GoStrings Sha256 Domain Uuid Redis LuaScripts.
From S2P Require Import History TokenBucket TokenBucketRun RateLimiter RateLimiterSpec LimiterRun.

Local Open Scope Z_scope.

Section Bucket.
Context `{RedisServer} `{GoText} `{UUIDText}.
Variable r : RateLimiter.
Variable key : RateLimitKey.
Variable C : Z.
Variable rate : float.

(** Requests for the counter come with its rule, from processes whose clocks
    are within 30 seconds of the server's. *)
Record bucket_request (s : redis) (q : request) : Prop := {
  br_tenant : (Key_TenantID (rq_key q) < 2 ^ 128)%N;
  br_rule : on_counter AlgorithmTokenBucket key q = true ->
    BucketCapacity (rq_rule q) = C /\ RefillRate (rq_rule q) = rate /\
    0 <= rq_clock q <= 2 ^ 50 /\ Z.abs (rq_clock q - clock s) <= skew /\ rq_cost q <= 2 ^ 45
}.

Definition bucket_key : string := TokenBucketKey (to_trk key).

(** The log runs from a well-formed bucket to the state. *)
Definition bucket_reached (log : list check) (s : redis) : Prop :=
  script_kept s (tokenBucketSHA r) token_bucket_lua /\ bucket_ok bucket_key C s /\
  exists s0, bucket_ok bucket_key C s0 /\ history bucket_key C rate s0 log s.

Hypothesis HP : bucket_params C rate.

(** ** Histories grow at their end *)

Lemma history_trans s1 l1 s2 l2 s3 : history bucket_key C rate s1 l1 s2 ->
  history bucket_key C rate s2 l2 s3 -> history bucket_key C rate s1 (l1 ++ l2) s3.
Proof.
  intros H12 H23. induction H12; [done| |].
  - eapply h_other; [eassumption|]. by apply IHhistory.
  - simpl. eapply h_check; [eassumption..|]. by apply IHhistory.
Qed.

Lemma bucket_reached_other log s s' : untouched bucket_key s s' ->
  (forall sha, scripts s' sha = scripts s sha \/ scripts s' sha = None) ->
  bucket_reached log s -> bucket_reached log s'.
Proof.
  intros Hu Hsc (Hs & Hok & s0 & Hok0 & Hh). split; [by eapply script_kept_on|].
  split; [by eapply untouched_ok|]. exists s0. split; [done|].
  rewrite <- (app_nil_r log). eapply history_trans; [exact Hh|]. eapply h_other; [exact Hu|]. apply h_done.
Qed.

(** ** The command of a request *)

Definition bucket_call (now cost : Z) : Script (list Z) :=
  EvalSha (tokenBucketSHA r) [bucket_key] [of_Z C; rate; of_Z now; of_Z cost].

Lemma slot_bucket_key k1 k2 : slot k1 = slot k2 -> TokenBucketKey (to_trk k1) = TokenBucketKey (to_trk k2).
Proof.
  unfold slot. intros [= Et Er Es]. unfold TokenBucketKey, key_base, to_trk. simpl. by rewrite Et, Er, Es.
Qed.

Lemma serve_bucket q s : on_counter AlgorithmTokenBucket key q = true ->
  BucketCapacity (rq_rule q) = C -> RefillRate (rq_rule q) = rate ->
  serve r q s = decide_reply (rq_rule q) (call (rq_link q) (bucket_call (rq_clock q) (charged q)) s).
Proof.
  intros Hq HC HR. apply on_counter_spec in Hq as [Hs Ha].
  unfold serve, RateLimiter_Check. rewrite Ha.
  change (String.eqb AlgorithmTokenBucket AlgorithmTokenBucket) with true. cbv iota.
  unfold checkTokenBucket. fold (to_trk (rq_key q)). rewrite (slot_bucket_key _ _ Hs), HC, HR. reflexivity.
Qed.

(** One run of the command: without the script, an error and nothing else;
    with it, one check more in the log. *)
Lemma bucket_call_step log s now cost : bucket_reached log s ->
  0 <= now <= 2 ^ 50 -> Z.abs (now - clock s) <= skew -> 1 <= cost <= 2 ^ 45 ->
  clock (snd (bucket_call now cost s)) = clock s /\
  exists ext, logs_run now cost (fst (bucket_call now cost s)) ext /\
    bucket_reached (log ++ ext) (snd (bucket_call now cost s)).
Proof.
  intros ([Hs|Hs] & Hok & Hh) Hn Hclk Hc; unfold bucket_call, EvalSha; rewrite Hs.
  2: { split; [done|]. exists []. rewrite app_nil_r. repeat split; [by left|done|by right|done..]. }
  destruct Hh as (s0 & Hok0 & Hh).
  destruct (token_bucket_verdict bucket_key C rate HP s now cost Hok Hn Hc)
    as (s' & reply & Hrun & _ & [Hok' Hfr _ (t & w & ra & _ & _ & _ & _ & Hrep & _)]).
  unfold mbind, Script_bind. cbn [run_script]. rewrite Hrun. cbn [mret Script_ret fst snd].
  split; [apply (fr_clock _ _ _ Hfr)|].
  pose proof (h_check _ _ _ s now cost reply s' [] s' Hn Hclk Hc Hrun (h_done _ _ _ s')) as Hstep.
  rewrite Hrep, hd_b2z in Hstep. rewrite Hrep.
  eexists. split; [split; [right; eexists; reflexivity|]|split; [|split; [exact Hok'|]]].
  - intros ? [= <-]. by do 4 eexists.
  - eapply script_kept_on; [|left; exact Hs]. intros sha. left. apply (fr_scripts _ _ _ Hfr).
  - exists s0. split; [done|]. by eapply history_trans.
Qed.

#[export] Instance bucket_log :
  CounterLog r AlgorithmTokenBucket key (fun t => t) bucket_request bucket_reached.
Proof.
  constructor.
  - intros s [Hl _] Hc Hk. assert (bucket_ok bucket_key C s) by (unfold bucket_ok; by rewrite Hk).
    split; [by left|]. split; [done|]. exists s. split; [done|]. apply h_done.
  - intros log s s' Hu Hsc. apply bucket_reached_other; [apply Hu; by left|done].
  - apply br_tenant.
  - intros s q Hon [_ Had]. destruct (Had Hon) as (HC & HR & Hn & Hclk & Hcost).
    exists (bucket_call (rq_clock q) (charged q)). split; [intros s0; by apply serve_bucket|].
    intros log s1 Hr Hs1. apply bucket_call_step; [done|done|by rewrite Hs1|by apply charged_bounds].
Qed.

Lemma elapsed_forward l : elapsed_time l = forward (map c_now l).
Proof.
  destruct l as [|c l]; [done|]. simpl. revert c. induction l as [|c' l IH]; intros c; [done|].
  simpl. by rewrite IH.
Qed.

End Bucket.

(** ** Properties *)

(** The limiter keeps a token bucket rule in service.  In any interleaving
    of checks of any tenants, routes, subjects and algorithms, over links that
    lose replies and repeat commands, by processes whose clocks are within 30
    seconds of the server's, with time passing and the script cache lost in
    between: as long as fewer than [2^49 / C] commands are sent for a counter,
    the cost it grants is below the capacity plus one token plus the rate times
    the time its callers' clocks move forward. *)
Theorem limiter_keeps_bucket_rate `{RedisServer} `{GoText} `{UUIDText} r key C rate h s :
  hides_expired -> (Key_TenantID key < 2 ^ 128)%N -> bucket_params C rate ->
  runs r (bucket_request key C rate) h s -> commands AlgorithmTokenBucket key h * C < 2 ^ 49 ->
  1000 * one * granted AlgorithmTokenBucket key (fun _ => true) h
    < 1000 * one * (C + 1) + sval rate * forward (clocks AlgorithmTokenBucket key h).
Proof.
  intros Hlive Hkey HP Hr Hn. pose proof (bucket_log r key C rate HP) as Hlog.
  destruct (runs_accounts h s Hlive Hkey) as (log & (_ & _ & s0 & Hok & Hh) & [Hg Hl Ht]); [|exact Hr|].
  { intros s1 q Hb Hon. apply (br_rule _ _ _ _ _ Hb Hon). }
  assert (1 <= C) by apply HP.
  pose proof (token_bucket_rate_bound _ C rate _ _ _ HP Hok Hh ltac:(nia)) as Hb.
  destruct (forward_last (map (fun t => t) (clocks AlgorithmTokenBucket key h))) as [y Hy].
  specialize (Ht y). rewrite Hy, map_id in Ht. pose proof (forward_stop (map c_now log) y) as Hs.
  rewrite <- elapsed_forward in Hs. specialize (Hg (fun _ => true)). cbv beta in Hg. fold (admitted log) in Hg.
  pose proof one_pos. pose proof (rate_pos C rate HP). nia.
Qed.

(** ** Three tokens asked of a bucket of two *)

Module Demo.
#[local] Existing Instances redis7 plain_text canonical.
#[local] Canonical redis7.
Import LimiterRun.Demo.

(** A reply is lost and the command repeated, then another check follows. *)
Definition first : request := sample_request 7%N AlgorithmTokenBucket retried.
Definition second : request := sample_request 7%N AlgorithmTokenBucket good_link.

Lemma sample_bucket_request t l (s : store) : (t < 2 ^ 128)%N -> clock s = 1000000 ->
  bucket_request counter 2 (of_Z 1) s (sample_request t AlgorithmTokenBucket l).
Proof. intros Ht Hs. split; [done|]. intros _. rewrite Hs. unfold skew. simpl. split_and!; done || lia. Qed.

Lemma limiter_keeps_bucket_rate_witness :
  granted AlgorithmTokenBucket counter (fun _ => true) (two_checks first second) = 1 /\
  1000 * one * granted AlgorithmTokenBucket counter (fun _ => true) (two_checks first second)
    < 1000 * one * (2 + 1) + sval (of_Z 1) * forward (clocks AlgorithmTokenBucket counter (two_checks first second)).
Proof.
  split; [by vm_compute|].
  refine (limiter_keeps_bucket_rate sample_limiter counter 2 (of_Z 1) _ _ redis7_hides_expired ltac:(done) sample_bucket
            (two_checks_run _ first second _ _) _).
  - by apply sample_bucket_request.
  - apply sample_bucket_request; [done|apply then_clock].
  - by vm_compute.
Defined.

End Demo.
