(* ===== verification/Ports.v ===== *)
(** The ports of the domain ([internal/domain/ports]): what the application
    asks of its adapters, as type classes over a world [W] that the adapters
    read and change. *)

From stdpp Require Import base strings list.
From Stdlib Require Import ZArith Lia.
From S2P Require Import Prelude Float64 GoStrings Domain.

Local Open Scope Z_scope.

(** ** Operations on a world *)

(** A Go method that returns [(A, error)] and may act on the world. *)
Definition Op (W A : Type) : Type := W -> result goerror A * W.

#[export] Instance Op_ret W : MRet (Op W) := fun A a w => (Ok a, w).
#[export] Instance Op_bind W : MBind (Op W) := fun A B k m w =>
  match m w with
  | (Ok a, w') => k a w'
  | (Err e, w') => (Err e, w')
  end.

(** [return zero, err] *)
Definition fail {W A} (e : goerror) : Op W A := fun w => (Err e, w).

(** [if err != nil { return zero, f(err) }] *)
Definition map_err {W A} (f : goerror -> goerror) (m : Op W A) : Op W A := fun w =>
  match m w with
  | (Ok a, w') => (Ok a, w')
  | (Err e, w') => (Err (f e), w')
  end.

(** An operation on a part of the world. *)
Definition on_part {W V A} (get : W -> V) (put : V -> W -> W) (m : Op V A) : Op W A := fun w =>
  let '(r, v) := m (get w) in (r, put v w).

(** A world with a clock that [time.Now] reads, in nanoseconds. *)
Class GoClock (W : Type) := { Now : W -> Z }.

(** ** Data passed through the ports ([project_writer.go]) *)

Record NewProject := {
  NP_TenantID : uuid;
  NP_Name : string;
  NP_KeyHash : string;
  NP_KeyPrefix : string;
  NP_KeyRole : string;
  NP_Rules : list Rule
}.

Record KeySummary := {
  KS_ID : uuid;
  KS_Prefix : string;
  KS_Status : string;
  KS_Role : string;
  KS_CreatedAt : Z
}.

Record ProjectSummary := {
  PS_ID : uuid;
  PS_Name : string;
  PS_Status : string;
  PS_CreatedAt : Z;
  RuleCount : Z;
  PS_Rules : list Rule;
  PS_Keys : list KeySummary
}.

(** ** The interfaces *)

Class RuleRepository (W : Type) := {
  ListByTenant : uuid -> Op W (list Rule);
  ListAll : Op W (list Rule)
}.

Class RateLimiterPort (W : Type) := {
  limiter_Check : RateLimitKey -> Rule -> Z -> Op W RateLimitDecision
}.

Class APIKeyRepository (W : Type) := { FindByHash : string -> Op W APIKey }.

Class TenantRepository (W : Type) := { GetByID : uuid -> Op W Tenant }.

Class ProjectStore (W : Type) := {
  store_CreateProject : NewProject -> Op W unit;
  store_ListProjects : Op W (list ProjectSummary);
  store_GetProject : uuid -> Op W ProjectSummary;
  store_AddAPIKey : uuid -> string -> string -> string -> Op W unit;
  store_RevokeAPIKey : uuid -> uuid -> Op W unit
}.

(** ** Lemmas *)

Lemma op_bind_ok {W A B} (m : Op W A) (k : A -> Op W B) w a w' :
  m w = (Ok a, w') -> (m ≫= k) w = k a w'.
Proof. intros E. unfold mbind, Op_bind. by rewrite E. Qed.

Lemma op_bind_err {W A B} (m : Op W A) (k : A -> Op W B) w e w' :
  m w = (Err e, w') -> (m ≫= k) w = (Err e, w').
Proof. intros E. unfold mbind, Op_bind. by rewrite E. Qed.
