(* ===== verification/CheckService.v ===== *)
(** The check service ([internal/application/check_service.go]): rules are
    loaded, resolved and evaluated; an absent rule means the request is not
    limited. *)

From stdpp Require Import base strings list.
From Stdlib Require Import ZArith Lia.
From S2P Require Import Prelude Float64 GoStrings Domain RuleResolver Ports.

Local Open Scope Z_scope.

(** [CheckService.Check] *)
Definition CheckService_Check `{RuleRepository W} `{RateLimiterPort W}
    (tenantID : uuid) (route subject : string) (cost : Z) : Op W RateLimitDecision := fun w =>
  let cost := if cost <=? 0 then 1 else cost in
  match ListByTenant tenantID w with
  | (Err e, w1) => (Err (wrap_op "load rules" e), w1)
  | (Ok rules, w1) =>
      match Resolve rules route with
      | None => (Ok allow_decision, w1)
      | Some rule =>
          let key := {| Key_TenantID := tenantID; Key_Route := route; Key_Subject := subject |} in
          match limiter_Check key rule cost w1 with
          | (Ok decision, w2) => (Ok decision, w2)
          | (Err e, w2) =>
              if Is e ErrRateLimitBackend then (Err e, w2)
              else (Err (wrap_detail (Sentinel ErrRateLimitBackend) (Error e)), w2)
          end
      end
  end.

(** ** Properties *)

Section Properties.
Context {W : Type} `{!RuleRepository W} `{!RateLimiterPort W}.

(** The check service on every outcome of its ports.  When the rules
    cannot be loaded the check fails and the cause can still be recognised;
    when no enabled rule matches the route the request is allowed without
    asking the limiter; otherwise the limiter is asked about the first best
    rule with a cost of at least one, its decision is passed on unchanged, and
    any failure of it is reported as [ErrRateLimitBackend]. *)
Theorem check_service_outcome tenantID route subject cost w :
  let '(r, w') := CheckService_Check tenantID route subject cost w in
  match ListByTenant tenantID w with
  | (Err e, w1) => w' = w1 /\ exists e', r = Err e' /\ forall s, Is e' s = Is e s
  | (Ok rules, w1) =>
      ((forall rule, rule ∈ rules -> ~ applicable route rule) /\ r = Ok allow_decision /\ w' = w1) \/
      exists rule charged, first_best rules route rule /\ 1 <= charged /\ (1 <= cost -> charged = cost) /\
        let '(d, w2) := limiter_Check {| Key_TenantID := tenantID; Key_Route := route;
                                         Key_Subject := subject |} rule charged w1 in
        w' = w2 /\
        match d with
        | Ok decision => r = Ok decision
        | Err _ => exists e', r = Err e' /\ Is e' ErrRateLimitBackend = true
        end
  end.
Proof.
  unfold CheckService_Check. destruct (ListByTenant tenantID w) as [[rules|e] w1].
  2:{ split; [done|]. by eexists. }
  destruct (Resolve rules route) as [rule|] eqn:Er.
  - set (key := {| Key_TenantID := tenantID; Key_Route := route; Key_Subject := subject |}).
    set (charged := if cost <=? 0 then 1 else cost).
    destruct (limiter_Check key rule charged w1) as [[d|e] w2] eqn:El.
    + right. exists rule, charged. split; [by apply Resolve_Some_best|].
      unfold charged. destruct (Z.leb_spec cost 0); (split; [lia|]; split; [lia|]);
        fold key; subst charged; destruct (Z.leb_spec cost 0); try lia; by rewrite El.
    + destruct (Is e ErrRateLimitBackend) eqn:Ei; right; exists rule, charged;
        (split; [by apply Resolve_Some_best|]);
        (split; [unfold charged; destruct (Z.leb_spec cost 0); lia|]);
        (split; [unfold charged; destruct (Z.leb_spec cost 0); lia|]);
        rewrite El; (split; [done|]); by eexists.
  - left. split; [by apply Resolve_None_inapplicable|done].
Qed.

End Properties.
