(* ===== verification/AuthService.v ===== *)
(** Authentication ([internal/application/auth_service.go]): an API key is
    looked up by its digest, and both the key and its tenant must be active. *)

From stdpp Require Import base strings list.
From Stdlib Require Import ZArith Lia.
From S2P Require Import Prelude Float64 GoStrings Sha256 Domain Ports.

Local Open Scope Z_scope.

(** [httputil.HashAPIKey] *)
Definition HashAPIKey (raw : string) : string := sha256_hex 32 raw.

Record TenantContext := { TC_Tenant : Tenant; TC_APIKey : APIKey }.

Section AuthService.
Context {W : Type} `{!APIKeyRepository W} `{!TenantRepository W}.

(** [AuthService.Authenticate] *)
Definition Authenticate (rawAPIKey : string) : Op W TenantContext :=
  if String.eqb rawAPIKey "" then fail (Sentinel ErrAPIKeyNotFound)
  else
    key ← FindByHash (HashAPIKey rawAPIKey);
    if negb (APIKey_IsActive key) then fail (Sentinel ErrAPIKeyRevoked)
    else
      tenant ← GetByID (APIKey_TenantID key);
      if negb (Tenant_IsActive tenant) then fail (Sentinel ErrTenantSuspended)
      else mret {| TC_Tenant := tenant; TC_APIKey := key |}.

(** [AuthService.AuthenticateOrError] *)
Definition AuthenticateOrError (rawAPIKey : string) : Op W TenantContext :=
  map_err (wrap_op "authenticate") (Authenticate rawAPIKey).

End AuthService.

(** [MapAuthError] *)
Definition MapAuthError (err : goerror) : Z * string :=
  if Is err ErrAPIKeyNotFound || Is err ErrAPIKeyRevoked then (401, "unauthorized")
  else if Is err ErrTenantSuspended then (403, "tenant_suspended")
  else if Is err ErrTenantNotFound then (401, "unauthorized")
  else (503, "service_unavailable").

(** A world whose repositories know one key, revoked, and no tenant. *)
Definition revoked_key : APIKey :=
  {| APIKey_ID := 1%N; APIKey_TenantID := 2%N; KeyPrefix := "rl_";
     APIKey_Status := APIKeyStatusRevoked; APIKey_Role := RoleCheck |}.
#[local] Instance one_revoked_key : APIKeyRepository unit :=
  {| FindByHash := fun _ w => (Ok revoked_key, w) |}.
#[local] Instance no_tenants : TenantRepository unit :=
  {| GetByID := fun _ w => (Err (Sentinel ErrTenantNotFound), w) |}.

(** ** A key that the repositories know *)

(** What an authentication gives: the tenant and the role, or 503 *)
Definition identifies (tenantID : uuid) (name role : string) (r : result goerror TenantContext) : Prop :=
  match r with
  | Ok tc => Tenant_ID (TC_Tenant tc) = tenantID /\ Tenant_Name (TC_Tenant tc) = name /\
             APIKey_TenantID (TC_APIKey tc) = tenantID /\ APIKey_Role (TC_APIKey tc) = role
  | Err e => MapAuthError e = (503, "service_unavailable")
  end.

Section Known.
Context {W : Type} `{!APIKeyRepository W} `{!TenantRepository W}.

(** While [I] holds, the repositories have this key and this tenant, or fail. *)
Class Known (I : W -> Prop) (hash : string) (tenantID : uuid) (name role : string) : Prop := {
  kn_key w : I w -> let '(r, w') := FindByHash hash w in I w' /\
    match r with
    | Ok k => APIKey_TenantID k = tenantID /\ APIKey_Status k = "active" /\ APIKey_Role k = role
    | Err e => MapAuthError e = (503, "service_unavailable")
    end;
  kn_tenant w : I w -> let '(r, w') := GetByID tenantID w in I w' /\
    match r with
    | Ok t => Tenant_ID t = tenantID /\ Tenant_Name t = name /\ Tenant_Status t = "active"
    | Err e => MapAuthError e = (503, "service_unavailable")
    end
}.

Lemma known_authenticates I raw tenantID name role w : Known I (HashAPIKey raw) tenantID name role -> raw <> "" -> I w ->
  let '(r, w') := Authenticate raw w in I w' /\ identifies tenantID name role r.
Proof.
  intros HK Hraw Hw. unfold Authenticate, mbind, Op_bind. rewrite (proj2 (String.eqb_neq _ _) Hraw).
  pose proof (kn_key w Hw) as Hk. destruct (FindByHash _ w) as [[k|e] w1]; destruct Hk as [Hw1 Hk]; [|done].
  destruct Hk as (Ht & Hs & Hr). unfold APIKey_IsActive. rewrite Hs. cbn [negb]. change (String.eqb "active" APIKeyStatusActive) with true.
  cbn [negb]. rewrite Ht. pose proof (kn_tenant w1 Hw1) as Htn.
  destruct (GetByID tenantID w1) as [[t|e] w2]; destruct Htn as [Hw2 Htn]; [|done].
  destruct Htn as (Hid & Hname & Hst). unfold Tenant_IsActive. rewrite Hst. change (String.eqb "active" TenantStatusActive) with true.
  by cbn.
Qed.

End Known.

(** ** Properties *)

Section Properties.
Context {W : Type} `{!APIKeyRepository W} `{!TenantRepository W}.

(** Who is authenticated.  A raw key is accepted exactly when it is not
    empty, the repository has a key with its digest, that key is active, and
    the key's tenant exists and is active; the identity returned is that key
    and that tenant. *)
Theorem Authenticate_accepts raw w tc w2 :
  Authenticate raw w = (Ok tc, w2) <->
  raw <> "" /\ exists w1,
    FindByHash (HashAPIKey raw) w = (Ok (TC_APIKey tc), w1) /\
    APIKey_Status (TC_APIKey tc) = "active" /\
    GetByID (APIKey_TenantID (TC_APIKey tc)) w1 = (Ok (TC_Tenant tc), w2) /\
    Tenant_Status (TC_Tenant tc) = "active".
Proof.
  unfold Authenticate, APIKey_IsActive, Tenant_IsActive, fail, mbind, Op_bind.
  destruct (String.eqb_spec raw "") as [->|Hraw]; [by split; [|intros []]|].
  destruct (FindByHash (HashAPIKey raw) w) as [[key|e] w1] eqn:Ek;
    [|split; [done|]; by intros (_ & w1' & ? & _)].
  destruct (String.eqb_spec (APIKey_Status key) APIKeyStatusActive) as [Hs|Hs]; cbn [negb];
    [|split; [done|]; intros (_ & w1' & E & Hs' & _); by simplify_eq].
  destruct (GetByID (APIKey_TenantID key) w1) as [[tenant|e] w2'] eqn:Et;
    [|split; [done|]; intros (_ & w1' & E & _ & E' & _); congruence].
  destruct (String.eqb_spec (Tenant_Status tenant) TenantStatusActive) as [Ht|Ht]; cbn [negb];
    [|split; [done|]; intros (_ & w1' & E & _ & E' & Ht'); assert (tenant = TC_Tenant tc) as -> by congruence; done].
  split.
  - intros E. injection E as <- <-. split; [done|]. eauto 8.
  - intros (_ & w1' & E & _ & E' & _). destruct tc; simpl in *.
    injection E as -> ->. rewrite E' in Et. by injection Et as -> ->.
Qed.

(** Refusals.  Every failed authentication is answered 401, 403 or 503:
    401 for a missing, unknown or revoked key and for a key without its
    tenant, 403 only for a suspended tenant, 503 for a failure of the
    repositories that is none of these. *)
Theorem Authenticate_refuses raw w e w' :
  Authenticate raw w = (Err e, w') ->
  (raw = "" /\ MapAuthError e = (401, "unauthorized")) \/
  (exists w1, FindByHash (HashAPIKey raw) w = (Err e, w1)) \/
  (exists key w1, FindByHash (HashAPIKey raw) w = (Ok key, w1) /\
     ((APIKey_Status key <> "active" /\ MapAuthError e = (401, "unauthorized")) \/
      GetByID (APIKey_TenantID key) w1 = (Err e, w') \/
      (exists tenant, GetByID (APIKey_TenantID key) w1 = (Ok tenant, w') /\
         Tenant_Status tenant <> "active" /\ MapAuthError e = (403, "tenant_suspended")))).
Proof.
  unfold Authenticate, APIKey_IsActive, Tenant_IsActive, fail, mbind, Op_bind.
  destruct (String.eqb_spec raw "") as [->|Hraw]; [intros [= <- <-]; by left|].
  destruct (FindByHash (HashAPIKey raw) w) as [[key|e'] w1] eqn:Ek.
  2:{ intros [= <- <-]. right. left. eauto. }
  intros E. right. right. exists key, w1. split; [done|]. revert E.
  destruct (String.eqb_spec (APIKey_Status key) APIKeyStatusActive) as [Hs|Hs]; simpl.
  2:{ intros [= <- <-]. by left. }
  destruct (GetByID (APIKey_TenantID key) w1) as [[tenant|e'] w2] eqn:Et.
  2:{ intros [= <- <-]. right. by left. }
  destruct (String.eqb_spec (Tenant_Status tenant) TenantStatusActive) as [Ht|Ht]; simpl; [done|].
  intros [= <- <-]. right. right. eauto.
Qed.

End Properties.

Lemma Authenticate_refuses_witness :
  Authenticate "rl_key" tt = (Err (Sentinel ErrAPIKeyRevoked), tt) /\
  ((("rl_key" = "") /\ MapAuthError (Sentinel ErrAPIKeyRevoked) = (401, "unauthorized")) \/
   (exists w1, FindByHash (HashAPIKey "rl_key") tt = (Err (Sentinel ErrAPIKeyRevoked), w1)) \/
   (exists key w1, FindByHash (HashAPIKey "rl_key") tt = (Ok key, w1) /\
     ((APIKey_Status key <> "active" /\ MapAuthError (Sentinel ErrAPIKeyRevoked) = (401, "unauthorized")) \/
      GetByID (APIKey_TenantID key) w1 = (Err (Sentinel ErrAPIKeyRevoked), tt) \/
      (exists tenant, GetByID (APIKey_TenantID key) w1 = (Ok tenant, tt) /\
         Tenant_Status tenant <> "active" /\
         MapAuthError (Sentinel ErrAPIKeyRevoked) = (403, "tenant_suspended"))))).
Proof.
  assert (E : Authenticate "rl_key" tt = (Err (Sentinel ErrAPIKeyRevoked), tt)) by reflexivity.
  split; [exact E|]. exact (Authenticate_refuses "rl_key" tt (Sentinel ErrAPIKeyRevoked) tt E).
Defined.

(** The status of an authentication failure. *)
Lemma MapAuthError_status e : fst (MapAuthError e) = 401 \/ fst (MapAuthError e) = 403 \/ fst (MapAuthError e) = 503.
Proof. unfold MapAuthError. repeat case_match; simpl; tauto. Qed.
