(* ===== verification/RuleCache.v ===== *)
(** The rule cache ([internal/infrastructure/cache/rule_cache.go]): rules are
    kept per tenant for [ttl] nanoseconds.  [get] and [set] each hold the lock,
    so concurrent calls interleave between them; the step relation at the end
    of the definitions runs any number of calls that way. *)

From stdpp Require Import base gmap strings list.
From Stdlib Require Import ZArith NArith Lia.
From S2P Require Import Prelude Float64 GoStrings Domain Ports.

Local Open Scope Z_scope.

(** ** The cache *)

Record cachedRules := { cached_rules : list Rule; expiresAt : Z }.

Record RuleCache := { cache_ttl : Z; cache_items : gmap N cachedRules }.

Definition NewRuleCache (ttl : Z) : RuleCache := {| cache_ttl := ttl; cache_items := ∅ |}.

(** [RuleCache.get] at the clock reading [now] *)
Definition cache_get (now : Z) (c : RuleCache) (tenantID : uuid) : option (list Rule) :=
  match cache_items c !! tenantID with
  | None => None
  | Some item => if expiresAt item <? now then None else Some (cached_rules item)
  end.

(** [RuleCache.set] at the clock reading [now] *)
Definition cache_set (now : Z) (c : RuleCache) (tenantID : uuid) (rules : list Rule) : RuleCache :=
  {| cache_ttl := cache_ttl c;
     cache_items := <[tenantID := {| cached_rules := rules; expiresAt := now + cache_ttl c |}]> (cache_items c) |}.

Section Cached.
Context {W : Type} `{!GoClock W} `{!RuleRepository W}.

(** [RuleCache.ListByTenant] and [RuleCache.ListAll] *)
Definition cached_ListByTenant (tenantID : uuid) : Op (RuleCache * W) (list Rule) := fun '(c, w) =>
  match cache_get (Now w) c tenantID with
  | Some rules => (Ok rules, (c, w))
  | None =>
      match ListByTenant tenantID w with
      | (Err e, w1) => (Err e, (c, w1))
      | (Ok rules, w1) => (Ok rules, (cache_set (Now w1) c tenantID rules, w1))
      end
  end.

Definition cached_ListAll : Op (RuleCache * W) (list Rule) := fun '(c, w) =>
  let '(r, w1) := ListAll w in (r, (c, w1)).

#[export] Instance RuleCache_repository : RuleRepository (RuleCache * W) :=
  {| ListByTenant := cached_ListByTenant; ListAll := cached_ListAll |}.

End Cached.

(** ** Concurrent calls

    [db t tenant] is what the wrapped repository reads at time [t]; it changes
    in any way over time.  A call that has read the repository stores what it
    read at most [delay] nanoseconds later. *)

Inductive phase :=
  | Missed (tenantID : uuid)
  | Loaded (tenantID : uuid) (rules : list Rule) (since : Z)
  | Returned (tenantID : uuid) (rules : list Rule) (at_ : Z)
  | Failed.

Record system := { sys_now : Z; sys_cache : RuleCache; sys_calls : gmap nat phase }.

(** The calls are waiting at most [delay] between reading and storing. *)
Definition in_time (delay : Z) (s : system) (now : Z) : Prop :=
  forall i tenantID rules since,
    sys_calls s !! i = Some (Loaded tenantID rules since) -> now <= since + delay.

Section Concurrent.
Variable db : Z -> uuid -> list Rule.
Variable delay : Z.

Inductive cache_step : system -> system -> Prop :=
  | step_tick s now :
      sys_now s <= now -> in_time delay s now ->
      cache_step s {| sys_now := now; sys_cache := sys_cache s; sys_calls := sys_calls s |}
  | step_hit s i tenantID rules :
      sys_calls s !! i = None ->
      cache_get (sys_now s) (sys_cache s) tenantID = Some rules ->
      cache_step s {| sys_now := sys_now s; sys_cache := sys_cache s;
                      sys_calls := <[i := Returned tenantID rules (sys_now s)]> (sys_calls s) |}
  | step_miss s i tenantID :
      sys_calls s !! i = None ->
      cache_get (sys_now s) (sys_cache s) tenantID = None ->
      cache_step s {| sys_now := sys_now s; sys_cache := sys_cache s;
                      sys_calls := <[i := Missed tenantID]> (sys_calls s) |}
  | step_load s i tenantID :
      sys_calls s !! i = Some (Missed tenantID) ->
      cache_step s {| sys_now := sys_now s; sys_cache := sys_cache s;
                      sys_calls := <[i := Loaded tenantID (db (sys_now s) tenantID) (sys_now s)]>
                                     (sys_calls s) |}
  | step_load_error s i tenantID :
      sys_calls s !! i = Some (Missed tenantID) ->
      cache_step s {| sys_now := sys_now s; sys_cache := sys_cache s;
                      sys_calls := <[i := Failed]> (sys_calls s) |}
  | step_set s i tenantID rules since :
      sys_calls s !! i = Some (Loaded tenantID rules since) ->
      cache_step s {| sys_now := sys_now s;
                      sys_cache := cache_set (sys_now s) (sys_cache s) tenantID rules;
                      sys_calls := <[i := Returned tenantID rules (sys_now s)]> (sys_calls s) |}.

End Concurrent.

Definition fresh_system (now ttl : Z) : system :=
  {| sys_now := now; sys_cache := NewRuleCache ttl; sys_calls := ∅ |}.

Definition demo_rule : Rule :=
  {| Rule_ID := 1%N; Rule_TenantID := 7%N; RoutePattern := "*"; Rule_Algorithm := AlgorithmSlidingWindow;
     Enabled := true; LimitCount := 1; WindowSeconds := 60; BucketCapacity := 0; RefillRate := of_Z 0 |}.

(** A tenant without rules before time 10 and with one rule from then on. *)
Definition demo_db (r : Rule) (t : Z) (tenantID : uuid) : list Rule := if t <? 10 then [] else [r].

(** ** Lemmas *)

Lemma cache_get_set_same now now' c tenantID rules : now' <= now + cache_ttl c ->
  cache_get now' (cache_set now c tenantID rules) tenantID = Some rules.
Proof.
  intros Hn. unfold cache_get, cache_set. simpl. rewrite lookup_insert_eq. simpl. by bool_cases; [lia|].
Qed.

Lemma cache_get_set_expired now now' c tenantID rules : now + cache_ttl c < now' ->
  cache_get now' (cache_set now c tenantID rules) tenantID = None.
Proof.
  intros Hn. unfold cache_get, cache_set. simpl. rewrite lookup_insert_eq. simpl. by bool_cases; [|lia].
Qed.

Lemma cache_get_set_other now now' c t1 t2 rules : t1 <> t2 ->
  cache_get now' (cache_set now c t1 rules) t2 = cache_get now' c t2.
Proof. intros Hn. unfold cache_get, cache_set. simpl. by rewrite lookup_insert_ne. Qed.

(** ** The invariant of concurrent calls *)

Section Staleness.
Variable db : Z -> uuid -> list Rule.
Variable delay ttl : Z.

(** The rules were the tenant's rules at some time between [lo] and [hi]. *)
Definition rules_between (tenantID : uuid) (rules : list Rule) (lo hi : Z) : Prop :=
  exists t, lo <= t <= hi /\ rules = db t tenantID.

(** What the state of a call promises at the time [now]. *)
Definition phase_ok (now : Z) (p : phase) : Prop :=
  match p with
  | Missed _ | Failed => True
  | Loaded tenantID rules since => rules = db since tenantID /\ since <= now <= since + delay
  | Returned tenantID rules t => rules_between tenantID rules (t - ttl - delay) t /\ t <= now
  end.

Record cache_inv (s : system) : Prop := {
  inv_ttl : cache_ttl (sys_cache s) = ttl;
  inv_items : forall tenantID item, cache_items (sys_cache s) !! tenantID = Some item ->
    rules_between tenantID (cached_rules item) (expiresAt item - ttl - delay) (sys_now s);
  inv_calls : forall i p, sys_calls s !! i = Some p -> phase_ok (sys_now s) p
}.

Lemma rules_between_widen tenantID rules lo hi lo' hi' :
  rules_between tenantID rules lo hi -> lo' <= lo -> hi <= hi' -> rules_between tenantID rules lo' hi'.
Proof. intros (t & Ht & E) Hl Hh. exists t. split; [lia|done]. Qed.

Lemma phase_ok_tick s now now' p i :
  in_time delay s now' -> now <= now' -> sys_calls s !! i = Some p -> phase_ok now p -> phase_ok now' p.
Proof.
  intros Hin Hn Hi Hp. destruct p as [tid|tid rules since|tid rules t|]; simpl in *; [done| | |done].
  - destruct Hp as [E Hs]. specialize (Hin _ _ _ _ Hi). split; [done|lia].
  - destruct Hp as [E Ht]. split; [done|lia].
Qed.

Lemma calls_insert (calls : gmap nat phase) now i p :
  (forall j q, calls !! j = Some q -> phase_ok now q) -> phase_ok now p ->
  forall j q, <[i := p]> calls !! j = Some q -> phase_ok now q.
Proof. intros Hc Hp j q [[-> <-]|[_ Hq]]%lookup_insert_Some; eauto. Qed.

Lemma inv_step s s' : 0 <= ttl -> 0 <= delay -> cache_inv s -> cache_step db delay s s' -> cache_inv s'.
Proof.
  intros Httl Hdelay [It Ii Ic] Hs.
  destruct Hs as [s now Hn Hin|s i tid rules Hi Hg|s i tid Hi Hg|s i tid Hi|s i tid Hi|s i tid rules since Hi];
    (split; simpl; [exact It| |]); try exact Ii; try (apply calls_insert; [exact Ic|]); simpl; try done.
  - intros tid item E. eapply rules_between_widen; [by apply Ii| |]; lia.
  - intros i p Hi. eapply phase_ok_tick; eauto.
  - unfold cache_get in Hg. destruct (cache_items (sys_cache s) !! tid) as [item|] eqn:E; [|done].
    destruct (Z.ltb_spec (expiresAt item) (sys_now s)); [done|]. injection Hg as <-.
    split; [|lia]. eapply rules_between_widen; [by apply (Ii tid)| |]; lia.
  - split; [done|lia].
  - intros tid' item [[-> <-]|[_ E]]%lookup_insert_Some; [|by apply Ii].
    apply Ic in Hi as [-> Hs]. exists since. rewrite It. simpl. split; [lia|done].
  - apply Ic in Hi as [-> Hs]. split; [|lia]. exists since. split; [lia|done].
Qed.

Lemma inv_fresh now : cache_inv (fresh_system now ttl).
Proof. split; [done|by intros|by intros]. Qed.

End Staleness.

(** ** Properties *)

(** C33: bounded staleness under concurrency.  However calls interleave and
    however the rules change meanwhile, a call that returns rules at time [t]
    returns rules that the repository held for that tenant at some moment
    between [t - ttl - delay] and [t], [delay] being how long a call may take
    from reading the repository to storing what it read. *)
Theorem rule_cache_staleness db delay ttl now s i tenantID rules t :
  0 <= ttl -> 0 <= delay ->
  rtc (cache_step db delay) (fresh_system now ttl) s ->
  sys_calls s !! i = Some (Returned tenantID rules t) ->
  exists t', t - ttl - delay <= t' <= t /\ rules = db t' tenantID.
Proof.
  intros Httl Hdelay Hr Hi.
  assert (Hinv : cache_inv db delay ttl s).
  { eapply (rtc_preserves (cache_step db delay)); [|exact (inv_fresh db delay ttl now)|exact Hr].
    intros s1 s2. by apply inv_step. }
  apply (inv_calls _ _ _ _ Hinv) in Hi as [Hb _]. exact Hb.
Qed.


(** One call that misses, reads the repository at 12 and stores what it read. *)
Lemma rule_cache_staleness_witness :
  0 <= 30 /\ 0 <= 5 /\
  rtc (cache_step (demo_db demo_rule) 5) (fresh_system 12 30)
      {| sys_now := 12; sys_cache := cache_set 12 (NewRuleCache 30) 7%N [demo_rule];
         sys_calls := {[ 0%nat := Returned 7%N [demo_rule] 12 ]} |} /\
  exists t', 12 - 30 - 5 <= t' <= 12 /\ [demo_rule] = demo_db demo_rule t' 7%N.
Proof.
  assert (Hr : rtc (cache_step (demo_db demo_rule) 5) (fresh_system 12 30)
      {| sys_now := 12; sys_cache := cache_set 12 (NewRuleCache 30) 7%N [demo_rule];
         sys_calls := {[ 0%nat := Returned 7%N [demo_rule] 12 ]} |}).
  { eapply rtc_l; [by apply (step_miss _ _ _ 0%nat 7%N)|].
    eapply rtc_l; [by apply (step_load _ _ _ 0%nat 7%N)|].
    eapply rtc_l; [by apply (step_set _ _ _ 0%nat 7%N [demo_rule] 12)|]. apply rtc_refl. }
  split; [lia|]. split; [lia|]. split; [exact Hr|].
  exact (rule_cache_staleness (demo_db demo_rule) 5 30 12 _ 0%nat 7%N [demo_rule] 12
           ltac:(lia) ltac:(lia) Hr eq_refl).
Defined.

(** The cache can go back in time.  A call that read the old rules and
    stores them after another call has returned the new ones replaces them:
    there is a run in which a call returns the new rules at time 10 and a
    later call returns the old ones at time 11, although the rules changed
    for good at time 10. *)
Theorem rule_cache_regression (r : Rule) :
  exists s, rtc (cache_step (demo_db r) 20) (fresh_system 0 30) s /\
    sys_calls s !! 1%nat = Some (Returned 7%N [r] 10) /\
    sys_calls s !! 2%nat = Some (Returned 7%N [] 11) /\
    forall t, 10 <= t -> demo_db r t 7%N = [r].
Proof.
  eexists. split; [|split; [|split]].
  - eapply rtc_l; [by apply (step_miss _ _ _ 0%nat 7%N)|].
    eapply rtc_l; [by apply (step_load _ _ _ 0%nat 7%N)|]; cbn [sys_now sys_cache sys_calls].
    eapply rtc_l; [apply (step_tick _ _ _ 10); [done|]|]; cbn [sys_now sys_cache sys_calls].
    { intros i tid rules since Hi. cbn [sys_calls] in Hi.
      repeat (apply lookup_insert_Some in Hi as [[_ Hi]|[_ Hi]]; [by simplify_eq|]). done. }
    eapply rtc_l; [by apply (step_miss _ _ _ 1%nat 7%N)|]; cbn [sys_now sys_cache sys_calls].
    eapply rtc_l; [by apply (step_load _ _ _ 1%nat 7%N)|]; cbn [sys_now sys_cache sys_calls].
    eapply rtc_l; [by apply (step_set _ _ _ 1%nat 7%N [r] 10)|]; cbn [sys_now sys_cache sys_calls].
    eapply rtc_l; [by apply (step_set _ _ _ 0%nat 7%N [] 0)|]; cbn [sys_now sys_cache sys_calls].
    eapply rtc_l; [apply (step_tick _ _ _ 11); [done|]|]; cbn [sys_now sys_cache sys_calls].
    { intros i tid rules since Hi. cbn [sys_calls] in Hi.
      repeat (apply lookup_insert_Some in Hi as [[_ Hi]|[_ Hi]]; [by simplify_eq|]). done. }
    eapply rtc_l; [by apply (step_hit _ _ _ 2%nat 7%N [])|]; cbn [sys_now sys_cache sys_calls]. apply rtc_refl.
  - done.
  - done.
  - intros t Ht. unfold demo_db. by bool_cases; [lia|].
Qed.

Section Sequential.
Context {W : Type} `{!GoClock W} `{!RuleRepository W}.

(** What one call does.  A stored entry that has not expired answers
    without asking the repository; otherwise the repository is asked once, its
    error is passed on and nothing is stored, its rules are stored for that
    tenant only and are the answer of every later call within [ttl]. *)
Theorem cached_ListByTenant_outcome tenantID c w :
  let '(r, (c', w')) := cached_ListByTenant tenantID (c, w) in
  (exists rules, cache_get (Now w) c tenantID = Some rules /\ r = Ok rules /\ c' = c /\ w' = w) \/
  (cache_get (Now w) c tenantID = None /\ ListByTenant tenantID w = (r, w') /\
   match r with
   | Err _ => c' = c
   | Ok rules =>
       (forall w2, Now w2 <= Now w' + cache_ttl c ->
          cached_ListByTenant tenantID (c', w2) = (Ok rules, (c', w2))) /\
       (forall other now, other <> tenantID -> cache_get now c' other = cache_get now c other)
   end).
Proof.
  unfold cached_ListByTenant. destruct (cache_get (Now w) c tenantID) as [rules|] eqn:Eg; [left; eauto 6|].
  destruct (ListByTenant tenantID w) as [[rules|e] w1] eqn:El; right; split; try done. split; [done|].
  split; [|intros; by apply cache_get_set_other].
  intros w2 Hw. by rewrite cache_get_set_same.
Qed.

End Sequential.
