(* ===== verification/Provisioning.v ===== *)
(** Provisioning ([internal/application/provisioning_service.go]): project
    names, key digests, key prefixes and rules are checked before they reach
    the project store. *)

From stdpp Require Import base strings list.
From Stdlib Require Import ZArith NArith Lia Ascii.
From S2P Require Import Prelude Float64 GoStrings Sha256 Domain Ports.

Local Open Scope Z_scope.

(** ** The regular expressions

    Both patterns are a sequence of character classes with repetition bounds,
    anchored at both ends; [matches_items] is a backtracking matcher for such
    a sequence. *)

Definition char_class : Type := ascii -> bool.
Record item := { item_class : char_class; item_min : nat; item_max : nat }.

Fixpoint matches_items (items : list item) (l : list ascii) : bool :=
  match items with
  | [] => bool_decide (l = [])
  | it :: rest =>
      existsb (fun n => (n <=? length l)%nat && forallb (item_class it) (take n l) &&
                        matches_items rest (drop n l))
              (seq (item_min it) (S (item_max it) - item_min it))
  end.

Definition MatchString (items : list item) (s : string) : bool := matches_items items (explode s).

Definition in_range (lo hi : nat) (c : ascii) : bool :=
  ((lo <=? nat_of_ascii c) && (nat_of_ascii c <=? hi))%nat.
(** [[a-z0-9]] and [[a-z0-9-]] *)
Definition alnum (c : ascii) : bool := in_range 97 122 c || in_range 48 57 c.
Definition alnum_dash (c : ascii) : bool := alnum c || Ascii.eqb c "-".

Definition projectNameRe : list item :=
  [ {| item_class := alnum; item_min := 1; item_max := 1 |};
    {| item_class := alnum_dash; item_min := 1; item_max := 38 |};
    {| item_class := alnum; item_min := 1; item_max := 1 |} ].

Definition sha256HexRe : list item :=
  [ {| item_class := fun c => in_range 48 57 c || in_range 97 102 c; item_min := 64; item_max := 64 |} ].

Definition maxRulesPerProject : Z := 50.

Definition invalid_input (detail : string) : goerror := wrap_detail (Sentinel ErrInvalidInput) detail.

(** The world's source of random version-4 UUIDs, which are never nil. *)
Class GoUUID (W : Type) := {
  uuid_New : W -> uuid * W;
  uuid_New_nonzero w : fst (uuid_New w) <> uuid_Nil
}.

(** ** The checks *)

Section Checks.
Context `{GoText}.

(** A rule with the tenant id and the trimmed pattern that the loop stores. *)
Definition owned_rule (tenantID : uuid) (r : Rule) : Rule :=
  {| Rule_ID := Rule_ID r; Rule_TenantID := tenantID; RoutePattern := TrimSpace (RoutePattern r);
     Rule_Algorithm := Rule_Algorithm r; Enabled := Enabled r; LimitCount := LimitCount r;
     WindowSeconds := WindowSeconds r; BucketCapacity := BucketCapacity r; RefillRate := RefillRate r |}.

(** The loop over the rules: [i] is the index and [seen] the patterns so far. *)
Fixpoint check_rules (tenantID : uuid) (i : Z) (seen : list string) (rules : list Rule)
    : result goerror (list Rule) :=
  match rules with
  | [] => Ok []
  | r :: rest =>
      let r' := owned_rule tenantID r in
      if bool_decide (RoutePattern r' ∈ seen)
      then Err (invalid_input ("duplicate route pattern " +:+ quote (RoutePattern r')))
      else
        match Validate r' with
        | Err e => Err (invalid_input ("rule " +:+ FormatInt (i + 1) +:+ " (" +:+ RoutePattern r' +:+
                                       "): " +:+ Error e))
        | Ok tt =>
            match check_rules tenantID (i + 1) (RoutePattern r' :: seen) rest with
            | Err e => Err e
            | Ok rest' => Ok (r' :: rest')
            end
        end
  end.

Definition normalise (s : string) : string := ToLower (TrimSpace s).

Definition bad_name : goerror := invalid_input
  "name must be 3-40 chars, lowercase letters, digits and hyphens, not starting or ending with a hyphen".
Definition bad_hash : goerror := invalid_input "key_hash must be 64 lowercase hex characters (sha256)".
Definition bad_prefix : goerror := invalid_input "key_prefix must be 1-32 characters".

Definition prefix_ok (keyPrefix : string) : bool :=
  negb (String.eqb keyPrefix "" || (32 <? len keyPrefix)).

Definition role_ok (role : string) : bool := String.eqb role RoleAdmin || String.eqb role RoleCheck.

(** ** The service *)

Context {W : Type} `{!GoUUID W} `{!ProjectStore W}.

(** [ProvisioningService.CreateProject] *)
Definition CreateProject (name keyHash keyPrefix keyRole : string) (rules : list Rule) : Op W uuid := fun w =>
  let name := normalise name in
  if negb (MatchString projectNameRe name) then fail bad_name w
  else
    let keyHash := normalise keyHash in
    if negb (MatchString sha256HexRe keyHash) then fail bad_hash w
    else
      let keyPrefix := TrimSpace keyPrefix in
      if negb (prefix_ok keyPrefix) then fail bad_prefix w
      else if bool_decide (rules = []) then fail (invalid_input "at least one rule is required") w
      else if maxRulesPerProject <? Z.of_nat (length rules)
      then fail (invalid_input ("at most " +:+ FormatInt maxRulesPerProject +:+ " rules per project")) w
      else
        let (tenantID, w1) := uuid_New w in
        match check_rules tenantID 0 [] rules with
        | Err e => fail e w1
        | Ok rules' =>
            let keyRole := if role_ok keyRole then keyRole else RoleAdmin in
            let p := {| NP_TenantID := tenantID; NP_Name := name; NP_KeyHash := keyHash;
                        NP_KeyPrefix := keyPrefix; NP_KeyRole := keyRole; NP_Rules := rules' |} in
            match store_CreateProject p w1 with
            | (Err e, w2) => (Err e, w2)
            | (Ok tt, w2) => (Ok tenantID, w2)
            end
        end.

(** [ProvisioningService.AddAPIKey] *)
Definition AddAPIKey (tenantID : uuid) (keyHash keyPrefix role : string) : Op W unit :=
  let keyHash := normalise keyHash in
  if negb (MatchString sha256HexRe keyHash) then fail bad_hash
  else
    let keyPrefix := TrimSpace keyPrefix in
    if negb (prefix_ok keyPrefix) then fail bad_prefix
    else if negb (role_ok role) then fail (invalid_input "role must be admin or check")
    else store_AddAPIKey tenantID keyHash keyPrefix role.

(** [ProvisioningService.ListProjects], [.RevokeAPIKey] and [.GetProject] *)
Definition ListProjects : Op W (list ProjectSummary) := store_ListProjects.
Definition RevokeAPIKey (tenantID keyID : uuid) : Op W unit := store_RevokeAPIKey tenantID keyID.
Definition GetProject (tenantID : uuid) : Op W ProjectSummary := store_GetProject tenantID.

End Checks.

(** ** What reaches the store *)

(** A name of 3 to 40 lower-case letters, digits and hyphens, with no hyphen at
    either end. *)
Definition project_name (s : string) : Prop :=
  exists a mid z, explode s = a :: mid ++ [z] /\ (1 <= length mid <= 38)%nat /\
    alnum a = true /\ forallb alnum_dash mid = true /\ alnum z = true.

(** A SHA-256 digest in hexadecimal. *)
Definition hex_digest (s : string) : Prop :=
  String.length s = 64%nat /\ forallb is_hex_char (explode s) = true.

Record project_ok `{GoText} (p : NewProject) : Prop := {
  ok_name : project_name (NP_Name p);
  ok_hash : hex_digest (NP_KeyHash p);
  ok_prefix : NP_KeyPrefix p <> "" /\ len (NP_KeyPrefix p) <= 32;
  ok_role : NP_KeyRole p = RoleAdmin \/ NP_KeyRole p = RoleCheck;
  ok_count : 1 <= Z.of_nat (length (NP_Rules p)) <= 50;
  ok_rules : Forall (fun r => Validate r = Ok tt /\ Rule_TenantID r = NP_TenantID p) (NP_Rules p);
  ok_distinct : NoDup (RoutePattern <$> NP_Rules p)
}.

(** A world with one fixed UUID and a store that accepts everything. *)
#[local] Instance one_uuid : GoUUID unit := { uuid_New w := (7%N, w); uuid_New_nonzero w := ltac:(done) }.
#[local] Instance any_store : ProjectStore unit := {|
  store_CreateProject p w := (Ok tt, w);
  store_ListProjects w := (Ok [], w);
  store_GetProject t w := (Err (Sentinel ErrTenantNotFound), w);
  store_AddAPIKey t h p r w := (Ok tt, w);
  store_RevokeAPIKey t k w := (Ok tt, w) |}.
Definition demo_rules : list Rule :=
  [ {| Rule_ID := 0%N; Rule_TenantID := 0%N; RoutePattern := "/login"; Rule_Algorithm := AlgorithmSlidingWindow;
       Enabled := true; LimitCount := 5; WindowSeconds := 60; BucketCapacity := 0; RefillRate := of_Z 0 |} ].

(** ** Lemmas on the matcher *)

Lemma matches_item_cons it rest l :
  matches_items (it :: rest) l = true <->
  exists l1 l2, l = l1 ++ l2 /\ (item_min it <= length l1 <= item_max it)%nat /\
    forallb (item_class it) l1 = true /\ matches_items rest l2 = true.
Proof.
  cbn [matches_items]. rewrite existsb_exists. split.
  - intros (n & Hn%in_seq & [[Hl%Nat.leb_le Hc]%andb_prop Hr]%andb_prop).
    exists (take n l), (drop n l). rewrite take_drop, length_take. repeat split; try done; lia.
  - intros (l1 & l2 & -> & Hn & Hc & Hr). exists (length l1). rewrite in_seq, length_app.
    rewrite take_app_length, drop_app_length, Hc, Hr, (proj2 (Nat.leb_le _ _)) by lia. split; [lia|done].
Qed.

Lemma matches_items_nil l : matches_items [] l = true <-> l = [].
Proof. apply bool_decide_eq_true. Qed.

Lemma length_one {A} (l : list A) : (1 <= length l <= 1)%nat -> exists a, l = [a].
Proof. destruct l as [|a [|b l]]; simpl; intros; [lia|by exists a|lia]. Qed.

Lemma projectNameRe_spec s : MatchString projectNameRe s = true <-> project_name s.
Proof.
  unfold MatchString, projectNameRe, project_name. rewrite matches_item_cons. cbn [item_class item_min item_max]. split.
  - intros (l1 & l2 & E & [a ->]%length_one & Ha & (mid & l3 & -> & Hm & Hc & Hz)%matches_item_cons).
    apply matches_item_cons in Hz as (lz & l4 & -> & [z ->]%length_one & Hz & ->%matches_items_nil).
    cbn in Ha, Hz. rewrite andb_true_r in Ha, Hz. exists a, mid, z. rewrite app_nil_r in E. eauto 8.
  - intros (a & mid & z & E & Hm & Ha & Hc & Hz). exists [a], (mid ++ [z]).
    split; [by rewrite E|]. split; [simpl; lia|]. split; [simpl; by rewrite Ha|].
    apply matches_item_cons. exists mid, [z]. do 3 (split; [done|]).
    apply matches_item_cons. exists [z], []. split; [done|]. split; [simpl; lia|].
    split; [simpl; by rewrite Hz|done].
Qed.

Lemma sha256HexRe_spec s : MatchString sha256HexRe s = true <-> hex_digest s.
Proof.
  unfold MatchString, sha256HexRe, hex_digest. rewrite matches_item_cons. cbn [item_class item_min item_max].
  rewrite <- length_explode. split.
  - intros (l1 & l2 & -> & Hn & Hc & ->%matches_items_nil). rewrite app_nil_r. split; [lia|exact Hc].
  - intros [Hl Hc]. exists (explode s), []. rewrite app_nil_r. repeat split; try done; lia.
Qed.

(** ** Lemmas on the rules *)

Section Rules.
Context `{GoText}.

Lemma check_rules_ok tenantID i seen rules rules' :
  check_rules tenantID i seen rules = Ok rules' ->
  rules' = map (owned_rule tenantID) rules /\
  Forall (fun r => Validate r = Ok tt /\ Rule_TenantID r = tenantID) rules' /\
  NoDup (RoutePattern <$> rules') /\
  (forall p, p ∈ seen -> p ∉ RoutePattern <$> rules').
Proof.
  revert i seen rules'. induction rules as [|r rules IH]; intros i seen rules'; cbn [check_rules].
  { intros [= <-]. repeat split; try constructor. intros p _. simpl. apply not_elem_of_nil. }
  case_bool_decide as Hseen; [done|].
  destruct (Validate (owned_rule tenantID r)) as [[]|e] eqn:Ev; [|done].
  destruct (check_rules tenantID (i + 1) _ rules) as [l|e] eqn:Ec; [|done]. intros [= <-].
  apply IH in Ec as (-> & Hall & Hnd & Hs).
  split; [done|]. split; [by constructor|]. rewrite fmap_cons. split.
  - constructor; [|done]. apply Hs, elem_of_cons. by left.
  - intros p Hp. rewrite not_elem_of_cons. split; [by intros ->|]. apply Hs, elem_of_cons. by right.
Qed.

Lemma check_rules_complete tenantID i seen rules :
  Forall (fun r => Validate (owned_rule tenantID r) = Ok tt) rules ->
  NoDup (TrimSpace <$> (RoutePattern <$> rules)) ->
  (forall p, p ∈ seen -> p ∉ TrimSpace <$> (RoutePattern <$> rules)) ->
  check_rules tenantID i seen rules = Ok (map (owned_rule tenantID) rules).
Proof.
  intros Hv. revert i seen. induction Hv as [|r rules Hv _ IH]; intros i seen Hnd Hs; [done|].
  rewrite !fmap_cons in Hnd. apply NoDup_cons in Hnd as [Hr Hnd]. cbn [check_rules map].
  rewrite bool_decide_eq_false_2; [rewrite Hv, IH; [done|done|]|].
  - intros p [->|Hp]%elem_of_cons; [exact Hr|]. apply Hs in Hp. rewrite !fmap_cons in Hp.
    intros Hin. apply Hp, elem_of_cons. by right.
  - intros Hin. apply (Hs _ Hin). rewrite !fmap_cons. apply elem_of_cons. by left.
Qed.

Lemma check_rules_invalid tenantID i seen rules e :
  check_rules tenantID i seen rules = Err e -> Is e ErrInvalidInput = true.
Proof.
  revert i seen. induction rules as [|r rules IH]; intros i seen; cbn [check_rules]; [done|].
  case_bool_decide; [by intros [= <-]|]. destruct (Validate _) as [[]|e']; [|by intros [= <-]].
  destruct (check_rules tenantID (i + 1) _ rules) as [l|e''] eqn:Ec; [done|].
  intros [= <-]. by apply IH in Ec.
Qed.

Lemma prefix_ok_spec s : prefix_ok s = true <-> s <> "" /\ len s <= 32.
Proof.
  unfold prefix_ok. rewrite negb_true_iff, orb_false_iff, Z.ltb_ge, String.eqb_neq. done.
Qed.

Lemma role_ok_spec s : role_ok s = true <-> s = RoleAdmin \/ s = RoleCheck.
Proof. unfold role_ok. by rewrite orb_true_iff, !String.eqb_eq. Qed.

End Rules.

(** A digest in hexadecimal is left as it is by trimming and lower case. *)
Lemma hex_plain c : is_hex_char c = true -> printable c && lower_ascii c = true.
Proof. destruct c as [[] [] [] [] [] [] [] []]; vm_compute; done. Qed.

Lemma normalise_hex `{GoText} s : hex_digest s -> normalise s = s.
Proof.
  intros [_ Hc]. rewrite forallb_forall in Hc. unfold normalise.
  assert (Hp : forallb (fun c => printable c && lower_ascii c) (explode s) = true).
  { apply forallb_forall. intros c Hin. by apply hex_plain, Hc. }
  rewrite forallb_forall in Hp.
  rewrite TrimSpace_printable; [apply ToLower_lower|]; apply forallb_forall; intros c Hin;
    by apply Hp, andb_prop in Hin as [? ?].
Qed.

(** A project that was created is one that the store took. *)
Lemma CreateProject_Ok `{!GoText} {W : Type} `{!GoUUID W} `{!ProjectStore W} name keyHash keyPrefix role rules w t w' :
  CreateProject name keyHash keyPrefix role rules w = (Ok t, w') ->
  exists p, store_CreateProject p (snd (uuid_New w)) = (Ok tt, w') /\ NP_TenantID p = t /\ NP_Name p = normalise name /\
    NP_KeyHash p = normalise keyHash /\ NP_KeyPrefix p = TrimSpace keyPrefix /\
    NP_KeyRole p = (if role_ok role then role else RoleAdmin) /\ check_rules t 0 [] rules = Ok (NP_Rules p).
Proof.
  unfold CreateProject, fail. repeat (destruct (_ : bool); [done|]). destruct (uuid_New w) as [tid w1].
  destruct (check_rules tid 0 [] rules) as [rules'|e] eqn:Er; [|done]. cbn zeta.
  match goal with |- context [store_CreateProject ?q w1] => set (p := q) end.
  destruct (store_CreateProject p w1) as [[[]|e] w2] eqn:Es; [|done]. intros [= <- <-]. by exists p.
Qed.

(** ** Properties *)

Section Properties.
Context `{!GoText} {W : Type} `{!GoUUID W} `{!ProjectStore W}.

(** C39: nothing malformed reaches the store.  [CreateProject] either rejects
    its input with [ErrInvalidInput], without touching the store, or hands the
    store a project with a well-formed name, digest, prefix and role and with
    1 to 50 valid rules on distinct trimmed patterns, all owned by the new
    tenant, and answers what the store answers. *)
Theorem CreateProject_wellformed name keyHash keyPrefix role rules w :
  let '(r, w') := CreateProject name keyHash keyPrefix role rules w in
  (exists e, r = Err e /\ Is e ErrInvalidInput = true /\ (w' = w \/ w' = snd (uuid_New w))) \/
  (exists p, project_ok p /\ NP_TenantID p = fst (uuid_New w) /\
     NP_Rules p = map (owned_rule (NP_TenantID p)) rules /\
     match store_CreateProject p (snd (uuid_New w)) with
     | (Ok _, w2) => r = Ok (NP_TenantID p) /\ w' = w2
     | (Err e, w2) => r = Err e /\ w' = w2
     end).
Proof.
  unfold CreateProject, fail.
  destruct (MatchString projectNameRe (normalise name)) eqn:En; [|left; eauto]. cbn [negb].
  destruct (MatchString sha256HexRe (normalise keyHash)) eqn:Eh; [|left; eauto]. cbn [negb].
  destruct (prefix_ok (TrimSpace keyPrefix)) eqn:Ep; [|left; eauto]. cbn [negb].
  case_bool_decide as Hr; [left; eauto|].
  destruct (Z.ltb_spec maxRulesPerProject (Z.of_nat (length rules))) as [?|Hm]; [left; eauto|].
  destruct (uuid_New w) as [tid w1] eqn:Eu. cbn [fst snd].
  destruct (check_rules tid 0 [] rules) as [rules'|e] eqn:Ec.
  2:{ left. exists e. split; [done|]. split; [by eapply check_rules_invalid|by right]. }
  apply check_rules_ok in Ec as (-> & Hall & Hnd & _).
  set (p := {| NP_TenantID := tid; NP_Name := normalise name; NP_KeyHash := normalise keyHash;
               NP_KeyPrefix := TrimSpace keyPrefix; NP_KeyRole := if role_ok role then role else RoleAdmin;
               NP_Rules := map (owned_rule tid) rules |}).
  assert (Hok : project_ok p).
  { split; simpl; [by apply projectNameRe_spec|by apply sha256HexRe_spec|by apply prefix_ok_spec| | |done|done].
    + destruct (role_ok role) eqn:Er; [by apply role_ok_spec|by left].
    + rewrite length_map. unfold maxRulesPerProject in Hm. destruct rules; [done|]. simpl in *. lia. }
  destruct (store_CreateProject p w1) as [[[]|e] w2] eqn:Es; right; exists p; rewrite Es; done.
Qed.

(** Well-formed input is accepted.  A project name, the digest of a key as
    the browser computes it, a prefix and valid rules on patterns that differ
    after trimming reach the store unchanged apart from the trimming and the
    new owner. *)
Theorem CreateProject_accepts name raw keyPrefix role rules w :
  project_name name -> normalise name = name -> TrimSpace keyPrefix = keyPrefix ->
  keyPrefix <> "" -> len keyPrefix <= 32 -> role = RoleAdmin \/ role = RoleCheck ->
  1 <= Z.of_nat (length rules) <= 50 ->
  Forall (fun r => Validate (owned_rule (fst (uuid_New w)) r) = Ok tt) rules ->
  NoDup (TrimSpace <$> (RoutePattern <$> rules)) ->
  CreateProject name (sha256_hex 32 raw) keyPrefix role rules w =
  match store_CreateProject
          {| NP_TenantID := fst (uuid_New w); NP_Name := name; NP_KeyHash := sha256_hex 32 raw;
             NP_KeyPrefix := keyPrefix; NP_KeyRole := role;
             NP_Rules := map (owned_rule (fst (uuid_New w))) rules |} (snd (uuid_New w)) with
  | (Ok _, w') => (Ok (fst (uuid_New w)), w')
  | (Err e, w') => (Err e, w')
  end.
Proof.
  intros Hname Hn Hp Hp1 Hp2 Hrole Hlen Hv Hnd. unfold CreateProject.
  assert (Hh : hex_digest (sha256_hex 32 raw)).
  { split; [by apply (sha256_hex_length 32)|apply sha256_hex_chars]. }
  rewrite Hn, (proj2 (projectNameRe_spec name) Hname), (normalise_hex _ Hh), (proj2 (sha256HexRe_spec _) Hh).
  cbn [negb]. rewrite Hp, (proj2 (prefix_ok_spec _)) by done. cbn [negb].
  rewrite bool_decide_eq_false_2 by (intros ->; simpl in Hlen; lia).
  unfold maxRulesPerProject. destruct (Z.ltb_spec 50 (Z.of_nat (length rules))); [lia|].
  destruct (uuid_New w) as [tid w1] eqn:Eu. cbn [fst snd] in *.
  rewrite check_rules_complete by (try done; intros ? []%not_elem_of_nil).
  rewrite (proj2 (role_ok_spec role) Hrole). by destruct (store_CreateProject _ w1) as [[[]|e] w2].
Qed.

(** A key is added under the same checks.  [AddAPIKey] rejects with
    [ErrInvalidInput] and leaves the world alone, or passes the store a
    hexadecimal digest, a prefix of 1 to 32 bytes and one of the two roles. *)
Theorem AddAPIKey_wellformed tenantID keyHash keyPrefix role w :
  let '(r, w') := AddAPIKey tenantID keyHash keyPrefix role w in
  (exists e, r = Err e /\ Is e ErrInvalidInput = true /\ w' = w) \/
  (hex_digest (normalise keyHash) /\
   (TrimSpace keyPrefix <> "" /\ len (TrimSpace keyPrefix) <= 32) /\
   (role = RoleAdmin \/ role = RoleCheck) /\
   store_AddAPIKey tenantID (normalise keyHash) (TrimSpace keyPrefix) role w = (r, w')).
Proof.
  unfold AddAPIKey.
  destruct (MatchString sha256HexRe (normalise keyHash)) eqn:Eh; [|left; eauto]. cbn [negb].
  destruct (prefix_ok (TrimSpace keyPrefix)) eqn:Ep; [|left; eauto]. cbn [negb].
  destruct (role_ok role) eqn:Er; [|left; eauto]. cbn [negb].
  destruct (store_AddAPIKey _ _ _ _ w) as [r w'] eqn:Es. right.
  split; [by apply sha256HexRe_spec|]. split; [by apply prefix_ok_spec|]. split; [by apply role_ok_spec|done].
Qed.

End Properties.

Lemma CreateProject_accepts_witness :
  project_name "demo-app" /\
  (
   CreateProject (H := plain_text) "demo-app" (sha256_hex 32 "rl_secret") "rl_demo" RoleAdmin demo_rules tt
   = (Ok 7%N, tt)).
Proof.
  assert (Hn : project_name "demo-app") by (apply projectNameRe_spec; vm_compute; reflexivity).
  split; [exact Hn|].
  exact (CreateProject_accepts (H := plain_text) "demo-app" "rl_secret" "rl_demo" RoleAdmin demo_rules tt
           Hn eq_refl eq_refl ltac:(discriminate) ltac:(vm_compute; discriminate) (or_introl eq_refl)
           ltac:(simpl; lia) ltac:(repeat constructor) ltac:(repeat constructor; apply not_elem_of_nil)).
Defined.
