(* ===== verification/Http.v ===== *)
(** HTTP requests and responses as [net/http] presents them to the handlers,
    with the helpers of [pkg/httputil]: [WriteJSON] and [WriteError]
    ([response.go]), the status-recording writer ([status_writer.go]), the
    tenant in the request context ([context.go]) and the rate-limit headers
    ([headers.go]).

    A response body is kept as the list of JSON values and texts that were
    written into it.  A writer is either the connection's own or a [StatusWriter] around
    another writer, as the middleware nests them. *)

From stdpp Require Import base gmap strings list.
From Stdlib Require Import ZArith NArith Lia Ascii.
From S2P Require Import Prelude Float64 GoStrings Domain.

Local Open Scope Z_scope.

(** ** JSON values *)

(** A number without fraction or exponent is a [JInt]; any other number is a
    [JFloat], the double nearest to it.  Objects keep the order of their keys. *)
Inductive json : Type :=
  | JNull
  | JBool (b : bool)
  | JInt (z : Z)
  | JFloat (f : float)
  | JString (s : string)
  | JArray (l : list json)
  | JObject (fields : list (string * json)).

(** ** Headers *)

Definition upper_byte (c : ascii) : ascii :=
  let n := nat_of_ascii c in
  if ((97 <=? n) && (n <=? 122))%nat then ascii_of_nat (n - 32) else c.

(** [textproto.CanonicalMIMEHeaderKey] on a key of letters, digits and
    hyphens: capitals at the start and after a hyphen, small letters elsewhere. *)
Fixpoint canonical_key (upper : bool) (k : string) : string :=
  match k with
  | EmptyString => EmptyString
  | String c k' => String (if upper then upper_byte c else lower_byte c) (canonical_key (Ascii.eqb c "-") k')
  end.

Abbreviation header := (gmap string (list string)) (only parsing).

Definition Header_Set (h : header) (k v : string) : header := <[canonical_key true k := [v]]> h.
Definition Header_Add (h : header) (k v : string) : header :=
  <[canonical_key true k := default [] (h !! canonical_key true k) ++ [v]]> h.
Definition Header_Get (h : header) (k : string) : string :=
  match h !! canonical_key true k with
  | Some (v :: _) => v
  | _ => ""
  end.

(** ** Requests *)

Record Request := {
  Method : string;
  URL_Path : string;
  Req_Header : header;
  Body_text : string;      (* the bytes the client sends *)
  Body_broken : bool;      (* reading fails after these bytes *)
  RemoteAddr : string;
  ctx_tenant : option uuid;            (* the context value under tenantIDKey *)
  path_values : list (string * string) (* set by the router *)
}.

(** [httputil.WithTenantID] and [r.WithContext] *)
Definition WithTenantID (r : Request) (tenantID : uuid) : Request :=
  {| Method := Method r; URL_Path := URL_Path r; Req_Header := Req_Header r;
     Body_text := Body_text r; Body_broken := Body_broken r; RemoteAddr := RemoteAddr r;
     ctx_tenant := Some tenantID; path_values := path_values r |}.

(** [httputil.TenantIDFromContext] *)
Definition TenantIDFromContext (r : Request) : option uuid := ctx_tenant r.

Definition with_path_values (r : Request) (vs : list (string * string)) : Request :=
  {| Method := Method r; URL_Path := URL_Path r; Req_Header := Req_Header r;
     Body_text := Body_text r; Body_broken := Body_broken r; RemoteAddr := RemoteAddr r;
     ctx_tenant := ctx_tenant r; path_values := vs |}.

(** [r.PathValue(name)] *)
Definition PathValue (r : Request) (name : string) : string :=
  match find (fun p => String.eqb (fst p) name) (path_values r) with
  | Some p => snd p
  | None => ""
  end.

(** [io.ReadAll(io.LimitReader(r.Body, n))]: [None] is a read error. *)
Definition ReadAll_limited (n : Z) (r : Request) : option string :=
  if n <=? len (Body_text r) then Some (String.substring 0 (Z.to_nat n) (Body_text r))
  else if Body_broken r then None
  else Some (Body_text r).

(** ** Responses *)

Inductive chunk : Type :=
  | Encoded (j : json)
  | Printed (s : string).

(** The connection's writer: the header map, what was sent with the first
    [WriteHeader], and what was written into the body. *)
Record response := {
  res_header : header;
  res_sent : option (Z * header);
  res_body : list chunk
}.

Inductive writer : Type :=
  | Conn (res : response)
  | StatusWriter (Status : Z) (inner : writer).

Definition fresh_response : response := {| res_header := ∅; res_sent := None; res_body := [] |}.

(** [w.Header()], read and changed *)
Fixpoint base (w : writer) : response :=
  match w with
  | Conn res => res
  | StatusWriter _ inner => base inner
  end.

Fixpoint on_base (f : response -> response) (w : writer) : writer :=
  match w with
  | Conn res => Conn (f res)
  | StatusWriter st inner => StatusWriter st (on_base f inner)
  end.

Definition map_header (f : header -> header) (w : writer) : writer :=
  on_base (fun res => {| res_header := f (res_header res); res_sent := res_sent res;
                         res_body := res_body res |}) w.

(** [http.ResponseWriter.WriteHeader]: only the first call counts. *)
Definition send (code : Z) (res : response) : response :=
  {| res_header := res_header res;
     res_sent := match res_sent res with Some s => Some s | None => Some (code, res_header res) end;
     res_body := res_body res |}.

(** [StatusWriter.WriteHeader] records the code and passes it on. *)
Fixpoint WriteHeader (code : Z) (w : writer) : writer :=
  match w with
  | Conn res => Conn (send code res)
  | StatusWriter _ inner => StatusWriter code (WriteHeader code inner)
  end.

(** [Write]: a first write sends status 200. *)
Definition Write (c : chunk) (w : writer) : writer :=
  on_base (fun res => let res := send 200 res in
             {| res_header := res_header res; res_sent := res_sent res;
                res_body := res_body res ++ [c] |}) w.

(** [json.NewEncoder(w).Encode(body)] *)
Definition Encode (body : json) (w : writer) : writer := Write (Encoded body) w.

(** [httputil.NewStatusWriter] *)
Definition NewStatusWriter (w : writer) : writer := StatusWriter 200 w.

Definition Status (w : writer) : Z := match w with StatusWriter st _ => st | Conn _ => 0 end.
Definition inner_writer (w : writer) : writer := match w with StatusWriter _ w' => w' | Conn _ => w end.

(** [httputil.WriteJSON] and [httputil.WriteError] *)
Definition WriteJSON (status : Z) (body : json) (w : writer) : writer :=
  let w := map_header (fun h => Header_Set h "Content-Type" "application/json") w in
  Encode body (WriteHeader status w).

Definition WriteError (status : Z) (message : string) (w : writer) : writer :=
  WriteJSON status (JObject [("error", JString message)]) w.

Definition newline : string := String (ascii_of_nat 10) "".

(** [http.Error] *)
Definition http_Error (text : string) (code : Z) (w : writer) : writer :=
  let w := map_header (fun h => Header_Set (Header_Set h "Content-Type" "text/plain; charset=utf-8")
                                           "X-Content-Type-Options" "nosniff") w in
  Write (Printed (text +:+ newline)) (WriteHeader code w).

(** [http.Redirect] to a path *)
Definition html_escape (c : ascii) : list ascii :=
  if Ascii.eqb c "&" then explode "&amp;"
  else if Ascii.eqb c "<" then explode "&lt;"
  else if Ascii.eqb c ">" then explode "&gt;"
  else if Ascii.eqb c (ascii_of_nat 34) then explode "&#34;"
  else if Ascii.eqb c "'" then explode "&#39;"
  else [c].

Definition http_Redirect (method url : string) (code : Z) (w : writer) : writer :=
  let quote_mark := String (ascii_of_nat 34) "" in
  let w := map_header (fun h => Header_Set h "Location" url) w in
  let w := if String.eqb method "GET" || String.eqb method "HEAD"
           then map_header (fun h => Header_Set h "Content-Type" "text/html; charset=utf-8") w else w in
  let w := WriteHeader code w in
  if String.eqb method "GET"
  then Write (Printed ("<a href=" +:+ quote_mark +:+ implode (flat_map html_escape (explode url)) +:+ quote_mark +:+
                       ">Moved Permanently</a>." +:+ newline +:+ newline)) w
  else w.

(** The status line the client sees once the handler has returned. *)
Definition answered (w : writer) : Z :=
  match res_sent (base w) with Some (code, _) => code | None => 200 end.

(** ** Rate-limit headers *)

Definition HeaderRateLimitLimit : string := "X-RateLimit-Limit".
Definition HeaderRateLimitRemaining : string := "X-RateLimit-Remaining".
Definition HeaderRateLimitReset : string := "X-RateLimit-Reset".
Definition HeaderRetryAfter : string := "Retry-After".

(** [httputil.ApplyRateLimitHeaders] *)
Definition ApplyRateLimitHeaders (dec : RateLimitDecision) (w : writer) : writer :=
  if (Decision_Limit dec <=? 0) && String.eqb (Decision_Algorithm dec) "" then w
  else
    map_header (fun h =>
      let h := Header_Set h HeaderRateLimitLimit (FormatInt (Decision_Limit dec)) in
      let h := Header_Set h HeaderRateLimitRemaining (FormatInt (Remaining dec)) in
      let h := Header_Set h HeaderRateLimitReset (FormatInt (ResetAt dec)) in
      if negb (Allowed dec) && (0 <? RetryAfter dec)
      then Header_Set h HeaderRetryAfter (FormatInt (RetryAfter dec))
      else h) w.

(** [httputil.CheckStatusCode], [FormatResetAt], [FormatRetryAfter] *)
Definition CheckStatusCode (dec : RateLimitDecision) : Z := if Allowed dec then 200 else 429.
Definition FormatResetAt (resetAt : Z) : Z := resetAt.
Definition FormatRetryAfter (dec : RateLimitDecision) : option Z :=
  if Allowed dec || (RetryAfter dec <=? 0) then None else Some (RetryAfter dec).

(** ** Handlers *)

(** [http.Handler]: [ServeHTTP] writes to the writer and acts on the world. *)
Definition Handler (W : Type) : Type := Request -> writer -> W -> writer * W.

(** A handler that only writes. *)
Definition reply {W} (f : writer -> writer) : writer -> W -> writer * W := fun rw w => (f rw, w).

(** ** Lemmas *)

Lemma Header_Get_Set_same h k v : Header_Get (Header_Set h k v) k = v.
Proof. unfold Header_Get, Header_Set. by rewrite lookup_insert_eq. Qed.

Lemma Header_Get_Set_other h k k' v : canonical_key true k <> canonical_key true k' ->
  Header_Get (Header_Set h k v) k' = Header_Get h k'.
Proof. intros Hk. unfold Header_Get, Header_Set. by rewrite lookup_insert_ne. Qed.

Lemma base_on_base f w : base (on_base f w) = f (base w).
Proof. induction w as [res|st inner IH]; simpl; auto. Qed.

Lemma base_WriteHeader code w : base (WriteHeader code w) = send code (base w).
Proof. induction w as [res|st inner IH]; simpl; auto. Qed.

Lemma base_WriteJSON status body w : res_sent (base w) = None ->
  base (WriteJSON status body w) =
    {| res_header := Header_Set (res_header (base w)) "Content-Type" "application/json";
       res_sent := Some (status, Header_Set (res_header (base w)) "Content-Type" "application/json");
       res_body := res_body (base w) ++ [Encoded body] |}.
Proof.
  intros Hs. unfold WriteJSON, Encode, Write, map_header. rewrite base_on_base, base_WriteHeader, base_on_base.
  unfold send. simpl. by rewrite Hs.
Qed.

Lemma answered_WriteJSON status body w : res_sent (base w) = None ->
  answered (WriteJSON status body w) = status.
Proof. intros Hs. unfold answered. by rewrite base_WriteJSON. Qed.

Lemma answered_WriteError status msg w : res_sent (base w) = None ->
  answered (WriteError status msg w) = status.
Proof. apply answered_WriteJSON. Qed.

Lemma answered_WriteHeader code w : res_sent (base w) = None -> answered (WriteHeader code w) = code.
Proof. intros Hs. unfold answered. rewrite base_WriteHeader. unfold send. simpl. by rewrite Hs. Qed.

Lemma map_header_unsent f w : res_sent (base (map_header f w)) = res_sent (base w).
Proof. unfold map_header. by rewrite base_on_base. Qed.

#[export] Hint Rewrite @base_on_base @base_WriteHeader @map_header_unsent : rl_rw.
#[export] Hint Resolve answered_WriteJSON answered_WriteError answered_WriteHeader : rl.
