(* ===== verification/Observability.v ===== *)
(** Observability ([internal/observability]): the labels of the Prometheus
    metrics, the metrics and what is recorded in them per request and per check,
    and the log level.  The metrics library itself is a parameter of the model. *)

From stdpp Require Import base strings list.
From Stdlib Require Import ZArith Lia.
From S2P Require Import Prelude Float64 GoStrings Domain Ports.

Local Open Scope Z_scope.

(** ** The metrics *)

(** [CounterOpts], [HistogramOpts] and the names of the labels; the upper
    bounds of the buckets are in nanoseconds, as the durations are. *)
Inductive buckets := NoBuckets | DefBuckets | Bounds (upper : list Z).
Record metric := { Name : string; Help : string; Buckets : buckets; label_names : list string }.

Definition httpRequestsTotal : metric :=
  {| Name := "http_requests_total"; Help := "Total HTTP requests handled by the rate limiter API.";
     Buckets := NoBuckets; label_names := ["method"; "route"; "status"] |}.
Definition httpRequestDuration : metric :=
  {| Name := "http_request_duration_seconds"; Help := "HTTP request latency in seconds.";
     Buckets := DefBuckets; label_names := ["method"; "route"] |}.
Definition rateLimitChecksTotal : metric :=
  {| Name := "ratelimit_checks_total"; Help := "Total rate limit check evaluations.";
     Buckets := NoBuckets; label_names := ["result"] |}.
Definition rateLimitCheckDuration : metric :=
  {| Name := "ratelimit_check_duration_seconds"; Help := "Rate limit check evaluation latency in seconds.";
     Buckets := Bounds [1000000; 2500000; 5000000; 10000000; 25000000; 50000000; 100000000; 250000000; 500000000; 1000000000];
     label_names := [] |}.

(** A world with a metrics registry: [Inc] of the counter with these label
    values, [Observe] of a duration in the histogram with them. *)
Class Prometheus (W : Type) := {
  Inc : metric -> list string -> W -> W;
  Observe : metric -> list string -> Z -> W -> W
}.

(** [classifyCheckResult] *)
Definition classifyCheckResult (decision : RateLimitDecision) (err : option goerror) : string :=
  match err with
  | Some _ => "error"
  | None =>
      if String.eqb (Decision_Algorithm decision) "" && (Decision_Limit decision <=? 0) then "no_rule"
      else if Allowed decision then "allowed"
      else "denied"
  end.

(** [NormalizeRoute] *)
Definition NormalizeRoute (path : string) : string :=
  if String.eqb path "/health/live" || String.eqb path "/health/ready" || String.eqb path "/metrics"
  then path
  else if String.eqb path "/v1/check" || String.eqb path "/v1/config/tenants" then path
  else if HasPrefix path "/v1/config/tenants/" && HasSuffix path "/rules"
  then "/v1/config/tenants/{id}/rules"
  else "unknown".

(** [statusClass] *)
Definition statusClass (code : Z) : string :=
  if 500 <=? code then "5xx"
  else if 400 <=? code then "4xx"
  else if 300 <=? code then "3xx"
  else if 200 <=? code then "2xx"
  else "other".

Section Record.
Context {W : Type} `{!Prometheus W}.

(** [RecordHTTPRequest] *)
Definition RecordHTTPRequest (method path : string) (status duration : Z) (w : W) : W :=
  let route := NormalizeRoute path in
  let w := Inc httpRequestsTotal [method; route; statusClass status] w in
  Observe httpRequestDuration [method; route] duration w.

(** [RecordRateLimitCheck] *)
Definition RecordRateLimitCheck (decision : RateLimitDecision) (err : option goerror) (duration : Z) (w : W) : W :=
  let w := Observe rateLimitCheckDuration [] duration w in
  Inc rateLimitChecksTotal [classifyCheckResult decision err] w.

End Record.

(** The levels of [slog] and [parseLevel] *)
Inductive slog_Level : Set := LevelDebug | LevelInfo | LevelWarn | LevelError.

Definition parseLevel `{GoText} (level : string) : slog_Level :=
  let l := ToLower (TrimSpace level) in
  if String.eqb l "debug" then LevelDebug
  else if String.eqb l "warn" || String.eqb l "warning" then LevelWarn
  else if String.eqb l "error" then LevelError
  else LevelInfo.

(** [NewLogger]: the logger is known by the least level that it writes. *)
Definition logger : Type := slog_Level.
Definition NewLogger `{GoText} (level : string) : logger := parseLevel level.
Definition level_rank (l : slog_Level) : Z :=
  match l with LevelDebug => -4 | LevelInfo => 0 | LevelWarn => 4 | LevelError => 8 end.
Definition Enabled_for (lg : logger) (l : slog_Level) : bool := level_rank lg <=? level_rank l.

(** Errors are written at every level. *)
Lemma errors_written lg : Enabled_for lg LevelError = true.
Proof. by destruct lg. Qed.

(** ** Properties *)

(** The labels a request can be recorded under. *)
Definition route_labels : list string :=
  ["/health/live"; "/health/ready"; "/metrics"; "/v1/check"; "/v1/config/tenants";
   "/v1/config/tenants/{id}/rules"; "unknown"].

(** The labels stay few.  Whatever path a client asks for, the route label
    is one of seven, and the status label follows the hundreds of the status. *)
Theorem metric_labels_bounded path code : 200 <= code < 600 ->
  NormalizeRoute path ∈ route_labels /\
  statusClass code = FormatInt (code / 100) +:+ "xx".
Proof.
  intros Hc. split.
  - unfold NormalizeRoute, route_labels.
    repeat match goal with |- context [String.eqb path ?s] => destruct (String.eqb_spec path s) as [->|] end;
      simpl; try in_list.
    destruct (HasPrefix path _ && HasSuffix path _); in_list.
  - unfold statusClass. assert (H : code / 100 = 2 \/ code / 100 = 3 \/ code / 100 = 4 \/ code / 100 = 5) by
      (assert (2 <= code / 100) by (apply Z.div_le_lower_bound; lia);
       assert (code / 100 < 6) by (apply Z.div_lt_upper_bound; lia); lia).
    pose proof (Z.div_mod code 100 ltac:(lia)). pose proof (Z.mod_pos_bound code 100 ltac:(lia)).
    destruct H as [E|[E|[E|E]]]; rewrite E in *; bool_cases; try lia; reflexivity.
Qed.

Lemma metric_labels_bounded_witness :
  (200 <= 429 < 600) /\ NormalizeRoute "/v1/projects/me" ∈ route_labels /\
  statusClass 429 = FormatInt (429 / 100) +:+ "xx".
Proof.
  assert (Hc : 200 <= 429 < 600) by lia.
  split; [exact Hc|]. exact (metric_labels_bounded "/v1/projects/me" 429 Hc).
Defined.
