(* ===== verification/Decode.v ===== *)
(** What the handlers use of [encoding/json] and [time]: reading a JSON value
    into the request structs, and the RFC 3339 text of a time.

    The scanner that turns a text into a JSON value is a parameter, as is the
    folding of keys that are not ASCII; the filling of the structs is written
    out: keys match a field exactly or up to case, [null] leaves a field alone,
    unknown keys are ignored, a value of the wrong type is an error.  Objects
    that repeat the key of a list are outside the model. *)

From stdpp Require Import base strings list.
From Stdlib Require Import ZArith NArith Lia Ascii.
From S2P Require Import Prelude Float64 GoStrings Domain Http.

Local Open Scope Z_scope.

Class GoJSON := {
  json_scan : string -> option json;
  unicode_fold_eq : string -> string -> bool
}.

(** ** Fields *)

Definition ascii_lower (s : string) : string := implode (map lower_byte (explode s)).

Section Decode.
Context `{GoJSON}.

(** Whether an object key denotes the field [name]. *)
Definition is_field (name key : string) : bool :=
  if forallb is_ascii_byte (explode key) then String.eqb (ascii_lower key) name
  else unicode_fold_eq key name.

Definition string_into (old : string) (v : json) : option string :=
  match v with JString s => Some s | JNull => Some old | _ => None end.

Definition int64_into (old : Z) (v : json) : option Z :=
  match v with
  | JInt z => if (- 2 ^ 63 <=? z) && (z <? 2 ^ 63) then Some z else None
  | JNull => Some old
  | _ => None
  end.

Definition float64_into (old : float) (v : json) : option float :=
  match v with
  | JInt z => if finb (of_Z z) then Some (of_Z z) else None
  | JFloat f => if finb f then Some f else None
  | JNull => Some old
  | _ => None
  end.

(** A [*bool] *)
Definition bool_ptr_into (v : json) : option (option bool) :=
  match v with JBool b => Some (Some b) | JNull => Some None | _ => None end.

(** An object read field by field into a struct; [set] gives the field's
    update for the keys it knows. *)
Definition object_into {S} (set : string -> json -> S -> option S) (old : S) (v : json) : option S :=
  match v with
  | JObject fields => fold_left (fun s kv => s ← s; set (fst kv) (snd kv) s) fields (Some old)
  | JNull => Some old
  | _ => None
  end.

Definition list_into {A} (elem : json -> option A) (v : json) : option (list A) :=
  match v with
  | JArray l => mapM elem l
  | JNull => Some []
  | _ => None
  end.

(** [json.Unmarshal(raw, &dst)] *)
Definition Unmarshal {S} (read : json -> option S) (raw : string) : option S :=
  v ← json_scan raw; read v.

(** ** The request bodies *)

(** [checkRequest] *)
Record checkRequest := { cr_Route : string; cr_Subject : string; cr_Cost : Z }.
Definition zero_checkRequest : checkRequest := {| cr_Route := ""; cr_Subject := ""; cr_Cost := 0 |}.

Definition set_checkRequest (key : string) (v : json) (s : checkRequest) : option checkRequest :=
  if is_field "route" key then
    x ← string_into (cr_Route s) v; Some {| cr_Route := x; cr_Subject := cr_Subject s; cr_Cost := cr_Cost s |}
  else if is_field "subject" key then
    x ← string_into (cr_Subject s) v; Some {| cr_Route := cr_Route s; cr_Subject := x; cr_Cost := cr_Cost s |}
  else if is_field "cost" key then
    x ← int64_into (cr_Cost s) v; Some {| cr_Route := cr_Route s; cr_Subject := cr_Subject s; cr_Cost := x |}
  else Some s.
Definition read_checkRequest : json -> option checkRequest := object_into set_checkRequest zero_checkRequest.

(** [ruleBody], the same as the rules of [createProjectRequest] *)
Record ruleBody := {
  rb_RoutePattern : string; rb_Algorithm : string; rb_LimitCount : Z; rb_WindowSeconds : Z;
  rb_BucketCapacity : Z; rb_RefillRate : float; rb_Enabled : option bool
}.
Definition zero_ruleBody : ruleBody :=
  {| rb_RoutePattern := ""; rb_Algorithm := ""; rb_LimitCount := 0; rb_WindowSeconds := 0;
     rb_BucketCapacity := 0; rb_RefillRate := of_Z 0; rb_Enabled := None |}.

Definition set_ruleBody (key : string) (v : json) (s : ruleBody) : option ruleBody :=
  let '{| rb_RoutePattern := p; rb_Algorithm := a; rb_LimitCount := l; rb_WindowSeconds := w;
          rb_BucketCapacity := c; rb_RefillRate := f; rb_Enabled := e |} := s in
  if is_field "route_pattern" key then x ← string_into p v; Some (Build_ruleBody x a l w c f e)
  else if is_field "algorithm" key then x ← string_into a v; Some (Build_ruleBody p x l w c f e)
  else if is_field "limit_count" key then x ← int64_into l v; Some (Build_ruleBody p a x w c f e)
  else if is_field "window_seconds" key then x ← int64_into w v; Some (Build_ruleBody p a l x c f e)
  else if is_field "bucket_capacity" key then x ← int64_into c v; Some (Build_ruleBody p a l w x f e)
  else if is_field "refill_rate" key then x ← float64_into f v; Some (Build_ruleBody p a l w c x e)
  else if is_field "enabled" key then x ← bool_ptr_into v; Some (Build_ruleBody p a l w c f x)
  else Some s.
Definition read_ruleBody : json -> option ruleBody := object_into set_ruleBody zero_ruleBody.

(** [createProjectBody] *)
Record createProjectBody := {
  cp_Name : string; cp_KeyHash : string; cp_KeyPrefix : string; cp_Rules : list ruleBody
}.
Definition set_createProjectBody (key : string) (v : json) (s : createProjectBody) : option createProjectBody :=
  let '{| cp_Name := n; cp_KeyHash := h; cp_KeyPrefix := p; cp_Rules := rs |} := s in
  if is_field "name" key then x ← string_into n v; Some (Build_createProjectBody x h p rs)
  else if is_field "key_hash" key then x ← string_into h v; Some (Build_createProjectBody n x p rs)
  else if is_field "key_prefix" key then x ← string_into p v; Some (Build_createProjectBody n h x rs)
  else if is_field "rules" key then x ← list_into read_ruleBody v; Some (Build_createProjectBody n h p x)
  else Some s.
Definition read_createProjectBody : json -> option createProjectBody :=
  object_into set_createProjectBody {| cp_Name := ""; cp_KeyHash := ""; cp_KeyPrefix := ""; cp_Rules := [] |}.

(** [createProjectRequest] of the admin API has the same fields. *)
Definition createProjectRequest : Type := createProjectBody.
Definition read_createProjectRequest : json -> option createProjectRequest := read_createProjectBody.

(** [addKeyRequest] *)
Record addKeyRequest := { akr_KeyHash : string; akr_KeyPrefix : string }.
Definition set_addKeyRequest (key : string) (v : json) (s : addKeyRequest) : option addKeyRequest :=
  if is_field "key_hash" key then x ← string_into (akr_KeyHash s) v; Some (Build_addKeyRequest x (akr_KeyPrefix s))
  else if is_field "key_prefix" key then x ← string_into (akr_KeyPrefix s) v; Some (Build_addKeyRequest (akr_KeyHash s) x)
  else Some s.
Definition read_addKeyRequest : json -> option addKeyRequest :=
  object_into set_addKeyRequest {| akr_KeyHash := ""; akr_KeyPrefix := "" |}.

(** [addKeyBody] *)
Record addKeyBody := { akb_KeyHash : string; akb_KeyPrefix : string; akb_Role : string }.
Definition set_addKeyBody (key : string) (v : json) (s : addKeyBody) : option addKeyBody :=
  let '{| akb_KeyHash := h; akb_KeyPrefix := p; akb_Role := r |} := s in
  if is_field "key_hash" key then x ← string_into h v; Some (Build_addKeyBody x p r)
  else if is_field "key_prefix" key then x ← string_into p v; Some (Build_addKeyBody h x r)
  else if is_field "role" key then x ← string_into r v; Some (Build_addKeyBody h p x)
  else Some s.
Definition read_addKeyBody : json -> option addKeyBody :=
  object_into set_addKeyBody {| akb_KeyHash := ""; akb_KeyPrefix := ""; akb_Role := "" |}.

End Decode.

(** ** Times *)

(** At least [n] digits *)
Definition digits (n : nat) (z : Z) : string := 
  let s := FormatInt z in String.concat "" (repeat "0" (n - String.length s)) +:+ s.

(** Year, month and day of a day number counted from 1970-01-01. *)
Definition civil (days : Z) : Z * Z * Z :=
  let z := days + 719468 in
  let era := z / 146097 in
  let doe := z mod 146097 in
  let yoe := (doe - doe / 1460 + doe / 36524 - doe / 146096) / 365 in
  let doy := doe - (365 * yoe + yoe / 4 - yoe / 100) in
  let mp := (5 * doy + 2) / 153 in
  let d := doy - (153 * mp + 2) / 5 + 1 in
  let m := if mp <? 10 then mp + 3 else mp - 9 in
  (yoe + era * 400 + (if m <=? 2 then 1 else 0), m, d).

(** [t.UTC().Format(time.RFC3339)] for a time in nanoseconds *)
Definition RFC3339 (t : Z) : string :=
  let s := t / 1000000000 in
  let '(y, m, d) := civil (s / 86400) in
  digits 4 y +:+ "-" +:+ digits 2 m +:+ "-" +:+ digits 2 d +:+ "T" +:+
  digits 2 (s mod 86400 / 3600) +:+ ":" +:+ digits 2 (s mod 3600 / 60) +:+ ":" +:+ digits 2 (s mod 60) +:+ "Z".

Example RFC3339_leap_day : RFC3339 1709210096000000000 = "2024-02-29T12:34:56Z".
Proof. vm_compute. reflexivity. Qed.
