(* ===== verification/Strconv.v ===== *)
(** Reading numbers: [strconv.ParseInt] and [strconv.Atoi] in base 10, and
    [time.ParseDuration], as the configuration and the HTTP client call them.

    The accumulators of Go are unsigned 64-bit words; the tests against
    overflow are those of the library, in the order it makes them. *)

From stdpp Require Import base strings list pretty.
From Stdlib Require Import ZArith NArith Lia Ascii.
From S2P Require Import Prelude Float64 GoStrings Domain.

Local Open Scope Z_scope.

(** ** Integers *)

(** [strconv.ErrSyntax] and [strconv.ErrRange] *)
Inductive num_error : Set := ErrSyntax | ErrRange.

Definition digit_value (c : ascii) : option Z :=
  let n := Z.of_nat (nat_of_ascii c) in
  if (48 <=? n) && (n <=? 57) then Some (n - 48) else None.

(** The loop of [strconv.ParseUint]: a digit that would take the value past
    64 bits ends it before the rest of the text is looked at. *)
Fixpoint parse_digits (acc : Z) (l : list ascii) : result num_error Z :=
  match l with
  | [] => Ok acc
  | c :: l' =>
      match digit_value c with
      | None => Err ErrSyntax
      | Some d => if 2 ^ 64 <=? acc * 10 + d then Err ErrRange else parse_digits (acc * 10 + d) l'
      end
  end.

Definition ParseUint (l : list ascii) : result num_error Z :=
  match l with
  | [] => Err ErrSyntax
  | _ => parse_digits 0 l
  end.

(** The magnitude with its sign, within 64 bits *)
Definition signed (neg : bool) (r : result num_error Z) : result num_error Z :=
  match r with
  | Ok un => if neg then if 2 ^ 63 <? un then Err ErrRange else Ok (- un)
             else if 2 ^ 63 <=? un then Err ErrRange else Ok un
  | Err e => Err e
  end.

(** [strconv.ParseInt(s, 10, 64)]; [strconv.Atoi] reads the same numbers. *)
Definition ParseInt (s : string) : result num_error Z :=
  match explode s with
  | [] => Err ErrSyntax
  | c :: l =>
      if Ascii.eqb c "+" then signed false (ParseUint l)
      else if Ascii.eqb c "-" then signed true (ParseUint l)
      else signed false (ParseUint (c :: l))
  end.

(** [NumError.Error] *)
Definition num_error_text (e : num_error) : string :=
  match e with ErrSyntax => "invalid syntax" | ErrRange => "value out of range" end.

Definition Atoi `{GoText} (s : string) : result goerror Z :=
  match ParseInt s with
  | Ok n => Ok n
  | Err e => Err (Text ("strconv.Atoi: parsing " +:+ quote s +:+ ": " +:+ num_error_text e))
  end.

(** ** Durations *)

(** [leadingInt]: the digits at the start, [None] past [2^63]. *)
Fixpoint leading_int (x : Z) (l : list ascii) : option (Z * list ascii) :=
  match l with
  | c :: l' =>
      match digit_value c with
      | None => Some (x, l)
      | Some d =>
          if 2 ^ 63 / 10 <? x then None
          else if 2 ^ 63 <? x * 10 + d then None
          else leading_int (x * 10 + d) l'
      end
  | [] => Some (x, l)
  end.

(** [leadingFraction]: digits that do not fit any more are skipped. *)
Fixpoint leading_fraction (overflow : bool) (x : Z) (scale : float) (l : list ascii)
    : Z * float * list ascii :=
  match l with
  | c :: l' =>
      match digit_value c with
      | None => (x, scale, l)
      | Some d =>
          if overflow then leading_fraction true x scale l'
          else if (2 ^ 63 - 1) / 10 <? x then leading_fraction true x scale l'
          else if 2 ^ 63 <? x * 10 + d then leading_fraction true x scale l'
          else leading_fraction false (x * 10 + d) (fmul scale (of_Z 10)) l'
      end
  | [] => (x, scale, l)
  end.

Definition number_byte (c : ascii) : bool :=
  Ascii.eqb c "." || match digit_value c with Some _ => true | None => false end.

(** The letters up to the next number *)
Fixpoint unit_name (l : list ascii) : list ascii * list ascii :=
  match l with
  | c :: l' => if number_byte c then ([], l) else let '(u, k) := unit_name l' in (c :: u, k)
  | [] => ([], [])
  end.

(** [unitMap]; the micro sign has two encodings. *)
Definition unit_value (u : string) : option Z :=
  if String.eqb u "ns" then Some 1
  else if String.eqb u "us" || String.eqb u (bytes [194; 181; 115]%nat) || String.eqb u (bytes [206; 188; 115]%nat)
  then Some 1000
  else if String.eqb u "ms" then Some 1000000
  else if String.eqb u "s" then Some 1000000000
  else if String.eqb u "m" then Some 60000000000
  else if String.eqb u "h" then Some 3600000000000
  else None.

(** [uint64(x)] of a float that is in range: the integer part *)
Definition float_to_uint (x : float) : Z := sval x / one.

Inductive duration_error : Type :=
  | InvalidDuration
  | MissingUnit
  | UnknownUnit (u : string).

(** One round of the loop: a number, its fraction and its unit; the value in
    nanoseconds and the rest of the text. *)
Definition duration_term (l : list ascii) : result duration_error (Z * list ascii) :=
  match leading_int 0 l with
  | None => Err InvalidDuration
  | Some (v, l1) =>
      let pre := negb (length l1 =? length l)%nat in
      let '(f, scale, l2, post) :=
        match l1 with
        | c :: k => if Ascii.eqb c "."
                    then let '(f, scale, k') := leading_fraction false 0 (of_Z 1) k in
                         (f, scale, k', negb (length k' =? length k)%nat)
                    else (0, of_Z 1, l1, false)
        | [] => (0, of_Z 1, l1, false)
        end in
      if negb pre && negb post then Err InvalidDuration
      else
        match unit_name l2 with
        | ([], _) => Err MissingUnit
        | (u, l3) =>
            match unit_value (implode u) with
            | None => Err (UnknownUnit (implode u))
            | Some unit =>
                if 2 ^ 63 / unit <? v then Err InvalidDuration
                else
                  let v := v * unit in
                  if 0 <? f then
                    let v := v + float_to_uint (fmul (of_Z f) (fdiv (of_Z unit) scale)) in
                    if 2 ^ 63 <? v then Err InvalidDuration else Ok (v, l3)
                  else Ok (v, l3)
            end
        end
  end.

(** The loop; every round takes at least a digit or a point and a unit, so
    the length of the text bounds the rounds. *)
Fixpoint duration_terms (fuel : nat) (d : Z) (l : list ascii) : result duration_error Z :=
  match l, fuel with
  | [], _ => Ok d
  | _, O => Err InvalidDuration
  | c :: _, S fuel' =>
      if negb (number_byte c) then Err InvalidDuration
      else
        match duration_term l with
        | Err e => Err e
        | Ok (v, l') =>
            let d := (d + v) mod 2 ^ 64 in
            if 2 ^ 63 <? d then Err InvalidDuration else duration_terms fuel' d l'
        end
  end.

Definition duration_of (l : list ascii) : result duration_error Z :=
  let '(neg, l) := match l with
                   | c :: l' => if Ascii.eqb c "-" then (true, l')
                                else if Ascii.eqb c "+" then (false, l') else (false, l)
                   | [] => (false, l)
                   end in
  if String.eqb (implode l) "0" then Ok 0
  else
    match l with
    | [] => Err InvalidDuration
    | _ =>
        match duration_terms (length l) 0 l with
        | Err e => Err e
        | Ok d => if neg then Ok (- d)
                  else if 2 ^ 63 - 1 <? d then Err InvalidDuration else Ok d
        end
    end.

(** [quote] of package [time]: control bytes and bytes past ASCII in
    hexadecimal, quotes and backslashes escaped. *)
Definition time_quote_byte (c : ascii) : list ascii :=
  let n := Z.of_nat (nat_of_ascii c) in
  let backslash := ascii_of_nat 92 in
  if (128 <=? n) || (n <? 32) then backslash :: "x"%char :: hex_digit (n / 16) :: [hex_digit (n mod 16)]
  else if (n =? 34) || (n =? 92) then [backslash; c]
  else [c].
Definition time_quote (s : string) : string :=
  let q := ascii_of_nat 34 in implode (q :: flat_map time_quote_byte (explode s) ++ [q]).

(** [time.ParseDuration], in nanoseconds *)
Definition ParseDuration (s : string) : result goerror Z :=
  match duration_of (explode s) with
  | Ok d => Ok d
  | Err InvalidDuration => Err (Text ("time: invalid duration " +:+ time_quote s))
  | Err MissingUnit => Err (Text ("time: missing unit in duration " +:+ time_quote s))
  | Err (UnknownUnit u) =>
      Err (Text ("time: unknown unit " +:+ time_quote u +:+ " in duration " +:+ time_quote s))
  end.

(** ** Examples *)

Example ParseDuration_minutes : ParseDuration "1h15m30.918s" = Ok 4530918000000.
Proof. vm_compute. reflexivity. Qed.

Example ParseDuration_millis : ParseDuration "-1.5ms" = Ok (-1500000).
Proof. vm_compute. reflexivity. Qed.

Example ParseDuration_no_unit : is_ok (ParseDuration "30") = false.
Proof. vm_compute. reflexivity. Qed.

Example ParseInt_least : ParseInt "-9223372036854775808" = Ok (- 2 ^ 63).
Proof. vm_compute. reflexivity. Qed.

Example ParseInt_too_large : ParseInt "9223372036854775808" = Err ErrRange.
Proof. vm_compute. reflexivity. Qed.

(** ** What is written is read back *)

Lemma digit_value_pretty d : (d < 10)%N -> digit_value (pretty_N_char d) = Some (Z.of_N d).
Proof.
  intros Hd. assert (d = 0 \/ d = 1 \/ d = 2 \/ d = 3 \/ d = 4 \/ d = 5 \/ d = 6 \/ d = 7 \/ d = 8 \/ d = 9)%N
    as Hc by lia. by repeat destruct Hc as [->|Hc]; [..|subst].
Qed.

(** Decimal digits in front of a text are read before it. *)
Lemma parse_digits_pretty n s : (Z.of_N n < 2 ^ 64) ->
  parse_digits 0 (explode (pretty_N_go n s)) = parse_digits (Z.of_N n) (explode s).
Proof.
  revert s. induction (N.lt_wf_0 n) as [n _ IH]; intros s Hn.
  destruct (N.eq_dec n 0) as [->|Hz]; [by rewrite pretty_N_go_0|].
  rewrite pretty_N_go_step by lia. pose proof (N.div_mod n 10 ltac:(lia)) as E.
  pose proof (N.mod_lt n 10 ltac:(lia)). rewrite IH;
    [|apply N.div_lt; lia|pose proof (N.Div0.div_le_mono n n 10); pose proof (N.div_lt n 10); lia].
  cbn [parse_digits explode String.list_ascii_of_string].
  rewrite digit_value_pretty by done.
  replace (Z.of_N (n `div` 10) * 10 + Z.of_N (n `mod` 10)) with (Z.of_N n) by lia.
  destruct (Z.leb_spec (2 ^ 64) (Z.of_N n)); [lia|done].
Qed.

Lemma pretty_N_go_head n s : (0 < n)%N ->
  exists d k, (d < 10)%N /\ explode (pretty_N_go n s) = pretty_N_char d :: k.
Proof.
  revert s. induction (N.lt_wf_0 n) as [n _ IH]; intros s Hn. rewrite pretty_N_go_step by done.
  destruct (N.eq_dec (n / 10) 0) as [E|E].
  - rewrite E, pretty_N_go_0. eexists _, _. split; [by apply N.mod_lt|done].
  - apply IH; [apply N.div_lt; lia|by apply N.neq_0_lt_0].
Qed.

Lemma digit_not_sign d : (d < 10)%N ->
  Ascii.eqb (pretty_N_char d) "+" = false /\ Ascii.eqb (pretty_N_char d) "-" = false.
Proof.
  intros Hd. assert (d = 0 \/ d = 1 \/ d = 2 \/ d = 3 \/ d = 4 \/ d = 5 \/ d = 6 \/ d = 7 \/ d = 8 \/ d = 9)%N
    as Hc by lia. by repeat destruct Hc as [->|Hc]; [..|subst].
Qed.

Lemma ParseUint_pretty p : Z.pos p < 2 ^ 64 -> ParseUint (explode (pretty p)) = Ok (Z.pos p).
Proof.
  intros Hp. unfold pretty, pretty_positive, pretty, pretty_N. rewrite decide_False by done.
  pose proof (parse_digits_pretty (Npos p) "" Hp) as E.
  destruct (pretty_N_go_head (Npos p) "" ltac:(lia)) as (d & k & _ & Ek). rewrite Ek in *. exact E.
Qed.

(** [strconv.ParseInt] reads what [strconv.FormatInt] writes. *)
Lemma ParseInt_FormatInt z : - 2 ^ 63 <= z < 2 ^ 63 -> ParseInt (FormatInt z) = Ok z.
Proof.
  intros Hz. unfold FormatInt, ParseInt. destruct z as [|p|p]; [done| |].
  - change (pretty (Z.pos p)) with (pretty p).
    pose proof (ParseUint_pretty p ltac:(lia)) as E.
    destruct (explode (pretty p)) as [|c k] eqn:Ek; [done|].
    assert (Hc : Ascii.eqb c "+" = false /\ Ascii.eqb c "-" = false).
    { revert Ek. unfold pretty, pretty_positive, pretty, pretty_N. rewrite decide_False by done.
      destruct (pretty_N_go_head (Npos p) "" ltac:(lia)) as (d & k' & Hd & ->). intros [= <- _].
      by apply digit_not_sign. }
    destruct Hc as [-> ->]. rewrite E. unfold signed. bool_cases; [lia|done].
  - change (explode (pretty (Z.neg p))) with ("-"%char :: explode (pretty p)). cbv iota.
    change (Ascii.eqb "-" "+") with false. cbv iota. rewrite ParseUint_pretty by lia.
    unfold signed. cbv iota. bool_cases; [lia|done].
Qed.

(** ** The rounds of [ParseDuration] *)

Lemma leading_int_shorter x l v k : leading_int x l = Some (v, k) -> (length k <= length l)%nat.
Proof.
  revert x. induction l as [|c l IH]; intros x; simpl; [by intros [= _ <-]|].
  destruct (digit_value c); [|by intros [= _ <-]]. repeat case_match; [done..|].
  intros E%IH. lia.
Qed.

Lemma leading_fraction_shorter o x sc l f s k : leading_fraction o x sc l = (f, s, k) -> (length k <= length l)%nat.
Proof.
  revert o x sc. induction l as [|c l IH]; intros o x sc; simpl; [by intros [= _ _ <-]|].
  destruct (digit_value c); [|by intros [= _ _ <-]]. repeat case_match; intros E%IH; lia.
Qed.

Lemma unit_name_split l u k : unit_name l = (u, k) -> l = u ++ k.
Proof.
  revert u k. induction l as [|c l IH]; intros u k; simpl; [by intros [= <- <-]|].
  destruct (number_byte c); [by intros [= <- <-]|].
  destruct (unit_name l) as [u' k'] eqn:E. intros [= <- <-]. by rewrite (IH _ _ eq_refl).
Qed.

Lemma duration_term_shorter l v k : duration_term l = Ok (v, k) -> (length k < length l)%nat.
Proof.
  unfold duration_term. destruct (leading_int 0 l) as [[n l1]|] eqn:E1; [|done].
  apply leading_int_shorter in E1.
  set (g := match l1 with [] => _ | _ => _ end).
  assert (Hg : (length (snd (fst g)) <= length l1)%nat).
  { subst g. destruct l1 as [|c l1]; [done|]. destruct (Ascii.eqb c "."); [|done].
    destruct (leading_fraction false 0 (of_Z 1) l1) as [[f s] l2] eqn:E2.
    apply leading_fraction_shorter in E2. simpl in *. lia. }
  destruct g as [[[f s] l2] post]. simpl in Hg. destruct (negb _ && negb post); [done|].
  destruct (unit_name l2) as [u l3] eqn:E3. apply unit_name_split in E3 as ->.
  rewrite length_app in Hg. destruct u as [|c u]; [done|]. simpl in Hg.
  repeat case_match; try done; intros [= _ <-]; lia.
Qed.

Lemma duration_terms_nil n d : duration_terms n d [] = Ok d.
Proof. by destruct n. Qed.

(** The length of the text is enough rounds. *)
Lemma duration_terms_fuel n d l : (length l <= n)%nat -> duration_terms n d l = duration_terms (length l) d l.
Proof.
  revert d l. induction n as [n IH] using lt_wf_ind. intros d l Hn.
  destruct l as [|c l]; [by destruct n|]. destruct n as [|n]; [simpl in Hn; lia|].
  cbn [duration_terms length]. destruct (negb (number_byte c)); [done|].
  destruct (duration_term (c :: l)) as [[v k]|e] eqn:E; [|done].
  apply duration_term_shorter in E. simpl in *. destruct (_ <? _); [done|].
  rewrite IH by lia. symmetry. apply IH; lia.
Qed.

(** Decimal digits in front of a text are the leading integer. *)
Lemma leading_int_pretty n s k : Z.of_N n <= 2 ^ 63 ->
  leading_int 0 (explode (pretty_N_go n s) ++ k) = leading_int (Z.of_N n) (explode s ++ k).
Proof.
  revert s. induction (N.lt_wf_0 n) as [n _ IH]; intros s Hn.
  destruct (N.eq_dec n 0) as [->|Hz]; [by rewrite pretty_N_go_0|].
  rewrite pretty_N_go_step by lia. pose proof (N.div_mod n 10 ltac:(lia)) as E.
  pose proof (N.mod_lt n 10 ltac:(lia)).
  assert (Hd : Z.of_N (n `div` 10) <= 2 ^ 63 / 10).
  { rewrite N2Z.inj_div. apply Z.div_le_mono; lia. }
  change (2 ^ 63 / 10) with 922337203685477580 in Hd.
  rewrite IH; [|apply N.div_lt; lia|lia]. cbn [leading_int explode String.list_ascii_of_string app].
  rewrite digit_value_pretty by done.
  replace (Z.of_N (n `div` 10) * 10 + Z.of_N (n `mod` 10)) with (Z.of_N n) by lia.
  rewrite (proj2 (Z.ltb_ge (2 ^ 63 / 10) _)) by exact Hd.
  destruct (Z.ltb_spec (2 ^ 63) (Z.of_N n)); [lia|done].
Qed.

(** A positive number of seconds, read as a duration *)
Lemma duration_of_seconds p : Z.pos p * 1000000000 < 2 ^ 63 ->
  duration_of (explode (pretty p) ++ ["s"%char]) = Ok (Z.pos p * 1000000000).
Proof.
  intros Hp. pose proof (leading_int_pretty (Npos p) "" ["s"%char] ltac:(lia)) as Hlead.
  destruct (pretty_N_go_head (Npos p) "" ltac:(lia)) as (d & k & Hd & Ek).
  assert (E : explode (pretty p) = pretty_N_char d :: k).
  { rewrite <- Ek. unfold pretty, pretty_positive, pretty, pretty_N. by rewrite decide_False. }
  rewrite Ek in Hlead. rewrite E. clear E Ek. simpl app in *.
  destruct (digit_not_sign d Hd) as [Hplus Hminus]. unfold duration_of. rewrite Hminus, Hplus.
  assert (Hne : String.eqb (implode (pretty_N_char d :: k ++ ["s"%char])) "0" = false).
  { apply String.eqb_neq. intros E%(f_equal explode). rewrite explode_implode in E. by destruct k. }
  rewrite Hne. cbn [length duration_terms].
  assert (Hnum : number_byte (pretty_N_char d) = true).
  { unfold number_byte. rewrite digit_value_pretty by done. apply orb_true_r. }
  rewrite Hnum. cbn [negb]. unfold duration_term. rewrite Hlead.
  change (leading_int (Z.of_N (N.pos p)) ["s"%char]) with (Some (Z.pos p, ["s"%char])). cbv iota beta.
  change (Ascii.eqb "s" ".") with false. cbv iota.
  assert (Hl : (length ["s"%char] =? length (pretty_N_char d :: k ++ ["s"%char]))%nat = false).
  { apply Nat.eqb_neq. simpl. rewrite length_app. simpl. lia. }
  rewrite Hl. cbn [negb andb]. change (unit_name ["s"%char]) with (["s"%char], @nil ascii). cbv iota.
  change (unit_value (implode ["s"%char])) with (Some 1000000000). cbv iota.
  destruct (Z.ltb_spec (2 ^ 63 / 1000000000) (Z.pos p)) as [Hov|_].
  { assert (Z.pos p <= 2 ^ 63 / 1000000000) by (apply Z.div_le_lower_bound; lia). lia. }
  change (0 <? 0) with false. cbv iota zeta. rewrite Z.add_0_l, Z.mod_small by lia.
  destruct (Z.ltb_spec (2 ^ 63) (Z.pos p * 1000000000)); [lia|].
  rewrite duration_terms_nil.
  destruct (Z.ltb_spec (2 ^ 63 - 1) (Z.pos p * 1000000000)); [lia|done].
Qed.

(** [time.ParseDuration] reads whole seconds. *)
Lemma ParseDuration_seconds n : 0 <= n -> n * 1000000000 < 2 ^ 63 ->
  ParseDuration (FormatInt n +:+ "s") = Ok (n * 1000000000).
Proof.
  intros Hn Hl. destruct n as [|p|p]; [done| |lia].
  unfold ParseDuration. rewrite explode_app. change (explode (FormatInt (Z.pos p))) with (explode (pretty p)).
  change (explode "s") with ["s"%char]. by rewrite duration_of_seconds.
Qed.
