(* ===== verification/LuaReply.v ===== *)
(** Reading a script's reply as the client library hands it over
    ([ParseLuaInt64Slice] of [internal/infrastructure/redis/rate_limiter.go]):
    integers, or texts of integers, and nothing else. *)

From stdpp Require Import base strings list.
From Stdlib Require Import ZArith Lia.
From S2P Require Import Prelude Float64 GoStrings Sha256 Domain Uuid Redis LuaScripts RateLimiter Strconv.

Local Open Scope Z_scope.

(** An [interface{}] of a reply; of another value only its type is shown. *)
Inductive reply_value := Int64 (n : Z) | Str (s : string) | Other (type_name : string).

Section Parse.
Context `{!GoText}.

Definition parse_value (v : reply_value) : result goerror Z :=
  match v with
  | Int64 n => Ok n
  | Str s =>
      match ParseInt s with
      | Ok n => Ok n
      | Err e => Err (Text ("strconv.ParseInt: parsing " +:+ quote s +:+ ": " +:+ num_error_text e))
      end
  | Other t => Err (Text ("unexpected type " +:+ t))
  end.

(** [ParseLuaInt64Slice] *)
Fixpoint ParseLuaInt64Slice (values : list reply_value) : result goerror (list Z) :=
  match values with
  | [] => Ok []
  | v :: values =>
      match parse_value v with
      | Err e => Err e
      | Ok n => match ParseLuaInt64Slice values with Ok out => Ok (n :: out) | Err e => Err e end
      end
  end.

(** ** Properties *)

(** A value that stands for an integer *)
Inductive stands_for : reply_value -> Z -> Prop :=
  | stands_int n : stands_for (Int64 n) n
  | stands_text n : - 2 ^ 63 <= n < 2 ^ 63 -> stands_for (Str (FormatInt n)) n.

Lemma parse_stands v n : stands_for v n -> parse_value v = Ok n.
Proof. intros []; cbn; [done|]. by rewrite ParseInt_FormatInt. Qed.

Lemma parse_in_order values out : Forall2 (fun v n => parse_value v = Ok n) values out <-> ParseLuaInt64Slice values = Ok out.
Proof.
  revert out. induction values as [|v values IH]; intros out; cbn.
  - split; [by intros ->%Forall2_nil_inv_l|by intros [= <-]].
  - split.
    + intros (n & out' & Hv & Ho & ->)%Forall2_cons_inv_l. apply IH in Ho. by rewrite Hv, Ho.
    + destruct (parse_value v) as [n|e] eqn:Ev; [|done]. destruct (ParseLuaInt64Slice values) as [out'|e]; [|done].
      intros [= <-]. constructor; [done|]. by apply IH.
Qed.

(** Whatever mixture of integers and texts a reply is, its decision is the one
    of the integers. *)
Theorem reply_read values out rule : Forall2 stands_for values out ->
  match ParseLuaInt64Slice values with Ok reply => parseDecision reply rule | Err e => Err e end = parseDecision out rule.
Proof.
  intros Hv. rewrite (proj1 (parse_in_order values out)); [done|]. eapply Forall2_impl; [exact Hv|]. apply parse_stands.
Qed.

(** It fails exactly with the error of the first value that cannot be read. *)
Theorem reply_unreadable values e : ParseLuaInt64Slice values = Err e <->
  exists pre v rest, values = pre ++ v :: rest /\ Forall (fun v => is_ok (parse_value v) = true) pre /\ parse_value v = Err e.
Proof.
  induction values as [|v values IH]; cbn; [split; [done|by intros ([|] & ? & ? & ? & _)]|].
  destruct (parse_value v) as [n|e'] eqn:Ev.
  - destruct (ParseLuaInt64Slice values) as [out|e'].
    + split; [done|]. intros ([|v' pre] & v1 & rest & E & Hpre & Hv1); injection E as -> ->; [congruence|].
      apply Forall_cons in Hpre as [_ Hpre]. by discriminate (proj2 IH ltac:(by exists pre, v1, rest)).
    + split.
      * intros (pre & v1 & rest & -> & Hpre & Hv1)%IH. exists (v :: pre), v1, rest. split; [done|]. split; [|done].
        constructor; [by rewrite Ev|done].
      * intros ([|v' pre] & v1 & rest & E & Hpre & Hv1); injection E as -> ->; [congruence|].
        apply Forall_cons in Hpre as [_ Hpre]. apply IH. by exists pre, v1, rest.
  - split; [intros [= <-]; by exists [], v, values|].
    intros ([|v' pre] & v1 & rest & E & Hpre & Hv1); injection E as -> ->; [congruence|].
    apply Forall_cons in Hpre as [Hp _]. by rewrite Ev in Hp.
Qed.

End Parse.

Example parse_mixed `{!GoText} : ParseLuaInt64Slice [Int64 1; Str "-1"; Int64 1700000060; Str "0"] = Ok [1; -1; 1700000060; 0].
Proof. vm_compute. reflexivity. Qed.
