(* ===== verification/Unicode.v ===== *)
(** Texts in the two encodings that the program uses: UTF-8 in Go, UTF-16 in the
    browser.  A text is a list of Unicode scalar values; both encodings keep
    equality and prefixes, which is what the comparison of the two rule
    resolvers needs. *)

From stdpp Require Import base strings list.
From Stdlib Require Import ZArith Lia Ascii.
From S2P Require Import Prelude GoStrings.

Local Open Scope Z_scope.

(** ** The encodings *)

Definition text : Type := list Z.

(** Scalar values: code points that are no surrogates *)
Definition scalar (c : Z) : Prop := 0 <= c < 0xD800 \/ 0xE000 <= c < 0x110000.
Definition valid (t : text) : Prop := Forall scalar t.
#[export] Instance scalar_dec c : Decision (scalar c).
Proof. unfold scalar. apply _. Defined.
#[export] Instance valid_dec t : Decision (valid t).
Proof. unfold valid. apply _. Defined.

Definition utf8_bytes (c : Z) : list Z :=
  if c <? 0x80 then [c]
  else if c <? 0x800 then [0xC0 + c / 64; 0x80 + c mod 64]
  else if c <? 0x10000 then [0xE0 + c / 4096; 0x80 + c / 64 mod 64; 0x80 + c mod 64]
  else [0xF0 + c / 262144; 0x80 + c / 4096 mod 64; 0x80 + c / 64 mod 64; 0x80 + c mod 64].

Definition byte_char (b : Z) : ascii := ascii_of_nat (Z.to_nat b).
Definition utf8_char (c : Z) : list ascii := map byte_char (utf8_bytes c).

(** The code units of a character, 16 bits each *)
Definition utf16_char (c : Z) : list Z :=
  if c <? 0x10000 then [c] else [0xD800 + (c - 0x10000) / 1024; 0xDC00 + (c - 0x10000) mod 1024].

Definition utf8 (t : text) : string := implode (flat_map utf8_char t).
Definition utf16 (t : text) : list Z := flat_map utf16_char t.

(** An ASCII string as a text *)
Definition ascii_text (s : string) : text := map (fun c => Z.of_nat (nat_of_ascii c)) (explode s).

Example utf8_euro : utf8 [0x20AC; 0x1F511] = implode (map byte_char [0xE2; 0x82; 0xAC; 0xF0; 0x9F; 0x94; 0x91]).
Proof. vm_compute. reflexivity. Qed.
Example utf16_key : utf16 [0x20AC; 0x1F511] = [0x20AC; 0xD83D; 0xDD11].
Proof. vm_compute. reflexivity. Qed.

(** ** Prefix codes *)

(** A code whose first character can be told from what follows it *)
Class PrefixCode {A} (enc : Z -> list A) : Prop := {
  pc_nonempty c : enc c <> [];
  pc_first c1 c2 s1 s2 : scalar c1 -> scalar c2 -> enc c1 ++ s1 = enc c2 ++ s2 -> c1 = c2 /\ s1 = s2
}.

Section Codes.
Context {A : Type} (enc : Z -> list A) `{!PrefixCode enc}.

Lemma code_prefix (p r : text) s : valid p -> valid r -> flat_map enc p ++ s = flat_map enc r ->
  exists rest, r = p ++ rest /\ s = flat_map enc rest.
Proof.
  intros Hp. revert r. induction Hp as [|c p Hc _ IH]; intros r Hr E; [by exists r|].
  cbn [flat_map app] in E. rewrite <- app_assoc in E. destruct Hr as [|c' r Hc' Hr]; cbn [flat_map] in E.
  - apply app_eq_nil in E as [E _]. by destruct (pc_nonempty c).
  - apply pc_first in E as [-> E]; [|done..]. destruct (IH r Hr E) as (rest & -> & ->). by exists rest.
Qed.

Lemma code_inj (p r : text) : valid p -> valid r -> flat_map enc p = flat_map enc r -> p = r.
Proof.
  intros Hp Hr E. destruct (code_prefix p r [] Hp Hr) as (rest & -> & E'); [by rewrite app_nil_r|].
  destruct rest as [|c rest]; [by rewrite app_nil_r|]. cbn [flat_map] in E'. symmetry in E'.
  apply app_eq_nil in E' as [E' _]. by destruct (pc_nonempty c).
Qed.

Lemma code_longer (p rest : text) : (length (flat_map enc p) <= length (flat_map enc (p ++ rest)))%nat.
Proof. rewrite flat_map_app, length_app. lia. Qed.

Lemma code_length_pos (t : text) : t <> [] -> (0 < length (flat_map enc t))%nat.
Proof.
  destruct t as [|c t]; [done|]. intros _. cbn [flat_map]. rewrite length_app.
  pose proof (pc_nonempty c). destruct (enc c); [done|]. simpl. lia.
Qed.

(** Of two prefixes of a text the longer one has the longer code. *)
Lemma code_prefixes (p1 p2 r1 r2 : text) : p1 ++ r1 = p2 ++ r2 ->
  (length (flat_map enc p1) < length (flat_map enc p2))%nat <-> (length p1 < length p2)%nat.
Proof.
  intros E. apply app_eq_app in E as (q & [[-> ->]|[-> ->]]); rewrite !flat_map_app, !length_app;
    destruct q as [|c q]; try (simpl; lia); pose proof (code_length_pos (c :: q) ltac:(done)); simpl length at 3 4; simpl in *; lia.
Qed.

End Codes.

#[local] Ltac Zify.zify_post_hook ::= Z.to_euclidean_division_equations.

#[export] Instance utf16_code : PrefixCode utf16_char.
Proof.
  split; unfold utf16_char; [intros c; by destruct (_ <? _)|].
  intros c1 c2 s1 s2 H1 H2. unfold scalar in *.
  destruct (Z.ltb_spec c1 0x10000), (Z.ltb_spec c2 0x10000); cbn [app]; intros [=]; split; try done; lia.
Qed.

Lemma utf8_bytes_range c : scalar c -> Forall (fun b => 0 <= b < 256) (utf8_bytes c).
Proof.
  intros Hc. unfold scalar, utf8_bytes in *.
  repeat match goal with |- context [?a <? ?b] => destruct (Z.ltb_spec a b) end; repeat constructor; lia.
Qed.

Lemma utf8_bytes_code c1 c2 s1 s2 : scalar c1 -> scalar c2 -> utf8_bytes c1 ++ s1 = utf8_bytes c2 ++ s2 -> c1 = c2 /\ s1 = s2.
Proof.
  intros H1 H2. unfold scalar, utf8_bytes in *.
  repeat match goal with |- context [?a <? ?b] => destruct (Z.ltb_spec a b) end; cbn [app]; intros [=];
    first [split; [lia|done]|exfalso; lia].
Qed.

Lemma byte_char_back b : 0 <= b < 256 -> Z.of_nat (nat_of_ascii (byte_char b)) = b.
Proof. intros Hb. unfold byte_char. rewrite nat_ascii_embedding by lia. lia. Qed.

Lemma bytes_back l : Forall (fun b => 0 <= b < 256) l -> map (fun c => Z.of_nat (nat_of_ascii c)) (map byte_char l) = l.
Proof. induction 1 as [|b l Hb _ IH]; [done|]. cbn [map]. by rewrite IH, byte_char_back. Qed.

#[export] Instance utf8_code : PrefixCode utf8_char.
Proof.
  split; unfold utf8_char.
  - intros c. unfold utf8_bytes. by repeat destruct (_ <? _).
  - intros c1 c2 s1 s2 H1 H2 E. assert (Hinj : c1 = c2); [|subst c2; by apply app_inv_head in E].
    apply (f_equal (map (fun c => Z.of_nat (nat_of_ascii c)))) in E. rewrite !map_app, !bytes_back in E by by apply utf8_bytes_range.
    by apply utf8_bytes_code in E as [E _].
Qed.

(** ** Texts in UTF-8 *)

Lemma utf8_app t1 t2 : utf8 (t1 ++ t2) = utf8 t1 +:+ utf8 t2.
Proof. unfold utf8. by rewrite flat_map_app, implode_app. Qed.

Lemma explode_utf8 t : explode (utf8 t) = flat_map utf8_char t.
Proof. apply explode_implode. Qed.

Lemma utf8_inj t1 t2 : valid t1 -> valid t2 -> utf8 t1 = utf8 t2 -> t1 = t2.
Proof. intros H1 H2 E. apply (code_inj utf8_char); [done..|]. by rewrite <- !explode_utf8, E. Qed.

Lemma utf8_prefix p r s : valid p -> valid r -> utf8 p +:+ s = utf8 r -> exists rest, r = p ++ rest /\ s = utf8 rest.
Proof.
  intros Hp Hr E. apply (f_equal explode) in E. rewrite explode_app, !explode_utf8 in E.
  apply (code_prefix utf8_char) in E as (rest & -> & E); [|done..]. exists rest. split; [done|].
  unfold utf8. by rewrite <- E, implode_explode.
Qed.

Lemma len_utf8 t : len (utf8 t) = Z.of_nat (length (flat_map utf8_char t)).
Proof. unfold len. by rewrite <- length_explode, explode_utf8. Qed.

(** An ASCII character is the last byte of its own encoding only. *)
Lemma utf8_last t s (c : ascii) : valid t -> (nat_of_ascii c < 128)%nat -> utf8 t = s +:+ String c "" ->
  exists t', t = t' ++ [Z.of_nat (nat_of_ascii c)] /\ s = utf8 t'.
Proof.
  intros Ht Hc E. destruct t as [|d t _] using rev_ind; [by destruct s|].
  apply Forall_app in Ht as [Ht [Hd _]%Forall_cons]. apply (f_equal explode) in E.
  rewrite explode_app, explode_utf8, flat_map_app in E. cbn [flat_map] in E. rewrite app_nil_r in E.
  assert (Hlast : forall l b, utf8_char d = l ++ [b] -> b = c).
  { intros l b El. rewrite El, app_assoc in E. by apply app_inj_tail in E as [_ E]. }
  unfold utf8_char, utf8_bytes in *. destruct (Z.ltb_spec d 0x80).
  - exists t. cbn [map] in E. apply app_inj_tail in E as [E <-]. unfold scalar in Hd. rewrite byte_char_back by lia.
    split; [done|]. unfold utf8. fold (utf8_char). rewrite <- (implode_explode s), <- E. done.
  - exfalso. assert (Hb : exists b, 128 <= b < 256 /\ byte_char b = c).
    { unfold scalar in Hd. destruct (d <? 0x800); [|destruct (Z.ltb_spec d 0x10000)];
        eexists; (split; [|eapply (Hlast _ _); first [exact (eq_refl : map byte_char [_; _] = [_] ++ [_])
          |exact (eq_refl : map byte_char [_; _; _] = [_; _] ++ [_])|exact (eq_refl : map byte_char [_; _; _; _] = [_; _; _] ++ [_])]]); lia. }
    destruct Hb as (b & Hb & <-). pose proof (byte_char_back b ltac:(lia)). lia.
Qed.
