(* ===== verification/ConsoleRules.v ===== *)
(** The console's route tester ([web/src/api.js], [specificity] and
    [resolveRoute]): a second rule resolver, in the browser.  It finds the rule
    that the server's resolver finds, unless a rule has a prefix of one
    character beyond ASCII. *)

From stdpp Require Import base strings list.
From Stdlib Require Import ZArith Lia Ascii Sorted.
From S2P Require Import Prelude Float64 GoStrings Domain RuleResolver Unicode.

Local Open Scope Z_scope.

(** ** The functions *)

(** A JavaScript string: its code units.  [42] is the star. *)
Definition jstring : Type := list Z.
Definition js_length (s : jstring) : Z := Z.of_nat (length s).
Definition endsWith (s t : jstring) : bool := bool_decide (t `suffix_of` s).
Definition startsWith (s t : jstring) : bool := bool_decide (t `prefix_of` s).
Definition slice_0_last (s : jstring) : jstring := take (length s - 1) s.
Definition same (s t : jstring) : bool := bool_decide (s = t).

(** [specificity] *)
Definition specificity (pattern route : jstring) : Z :=
  if same pattern [42] then 1
  else if endsWith pattern [42] then
    let prefix := slice_0_last pattern in
    if startsWith route prefix then js_length prefix else 0
  else if same route pattern then 1000 + js_length pattern else 0.

(** A rule in the browser: its pattern, its switch, and what else the API sent *)
Record console_rule := { route_pattern : jstring; enabled : bool; sent : Rule }.
Record scored := { sc_rule : console_rule; sc_score : Z }.

(** [sort((a, b) => b.score - a.score)], which keeps the order of equals *)
Fixpoint insert_desc (x : scored) (l : list scored) : list scored :=
  match l with
  | [] => [x]
  | y :: l' => if sc_score x <? sc_score y then y :: insert_desc x l' else x :: l
  end.
Definition sort_desc (l : list scored) : list scored := foldr insert_desc [] l.

Definition scored_rules (rules : list console_rule) (route : jstring) : list scored :=
  List.filter (fun x => 0 <? sc_score x)
    (map (fun r => {| sc_rule := r; sc_score := specificity (route_pattern r) route |}) (List.filter enabled rules)).

(** [resolveRoute]: [best] and [next] *)
Definition resolveRoute (rules : list console_rule) (route : jstring) : option scored * option scored :=
  let l := sort_desc (scored_rules rules route) in (l !! 0%nat, l !! 1%nat).

(** The list under "Rules - evaluation order" ([ProjectDetail]): all rules by a
    score of the pattern alone *)
Definition static_score (p : jstring) : Z :=
  if same p [42] then 1 else if endsWith p [42] then js_length p - 1 else 1000 + js_length p.
Definition evaluation_order (rules : list console_rule) : list scored :=
  sort_desc (map (fun r => {| sc_rule := r; sc_score := static_score (route_pattern r) |}) rules).

(** A rule of the list that is on and matches the route *)
Definition applies (route : jstring) (x : scored) : bool :=
  enabled (sc_rule x) && (0 <? specificity (route_pattern (sc_rule x)) route).

(** The rule as the API sends it, for a pattern that is the text [t] *)
Definition received (p : text * Rule) : console_rule :=
  {| route_pattern := utf16 (fst p); enabled := Enabled (snd p); sent := snd p |}.
Definition chosen (o : option scored) : option Rule := (fun x => sent (sc_rule x)) <$> o.

(** A prefix of one character that UTF-8 writes with two or three bytes and
    UTF-16 with one unit *)
Definition wide_prefix (t : text) : Prop := exists c, t = [c; 42] /\ 0x80 <= c < 0x10000.

(** ** Sorting *)

Lemma insert_first x l : Forall (fun y => sc_score y <= sc_score x) l -> insert_desc x l = x :: l.
Proof. destruct 1 as [|y l Hy _]; [done|]. cbn [insert_desc]. by rewrite (proj2 (Z.ltb_ge _ _)). Qed.

Lemma insert_bound k x l : sc_score x <= k -> Forall (fun y => sc_score y <= k) l -> Forall (fun y => sc_score y <= k) (insert_desc x l).
Proof.
  intros Hx. induction 1 as [|y l Hy Hl IH]; cbn [insert_desc]; [by constructor|].
  destruct (_ <? _); repeat constructor; done.
Qed.

Lemma sort_bound k l : Forall (fun y => sc_score y <= k) l -> Forall (fun y => sc_score y <= k) (sort_desc l).
Proof. induction 1 as [|y l Hy _ IH]; [constructor|]. by apply insert_bound. Qed.

(** The first of the greatest comes first; the others are sorted as they were. *)
Lemma sort_split l1 x l2 : Forall (fun y => sc_score y < sc_score x) l1 -> Forall (fun y => sc_score y <= sc_score x) l2 ->
  sort_desc (l1 ++ x :: l2) = x :: sort_desc (l1 ++ l2).
Proof.
  intros H1 H2. induction H1 as [|y l1 Hy _ IH].
  - cbn [app sort_desc foldr]. by apply insert_first, sort_bound.
  - cbn [app sort_desc foldr]. unfold sort_desc in IH. rewrite IH. cbn [insert_desc].
    by rewrite (proj2 (Z.ltb_lt _ _)).
Qed.

Lemma sort_sorted l : StronglySorted (fun x y => sc_score y <= sc_score x) (sort_desc l).
Proof.
  induction l as [|x l IH]; [constructor|]. cbn [sort_desc foldr]. fold (sort_desc l). revert IH. generalize (sort_desc l). intros k.
  induction 1 as [|y k Hk IH Hy]; cbn [insert_desc]; [repeat constructor|]. destruct (Z.ltb_spec (sc_score x) (sc_score y)).
  - constructor; [exact IH|]. by apply insert_bound; [lia|].
  - constructor; [by constructor|]. constructor; [done|]. apply (Forall_impl _ _ _ Hy). lia.
Qed.

(** Sorting and then leaving some out is leaving them out and sorting. *)
Lemma filter_sort (f : scored -> bool) l : List.filter f (sort_desc l) = sort_desc (List.filter f l).
Proof.
  assert (Hi : forall x k, StronglySorted (fun x y => sc_score y <= sc_score x) k ->
    List.filter f (insert_desc x k) = if f x then insert_desc x (List.filter f k) else List.filter f k).
  { intros x. induction 1 as [|y k Hk IH Hy]; cbn [insert_desc List.filter]; [by destruct (f x)|].
    destruct (Z.ltb_spec (sc_score x) (sc_score y)); cbn [List.filter].
    - rewrite IH. destruct (f x), (f y); cbn [insert_desc]; try done. by rewrite (proj2 (Z.ltb_lt _ _)).
    - destruct (f x); [|done]. symmetry. apply insert_first. destruct (f y); [constructor; [done|]|];
        apply Forall_forall; intros z [Hz _]%list_elem_of_In%filter_In; apply list_elem_of_In in Hz;
        pose proof (proj1 (Forall_forall _ _) Hy z Hz) as Hz'; cbn in Hz'; lia. }
  induction l as [|x l IH]; [done|]. cbn [sort_desc foldr List.filter]. fold (sort_desc l). rewrite Hi by apply sort_sorted.
  rewrite IH. by destruct (f x).
Qed.

Lemma find_filter {A} (f : A -> bool) l : List.find f l = List.filter f l !! 0%nat.
Proof. induction l as [|x l IH]; [done|]. cbn [List.find List.filter]. by destruct (f x). Qed.

(** A matching pattern has its own score. *)
Lemma specificity_static p route : 0 < specificity p route -> specificity p route = static_score p.
Proof.
  unfold specificity, static_score, same, endsWith. case_bool_decide as Hd; [done|]. case_bool_decide as Hs.
  - destruct (startsWith _ _); [|done]. intros _. unfold js_length, slice_0_last. rewrite length_take.
    destruct Hs as [q ->]. rewrite length_app. simpl. lia.
  - by case_bool_decide.
Qed.

Lemma scored_static rules route : scored_rules rules route =
  List.filter (applies route) (map (fun r => {| sc_rule := r; sc_score := static_score (route_pattern r) |}) rules).
Proof.
  unfold scored_rules, applies. induction rules as [|r rules IH]; [done|]. cbn [map List.filter sc_rule].
  destruct (enabled r); cbn [map List.filter sc_score andb]; [|exact IH].
  destruct (Z.ltb_spec 0 (specificity (route_pattern r) route)); [|exact IH]. by rewrite specificity_static, IH.
Qed.

(** The tester's rule is the first of the list that is on and matches. *)
Lemma evaluation_order_first rules route :
  fst (resolveRoute rules route) = List.find (applies route) (evaluation_order rules).
Proof. unfold resolveRoute, evaluation_order. by rewrite find_filter, filter_sort, scored_static. Qed.

(** ** Matching on texts *)

(** How a pattern applies to a route, as [Domain.pattern_matches] on texts *)
Inductive text_matches : text -> text -> MatchKind -> Prop :=
  | tm_default route : text_matches [42] route MatchDefault
  | tm_prefix p rest : p <> [] -> text_matches (p ++ [42]) (p ++ rest) MatchPrefix
  | tm_exact p : ~ [42] `suffix_of` p -> text_matches p p MatchExact.

Lemma utf8_star : utf8 [42] = "*".
Proof. reflexivity. Qed.

Lemma star_text t : valid t -> HasSuffix (utf8 t) "*" = true -> exists p, t = p ++ [42].
Proof.
  intros Ht [q E]%HasSuffix_spec. apply (utf8_last t q "*") in E as (p & -> & _); [by exists p|done|].
  vm_compute. lia.
Qed.

Lemma text_pattern t route k : valid t -> valid route ->
  pattern_matches (utf8 t) (utf8 route) k -> text_matches t route k.
Proof.
  intros Ht Hr Hm. inversion Hm as [r E Er|p rest Hp E Er|p Hp E Er]; subst.
  - replace t with [42]; [constructor|]. apply utf8_inj; [|done|rewrite utf8_star; congruence]. repeat constructor. unfold scalar. lia.
  - symmetry in E. apply (utf8_last t p "*") in E as (q & -> & ->); [|done|vm_compute; lia].
    apply Forall_app in Ht as [Hq _]. apply utf8_prefix in Er as (rest' & -> & ->); [|done..].
    apply tm_prefix. by intros ->.
  - apply utf8_inj in Er; [|done..]. subst route. apply tm_exact. intros [q ->]. rewrite utf8_app, utf8_star in Hp.
    by rewrite (proj2 (HasSuffix_spec _ _)) in Hp by eauto.
Qed.

Lemma pattern_text t route k : valid t -> text_matches t route k -> pattern_matches (utf8 t) (utf8 route) k.
Proof.
  intros Ht Hm. revert Ht. destruct Hm as [r|p rest Hp|p Hp]; intros Ht.
  - constructor.
  - rewrite !utf8_app, utf8_star. constructor. intros E. apply (f_equal len) in E. rewrite len_utf8 in E.
    pose proof (code_length_pos utf8_char p Hp). change (len "") with 0 in E. lia.
  - constructor. destruct (HasSuffix (utf8 p) "*") eqn:E; [|done]. destruct (star_text p Ht E) as [q ->].
    destruct Hp. by exists q.
Qed.

(** ** Scores *)

(** The score that a kind of match gives, by the length of a text in an encoding *)
Definition kind_score (size : text -> Z) (t : text) (k : MatchKind) : Z :=
  match k with
  | MatchNone => 0
  | MatchDefault => 1
  | MatchPrefix => size (take (length t - 1) t)
  | MatchExact => 1000 + size t
  end.
Definition units (t : text) : Z := Z.of_nat (length (utf16 t)).
Definition bytes_of (t : text) : Z := len (utf8 t).

Lemma utf16_app t1 t2 : utf16 (t1 ++ t2) = utf16 t1 ++ utf16 t2.
Proof. apply flat_map_app. Qed.

Lemma take_last {A} (p : list A) x : take (length (p ++ [x]) - 1) (p ++ [x]) = p.
Proof. rewrite length_app. simpl. replace (length p + 1 - 1)%nat with (length p) by lia. by rewrite take_app_length. Qed.

Lemma not_star p : p <> [] -> p ++ [42] <> [42].
Proof. intros Hp E. apply (f_equal length) in E. rewrite length_app in E. destruct p; [done|]. simpl in E. lia. Qed.

Lemma utf16_nonempty p : p <> [] -> utf16 p <> [].
Proof. intros Hp E. pose proof (code_length_pos utf16_char p Hp) as H. unfold utf16 in E. rewrite E in H. simpl in H. lia. Qed.

(** A text ends with the star when its code units do. *)
Lemma utf16_star t : valid t -> [42] `suffix_of` utf16 t -> [42] `suffix_of` t.
Proof.
  intros Ht [s E]. destruct t as [|c t _] using rev_ind; [by destruct s|].
  apply Forall_app in Ht as [_ [Hc _]%Forall_cons]. rewrite utf16_app in E. cbn in E. rewrite app_nil_r in E.
  unfold utf16_char, scalar in *. destruct (Z.ltb_spec c 0x10000).
  - apply app_inj_tail in E as [_ ->]. by exists t.
  - change [0xD800 + (c - 0x10000) / 1024; 0xDC00 + (c - 0x10000) mod 1024]
      with ([0xD800 + (c - 0x10000) / 1024] ++ [0xDC00 + (c - 0x10000) mod 1024]) in E. rewrite app_assoc in E.
    apply app_inj_tail in E as [_ E]. pose proof (Z.mod_pos_bound (c - 0x10000) 1024). lia.
Qed.

Lemma specificity_match t route k : valid t -> text_matches t route k ->
  specificity (utf16 t) (utf16 route) = kind_score units t k.
Proof.
  intros Ht Hm. revert Ht. unfold specificity, same, endsWith, startsWith, slice_0_last, kind_score, units, js_length.
  destruct Hm as [r|p rest Hp|p Hp]; intros Ht.
  - done.
  - rewrite !utf16_app. change (utf16 [42]) with [42].
    rewrite bool_decide_eq_false_2 by by apply not_star, utf16_nonempty.
    rewrite bool_decide_eq_true_2 by by eexists. rewrite !take_last. by rewrite bool_decide_eq_true_2 by by eexists.
  - rewrite bool_decide_eq_false_2.
    + rewrite bool_decide_eq_false_2; [by rewrite bool_decide_eq_true_2|]. intros Hs. by apply Hp, utf16_star.
    + intros E. apply Hp, utf16_star; [done|]. rewrite E. by exists [].
Qed.

(** A positive score comes from a match. *)
Lemma specificity_some t route : valid t -> valid route -> 0 < specificity (utf16 t) (utf16 route) ->
  exists k, k <> MatchNone /\ text_matches t route k.
Proof.
  intros Ht Hr. unfold specificity, same, endsWith, startsWith, slice_0_last.
  case_bool_decide as Hd; [intros _|case_bool_decide as Hs].
  - exists MatchDefault. split; [done|]. replace t with [42]; [constructor|].
    symmetry. apply (code_inj utf16_char); [done|repeat constructor; unfold scalar; lia|exact Hd].
  - apply utf16_star in Hs as [p ->]; [|done]. rewrite utf16_app in *. change (utf16 [42]) with [42] in *. rewrite take_last.
    case_bool_decide as Hp; [intros _|lia]. exists MatchPrefix. split; [done|]. apply Forall_app in Ht as [Hv _].
    destruct Hp as [s E]. symmetry in E. destruct (code_prefix utf16_char p route s Hv Hr E) as (rest & -> & _).
    apply tm_prefix. by intros ->.
  - case_bool_decide as He; [intros _|lia]. exists MatchExact. split; [done|].
    apply (code_inj utf16_char) in He as ->; [|done..]. apply tm_exact. intros [p ->]. apply Hs. rewrite utf16_app. by eexists.
Qed.

Lemma Specificity_match r t route k : RoutePattern r = utf8 t -> valid t -> text_matches t route k ->
  Specificity r (utf8 route) = kind_score bytes_of t k.
Proof.
  intros Hp Ht Hm. assert (Hk : MatchKindFor r (utf8 route) = k).
  { apply MatchKindFor_spec; [by destruct Hm|]. rewrite Hp. by apply pattern_text. }
  unfold Specificity. rewrite Hk, Hp. destruct Hm as [r0|p rest Hne|p Hne]; [done| |done].
  cbn [kind_score]. by rewrite take_last, utf8_app, utf8_star, TrimSuffix_app.
Qed.

(** What both encodings know of the length of a text *)
Record sizes (size : text -> Z) : Prop := {
  sz_prefixes p1 p2 r1 r2 : p1 ++ r1 = p2 ++ r2 -> size p1 < size p2 <-> (length p1 < length p2)%nat;
  sz_longer p r : size p <= size (p ++ r);
  sz_pos p : p <> [] -> 1 <= size p
}.

Lemma code_sizes {A} (enc : Z -> list A) `{!PrefixCode enc} : sizes (fun t => Z.of_nat (length (flat_map enc t))).
Proof.
  split.
  - intros p1 p2 r1 r2 E. pose proof (code_prefixes enc p1 p2 r1 r2 E). lia.
  - intros p r. pose proof (code_longer enc p r). lia.
  - intros p Hp. pose proof (code_length_pos enc p Hp). lia.
Qed.

Lemma bytes_sizes : sizes bytes_of.
Proof.
  destruct (code_sizes utf8_char) as [H1 H2 H3]. unfold bytes_of.
  split; intros *; rewrite ?len_utf8; [apply H1|apply H2|apply H3].
Qed.

Lemma units_sizes : sizes units.
Proof. exact (code_sizes utf16_char). Qed.

(** One character has one unit and one byte, or more of both. *)
Lemma single_size p : valid p -> p <> [] -> ~ wide_prefix (p ++ [42]) -> 1 < units p <-> 1 < bytes_of p.
Proof.
  intros Hv Hp Hw. unfold units, bytes_of. rewrite len_utf8.
  destruct p as [|c [|c' p]]; [done| |].
  - apply Forall_cons in Hv as [Hc _]. unfold scalar in Hc. unfold utf16. cbn [flat_map]. rewrite !app_nil_r.
    assert (Hn : c < 0x80 \/ 0x10000 <= c).
    { destruct (Z.lt_ge_cases c 0x80); [by left|]. destruct (Z.lt_ge_cases c 0x10000); [|by right].
      destruct Hw. exists c. split; [done|lia]. }
    unfold utf16_char, utf8_char, utf8_bytes. destruct Hn.
    + rewrite !(proj2 (Z.ltb_lt _ _)) by lia. done.
    + rewrite !(proj2 (Z.ltb_ge _ _)) by lia. done.
  - assert (Hlen : forall A (enc : Z -> list A) `{!PrefixCode enc}, (1 < length (flat_map enc (c :: c' :: p)))%nat).
    { intros A enc He. cbn [flat_map]. rewrite !length_app. pose proof (pc_nonempty (enc := enc) c).
      pose proof (pc_nonempty (enc := enc) c'). destruct (enc c), (enc c'); try done. simpl. lia. }
    pose proof (Hlen _ utf8_char _). pose proof (Hlen _ utf16_char _). unfold utf16. lia.
Qed.

(** The two scores order any two matching patterns alike. *)
Lemma scores_agree t1 t2 route k1 k2 : valid t1 -> valid t2 -> ~ wide_prefix t1 -> ~ wide_prefix t2 ->
  text_matches t1 route k1 -> text_matches t2 route k2 ->
  kind_score units t1 k1 < kind_score units t2 k2 <-> kind_score bytes_of t1 k1 < kind_score bytes_of t2 k2.
Proof.
  intros V1 V2 W1 W2 M1 M2. destruct units_sizes as [UP UL U1], bytes_sizes as [BP BL B1].
  assert (Hone : forall p, valid (p ++ [42]) -> ~ wide_prefix (p ++ [42]) -> p <> [] -> 1 < units p <-> 1 < bytes_of p).
  { intros p [Hp _]%Forall_app Hw Hne. by apply single_size. }
  assert (Hnat : forall p, 0 <= units p /\ 0 <= bytes_of p) by (intros p; unfold units, bytes_of, len; lia).
  destruct M1 as [r1|p1 rest1 H1|p1 H1]; inversion M2 as [r2 E2|p2 rest2 H2 E2 Er|p2 H2 E2]; subst;
    cbn [kind_score]; rewrite ?take_last; first [done|by apply Hone|idtac].
  all: repeat match goal with |- context [units ?p] =>
         lazymatch goal with _ : 0 <= units p |- _ => fail | _ => destruct (Hnat p) end end.
  - lia.
  - specialize (U1 p1 H1). specialize (B1 p1 H1). lia.
  - rewrite (UP p1 p2 rest1 rest2), (BP p1 p2 rest1 rest2) by done. done.
  - pose proof (UL p1 rest1). pose proof (BL p1 rest1). lia.
  - lia.
  - pose proof (UL p2 rest2). pose proof (BL p2 rest2). lia.
  - lia.
Qed.

(** ** The two resolvers *)

(** A rule whose pattern is this text, with no wide prefix *)
Record told (p : text * Rule) : Prop := {
  td_pattern : RoutePattern (snd p) = utf8 (fst p);
  td_valid : valid (fst p);
  td_narrow : ~ wide_prefix (fst p)
}.

Section Resolvers.
Context (route : text) (Hroute : valid route).

Definition score_of (p : text * Rule) : scored :=
  {| sc_rule := received p; sc_score := specificity (utf16 (fst p)) (utf16 route) |}.
Definition scored_of (l : list (text * Rule)) : list scored := scored_rules (map received l) (utf16 route).

Lemma scored_of_app l1 l2 : scored_of (l1 ++ l2) = scored_of l1 ++ scored_of l2.
Proof. unfold scored_of, scored_rules. by rewrite map_app, List.filter_app, map_app, List.filter_app. Qed.

Lemma applicable_score p : told p ->
  applicable (utf8 route) (snd p) <-> Enabled (snd p) = true /\ 0 < sc_score (score_of p).
Proof.
  intros [Hp Hv Hw]. unfold applicable, score_of. cbn [sc_score].
  split; intros [He Hm]; (split; [done|]).
  - pose proof (proj1 (Specificity_pos _ _) Hm) as Hpos.
    assert (Hk : MatchKindFor (snd p) (utf8 route) <> MatchNone) by (intros E%MatchKindFor_none; congruence).
    pose proof (proj1 (MatchKindFor_spec _ _ _ Hk) eq_refl) as Hpm. rewrite Hp in Hpm.
    apply text_pattern in Hpm; [|done..]. rewrite (specificity_match _ _ _ Hv Hpm).
    destruct Hpm as [r|q rest Hq|q Hq]; cbn [kind_score]; [lia| |unfold units; lia].
    rewrite take_last. pose proof (sz_pos _ units_sizes q Hq). lia.
  - destruct (specificity_some _ _ Hv Hroute Hm) as (k & Hk & Ht). apply pattern_text in Ht; [|done]. rewrite <- Hp in Ht.
    apply MatchKindFor_spec in Ht; [|done]. destruct (Matches _ _) eqn:E; [done|]. apply MatchKindFor_none in E. congruence.
Qed.

Lemma score_order_agrees p q : told p -> told q -> applicable (utf8 route) (snd p) -> applicable (utf8 route) (snd q) ->
  sc_score (score_of p) < sc_score (score_of q) <->
  Specificity (snd p) (utf8 route) < Specificity (snd q) (utf8 route).
Proof.
  intros Tp Tq Ap Aq. apply applicable_score in Ap as [_ Sp], Aq as [_ Sq]; [|done..].
  destruct Tp as [Pp Vp Wp], Tq as [Pq Vq Wq]. unfold score_of in *. cbn [sc_score] in *.
  apply specificity_some in Sp as (kp & _ & Mp), Sq as (kq & _ & Mq); [|done..].
  rewrite (specificity_match _ _ _ Vp Mp), (specificity_match _ _ _ Vq Mq).
  rewrite (Specificity_match _ _ _ _ Pp Vp Mp), (Specificity_match _ _ _ _ Pq Vq Mq). by eapply scores_agree.
Qed.

Lemma scored_in x l : Forall told l -> x ∈ scored_of l ->
  exists p, p ∈ l /\ x = score_of p /\ applicable (utf8 route) (snd p).
Proof.
  intros Hl Hx. unfold scored_of, scored_rules in Hx. apply list_elem_of_In, filter_In in Hx as [Hx Hpos%Z.ltb_lt].
  apply in_map_iff in Hx as (r & <- & [Hr He]%filter_In). apply in_map_iff in Hr as (p & <- & Hp).
  apply list_elem_of_In in Hp. exists p. split; [done|]. split; [done|]. apply applicable_score; [|done].
  exact (proj1 (Forall_forall _ _) Hl p Hp).
Qed.

Lemma scored_one p : told p -> applicable (utf8 route) (snd p) -> scored_of [p] = [score_of p].
Proof.
  intros Hp [He Hs]%applicable_score; [|done]. unfold scored_of, scored_rules. cbn [map List.filter enabled received].
  rewrite He. cbn [map List.filter]. change (sc_score _) with (sc_score (score_of p)). by rewrite (proj2 (Z.ltb_lt _ _)).
Qed.

Lemma best_agrees l : Forall told l ->
  match Resolve (map snd l) (utf8 route) with
  | None => scored_of l = []
  | Some b => exists l1 p l2, l = l1 ++ p :: l2 /\ snd p = b /\
      sort_desc (scored_of l) = score_of p :: sort_desc (scored_of (l1 ++ l2))
  end.
Proof.
  intros Hl. destruct (Resolve (map snd l) (utf8 route)) as [b|] eqn:Er.
  - apply Resolve_Some_best in Er as (k1 & k2 & E & Ha & H1 & H2).
    apply map_eq_app in E as (l1 & l2' & -> & <- & E2). destruct l2' as [|p l2]; [done|]. injection E2 as Ep <-.
    exists l1, p, l2. split; [done|]. split; [done|]. subst b.
    apply Forall_app in Hl as [Hl1 [Hp Hl2]%Forall_cons].
    rewrite (scored_of_app l1), (scored_of_app l1 l2). change (p :: l2) with ([p] ++ l2). rewrite scored_of_app, scored_one by done.
    apply sort_split; apply Forall_forall; intros x Hx; apply scored_in in Hx as (q & Hq & -> & Haq); [|done| |done].
    + pose proof (proj1 (Forall_forall _ _) Hl1 q Hq) as Tq. apply score_order_agrees; [done..|].
      apply H1; [|done]. by apply (list_elem_of_fmap_2 snd).
    + pose proof (proj1 (Forall_forall _ _) Hl2 q Hq) as Tq. apply Z.nlt_ge. rewrite score_order_agrees by done.
      apply Z.nlt_ge, H2; [|done]. by apply (list_elem_of_fmap_2 snd).
  - destruct (scored_of l) as [|x k] eqn:E; [done|]. exfalso.
    destruct (scored_in x l Hl) as (p & Hp & _ & Ha); [rewrite E; by left|].
    apply (Resolve_None_inapplicable _ _ Er (snd p)); [by apply (list_elem_of_fmap_2 snd)|done].
Qed.

End Resolvers.

(** ** Properties *)

(** C20: the console's tester agrees with the server.  For rules and a route in
    any Unicode text, none of the rules with a one-character prefix beyond
    ASCII, the rule that the tester names is the one the server's resolver
    picks, it is the first in the page's list of evaluation order that is on and
    matches, and the rule it says was beaten is the server's pick without it;
    where no rule matches, both say so. *)
Theorem resolveRoute_agrees rules route : Forall told rules -> valid route ->
  let '(best, next) := resolveRoute (map received rules) (utf16 route) in
  chosen best = Resolve (map snd rules) (utf8 route) /\
  best = List.find (applies (utf16 route)) (evaluation_order (map received rules)) /\
  match best with
  | None => next = None
  | Some b => exists l1 p l2, rules = l1 ++ p :: l2 /\ sc_rule b = received p /\
      chosen next = Resolve (map snd (l1 ++ l2)) (utf8 route)
  end.
Proof.
  intros Hrules Hroute. rewrite <- evaluation_order_first. unfold resolveRoute.
  pose proof (best_agrees route Hroute rules Hrules) as Hb. unfold scored_of in *. cbn [fst].
  destruct (Resolve (map snd rules) (utf8 route)) as [b|]; [|by rewrite Hb].
  destruct Hb as (l1 & p & l2 & -> & <- & ->). cbn. do 2 (split; [done|]). exists l1, p, l2. do 2 (split; [done|]).
  assert (Hrest : Forall told (l1 ++ l2)).
  { apply Forall_app in Hrules as [H1 [_ H2]%Forall_cons]. by apply Forall_app. }
  pose proof (best_agrees route Hroute (l1 ++ l2) Hrest) as Hn. unfold scored_of in Hn.
  destruct (Resolve (map snd (l1 ++ l2)) (utf8 route)) as [b|]; [|by rewrite Hn].
  by destruct Hn as (k1 & q & k2 & _ & <- & ->).
Qed.

(** A rule for a pattern in the tests below *)
Definition sample_rule (t : text) : text * Rule :=
  (t, {| Rule_ID := 1%N; Rule_TenantID := 7%N; RoutePattern := utf8 t; Rule_Algorithm := AlgorithmSlidingWindow;
         Enabled := true; LimitCount := 5; WindowSeconds := 60; BucketCapacity := 0; RefillRate := of_Z 0 |}).

Lemma sample_told t : valid t -> ~ wide_prefix t -> told (sample_rule t).
Proof. by split. Qed.

Ltac known_valid := apply (bool_decide_unpack _); vm_compute; exact I.
Ltac known_narrow := intros (c & E & Hc); vm_compute in E; first [discriminate E|injection E; lia].

Lemma resolveRoute_agrees_witness :
  let rules := map sample_rule [ascii_text "*"; ascii_text "/login"; ascii_text "/login*"; ascii_text "/caf" ++ [0xE9; 42]] in
  let '(best, next) := resolveRoute (map received rules) (utf16 (ascii_text "/login")) in
  chosen best = Resolve (map snd rules) (utf8 (ascii_text "/login")) /\
  best = List.find (applies (utf16 (ascii_text "/login"))) (evaluation_order (map received rules)) /\
  match best with
  | None => next = None
  | Some b => exists l1 p l2, rules = l1 ++ p :: l2 /\ sc_rule b = received p /\
      chosen next = Resolve (map snd (l1 ++ l2)) (utf8 (ascii_text "/login"))
  end.
Proof.
  intros rules. apply (resolveRoute_agrees rules (ascii_text "/login")); unfold rules.
  - cbn [map]. repeat apply Forall_cons_2; try apply Forall_nil_2; (apply sample_told; [known_valid|known_narrow]).
  - known_valid.
Defined.

(** With a prefix of one character beyond ASCII they part: the tester gives
    ["é*"] the score of ["*"] and names the first of the two, the server counts
    two bytes and picks ["é*"]. *)
Theorem resolvers_differ : exists t route, wide_prefix t /\
  let rules := [sample_rule (ascii_text "*"); sample_rule t] in
  chosen (fst (resolveRoute (map received rules) (utf16 route))) = Some (snd (sample_rule (ascii_text "*"))) /\
  Resolve (map snd rules) (utf8 route) = Some (snd (sample_rule t)).
Proof. exists [0xE9; 42], [0xE9; 116]. split; [exists 0xE9; split; [done|lia]|]. vm_compute. by split. Qed.
