(* ===== verification/Os.v ===== *)
(** What the commands use of the operating system: environment variables,
    files, and the standard logger of package [log]. *)

From stdpp Require Import base strings list.
From Stdlib Require Import ZArith.
From S2P Require Import Prelude Float64 GoStrings Domain.

(** [os.Getenv]: the empty text for a variable that is not set. *)
Definition environment : Type := string -> string.

(** [log.Printf], with the line already formatted *)
Class StdLog (W : Type) := { log_Printf : string -> W -> W }.

(** [os.ReadFile] and [filepath.Glob]; the files do not change while a command
    runs. *)
Class Files := {
  ReadFile : string -> result goerror string;
  Glob : string -> result goerror (list string)
}.
