(* ===== verification/Middleware.v ===== *)
(** The middleware ([internal/transport/http/middleware], except the sign-up
    limit): authentication by API key, by console key and by the admin token,
    the check-role requirement, CORS, request logging and request metrics. *)

From stdpp Require Import base gmap strings list.
From Stdlib Require Import ZArith NArith Lia.
From S2P Require Import Prelude Float64 GoStrings Sha256 Domain Ports AuthService Http Observability.

Local Open Scope Z_scope.

(** ** Paths *)

Definition AdminPathPrefix : string := "/v1/admin/".
Definition ProjectPathPrefix : string := "/v1/projects".

Definition IsAdminPath (path : string) : bool := HasPrefix path AdminPathPrefix.
Definition IsProjectPath (path : string) : bool :=
  String.eqb path ProjectPathPrefix || HasPrefix path (ProjectPathPrefix +:+ "/").
Definition PublicPaths (path : string) : bool :=
  String.eqb path "/health/live" || String.eqb path "/health/ready" || String.eqb path "/metrics".
Definition skipRequestLog (path : string) : bool :=
  String.eqb path "/health/live" || String.eqb path "/metrics".

(** A world whose process writes structured log lines. *)
Class GoLog (W : Type) := { slog_Info : string -> list (string * string) -> W -> W }.

(** ** Authentication *)

Section Guards.
Context {W : Type} `{!APIKeyRepository W} `{!TenantRepository W}.

(** [AdminAuth]; [subtle.ConstantTimeCompare] is equality of bytes. *)
Definition AdminAuth (token : string) (next : Handler W) : Handler W := fun r rw w =>
  if String.eqb token "" then (WriteError 503 "admin_api_disabled" rw, w)
  else
    let '(presented, hasScheme) := CutPrefix (Header_Get (Req_Header r) "Authorization") "Bearer " in
    if negb hasScheme then (WriteError 401 "unauthorized" rw, w)
    else if negb (String.eqb (TrimSpace presented) token) then (WriteError 401 "unauthorized" rw, w)
    else next r rw w.

(** [bearerToken]: [None] is [("", false)] or an empty token. *)
Definition bearerToken (r : Request) : option string :=
  let '(token, ok) := CutPrefix (Header_Get (Req_Header r) "Authorization") "Bearer " in
  if negb ok then None
  else
    let token := TrimSpace token in
    if String.eqb token "" then None else Some token.

(** What every middleware answers when authentication fails. *)
Definition refuse_auth (e : goerror) (rw : writer) : writer :=
  let '(status, msg) := MapAuthError e in WriteError status msg rw.

(** [ProjectAuth] *)
Definition ProjectAuth (next : Handler W) : Handler W := fun r rw w =>
  match bearerToken r with
  | None => (WriteError 401 "unauthorized" rw, w)
  | Some raw =>
      match Authenticate raw w with
      | (Err e, w1) => (refuse_auth e rw, w1)
      | (Ok tc, w1) =>
          if negb (CanManageProject (TC_APIKey tc)) then (WriteError 401 "unauthorized" rw, w1)
          else next (WithTenantID r (Tenant_ID (TC_Tenant tc))) rw w1
      end
  end.

(** [RequireCheckRole] *)
Definition RequireCheckRole (next : Handler W) : Handler W := fun r rw w =>
  match Authenticate (Header_Get (Req_Header r) "X-API-Key") w with
  | (Err e, w1) => (refuse_auth e rw, w1)
  | (Ok tc, w1) =>
      if String.eqb (APIKey_Role (TC_APIKey tc)) RoleAdmin
      then (WriteError 403 "admin_key_cannot_check" rw, w1)
      else next r rw w1
  end.

(** [AuthMiddleware.Wrap] *)
Definition Wrap (next : Handler W) : Handler W := fun r rw w =>
  match Authenticate (Header_Get (Req_Header r) "X-API-Key") w with
  | (Err e, w1) => (refuse_auth e rw, w1)
  | (Ok tc, w1) => next (WithTenantID r (Tenant_ID (TC_Tenant tc))) rw w1
  end.

(** [AuthOrPublic] *)
Definition AuthOrPublic (next : Handler W) : Handler W := fun r rw w =>
  if PublicPaths (URL_Path r) || IsAdminPath (URL_Path r) || IsProjectPath (URL_Path r)
  then next r rw w
  else Wrap next r rw w.

End Guards.

(** ** Cross-origin requests *)

(** The origins on the list, trimmed; empty ones are dropped. *)
Definition allowed_origins (allowedOrigins : list string) : list string :=
  List.filter (fun o => negb (String.eqb o ""))
    (map (fun o => TrimSpace (TrimSuffix o "/")) allowedOrigins).

Definition cors_headers (origin : string) (h : header) : header :=
  let h := Header_Set h "Access-Control-Allow-Origin" origin in
  let h := Header_Set h "Access-Control-Allow-Methods" "GET, POST, DELETE, OPTIONS" in
  let h := Header_Set h "Access-Control-Allow-Headers" "Authorization, Content-Type, X-API-Key" in
  let h := Header_Set h "Access-Control-Max-Age" "600" in
  Header_Add h "Vary" "Origin".

(** [CORS] *)
Definition CORS {W} (allowedOrigins : list string) (next : Handler W) : Handler W := fun r rw w =>
  let origin := Header_Get (Req_Header r) "Origin" in
  let rw :=
    if bool_decide (origin ∈ allowed_origins allowedOrigins) && negb (String.eqb origin "")
    then map_header (cors_headers origin) rw else rw in
  if String.eqb (Method r) "OPTIONS" &&
     negb (String.eqb (Header_Get (Req_Header r) "Access-Control-Request-Method") "")
  then (WriteHeader 204 rw, w)
  else next r rw w.

(** ** Logging and metrics *)

Section Observers.
Context {W : Type} `{!GoClock W} `{!GoLog W} `{!Prometheus W}.

(** [Logging] *)
Definition Logging (next : Handler W) : Handler W := fun r rw w =>
  if skipRequestLog (URL_Path r) then next r rw w
  else
    let start := Now w in
    let '(sw, w1) := next r (NewStatusWriter rw) w in
    (inner_writer sw,
     slog_Info "http request"
       [("method", Method r); ("path", URL_Path r); ("status", FormatInt (Status sw));
        ("duration_ms", FormatInt (Z.quot (Now w1 - start) 1000000)); ("remote_addr", RemoteAddr r)] w1).

(** [Metrics] *)
Definition Metrics (next : Handler W) : Handler W := fun r rw w =>
  let start := Now w in
  let '(sw, w1) := next r (NewStatusWriter rw) w in
  (inner_writer sw, RecordHTTPRequest (Method r) (URL_Path r) (Status sw) (Now w1 - start) w1).

End Observers.

(** The handler wrote one error, with status 401, 403 or 503. *)
Definition refused (rw rw' : writer) : Prop :=
  exists status msg, rw' = WriteError status msg rw /\ (status = 401 \/ status = 403 \/ status = 503).

(** ** Properties *)

Section Properties.
Context {W : Type} `{!APIKeyRepository W} `{!TenantRepository W}.

Lemma bearerToken_spec r token : bearerToken r = Some token <->
  token <> "" /\ exists p, Header_Get (Req_Header r) "Authorization" = "Bearer " +:+ p /\ TrimSpace p = token.
Proof.
  unfold bearerToken.
  destruct (CutPrefix_cases (Header_Get (Req_Header r) "Authorization") "Bearer ") as [(p & Ep & ->)|[-> Hn]];
    cbn [negb].
  - destruct (String.eqb_spec (TrimSpace p) "") as [E|E].
    + split; [done|]. intros (Hn & p' & Ep' & Ht). rewrite Ep in Ep'. apply string_app_inj_l in Ep'. congruence.
    + split; [intros [= <-]; eauto|]. intros (Hn & p' & Ep' & Ht).
      rewrite Ep in Ep'. apply string_app_inj_l in Ep'. congruence.
  - split; [done|]. intros (_ & p & E & _). by apply Hn in E.
Qed.

Lemma refused_auth e rw : refused rw (refuse_auth e rw).
Proof.
  unfold refuse_auth. pose proof (MapAuthError_status e) as Hm. destruct (MapAuthError e) as [st msg].
  by exists st, msg.
Qed.

Lemma refused_401 msg rw : refused rw (WriteError 401 msg rw).
Proof. exists 401, msg. auto. Qed.
#[local] Hint Resolve refused_auth refused_401 : rl.

(** The admin routes.  A request reaches a route behind [AdminAuth] exactly
    when a token is configured and the Authorization header carries that token
    after the word Bearer; any other request is answered 401, or 503 when no
    token is configured, and changes nothing. *)
Theorem AdminAuth_guard token (next : Handler W) r rw w :
  (AdminAuth token next r rw w = next r rw w /\ token <> "" /\
   exists p, Header_Get (Req_Header r) "Authorization" = "Bearer " +:+ p /\ TrimSpace p = token) \/
  (AdminAuth token next r rw w = (WriteError 503 "admin_api_disabled" rw, w) /\ token = "") \/
  (AdminAuth token next r rw w = (WriteError 401 "unauthorized" rw, w) /\
   ~ exists p, Header_Get (Req_Header r) "Authorization" = "Bearer " +:+ p /\ TrimSpace p = token).
Proof.
  unfold AdminAuth. destruct (String.eqb_spec token "") as [->|Ht]; [right; left; done|].
  destruct (CutPrefix_cases (Header_Get (Req_Header r) "Authorization") "Bearer ") as [(p & Ep & ->)|[-> Hn]];
    cbn [negb].
  - destruct (String.eqb_spec (TrimSpace p) token) as [E|E]; cbn [negb]; [left; eauto|].
    right. right. split; [done|]. intros (p' & Ep' & Hp'). rewrite Ep in Ep'.
    apply string_app_inj_l in Ep'. congruence.
  - right. right. split; [done|]. intros (p & E & _). by apply Hn in E.
Qed.

(** The console routes.  A request reaches a route behind [ProjectAuth]
    only with a bearer token that authenticates as an active admin key of an
    active tenant, and then runs as that tenant; any other request is answered
    401, 403 or 503 and changes nothing beyond the lookups. *)
Theorem ProjectAuth_guard (next : Handler W) r rw w :
  let '(rw', w') := ProjectAuth next r rw w in
  (exists raw tc w1, bearerToken r = Some raw /\ Authenticate raw w = (Ok tc, w1) /\
     APIKey_Role (TC_APIKey tc) = RoleAdmin /\
     (rw', w') = next (WithTenantID r (Tenant_ID (TC_Tenant tc))) rw w1) \/
  (refused rw rw' /\
   (bearerToken r = None /\ w' = w \/
    exists raw, bearerToken r = Some raw /\ w' = snd (Authenticate raw w))).
Proof.
  unfold ProjectAuth, CanManageProject. destruct (bearerToken r) as [raw|] eqn:Eb.
  2:{ right. eauto with rl. }
  destruct (Authenticate raw w) as [[tc|e] w1] eqn:Ea.
  - destruct (String.eqb_spec (APIKey_Role (TC_APIKey tc)) RoleAdmin) as [Er|Er]; cbn [negb].
    + destruct (next _ rw w1) as [rw' w'] eqn:En. left. exists raw, tc, w1. by rewrite En.
    + right. split; [auto with rl|]. right. exists raw. by rewrite Ea.
  - right. split; [auto with rl|].
    right. exists raw. by rewrite Ea.
Qed.

(** The API routes.  Behind [AuthOrPublic] every path that is not public,
    administrative or a console path is served only for a request whose
    X-API-Key authenticates, and is served as that key's tenant whatever
    tenant the context held before; any other request is answered 401, 403 or
    503. *)
Theorem AuthOrPublic_guard (next : Handler W) r rw w :
  let '(rw', w') := AuthOrPublic next r rw w in
  ((PublicPaths (URL_Path r) = true \/ IsAdminPath (URL_Path r) = true \/ IsProjectPath (URL_Path r) = true) /\
   (rw', w') = next r rw w) \/
  (exists tc w1, Authenticate (Header_Get (Req_Header r) "X-API-Key") w = (Ok tc, w1) /\
     (rw', w') = next (WithTenantID r (Tenant_ID (TC_Tenant tc))) rw w1) \/
  (refused rw rw' /\
   exists e, Authenticate (Header_Get (Req_Header r) "X-API-Key") w = (Err e, w')).
Proof.
  unfold AuthOrPublic, Wrap.
  destruct (PublicPaths (URL_Path r) || IsAdminPath (URL_Path r) || IsProjectPath (URL_Path r)) eqn:E.
  { apply orb_true_iff in E as [E%orb_true_iff|E]; destruct (next r rw w); left; tauto. }
  destruct (Authenticate _ w) as [[tc|e] w1] eqn:Ea.
  - destruct (next _ rw w1) as [rw' w'] eqn:En. right. left. exists tc, w1. by rewrite En.
  - right. right. eauto with rl.
Qed.

(** Cross-origin access.  The Access-Control headers are added exactly for
    a request whose non-empty Origin is on the configured list, and then name
    that origin; a preflight is answered 204 without reaching the handlers. *)
Theorem CORS_origin allowedOrigins (next : Handler W) r rw w :
  let origin := Header_Get (Req_Header r) "Origin" in
  let listed := origin <> "" /\ exists o, o ∈ allowedOrigins /\ TrimSpace (TrimSuffix o "/") = origin in
  exists rw0, (listed /\ rw0 = map_header (cors_headers origin) rw \/ ~ listed /\ rw0 = rw) /\
    (CORS allowedOrigins next r rw w = next r rw0 w \/
     (Method r = "OPTIONS" /\ CORS allowedOrigins next r rw w = (WriteHeader 204 rw0, w))).
Proof.
  intros origin listed. unfold CORS. fold origin.
  set (rw0 := if bool_decide (origin ∈ allowed_origins allowedOrigins) && negb (String.eqb origin "")
              then map_header (cors_headers origin) rw else rw).
  assert (Hl : bool_decide (origin ∈ allowed_origins allowedOrigins) && negb (String.eqb origin "") = true <-> listed).
  { unfold listed, allowed_origins. rewrite andb_true_iff, bool_decide_eq_true, negb_true_iff, String.eqb_neq.
    rewrite list_elem_of_In, filter_In, in_map_iff, negb_true_iff, String.eqb_neq.
    setoid_rewrite list_elem_of_In. naive_solver. }
  exists rw0. split.
  - unfold rw0. destruct (_ && _).
    + left. split; [by apply Hl|done].
    + right. split; [intros Hc; by apply Hl in Hc|done].
  - destruct (String.eqb_spec (Method r) "OPTIONS") as [E|E]; cbn [andb]; [|by left].
    destruct (negb (String.eqb (Header_Get (Req_Header r) "Access-Control-Request-Method") ""));
      [right; split; [exact E|reflexivity]|by left].
Qed.

End Properties.
