(* ===== verification/SignupLimit.v ===== *)
(** The sign-up limit ([internal/transport/http/middleware/signup_limit.go]):
    at most [limit] project creations per client and [window], counted in this
    process.

    A client's times live in a Go slice: [allow] filters them in place, in the
    array the slice shares with the map, and appends to the result, so the
    model keeps arrays and lengths apart.  The lock is held for the whole of
    [allow], hence concurrent requests are a sequence of its calls. *)

From stdpp Require Import base gmap strings list.
From Stdlib Require Import ZArith NArith Lia Ascii Sorted.
From S2P Require Import Prelude Float64 GoStrings Domain Ports Http.

Local Open Scope Z_scope.

(** ** Slices *)

(** A slice of times: its array up to the capacity, and its length. *)
Record slice := { arr : list Z; slen : nat }.

Definition nil_slice : slice := {| arr := []; slen := 0 |}.
Definition elements (s : slice) : list Z := take (slen s) (arr s).
Definition slice_ok (s : slice) : Prop := (slen s <= length (arr s))%nat.

(** The in-place loop [for _, t := range old { if t.After(cutoff) { kept =
    append(kept, t) } }] with [kept := old[:0]]: [i] is the read index, [k] the
    length of [kept], [n] the number of elements still to read. *)
Fixpoint keep_after (cutoff : Z) (n i k : nat) (a : list Z) : slice :=
  match n with
  | O => {| arr := a; slen := k |}
  | S n' =>
      match a !! i with
      | Some t =>
          if cutoff <? t then keep_after cutoff n' (S i) (S k) (<[k := t]> a)
          else keep_after cutoff n' (S i) k a
      | None => keep_after cutoff n' (S i) k a
      end
  end.

(** [append(s, t)]: in place when there is room, otherwise in a new array
    with [spare] more places. *)
Definition append (spare : nat) (s : slice) (t : Z) : slice :=
  if (slen s <? length (arr s))%nat then {| arr := <[slen s := t]> (arr s); slen := S (slen s) |}
  else {| arr := elements s ++ [t] ++ repeat 0 spare; slen := S (slen s) |}.

(** ** The limiter *)

Record signupLimiter := {
  seen : gmap string slice;
  sl_limit : Z;
  sl_window : Z;
  trustXF : bool
}.

Definition with_seen (l : signupLimiter) (m : gmap string slice) : signupLimiter :=
  {| seen := m; sl_limit := sl_limit l; sl_window := sl_window l; trustXF := trustXF l |}.

(** The times of a client; an absent entry is the nil slice. *)
Definition times (m : gmap string slice) (client : string) : slice := default nil_slice (m !! client).

(** [v[len(v)-1].Before(cutoff)], or [v] is empty *)
Definition swept (cutoff : Z) (v : slice) : bool :=
  match last (elements v) with
  | None => true
  | Some t => t <? cutoff
  end.

(** The limit of clients above which [allow] sweeps the map. *)
Definition sweep_above : Z := 10000.

(** [signupLimiter.allow]; [spare] is how much the append over-allocates. *)
Definition allow (spare : nat) (client : string) (now : Z) (l : signupLimiter) : bool * signupLimiter :=
  let cutoff := now - sl_window l in
  let old := times (seen l) client in
  let kept := keep_after cutoff (slen old) 0 0 (arr old) in
  if sl_limit l <=? Z.of_nat (slen kept) then (false, with_seen l (<[client := kept]> (seen l)))
  else
    let m := <[client := append spare kept now]> (seen l) in
    let m := if sweep_above <? Z.of_nat (size m)
             then filter (fun kv => swept cutoff (snd kv) = false) m else m in
    (true, with_seen l m).

(** ** Which client a request comes from *)

(** [trimSpace] *)
Fixpoint strip_blanks (l : list ascii) : list ascii :=
  match l with
  | c :: l' => if Ascii.eqb c " " || Ascii.eqb c "009" then strip_blanks l' else l
  | [] => []
  end.
Definition trimSpace (l : list ascii) : list ascii := rev (strip_blanks (rev (strip_blanks l))).

(** The loop of [splitAndTrim]: [part] is what was read since the last comma. *)
Fixpoint split_parts (l part : list ascii) : list (list ascii) :=
  let emit := match trimSpace part with [] => [] | p => [p] end in
  match l with
  | [] => emit
  | c :: l' => if Ascii.eqb c "," then emit ++ split_parts l' [] else split_parts l' (part ++ [c])
  end.
Definition splitAndTrim (s : string) : list string := map implode (split_parts (explode s) []).

Fixpoint index_of (c : ascii) (l : list ascii) : option nat :=
  match l with
  | [] => None
  | x :: l' => if Ascii.eqb x c then Some O else option_map S (index_of c l')
  end.
Definition last_index_of (c : ascii) (l : list ascii) : option nat :=
  option_map (fun n => (length l - S n)%nat) (index_of c (rev l)).
Definition has_byte (c : ascii) (l : list ascii) : bool := existsb (Ascii.eqb c) l.

(** [net.SplitHostPort], the host only; [None] is an error. *)
Definition SplitHost (hostport : list ascii) : option (list ascii) :=
  match last_index_of ":" hostport with
  | None => None
  | Some i =>
      match hostport with
      | "["%char :: _ =>
          match index_of "]" hostport with
          | None => None
          | Some e =>
              if (S e =? i)%nat then
                if has_byte "[" (drop 1 hostport) || has_byte "]" (drop (S e) hostport) then None
                else Some (take (e - 1) (drop 1 hostport))
              else None
          end
      | _ =>
          let host := take i hostport in
          if has_byte ":" host then None
          else if has_byte "[" hostport || has_byte "]" hostport then None
          else Some host
      end
  end.

(** [signupLimiter.client] *)
Definition client (l : signupLimiter) (r : Request) : string :=
  let remote := match SplitHost (explode (RemoteAddr r)) with
                | Some host => implode host
                | None => RemoteAddr r
                end in
  if trustXF l then
    let xff := Header_Get (Req_Header r) "X-Forwarded-For" in
    if String.eqb xff "" then remote
    else match last (splitAndTrim xff) with
         | Some part => part
         | None => remote
         end
  else remote.

(** ** The middleware *)

(** A world that holds this limiter; [spare_room] is the allocator's choice. *)
Class SignupState (W : Type) := {
  limiter_of : W -> signupLimiter;
  set_limiter : signupLimiter -> W -> W;
  spare_room : W -> nat
}.

Definition SignupLimit {W} `{!GoClock W} `{!SignupState W} (next : Handler W) : Handler W := fun r rw w =>
  let l := limiter_of w in
  let '(ok, l') := allow (spare_room w) (client l r) (Now w) l in
  let w' := set_limiter l' w in
  if negb ok then
    let rw := map_header (fun h => Header_Set h "Retry-After" "3600") rw in
    (WriteError 429 "too_many_projects" rw, w')
  else next r rw w'.

(** ** Specification: a log of admissions *)

(** The admissions of a client after [cutoff], in a log of all admissions. *)
Definition recent (log : list (string * Z)) (c : string) (cutoff : Z) : list Z :=
  List.filter (fun t => cutoff <? t) (map snd (List.filter (fun e => String.eqb (fst e) c) log)).

(** The limiter as it would be with unlimited memory: admit while fewer than
    [limit] admissions of the client are less than [window] old. *)
Definition spec_allow (limit window : Z) (log : list (string * Z)) (c : string) (now : Z) : bool :=
  Z.of_nat (length (recent log c (now - window))) <? limit.

Fixpoint spec_run (limit window : Z) (log : list (string * Z)) (reqs : list (string * Z)) : list bool :=
  match reqs with
  | [] => []
  | (c, now) :: reqs' =>
      let ok := spec_allow limit window log c now in
      ok :: spec_run limit window (if ok then log ++ [(c, now)] else log) reqs'
  end.

(** A sequence of requests, each with the room its append may over-allocate. *)
Fixpoint allow_run (l : signupLimiter) (reqs : list (string * Z * nat)) : list bool :=
  match reqs with
  | [] => []
  | (c, now, spare) :: reqs' => let '(ok, l') := allow spare c now l in ok :: allow_run l' reqs'
  end.

Definition new_limiter (limit window : Z) (trust : bool) : signupLimiter :=
  {| seen := ∅; sl_limit := limit; sl_window := window; trustXF := trust |}.

(** The times at which a client was admitted. *)
Fixpoint admissions (c : string) (reqs : list (string * Z)) (oks : list bool) : list Z :=
  match reqs, oks with
  | (c', now) :: reqs', ok :: oks' =>
      (if ok && String.eqb c' c then [now] else []) ++ admissions c reqs' oks'
  | _, _ => []
  end.

(** The clock does not run backwards from one call to the next. *)
Fixpoint clock_from (t : Z) (reqs : list (string * Z)) : Prop :=
  match reqs with
  | [] => True
  | (_, now) :: reqs' => t <= now /\ clock_from now reqs'
  end.

(** The times of a client that the limiter still holds, after [cutoff]. *)
Definition held (m : gmap string slice) (c : string) (cutoff : Z) : list Z :=
  List.filter (fun t => cutoff <? t) (elements (times m c)).

(** What the map has in common with the log when the clock shows at least [T]. *)
Record matches_log (window T : Z) (m : gmap string slice) (log : list (string * Z)) : Prop := {
  ml_ok : forall c, slice_ok (times m c);
  ml_sorted : forall c, StronglySorted Z.le (elements (times m c));
  ml_past : forall c, Forall (fun t => t <= T) (elements (times m c));
  ml_held : forall c cutoff, T - window <= cutoff -> held m c cutoff = recent log c cutoff
}.

(** ** Slices *)

Lemma filter_filter_le (a b : Z) l : a <= b ->
  List.filter (fun t => b <? t) (List.filter (fun t => a <? t) l) = List.filter (fun t => b <? t) l.
Proof.
  intros Hab. induction l as [|x l IH]; simpl; [done|].
  destruct (Z.ltb_spec a x); simpl; [by rewrite IH|]. by destruct (Z.ltb_spec b x); [lia|].
Qed.

Lemma keep_after_spec cutoff n i k a : (k <= i)%nat -> (i + n <= length a)%nat ->
  let s := keep_after cutoff n i k a in
  elements s = take k a ++ List.filter (fun t => cutoff <? t) (take n (drop i a)) /\
  length (arr s) = length a /\ (slen s <= i + n)%nat.
Proof.
  revert i k a. induction n as [|n IH]; intros i k a Hk Hi; cbn [keep_after].
  { simpl. rewrite app_nil_r. split; [done|]. split; [done|lia]. }
  destruct (lookup_lt_is_Some_2 a i) as [t Et]; [lia|]. rewrite Et, (drop_S _ _ _ Et). cbn [firstn List.filter].
  destruct (Z.ltb_spec cutoff t).
  - destruct (IH (S i) (S k) (<[k:=t]> a)) as (E & El & Es); [lia|rewrite length_insert; lia|].
    rewrite length_insert in El. split; [|split; [done|lia]]. rewrite E.
    rewrite drop_insert_lt by lia. rewrite (take_S_r _ _ t) by (apply list_lookup_insert_eq; lia).
    rewrite take_insert_ge by lia. by rewrite <- app_assoc.
  - destruct (IH (S i) k a) as (E & El & Es); [lia|lia|]. split; [done|]. split; [done|lia].
Qed.

Lemma elements_append spare s t : slice_ok s -> elements (append spare s t) = elements s ++ [t].
Proof.
  intros Hs. unfold append, elements, slice_ok in *. destruct (Nat.ltb_spec (slen s) (length (arr s))); simpl.
  - rewrite (take_S_r _ _ t) by (apply list_lookup_insert_eq; lia). by rewrite take_insert_ge.
  - assert (Hl : length (take (slen s) (arr s)) = slen s) by (rewrite length_take; lia).
    rewrite (take_S_r _ _ t) by (rewrite lookup_app_r by lia; by rewrite Hl, Nat.sub_diag).
    by rewrite take_app_length'.
Qed.

Lemma slice_ok_append spare s t : slice_ok s -> slice_ok (append spare s t).
Proof.
  unfold append, elements, slice_ok. intros Hs. destruct (Nat.ltb_spec (slen s) (length (arr s))); simpl.
  - rewrite length_insert. lia.
  - rewrite !length_app, length_take. simpl. lia.
Qed.

Lemma filter_Forall {A} (f : A -> bool) (P : A -> Prop) l : Forall P l -> Forall P (List.filter f l).
Proof. induction 1; simpl; [done|]. destruct (f x); by try constructor. Qed.

Lemma filter_sorted (f : Z -> bool) l : StronglySorted Z.le l -> StronglySorted Z.le (List.filter f l).
Proof.
  induction 1 as [|x l Hs IH Hx]; simpl; [constructor|].
  destruct (f x); [|done]. constructor; [done|by apply filter_Forall].
Qed.

Lemma sorted_snoc l t : StronglySorted Z.le l -> Forall (fun x => x <= t) l -> StronglySorted Z.le (l ++ [t]).
Proof.
  induction 1 as [|x l Hs IH Hx]; intros Hl; simpl; [repeat constructor|].
  apply Forall_cons in Hl as [Hxt Hl]. constructor; [by apply IH|]. apply Forall_app. split; [done|].
  by constructor.
Qed.

Lemma sorted_last l t : StronglySorted Z.le l -> last l = Some t -> Forall (fun x => x <= t) l.
Proof.
  induction 1 as [|x l Hs IH Hx]; [done|]. destruct l as [|y l].
  - intros [= ->]. constructor; [lia|constructor].
  - change (last (x :: y :: l)) with (last (y :: l)). intros Hl. constructor; [|by apply IH].
    apply Forall_cons in Hx as [Hxy _]. apply IH, Forall_cons in Hl as [Hy _]. lia.
Qed.

Lemma swept_nothing cutoff b v : StronglySorted Z.le (elements v) -> swept cutoff v = true ->
  cutoff <= b -> List.filter (fun t => b <? t) (elements v) = [].
Proof.
  unfold swept. intros Hs Hw Hb. destruct (last (elements v)) as [t|] eqn:El.
  - apply Z.ltb_lt in Hw. pose proof (sorted_last _ _ Hs El) as Hall. revert Hall. generalize (elements v).
    induction 1 as [|x l Hx _ IH]; simpl; [done|]. destruct (Z.ltb_spec b x); [lia|done].
  - apply last_None in El. by rewrite El.
Qed.

(** ** The log *)

Lemma recent_snoc log c' c now cutoff :
  recent (log ++ [(c', now)]) c cutoff =
  recent log c cutoff ++ (if String.eqb c' c && (cutoff <? now) then [now] else []).
Proof.
  unfold recent. rewrite List.filter_app, map_app, List.filter_app. f_equal. simpl.
  destruct (String.eqb c' c); simpl; [|done]. by destruct (cutoff <? now).
Qed.

Lemma recent_shrink log c a b : a <= b -> (length (recent log c b) <= length (recent log c a))%nat.
Proof.
  intros Hab. unfold recent. rewrite <- (filter_filter_le a b) by done. apply List.filter_length_le.
Qed.

(** ** One call *)

Lemma times_insert m c s c' : times (<[c := s]> m) c' = if String.eqb c c' then s else times m c'.
Proof.
  unfold times. destruct (String.eqb_spec c c') as [->|Hc].
  - by rewrite lookup_insert_eq.
  - by rewrite lookup_insert_ne.
Qed.

Lemma matches_log_later window T T' m log : matches_log window T m log -> T <= T' -> matches_log window T' m log.
Proof.
  intros [H1 H2 H3 H4] Ht. split; [done|done| |].
  - intros c. eapply Forall_impl; [apply H3|]. simpl. lia.
  - intros c cutoff Hc. apply H4. lia.
Qed.

(** The slice that the filter of [allow] leaves. *)
Lemma kept_elements cutoff s : slice_ok s ->
  let k := keep_after cutoff (slen s) 0 0 (arr s) in
  elements k = List.filter (fun t => cutoff <? t) (elements s) /\ slice_ok k /\
  slen k = length (elements k).
Proof.
  intros Hs. unfold slice_ok in *.
  destruct (keep_after_spec cutoff (slen s) 0 0 (arr s)) as (E & El & Es); [lia|lia|].
  cbn zeta. split; [exact E|]. split; [lia|]. unfold elements. rewrite length_take. lia.
Qed.

(** Dropping old times of one client changes nothing that counts later. *)
Lemma matches_log_keep window now m log c s :
  matches_log window now m log -> slice_ok s ->
  elements s = List.filter (fun t => now - window <? t) (elements (times m c)) ->
  matches_log window now (<[c := s]> m) log.
Proof.
  intros [H1 H2 H3 H4] Hs E. split; intros c'; rewrite ?times_insert.
  - by destruct (String.eqb c c').
  - destruct (String.eqb c c'); [rewrite E; by apply filter_sorted|done].
  - destruct (String.eqb c c'); [rewrite E; by apply filter_Forall|done].
  - intros cutoff Hcut. rewrite <- H4 by done. unfold held. rewrite times_insert.
    destruct (String.eqb_spec c c') as [<-|]; [|done]. rewrite E. by apply filter_filter_le.
Qed.

(** Admitting a client. *)
Lemma matches_log_admit window now m log c s spare :
  matches_log window now (<[c := s]> m) log ->
  matches_log window now (<[c := append spare s now]> m) (log ++ [(c, now)]).
Proof.
  intros [H1 H2 H3 H4].
  assert (Hs : slice_ok s) by (specialize (H1 c); by rewrite times_insert, String.eqb_refl in H1).
  assert (Hsc : times (<[c := s]> m) c = s) by (by rewrite times_insert, String.eqb_refl).
  split; intros c'; rewrite ?times_insert; destruct (String.eqb_spec c c') as [E|Hc];
    try (rewrite <- E; clear E c').
  - by apply slice_ok_append.
  - specialize (H1 c'). by rewrite times_insert, (proj2 (String.eqb_neq _ _) Hc) in H1.
  - specialize (H2 c). specialize (H3 c). rewrite Hsc in H2, H3. rewrite elements_append by done.
    by apply sorted_snoc.
  - specialize (H2 c'). by rewrite times_insert, (proj2 (String.eqb_neq _ _) Hc) in H2.
  - specialize (H3 c). rewrite Hsc in H3. rewrite elements_append by done.
    apply Forall_app. split; [done|]. constructor; [lia|constructor].
  - specialize (H3 c'). by rewrite times_insert, (proj2 (String.eqb_neq _ _) Hc) in H3.
  - intros cutoff Hcut. specialize (H4 c cutoff Hcut). unfold held in *. rewrite Hsc in H4.
    rewrite times_insert, String.eqb_refl, elements_append, List.filter_app, H4 by done.
    rewrite recent_snoc, String.eqb_refl. simpl. by destruct (cutoff <? now).
  - intros cutoff Hcut. specialize (H4 c' cutoff Hcut). unfold held in *.
    rewrite times_insert, (proj2 (String.eqb_neq _ _) Hc) in *.
    rewrite recent_snoc, (proj2 (String.eqb_neq _ _) Hc). simpl. by rewrite app_nil_r.
Qed.

(** Sweeping. *)
Lemma matches_log_sweep window now m log :
  matches_log window now m log ->
  matches_log window now (filter (fun kv => swept (now - window) (snd kv) = false) m) log.
Proof.
  intros [H1 H2 H3 H4].
  assert (Hf : forall c, times (filter (fun kv => swept (now - window) (snd kv) = false) m) c = times m c \/
    times (filter (fun kv => swept (now - window) (snd kv) = false) m) c = nil_slice /\
    swept (now - window) (times m c) = true).
  { intros c. unfold times. destruct (m !! c) as [v|] eqn:E.
    - destruct (swept (now - window) v) eqn:Es.
      + right. rewrite (proj2 (map_lookup_filter_None _ _ _)); [done|]. right. intros v' E'. simpl. congruence.
      + left. by rewrite (proj2 (map_lookup_filter_Some _ _ _ v)).
    - left. by rewrite (proj2 (map_lookup_filter_None _ _ _)) by (by left). }
  split; intros c; destruct (Hf c) as [E|[E Es]]; rewrite ?E; try done;
    try (by constructor).
  - intros cutoff Hcut. rewrite <- H4 by done. unfold held. by rewrite E.
  - intros cutoff Hcut. rewrite <- H4 by done. unfold held. rewrite E. simpl.
    symmetry. eapply swept_nothing; eauto.
Qed.

Lemma allow_spec spare c now T l log : matches_log (sl_window l) T (seen l) log -> T <= now ->
  let '(ok, l') := allow spare c now l in
  ok = spec_allow (sl_limit l) (sl_window l) log c now /\
  sl_limit l' = sl_limit l /\ sl_window l' = sl_window l /\
  matches_log (sl_window l) now (seen l') (if ok then log ++ [(c, now)] else log).
Proof.
  intros Hm Ht. apply (matches_log_later _ _ now) in Hm; [|done]. unfold allow, spec_allow.
  destruct (kept_elements (now - sl_window l) (times (seen l) c) (ml_ok _ _ _ _ Hm c)) as (Ek & Hk & Hlen).
  set (kept := keep_after _ _ _ _ _) in *.
  pose proof (ml_held _ _ _ _ Hm c (now - sl_window l) ltac:(lia)) as Hh. unfold held in Hh.
  rewrite <- Ek in Hh. rewrite Hlen, Hh.
  pose proof (matches_log_keep _ _ _ _ _ _ Hm Hk Ek) as Hm1.
  destruct (Z.leb_spec (sl_limit l) (Z.of_nat (length (recent log c (now - sl_window l)))));
    destruct (Z.ltb_spec (Z.of_nat (length (recent log c (now - sl_window l)))) (sl_limit l)); try lia.
  - done.
  - simpl. do 3 (split; [done|]). apply (matches_log_admit _ _ _ _ _ _ spare) in Hm1.
    destruct (sweep_above <? _); [by apply matches_log_sweep|done].
Qed.

Lemma allow_run_spec reqs : forall l log T, matches_log (sl_window l) T (seen l) log ->
  clock_from T (map fst reqs) ->
  allow_run l reqs = spec_run (sl_limit l) (sl_window l) log (map fst reqs).
Proof.
  induction reqs as [|[[c now] spare] reqs IH]; intros l log T Hm; cbn [allow_run spec_run map fst clock_from]; [done|].
  intros [Ht Hc]. pose proof (allow_spec spare c now T l log Hm Ht) as Ha.
  destruct (allow spare c now l) as [ok l'] eqn:E. destruct Ha as (-> & El & Ew & Hm').
  f_equal.
  rewrite <- Ew in Hm' at 1. rewrite (IH l' _ now Hm' Hc). by rewrite El, Ew.
Qed.

Lemma matches_log_empty window T : matches_log window T ∅ [].
Proof.
  assert (E : forall c, times ∅ c = nil_slice) by (intros c; unfold times; by rewrite lookup_empty).
  split; intros c; unfold held; rewrite ?E; [unfold slice_ok; simpl; lia|constructor|constructor|done].
Qed.

(** ** Any window of time *)

(** The admissions of a client in the window that ends at [s]. *)
Definition in_window (window s : Z) (ts : list Z) : list Z :=
  List.filter (fun t => (s - window <? t) && (t <=? s)) ts.
Definition logged (log : list (string * Z)) (c : string) : list Z :=
  map snd (List.filter (fun e => String.eqb (fst e) c) log).

Definition within_limit (limit window T : Z) (log : list (string * Z)) : Prop :=
  Forall (fun e => snd e <= T) log /\
  forall c s, Z.of_nat (length (in_window window s (logged log c))) <= Z.max 0 limit.

Lemma in_window_app window s l1 l2 : in_window window s (l1 ++ l2) = in_window window s l1 ++ in_window window s l2.
Proof. apply List.filter_app. Qed.

Lemma logged_app l1 l2 c : logged (l1 ++ l2) c = logged l1 c ++ logged l2 c.
Proof. unfold logged. by rewrite List.filter_app, map_app. Qed.

Lemma in_window_recent window s c log : 
  (length (in_window window s (logged log c)) <= length (recent log c (s - window)))%nat.
Proof.
  unfold recent, in_window, logged. induction (map snd _) as [|t l IH]; simpl; [lia|].
  destruct (s - window <? t); simpl; [|lia]. destruct (t <=? s); simpl; lia.
Qed.

Lemma within_limit_admit limit window T log c now :
  within_limit limit window T log -> T <= now -> spec_allow limit window log c now = true ->
  within_limit limit window now (log ++ [(c, now)]).
Proof.
  intros [Hl Hw] Ht Ha%Z.ltb_lt. split.
  { apply Forall_app. split; [|by repeat constructor]. eapply Forall_impl; [exact Hl|]. simpl. lia. }
  intros c' s. rewrite logged_app, in_window_app, length_app. specialize (Hw c' s).
  unfold logged at 2. simpl. destruct (String.eqb_spec c c') as [<-|Hc]; simpl; [|lia].
  destruct ((s - window <? now) && (now <=? s)) eqn:E; simpl; [|lia].
  apply andb_prop in E as [E1%Z.ltb_lt E2%Z.leb_le].
  pose proof (in_window_recent window s c log).
  pose proof (recent_shrink log c (now - window) (s - window) ltac:(lia)). lia.
Qed.

Lemma spec_run_within limit window reqs : forall log T,
  within_limit limit window T log -> clock_from T reqs ->
  exists log', (forall c, logged log' c = admissions c reqs (spec_run limit window log reqs)) /\
    exists T', within_limit limit window T' (log ++ log').
Proof.
  induction reqs as [|[c now] reqs IH]; intros log T Hw; cbn [spec_run clock_from].
  { exists []. split; [done|]. exists T. by rewrite app_nil_r. }
  intros [Ht Hc]. destruct (spec_allow limit window log c now) eqn:Ea.
  - destruct (IH (log ++ [(c, now)]) now) as (log' & Hl & T' & Hw'); [by eapply within_limit_admit|done|].
    exists ([(c, now)] ++ log'). split.
    + intros c'. rewrite logged_app, Hl. cbn [admissions andb]. f_equal. unfold logged. simpl.
      by destruct (String.eqb c c').
    + exists T'. by rewrite app_assoc.
  - destruct (IH log now) as (log' & Hl & T' & Hw'); [|done|].
    + destruct Hw as [Hl Hw]. split; [|done]. eapply Forall_impl; [exact Hl|]. simpl. lia.
    + exists log'. split; [|by exists T']. intros c'. by rewrite Hl.
Qed.

Lemma split_parts_comma l1 : forall part l2,
  split_parts (l1 ++ ["," : ascii]%char ++ l2) part = split_parts l1 part ++ split_parts l2 [].
Proof.
  induction l1 as [|c l1 IH]; intros part l2; [done|]. cbn [app split_parts].
  destruct (Ascii.eqb c ","); [|apply IH]. rewrite <- app_assoc. f_equal. apply IH.
Qed.

Lemma last_app_some {A} (l1 l2 : list A) x : last l2 = Some x -> last (l1 ++ l2) = Some x.
Proof. intros E. rewrite last_app. by rewrite E. Qed.

(** ** Properties *)

(** C34: the sign-up limiter is the sliding log it means to be.  On any sequence
    of requests whose clock does not run backwards, the in-place filtering of
    shared slices, the reuse of their arrays by later appends and the sweeping
    of the map change no decision: a client is admitted exactly when fewer
    than [limit] of its admissions are less than [window] old. *)
Theorem signup_refines_log limit window trust reqs t0 : clock_from t0 (map fst reqs) ->
  allow_run (new_limiter limit window trust) reqs = spec_run limit window [] (map fst reqs).
Proof. apply (allow_run_spec reqs (new_limiter limit window trust) [] t0), matches_log_empty. Qed.

(** Three admissions are refused the fourth time, one window later one more passes. *)
Lemma signup_refines_log_witness :
  let reqs := [("a", 0, 1%nat); ("a", 1, 0%nat); ("b", 1, 0%nat); ("a", 2, 2%nat); ("a", 10, 0%nat)] in
  clock_from 0 (map fst reqs) /\
  allow_run (new_limiter 2 10 true) reqs = [true; true; true; false; true] /\
  allow_run (new_limiter 2 10 true) reqs = spec_run 2 10 [] (map fst reqs).
Proof.
  intros reqs. assert (Hc : clock_from 0 (map fst reqs)) by (simpl; lia).
  split; [exact Hc|]. split; [reflexivity|].
  exact (signup_refines_log 2 10 true reqs 0 Hc).
Defined.

(** C35: the sign-up limit holds in every window.  However the requests of all
    clients are interleaved, no client is admitted more than [limit] times in
    any [window] of time, wherever that window starts. *)
Theorem signup_limit limit window trust reqs t0 c s : clock_from t0 (map fst reqs) ->
  Z.of_nat (length (in_window window s
    (admissions c (map fst reqs) (allow_run (new_limiter limit window trust) reqs)))) <= Z.max 0 limit.
Proof.
  intros Hc. rewrite (allow_run_spec reqs (new_limiter limit window trust) [] t0 (matches_log_empty _ _) Hc).
  assert (H0 : within_limit limit window t0 []) by (split; [constructor|intros; simpl; lia]).
  destruct (spec_run_within limit window (map fst reqs) [] t0 H0 Hc) as (log & Hl & T & _ & Hw).
  cbn [new_limiter sl_limit sl_window]. rewrite <- Hl. apply Hw.
Qed.

Lemma signup_limit_witness :
  let reqs := [("a", 0, 1%nat); ("a", 1, 0%nat); ("a", 2, 2%nat); ("a", 10, 0%nat)] in
  clock_from 0 (map fst reqs) /\
  in_window 10 10 (admissions "a" (map fst reqs) (allow_run (new_limiter 2 10 true) reqs)) = [1; 10] /\
  Z.of_nat (length (in_window 10 10
    (admissions "a" (map fst reqs) (allow_run (new_limiter 2 10 true) reqs)))) <= Z.max 0 2.
Proof.
  intros reqs. assert (Hc : clock_from 0 (map fst reqs)) by (simpl; lia).
  split; [exact Hc|]. split; [reflexivity|].
  exact (signup_limit 2 10 true reqs 0 "a" 10 Hc).
Defined.

(** C36: the client cannot choose its bucket.  Without a proxy the request
    counts against the host of the connection's address, whatever headers it
    has.  Behind a proxy that appends to X-Forwarded-For, whatever the client put
    in that header before the last comma - or if it put nothing there - the
    request counts against the address the proxy wrote last. *)
Theorem client_spoof_resistant l r :
  (trustXF l = false ->
   client l r = match SplitHost (explode (RemoteAddr r)) with
                | Some host => implode host
                | None => RemoteAddr r
                end) /\
  (trustXF l = true -> forall hop ip,
   Header_Get (Req_Header r) "X-Forwarded-For" = hop \/
   (exists forged, Header_Get (Req_Header r) "X-Forwarded-For" = forged +:+ "," +:+ hop) ->
   last (splitAndTrim hop) = Some ip -> client l r = ip).
Proof.
  split; [unfold client; by intros ->|]. intros Ht hop ip Hx Hh. unfold client. rewrite Ht.
  assert (Hl : last (splitAndTrim (Header_Get (Req_Header r) "X-Forwarded-For")) = Some ip).
  { destruct Hx as [->|[forged ->]]; [done|]. unfold splitAndTrim in *. rewrite !explode_app.
    change (explode ",") with ["," : ascii]%char. rewrite split_parts_comma, map_app. by apply last_app_some. }
  rewrite Hl. destruct (String.eqb_spec (Header_Get (Req_Header r) "X-Forwarded-For") "") as [E|]; [|done].
  by rewrite E in Hl.
Qed.

Lemma client_spoof_resistant_witness :
  let r := {| Method := "POST"; URL_Path := "/v1/projects";
              Req_Header := Header_Set ∅ "X-Forwarded-For" "1.1.1.1, 2.2.2.2 , 203.0.113.9";
              Body_text := ""; Body_broken := false; RemoteAddr := "[::1]:5000"; ctx_tenant := None;
              path_values := [] |} in
  Header_Get (Req_Header r) "X-Forwarded-For" = "1.1.1.1, 2.2.2.2 " +:+ "," +:+ " 203.0.113.9" /\
  last (splitAndTrim " 203.0.113.9") = Some "203.0.113.9" /\
  client (new_limiter 5 1 true) r = "203.0.113.9" /\
  client (new_limiter 5 1 false) r = "::1".
Proof.
  intros r.
  assert (Hx : Header_Get (Req_Header r) "X-Forwarded-For" = "1.1.1.1, 2.2.2.2 " +:+ "," +:+ " 203.0.113.9")
    by reflexivity.
  assert (Hh : last (splitAndTrim " 203.0.113.9") = Some "203.0.113.9") by reflexivity.
  split; [exact Hx|]. split; [exact Hh|]. split.
  - exact (proj2 (client_spoof_resistant (new_limiter 5 1 true) r) eq_refl _ _ (or_intror (ex_intro _ _ Hx)) Hh).
  - exact (proj1 (client_spoof_resistant (new_limiter 5 1 false) r) eq_refl).
Defined.
