(* ===== verification/Handlers.v ===== *)
(** The HTTP handlers ([internal/transport/http/handlers]): the rate-limit
    check, the tenant's configuration, health, the console routes and the
    admin routes, each against the interfaces it is given. *)

From stdpp Require Import base gmap strings list.
From Stdlib Require Import ZArith NArith Lia.
From S2P Require Import Prelude Float64 GoStrings Domain Uuid Ports Http Observability Decode.

Local Open Scope Z_scope.

(** [RateLimitChecker] *)
Class RateLimitChecker (W : Type) := {
  checker_Check : uuid -> string -> string -> Z -> Op W RateLimitDecision
}.

(** [ProjectService] and [ProjectCreator] *)
Class ProjectService (W : Type) := {
  svc_CreateProject : string -> string -> string -> string -> list Rule -> Op W uuid;
  svc_ListProjects : Op W (list ProjectSummary);
  svc_GetProject : uuid -> Op W ProjectSummary;
  svc_AddAPIKey : uuid -> string -> string -> string -> Op W unit;
  svc_RevokeAPIKey : uuid -> uuid -> Op W unit
}.

Definition bad_request (rw : writer) : writer := WriteError 400 "invalid_request" rw.
Definition unauthorized (rw : writer) : writer := WriteError 401 "unauthorized" rw.
Definition unavailable (rw : writer) : writer := WriteError 503 "service_unavailable" rw.

(** ** Views *)

Section Views.
Context `{!UUIDText}.

Definition JUUID (u : uuid) : json := JString (uuid_String u).

(** [ruleView] *)
Definition ruleView (r : Rule) : json := JObject
  [("id", JUUID (Rule_ID r)); ("route_pattern", JString (RoutePattern r));
   ("algorithm", JString (Rule_Algorithm r)); ("enabled", JBool (Enabled r));
   ("limit_count", JInt (LimitCount r)); ("window_seconds", JInt (WindowSeconds r));
   ("bucket_capacity", JInt (BucketCapacity r)); ("refill_rate", JFloat (RefillRate r))].

(** [keyView] *)
Definition keyView (k : KeySummary) : json := JObject
  [("id", JUUID (KS_ID k)); ("prefix", JString (KS_Prefix k)); ("status", JString (KS_Status k));
   ("role", JString (KS_Role k)); ("created_at", JString (RFC3339 (KS_CreatedAt k)))].

(** [projectView] *)
Definition projectView (p : ProjectSummary) : json := JObject
  [("id", JUUID (PS_ID p)); ("name", JString (PS_Name p)); ("status", JString (PS_Status p));
   ("created_at", JString (RFC3339 (PS_CreatedAt p))); ("rule_count", JInt (RuleCount p));
   ("rules", JArray (map ruleView (PS_Rules p))); ("keys", JArray (map keyView (PS_Keys p)))].

(** [projectPayload]: a map, whose keys are encoded in order *)
Definition projectPayload (p : ProjectSummary) : json := JObject
  [("created_at", JString (RFC3339 (PS_CreatedAt p))); ("id", JUUID (PS_ID p));
   ("keys", JArray (map keyView (PS_Keys p))); ("name", JString (PS_Name p));
   ("rule_count", JInt (RuleCount p)); ("rules", JArray (map ruleView (PS_Rules p)));
   ("status", JString (PS_Status p))].

(** Fields with [omitempty] *)
Definition omit_zero (name : string) (z : Z) : list (string * json) :=
  if z =? 0 then [] else [(name, JInt z)].
Definition omit_zero_float (name : string) (f : float) : list (string * json) :=
  if feqb f (of_Z 0) then [] else [(name, JFloat f)].

(** [tenantResponse] and [ruleResponse] *)
Definition tenantResponse (t : Tenant) : json := JObject
  [("id", JUUID (Tenant_ID t)); ("name", JString (Tenant_Name t)); ("status", JString (Tenant_Status t))].

Definition ruleResponse (r : Rule) : json := JObject
  ([("id", JUUID (Rule_ID r)); ("route_pattern", JString (RoutePattern r));
    ("algorithm", JString (Rule_Algorithm r)); ("enabled", JBool (Enabled r))] ++
   omit_zero "limit_count" (LimitCount r) ++ omit_zero "window_seconds" (WindowSeconds r) ++
   omit_zero "bucket_capacity" (BucketCapacity r) ++ omit_zero_float "refill_rate" (RefillRate r)).

(** [checkResponse] *)
Definition checkResponse (d : RateLimitDecision) : json := JObject
  ([("allowed", JBool (Allowed d))] ++ omit_zero "limit" (Decision_Limit d) ++
   omit_zero "remaining" (Remaining d) ++ omit_zero "reset_at" (FormatResetAt (ResetAt d)) ++
   match FormatRetryAfter d with Some z => [("retry_after", JInt z)] | None => [] end ++
   (if String.eqb (Decision_Algorithm d) "" then [] else [("algorithm", JString (Decision_Algorithm d))])).

End Views.

(** ** POST /v1/check *)

Definition maxRouteLen : Z := 512.
Definition maxSubjectLen : Z := 256.
Definition maxCost : Z := 1000000.

(** The request that the handler makes of a body: trimmed, within the bounds,
    with a positive cost; [None] is answered 400. *)
Definition parse_check `{!GoJSON} (r : Request) : option checkRequest :=
  body ← ReadAll_limited (2 ^ 20) r;
  req ← (if 0 <? len body then Unmarshal read_checkRequest body else Some zero_checkRequest);
  let route := TrimSpace (cr_Route req) in
  if String.eqb route "" || (maxRouteLen <? len route) then None
  else
    let subject := TrimSpace (cr_Subject req) in
    if maxSubjectLen <? len subject then None
    else
      let cost := if cr_Cost req <=? 0 then 1 else cr_Cost req in
      if maxCost <? cost then None
      else Some {| cr_Route := route; cr_Subject := subject; cr_Cost := cost |}.

Section Check.
Context `{!GoJSON} {W : Type} `{!GoClock W} `{!Prometheus W} `{!RateLimitChecker W}.

(** [CheckHandler.ServeHTTP] *)
Definition CheckHandler : Handler W := fun r rw w =>
  if negb (String.eqb (Method r) "POST") then (WriteError 405 "method_not_allowed" rw, w)
  else
    match TenantIDFromContext r with
    | None => (unauthorized rw, w)
    | Some tenantID =>
        match parse_check r with
        | None => (bad_request rw, w)
        | Some req =>
            let checkStart := Now w in
            match checker_Check tenantID (cr_Route req) (cr_Subject req) (cr_Cost req) w with
            | (Err e, w1) =>
                (unavailable rw, RecordRateLimitCheck zero_decision (Some e) (Now w1 - checkStart) w1)
            | (Ok decision, w1) =>
                (WriteJSON (CheckStatusCode decision) (checkResponse decision)
                   (ApplyRateLimitHeaders decision rw),
                 RecordRateLimitCheck decision None (Now w1 - checkStart) w1)
            end
        end
    end.

End Check.

(** ** GET /v1/config *)

Section Config.
Context `{!UUIDText} {W : Type} `{!TenantRepository W} `{!RuleRepository W}.

(** [ConfigHandler.ListTenants] *)
Definition ListTenants : Handler W := fun r rw w =>
  match TenantIDFromContext r with
  | None => (unauthorized rw, w)
  | Some tenantID =>
      match GetByID tenantID w with
      | (Err _, w1) => (unavailable rw, w1)
      | (Ok tenant, w1) => (WriteJSON 200 (JObject [("tenants", JArray [tenantResponse tenant])]) rw, w1)
      end
  end.

(** [ConfigHandler.ListTenantRules] *)
Definition ListTenantRules : Handler W := fun r rw w =>
  match TenantIDFromContext r with
  | None => (unauthorized rw, w)
  | Some authTenantID =>
      match uuid_Parse (PathValue r "id") with
      | Err _ => (bad_request rw, w)
      | Ok tenantID =>
          if negb (tenantID =? authTenantID)%N then (WriteError 404 "tenant_not_found" rw, w)
          else
            match GetByID tenantID w with
            | (Err _, w1) => (WriteError 404 "tenant_not_found" rw, w1)
            | (Ok _, w1) =>
                match ListByTenant tenantID w1 with
                | (Err _, w2) => (unavailable rw, w2)
                | (Ok rules, w2) => (WriteJSON 200 (JObject [("rules", JArray (map ruleResponse rules))]) rw, w2)
                end
            end
      end
  end.

End Config.

(** ** GET /health *)

Section Health.
Context {W : Type}.

(** [HealthHandler.Live] and [HealthHandler.Ready] *)
Definition Live : Handler W := fun r rw w => (WriteJSON 200 (JObject [("status", JString "ok")]) rw, w).

Fixpoint Ready (checkers : list (Op W unit)) : Handler W := fun r rw w =>
  match checkers with
  | [] => (WriteJSON 200 (JObject [("status", JString "ready")]) rw, w)
  | ping :: rest =>
      match ping w with
      | (Err e, w1) => (WriteJSON 503 (JObject [("error", JString (Error e)); ("status", JString "not_ready")]) rw, w1)
      | (Ok tt, w1) => Ready rest r rw w1
      end
  end.

End Health.

(** ** /v1/projects and /v1/admin/projects *)

(** [ruleBody.toEntity] *)
Definition toEntity (b : ruleBody) : Rule :=
  {| Rule_ID := uuid_Nil; Rule_TenantID := uuid_Nil; RoutePattern := rb_RoutePattern b;
     Rule_Algorithm := rb_Algorithm b; Enabled := default true (rb_Enabled b);
     LimitCount := rb_LimitCount b; WindowSeconds := rb_WindowSeconds b;
     BucketCapacity := rb_BucketCapacity b; RefillRate := rb_RefillRate b |}.

(** [writeProjectError] *)
Definition writeProjectError (e : goerror) (rw : writer) : writer :=
  if Is e ErrProjectExists then WriteError 409 "project_exists" rw
  else if Is e ErrTenantNotFound then WriteError 404 "project_not_found" rw
  else if Is e ErrInvalidInput then WriteError 400 (Error e) rw
  else unavailable rw.

Section Projects.
Context `{!GoJSON} `{!UUIDText} {W : Type} `{!ProjectService W}.

(** [decodeBody]: [None] has been answered 400. *)
Definition decodeBody {S} (read : json -> option S) (limit : Z) (r : Request) : option S :=
  raw ← ReadAll_limited limit r; Unmarshal read raw.

(** [ProjectHandler.Create] *)
Definition console_Create : Handler W := fun r rw w =>
  match decodeBody read_createProjectBody (2 ^ 20) r with
  | None => (bad_request rw, w)
  | Some body =>
      let rules := map toEntity (cp_Rules body) in
      match svc_CreateProject (cp_Name body) (cp_KeyHash body) (cp_KeyPrefix body) RoleAdmin rules w with
      | (Err e, w1) => (writeProjectError e rw, w1)
      | (Ok tenantID, w1) =>
          (WriteJSON 201 (JObject [("id", JUUID tenantID); ("name", JString (cp_Name body));
                                   ("rules", JInt (Z.of_nat (length rules)))]) rw, w1)
      end
  end.

(** [ProjectHandler.Me] *)
Definition console_Me : Handler W := fun r rw w =>
  match TenantIDFromContext r with
  | None => (unauthorized rw, w)
  | Some tenantID =>
      match svc_GetProject tenantID w with
      | (Err e, w1) =>
          (if Is e ErrTenantNotFound then WriteError 404 "project_not_found" rw else unavailable rw, w1)
      | (Ok p, w1) => (WriteJSON 200 (projectPayload p) rw, w1)
      end
  end.

(** [ProjectHandler.AddKey] *)
Definition console_AddKey : Handler W := fun r rw w =>
  match TenantIDFromContext r with
  | None => (unauthorized rw, w)
  | Some tenantID =>
      match decodeBody read_addKeyBody (2 ^ 20) r with
      | None => (bad_request rw, w)
      | Some body =>
          let role := if String.eqb (akb_Role body) "" then RoleCheck else akb_Role body in
          match svc_AddAPIKey tenantID (akb_KeyHash body) (akb_KeyPrefix body) role w with
          | (Err e, w1) => (writeProjectError e rw, w1)
          | (Ok _, w1) => (WriteHeader 201 rw, w1)
          end
      end
  end.

(** The answer to a revocation, the same for both callers. *)
Definition answer_revoke (tenantID keyID : uuid) (rw : writer) (w : W) : writer * W :=
  match svc_RevokeAPIKey tenantID keyID w with
  | (Ok _, w1) => (WriteHeader 204 rw, w1)
  | (Err e, w1) =>
      (if Is e ErrAPIKeyNotFound then WriteError 404 "key_not_found" rw else unavailable rw, w1)
  end.

(** [ProjectHandler.RevokeKey] *)
Definition console_RevokeKey : Handler W := fun r rw w =>
  match TenantIDFromContext r with
  | None => (unauthorized rw, w)
  | Some tenantID =>
      match uuid_Parse (PathValue r "keyId") with
      | Err _ => (bad_request rw, w)
      | Ok keyID => answer_revoke tenantID keyID rw w
      end
  end.

(** [createProjectResponse] *)
Definition createProjectResponse (tenantID : uuid) (name : string) (rules : list Rule) : json :=
  JObject [("tenant_id", JUUID tenantID); ("name", JString name); ("rules", JInt (Z.of_nat (length rules)))].

(** [AdminHandler.CreateProject] *)
Definition admin_CreateProject : Handler W := fun r rw w =>
  match decodeBody read_createProjectRequest (2 ^ 20) r with
  | None => (bad_request rw, w)
  | Some req =>
      let rules := map toEntity (cp_Rules req) in
      match svc_CreateProject (cp_Name req) (cp_KeyHash req) (cp_KeyPrefix req) RoleAdmin rules w with
      | (Err e, w1) =>
          (if Is e ErrProjectExists then WriteError 409 "project_exists" rw
           else if Is e ErrInvalidInput then WriteError 400 (Error e) rw
           else unavailable rw, w1)
      | (Ok tenantID, w1) =>
          (WriteJSON 201 (createProjectResponse tenantID (cp_Name req) rules) rw, w1)
      end
  end.

(** [AdminHandler.ListProjects] *)
Definition admin_ListProjects : Handler W := fun r rw w =>
  match svc_ListProjects w with
  | (Err _, w1) => (unavailable rw, w1)
  | (Ok projects, w1) => (WriteJSON 200 (JObject [("projects", JArray (map projectView projects))]) rw, w1)
  end.

(** [AdminHandler.AddKey] *)
Definition admin_AddKey : Handler W := fun r rw w =>
  match uuid_Parse (PathValue r "id") with
  | Err _ => (bad_request rw, w)
  | Ok tenantID =>
      match decodeBody read_addKeyRequest (2 ^ 16) r with
      | None => (bad_request rw, w)
      | Some req =>
          match svc_AddAPIKey tenantID (akr_KeyHash req) (akr_KeyPrefix req) RoleCheck w with
          | (Ok _, w1) => (WriteHeader 201 rw, w1)
          | (Err e, w1) =>
              (if Is e ErrTenantNotFound then WriteError 404 "project_not_found" rw
               else if Is e ErrProjectExists then WriteError 409 "key_exists" rw
               else if Is e ErrInvalidInput then WriteError 400 (Error e) rw
               else unavailable rw, w1)
          end
      end
  end.

(** [AdminHandler.RevokeKey] *)
Definition admin_RevokeKey : Handler W := fun r rw w =>
  match uuid_Parse (PathValue r "id") with
  | Err _ => (bad_request rw, w)
  | Ok tenantID =>
      match uuid_Parse (PathValue r "keyId") with
      | Err _ => (bad_request rw, w)
      | Ok keyID => answer_revoke tenantID keyID rw w
      end
  end.

End Projects.

(** ** Properties *)

(** What a check request looks like once it has been accepted. *)
Record check_request_ok (req : checkRequest) : Prop := {
  cro_route : cr_Route req <> "" /\ len (cr_Route req) <= 512;
  cro_subject : len (cr_Subject req) <= 256;
  cro_cost : 1 <= cr_Cost req <= 1000000
}.

Lemma parse_check_ok `{!GoJSON} r req : parse_check r = Some req -> check_request_ok req.
Proof.
  unfold parse_check. destruct (ReadAll_limited _ r) as [body|]; simpl; [|done].
  destruct (if 0 <? len body then _ else _) as [raw|]; simpl; [|done].
  unfold maxRouteLen, maxSubjectLen, maxCost.
  destruct (String.eqb_spec (TrimSpace (cr_Route raw)) "") as [|Hne]; [done|]. cbn [orb].
  destruct (Z.ltb_spec 512 (len (TrimSpace (cr_Route raw)))); [done|].
  destruct (Z.ltb_spec 256 (len (TrimSpace (cr_Subject raw)))); [done|].
  destruct (Z.leb_spec (cr_Cost raw) 0).
  - intros [= <-]. split; simpl; [done|lia|lia].
  - destruct (Z.ltb_spec 1000000 (cr_Cost raw)); [done|]. intros [= <-]. split; simpl; [done|lia|lia].
Qed.

Section Properties.
Context `{!GoJSON} `{!UUIDText} {W : Type} `{!GoClock W} `{!Prometheus W}.
Context `{!RateLimitChecker W} `{!TenantRepository W} `{!RuleRepository W} `{!ProjectService W}.

(** The check handler on every request.  A request that is not a POST, has
    no tenant in its context or has a body out of bounds is refused with 405,
    401 or 400 and touches nothing; any other asks the checker once, for the
    context's tenant and with a route of 1 to 512 bytes, a subject of at most
    256 bytes and a cost between 1 and 1000000, and the answer is 200 for an
    allowed request, 429 for a denied one and 503 when the checker fails. *)
Lemma CheckHandler_outcome r rw w :
  let '(rw', w') := CheckHandler r rw w in
  (w' = w /\
   ((Method r <> "POST" /\ rw' = WriteError 405 "method_not_allowed" rw) \/
    (ctx_tenant r = None /\ rw' = unauthorized rw) \/
    (parse_check r = None /\ rw' = bad_request rw))) \/
  (exists tenantID req, ctx_tenant r = Some tenantID /\ parse_check r = Some req /\ check_request_ok req /\
     let '(d, w1) := checker_Check tenantID (cr_Route req) (cr_Subject req) (cr_Cost req) w in
     match d with
     | Ok decision =>
         rw' = WriteJSON (if Allowed decision then 200 else 429) (checkResponse decision)
                 (ApplyRateLimitHeaders decision rw) /\
         w' = RecordRateLimitCheck decision None (Now w1 - Now w) w1
     | Err e => rw' = unavailable rw /\ w' = RecordRateLimitCheck zero_decision (Some e) (Now w1 - Now w) w1
     end).
Proof.
  unfold CheckHandler, TenantIDFromContext.
  destruct (String.eqb_spec (Method r) "POST") as [Hm|Hm]; cbn [negb]; [|left; auto].
  destruct (ctx_tenant r) as [tid|] eqn:Et; [|left; auto].
  destruct (parse_check r) as [req|] eqn:Ep; [|left; auto 6].
  destruct (checker_Check tid _ _ _ w) as [[d|e] w1] eqn:Ec; right; exists tid, req;
    (split; [done|]); (split; [done|]); (split; [by eapply parse_check_ok|]); rewrite Ec; done.
Qed.

(** Configuration is private to its tenant.  The rules route answers with
    rules only when the id in the path is the tenant of the request's key, and
    then with that tenant's rules; every other request is answered 400, 401,
    404 or 503 without rules. *)
Theorem ListTenantRules_own r rw w :
  let '(rw', w') := ListTenantRules r rw w in
  (exists tenantID w1 rules, ctx_tenant r = Some tenantID /\ uuid_Parse (PathValue r "id") = Ok tenantID /\
     is_ok (fst (GetByID tenantID w)) = true /\ w1 = snd (GetByID tenantID w) /\
     ListByTenant tenantID w1 = (Ok rules, w') /\
     rw' = WriteJSON 200 (JObject [("rules", JArray (map ruleResponse rules))]) rw) \/
  (exists status msg, rw' = WriteError status msg rw /\ status ∈ [400; 401; 404; 503]).
Proof.
  unfold ListTenantRules, TenantIDFromContext, unauthorized, bad_request, unavailable.
  assert (He : forall status msg (w' : W), status ∈ [400; 401; 404; 503] ->
    exists s m, WriteError status msg rw = WriteError s m rw /\ s ∈ [400; 401; 404; 503]) by eauto.
  destruct (ctx_tenant r) as [tid|]; [|right; apply He; [done|in_list]].
  destruct (uuid_Parse _) as [id|]; [|right; apply He; [done|in_list]].
  destruct (N.eqb_spec id tid) as [->|]; cbn [negb]; [|right; apply He; [done|in_list]].
  destruct (GetByID tid w) as [[t|] w1] eqn:Eg; [|right; apply He; [done|in_list]].
  destruct (ListByTenant tid w1) as [[rules|] w2] eqn:El; [|right; apply He; [done|in_list]].
  left. exists tid, w1, rules. rewrite Eg. done.
Qed.

End Properties.
