(* ===== verification/Client.v ===== *)
(** The Go client of the limiter ([examples/ratelimitclient/client.go]): the
    request it builds, how it reads the answer, and the round trip of a
    decision through the check handler and back.

    The transport ([http.Client.Do]) and the printing of JSON are parameters;
    the round trip needs that the scanner reads what the printer wrote. *)

From stdpp Require Import base gmap strings list.
From Stdlib Require Import ZArith NArith Lia Ascii.
From S2P Require Import Prelude Float64 GoStrings Domain Ports Http Observability Decode Strconv Handlers.

Local Open Scope Z_scope.

(** ** Requests and responses as the client sees them *)

Record http_request := { hr_Method : string; hr_URL : string; hr_Header : header; hr_Body : string }.

(** [Resp_fault]: reading fails after the bytes of the body. *)
Record http_response := {
  StatusCode : Z; Resp_Header : header; Resp_Body : string; Resp_fault : option goerror
}.

(** [http.NewRequestWithContext] fails on a URL that does not parse;
    [http.Client.Do] sends a request. *)
Class Transport (W : Type) := {
  bad_url : string -> option goerror;
  Do : http_request -> Op W http_response
}.

(** [json.Marshal], and the error of [json.Unmarshal] on a text *)
Class JSONText := {
  json_print : json -> string;
  unmarshal_error : string -> goerror
}.

(** [io.ReadAll(io.LimitReader(resp.Body, n))] *)
Definition ReadAll_response (n : Z) (resp : http_response) : result goerror string :=
  if n <=? len (Resp_Body resp) then Ok (String.substring 0 (Z.to_nat n) (Resp_Body resp))
  else match Resp_fault resp with
       | Some e => Err e
       | None => Ok (Resp_Body resp)
       end.

(** ** The client *)

Record Decision := {
  Decision_Allowed : bool; D_Limit : Z; D_Remaining : Z; D_ResetAt : Z; D_RetryAfter : Z; D_Algorithm : string
}.
Record Client := { BaseURL : string; Client_APIKey : string }.

(** [strings.TrimRight(s, "/")] *)
Fixpoint drop_slashes (l : list ascii) : list ascii :=
  match l with
  | c :: l' => if Ascii.eqb c "/" then drop_slashes l' else l
  | [] => []
  end.
Definition TrimRight_slash (s : string) : string := implode (rev (drop_slashes (rev (explode s)))).

(** [New] *)
Definition New (baseURL apiKey : string) : Client :=
  {| BaseURL := TrimRight_slash baseURL; Client_APIKey := apiKey |}.

(** The JSON of [checkRequest] *)
Definition checkRequest_json (route : string) (cost : Z) : json :=
  JObject [("route", JString route); ("cost", JInt cost)].

(** The client's own [checkResponse] *)
Record parsedResponse := {
  pr_Allowed : bool; pr_Limit : Z; pr_Remaining : Z; pr_ResetAt : Z;
  pr_RetryAfter : option Z; pr_Algorithm : string
}.
Definition zero_parsedResponse : parsedResponse := Build_parsedResponse false 0 0 0 None "".

Definition bool_into (old : bool) (v : json) : option bool :=
  match v with JBool b => Some b | JNull => Some old | _ => None end.
(** A [*int64] *)
Definition int64_ptr_into (v : json) : option (option Z) :=
  match v with JNull => Some None | _ => option_map Some (int64_into 0 v) end.

Section Client.
Context `{!GoJSON}.

Definition set_parsedResponse (key : string) (v : json) (s : parsedResponse) : option parsedResponse :=
  let '{| pr_Allowed := a; pr_Limit := l; pr_Remaining := m; pr_ResetAt := t; pr_RetryAfter := y;
          pr_Algorithm := g |} := s in
  if is_field "allowed" key then x ← bool_into a v; Some (Build_parsedResponse x l m t y g)
  else if is_field "limit" key then x ← int64_into l v; Some (Build_parsedResponse a x m t y g)
  else if is_field "remaining" key then x ← int64_into m v; Some (Build_parsedResponse a l x t y g)
  else if is_field "reset_at" key then x ← int64_into t v; Some (Build_parsedResponse a l m x y g)
  else if is_field "retry_after" key then x ← int64_ptr_into v; Some (Build_parsedResponse a l m t x g)
  else if is_field "algorithm" key then x ← string_into g v; Some (Build_parsedResponse a l m t y x)
  else Some s.

Context `{!JSONText}.

(** The last lines of [Check]: the [Retry-After] header stands in for a
    missing or zero [retry_after]. *)
Definition decision_of (p : parsedResponse) (h : header) : Decision :=
  let retry := default 0 (pr_RetryAfter p) in
  let retry :=
    if retry =? 0 then
      let v := Header_Get h "Retry-After" in
      if String.eqb v "" then retry
      else match ParseInt v with Ok n => n | Err _ => retry end
    else retry in
  {| Decision_Allowed := pr_Allowed p; D_Limit := pr_Limit p; D_Remaining := pr_Remaining p;
     D_ResetAt := pr_ResetAt p; D_RetryAfter := retry; D_Algorithm := pr_Algorithm p |}.

(** [Check] from the response on *)
Definition read_response (resp : http_response) : result goerror Decision :=
  respBody ← ReadAll_response (2 ^ 20) resp;
  if StatusCode resp =? 503 then Err (Text "rate limiter unavailable")
  else if StatusCode resp =? 401 then Err (Text "unauthorized")
  else if negb (StatusCode resp =? 200) && negb (StatusCode resp =? 429)
  then Err (Text ("unexpected status " +:+ FormatInt (StatusCode resp) +:+ ": " +:+ respBody))
  else
    match Unmarshal (object_into set_parsedResponse zero_parsedResponse) respBody with
    | None => Err (unmarshal_error respBody)
    | Some parsed => Ok (decision_of parsed (Resp_Header resp))
    end.

Context {W : Type} `{!Transport W}.

Definition check_call (c : Client) (route : string) (cost : Z) : http_request :=
  {| hr_Method := "POST"; hr_URL := BaseURL c +:+ "/v1/check";
     hr_Header := Header_Set (Header_Set ∅ "Content-Type" "application/json") "X-API-Key" (Client_APIKey c);
     hr_Body := json_print (checkRequest_json route cost) |}.

(** [Client.Check] *)
Definition Client_Check (c : Client) (route : string) (cost : Z) : Op W Decision := fun w =>
  let cost := if cost <=? 0 then 1 else cost in
  match bad_url (BaseURL c +:+ "/v1/check") with
  | Some e => (Err e, w)
  | None =>
      match Do (check_call c route cost) w with
      | (Err e, w1) => (Err e, w1)
      | (Ok resp, w1) => (read_response resp, w1)
      end
  end.

End Client.

(** ** Over the wire *)

Section Wire.
Context `{!JSONText}.

Definition chunk_text (c : chunk) : string :=
  match c with
  | Encoded j => json_print j +:+ newline
  | Printed s => s
  end.

(** What a client receives of a handler's writer *)
Definition received (rw : writer) : http_response :=
  {| StatusCode := answered rw;
     Resp_Header := match res_sent (base rw) with Some (_, h) => h | None => res_header (base rw) end;
     Resp_Body := String.concat "" (map chunk_text (res_body (base rw)));
     Resp_fault := None |}.

(** The request a handler receives from the address [remote]; [path] is the
    path of the URL. *)
Definition delivered (path remote : string) (q : http_request) : Request :=
  {| Method := hr_Method q; URL_Path := path; Req_Header := hr_Header q; Body_text := hr_Body q;
     Body_broken := false; RemoteAddr := remote; ctx_tenant := None; path_values := [] |}.

(** A transport that reaches the handler [h] *)
Definition wired {W} (path_of : string -> string) (remote : string) (h : Handler W) : Transport W :=
  {| bad_url := fun _ => None;
     Do := fun q w => let '(rw, w') := h (delivered (path_of (hr_URL q)) remote q) (Conn fresh_response) w in
                      (Ok (received rw), w') |}.

End Wire.

(** ** What the client reads of the handler's answer *)

(** The decision as the client reports it: a retry time is reported with
    refusals only. *)
Definition seen_by_client (d : RateLimitDecision) : Decision :=
  {| Decision_Allowed := Allowed d; D_Limit := Decision_Limit d; D_Remaining := Remaining d;
     D_ResetAt := ResetAt d; D_RetryAfter := default 0 (FormatRetryAfter d);
     D_Algorithm := Decision_Algorithm d |}.

Definition int64 (z : Z) : Prop := - 2 ^ 63 <= z < 2 ^ 63.
Definition int64_decision (d : RateLimitDecision) : Prop :=
  int64 (Decision_Limit d) /\ int64 (Remaining d) /\ int64 (ResetAt d) /\ int64 (RetryAfter d).

(** A value that the scanner reads back from its printed form, also with the
    newline of the encoder, and that fits the limit on bodies. *)
Definition survives `{!GoJSON, !JSONText} (j : json) : Prop :=
  json_scan (json_print j) = Some j /\ json_scan (json_print j +:+ newline) = Some j /\
  0 < len (json_print j) < 2 ^ 20 - 1.

Section RoundTrip.
Context `{!GoJSON, !JSONText}.

Local Abbreviation fill l s0 :=
  (fold_left (fun s kv => s ← s; set_parsedResponse (fst kv) (snd kv) s) l s0).

(** Decides which fields the keys at hand denote. *)
Ltac known_fields :=
  repeat match goal with
  | |- context [is_field ?n ?k] => first [change (is_field n k) with true | change (is_field n k) with false]
  end; cbv iota.

Lemma int64_into_ok old z : int64 z -> int64_into old (JInt z) = Some z.
Proof.
  intros [H1 H2]. unfold int64_into. by rewrite (proj2 (Z.leb_le _ _) H1), (proj2 (Z.ltb_lt _ _) H2).
Qed.

Lemma fill_limit a z m t y g : int64 z ->
  fill (omit_zero "limit" z) (Some (Build_parsedResponse a 0 m t y g)) = Some (Build_parsedResponse a z m t y g).
Proof.
  intros Hz. unfold omit_zero. destruct (Z.eqb_spec z 0) as [->|]; [done|]. cbn [fold_left fst snd mbind option_bind].
  unfold set_parsedResponse. known_fields. by rewrite int64_into_ok.
Qed.

Lemma fill_remaining a l z t y g : int64 z ->
  fill (omit_zero "remaining" z) (Some (Build_parsedResponse a l 0 t y g)) = Some (Build_parsedResponse a l z t y g).
Proof.
  intros Hz. unfold omit_zero. destruct (Z.eqb_spec z 0) as [->|]; [done|]. cbn [fold_left fst snd mbind option_bind].
  unfold set_parsedResponse. known_fields. by rewrite int64_into_ok.
Qed.

Lemma fill_reset a l m z y g : int64 z ->
  fill (omit_zero "reset_at" z) (Some (Build_parsedResponse a l m 0 y g)) = Some (Build_parsedResponse a l m z y g).
Proof.
  intros Hz. unfold omit_zero. destruct (Z.eqb_spec z 0) as [->|]; [done|]. cbn [fold_left fst snd mbind option_bind].
  unfold set_parsedResponse. known_fields. by rewrite int64_into_ok.
Qed.

Lemma fill_retry a l m t g d : int64 (RetryAfter d) ->
  fill (match FormatRetryAfter d with Some z => [("retry_after", JInt z)] | None => [] end)
    (Some (Build_parsedResponse a l m t None g)) = Some (Build_parsedResponse a l m t (FormatRetryAfter d) g).
Proof.
  intros Hz. unfold FormatRetryAfter. destruct (_ || _); [done|]. cbn [fold_left fst snd mbind option_bind].
  unfold set_parsedResponse. known_fields. unfold int64_ptr_into. by rewrite int64_into_ok.
Qed.

(** The body of an answer, read by the client *)
Lemma checkResponse_read d : int64_decision d ->
  object_into set_parsedResponse zero_parsedResponse (checkResponse d) =
  Some (Build_parsedResponse (Allowed d) (Decision_Limit d) (Remaining d) (ResetAt d) (FormatRetryAfter d)
          (Decision_Algorithm d)).
Proof.
  intros (Hl & Hm & Ht & Hr). unfold object_into, checkResponse. rewrite !fold_left_app.
  set (s1 := fold_left _ [("allowed", _)] _).
  assert (s1 = Some (Build_parsedResponse (Allowed d) 0 0 0 None "")) as -> by done.
  rewrite fill_limit, fill_remaining, fill_reset, fill_retry by done.
  destruct (String.eqb_spec (Decision_Algorithm d) "") as [->|]; done.
Qed.

(** A request of the client, read by the handler *)
Lemma check_call_parsed c route cost path remote tid :
  let route' := TrimSpace route in
  survives (checkRequest_json route cost) -> int64 cost -> 0 < cost <= maxCost ->
  route' <> "" -> len route' <= maxRouteLen ->
  parse_check (WithTenantID (delivered path remote (check_call c route cost)) tid) =
  Some {| cr_Route := route'; cr_Subject := ""; cr_Cost := cost |}.
Proof.
  cbn zeta. intros (Hs & _ & Hlen) Hi Hc Hne Hrl. unfold parse_check, ReadAll_limited, WithTenantID, delivered.
  cbn [Body_text Body_broken hr_Body check_call]. set (body := json_print (checkRequest_json route cost)) in *.
  rewrite (proj2 (Z.leb_gt _ _)) by lia. cbn [mbind option_bind]. rewrite (proj2 (Z.ltb_lt _ _)) by lia.
  unfold Unmarshal. rewrite Hs. cbn [mbind option_bind].
  replace (read_checkRequest (checkRequest_json route cost))
    with (Some {| cr_Route := route; cr_Subject := ""; cr_Cost := cost |}).
  - cbn [mbind option_bind cr_Route cr_Subject cr_Cost]. rewrite (proj2 (String.eqb_neq _ _) Hne).
    rewrite (proj2 (Z.ltb_ge _ _) Hrl). change (TrimSpace "") with "". cbn [orb].
    change (maxSubjectLen <? len "") with false. cbv iota. rewrite (proj2 (Z.leb_gt _ _)) by lia.
    by rewrite (proj2 (Z.ltb_ge _ _)) by lia.
  - unfold read_checkRequest, object_into, checkRequest_json. cbn [fold_left fst snd mbind option_bind].
    unfold set_checkRequest. known_fields. cbn [string_into mbind option_bind]. known_fields. by rewrite int64_into_ok.
Qed.

(** The headers of an answer leave the client with the same retry time. *)
Lemma decision_of_answer d (rw : writer) : int64_decision d ->
  Header_Get (res_header (base rw)) "Retry-After" = "" ->
  decision_of (Build_parsedResponse (Allowed d) (Decision_Limit d) (Remaining d) (ResetAt d) (FormatRetryAfter d)
                 (Decision_Algorithm d))
    (Header_Set (res_header (base (ApplyRateLimitHeaders d rw))) "Content-Type" "application/json") =
  seen_by_client d.
Proof.
  intros Hi Hh. unfold decision_of, seen_by_client. cbn [pr_RetryAfter pr_Allowed pr_Limit pr_Remaining pr_ResetAt pr_Algorithm].
  f_equal. destruct (Z.eqb_spec (default 0 (FormatRetryAfter d)) 0) as [E|E]; [|done].
  rewrite Header_Get_Set_other by done.
  assert (Hn : Header_Get (res_header (base (ApplyRateLimitHeaders d rw))) "Retry-After" = ""); [|by rewrite Hn].
  unfold ApplyRateLimitHeaders. destruct (_ && _); [done|]. unfold map_header. rewrite base_on_base. cbn [res_header].
  assert (Hf : negb (Allowed d) && (0 <? RetryAfter d) = false).
  { revert E. unfold FormatRetryAfter. destruct (Allowed d); [done|]. cbn [negb andb orb].
    bool_cases; try done; simpl; lia. }
  rewrite Hf. unfold HeaderRateLimitLimit, HeaderRateLimitRemaining, HeaderRateLimitReset.
  by rewrite !Header_Get_Set_other.
Qed.

End RoundTrip.

(** ** The round trip *)

Section Exchange.
Context `{!GoJSON, !JSONText} {W : Type} `{!GoClock W} `{!Prometheus W} `{!RateLimitChecker W}.

(** The check handler behind the authentication of the tenant [tid] *)
Definition authenticated (tid : uuid) : Handler W := fun r rw w => CheckHandler (WithTenantID r tid) rw w.

(** What an exchange about [route] needs: a route and a cost within the
    handler's bounds, and texts of the request and of the answer that the
    scanner reads back. *)
Definition exchange_ok (tid : uuid) (route : string) (cost : Z) (w : W) : Prop :=
  TrimSpace route <> "" /\ len (TrimSpace route) <= maxRouteLen /\ cost <= maxCost /\
  survives (checkRequest_json route cost) /\
  forall d, fst (checker_Check tid (TrimSpace route) "" cost w) = Ok d ->
    int64_decision d /\ survives (checkResponse d).

Definition read_by_client (r : result goerror RateLimitDecision) : result goerror Decision :=
  match r with
  | Ok d => Ok (seen_by_client d)
  | Err _ => Err (Text "rate limiter unavailable")
  end.

Lemma wired_check (c : Client) (tid : uuid) route cost path_of remote (w : W) :
  let cost' := if cost <=? 0 then 1 else cost in
  exchange_ok tid route cost' w ->
  fst (@Client_Check _ _ W (wired path_of remote (authenticated tid)) c route cost w) =
  read_by_client (fst (checker_Check tid (TrimSpace route) "" cost' w)).
Proof.
  cbn zeta. set (cost' := if cost <=? 0 then 1 else cost). intros (Hne & Hlen & Hcost & Hreq & Hres).
  assert (Hc : int64 cost' /\ 0 < cost' <= maxCost).
  { unfold int64, maxCost, cost' in *. bool_cases; lia. }
  unfold Client_Check. fold cost'. cbn [bad_url Do wired]. unfold authenticated, CheckHandler.
  rewrite check_call_parsed by tauto. cbn [Method WithTenantID delivered hr_Method check_call].
  change (negb (String.eqb "POST" "POST")) with false. 
  match goal with |- context [TenantIDFromContext ?r] => change (TenantIDFromContext r) with (Some tid) end.
  cbv iota. cbn [cr_Route cr_Subject cr_Cost].
  destruct (checker_Check tid (TrimSpace route) "" cost' w) as [[d|e] w1].
  - destruct (Hres d eq_refl) as [Hi (_ & Hscan & Hl)]. cbn [fst].
    set (rw0 := ApplyRateLimitHeaders d (Conn fresh_response)).
    assert (Hs : res_sent (base rw0) = None /\ res_body (base rw0) = []).
    { unfold rw0, ApplyRateLimitHeaders. by destruct (_ && _). }
    destruct Hs as [Hs Hb]. unfold received, answered. rewrite base_WriteJSON by done.
    cbn [res_sent res_body]. rewrite Hb. cbn [app map chunk_text String.concat].
    unfold read_response, ReadAll_response. cbn [Resp_Body Resp_fault StatusCode Resp_Header].
    assert (Hlen' : len (json_print (checkResponse d) +:+ newline) < 2 ^ 20).
    { unfold len in *. rewrite string_length_app. cbn [newline String.length]. lia. }
    rewrite (proj2 (Z.leb_gt _ _)) by done. cbn [mbind result_bind].
    assert (Hcode : CheckStatusCode d = 200 \/ CheckStatusCode d = 429).
    { unfold CheckStatusCode. destruct (Allowed d); auto. }
    assert (E : Unmarshal (object_into set_parsedResponse zero_parsedResponse)
                  (json_print (checkResponse d) +:+ newline) = Some (Build_parsedResponse (Allowed d)
        (Decision_Limit d) (Remaining d) (ResetAt d) (FormatRetryAfter d) (Decision_Algorithm d))).
    { unfold Unmarshal. rewrite Hscan. by apply checkResponse_read. }
    rewrite E. unfold rw0. rewrite decision_of_answer by done. destruct Hcode as [-> | ->]; reflexivity.
  - cbn [fst]. unfold read_response, ReadAll_response. by destruct (2 ^ 20 <=? _).
Qed.

(** C27: the client reads the limiter's decision.  When the Go client calls the
    check handler with a route that is non-empty after trimming and at most 512
    bytes, and a cost of at most 1000000, the checker is asked for the trimmed
    route without a subject, and the client's result is the checker's decision
    (a retry time with refusals only), or the error for an unavailable limiter
    when the checker fails. *)
Theorem client_reads_decision (c : Client) (tid : uuid) route cost path_of remote (w : W) :
  let cost' := if cost <=? 0 then 1 else cost in
  exchange_ok tid route cost' w ->
  fst (@Client_Check _ _ W (wired path_of remote (authenticated tid)) c route cost w) =
  match fst (checker_Check tid (TrimSpace route) "" cost' w) with
  | Ok d => Ok (seen_by_client d)
  | Err _ => Err (Text "rate limiter unavailable")
  end.
Proof. apply wired_check. Qed.

End Exchange.

(** ** A concrete exchange *)

Module Demo.

(** JSON text of flat objects whose strings need no escapes *)
Definition quoted (s : string) : string := let q := String (ascii_of_nat 34) "" in q +:+ s +:+ q.
Definition print_value (j : json) : string :=
  match j with
  | JBool b => if b then "true" else "false"
  | JInt z => FormatInt z
  | JString s => quoted s
  | _ => "null"
  end.
Definition print (j : json) : string :=
  match j with
  | JObject l => "{" +:+ String.concat "," (map (fun kv => quoted (fst kv) +:+ ":" +:+ print_value (snd kv)) l) +:+ "}"
  | _ => print_value j
  end.

Definition refusal : RateLimitDecision :=
  {| Allowed := false; Decision_Limit := 5; Remaining := 0; ResetAt := 1700000060; RetryAfter := 12;
     Decision_Algorithm := AlgorithmSlidingWindow |}.

#[local] Instance texts : JSONText := {| json_print := print; unmarshal_error s := Text s |}.

(** A scanner for the two texts of the exchange *)
Definition known : list json := [checkRequest_json " /login" 1; checkResponse refusal].
#[local] Instance scanner : GoJSON :=
  {| json_scan s := find (fun j => String.eqb s (print j) || String.eqb s (print j +:+ newline)) known;
     unicode_fold_eq a b := false |}.
#[local] Instance clock : GoClock unit := {| Now w := 0 |}.
#[local] Instance prom : Prometheus unit := {| Inc n l w := w; Observe n l d w := w |}.
#[local] Instance checker : RateLimitChecker unit := {| checker_Check t r s c w := (Ok refusal, w) |}.

Lemma client_reads_decision_witness :
  let c := New "http://limiter/" "rl_key" in
  BaseURL c = "http://limiter" /\
  fst (@Client_Check _ _ unit (wired (fun _ => "/v1/check") "10.0.0.9:4000" (authenticated 7%N)) c " /login" 0 tt) =
    Ok {| Decision_Allowed := false; D_Limit := 5; D_Remaining := 0; D_ResetAt := 1700000060; D_RetryAfter := 12;
          D_Algorithm := "sliding_window" |}.
Proof.
  cbn zeta. split; [reflexivity|].
  refine (client_reads_decision (New "http://limiter/" "rl_key") 7%N " /login" 0 (fun _ => "/v1/check")
            "10.0.0.9:4000" tt _).
  split; [by vm_compute|]. split; [by vm_compute|]. split; [by vm_compute|]. split; [vm_compute; repeat split|].
  intros d. cbn [fst]. intros Hd. injection Hd as <-. vm_compute. repeat split; discriminate.
Defined.

End Demo.
