(* ===== verification/Server.v ===== *)
(** The HTTP server ([internal/transport/http/server.go]): the routes, the
    pattern matching of [net/http.ServeMux] as far as these routes use it, and
    the middleware around them.

    A pattern here is a method and path segments, each a literal or a named
    wildcard that matches one non-empty segment.  Paths are taken without
    percent escapes. *)

From stdpp Require Import base gmap strings list.
From Stdlib Require Import ZArith NArith Lia Ascii.
From S2P Require Import Prelude Float64 GoStrings Domain Uuid Ports AuthService Http Observability Decode.
From S2P Require Import Middleware SignupLimit Handlers.

Local Open Scope Z_scope.

(** ** Paths *)

(** The segments of a path that starts with a slash *)
Definition segments (path : string) : list string := tail (split_on "/" (explode path) []).

(** [path.Clean] on the segments of a rooted path, the last element first *)
Definition clean_step (acc : list string) (seg : string) : list string :=
  if String.eqb seg "" || String.eqb seg "." then acc
  else if String.eqb seg ".." then tail acc
  else seg :: acc.

(** The mux's [cleanPath] *)
Definition cleanPath (path : string) : string :=
  let p := if HasPrefix path "/" then path else "/" +:+ path in
  let segs := rev (fold_left clean_step (segments p) []) in
  let np := "/" +:+ String.concat "/" segs in
  if HasSuffix p "/" && negb (String.eqb np "/") then np +:+ "/" else np.

(** ** Patterns *)

Inductive seg := Lit (s : string) | Wild (name : string).

Fixpoint match_path (pat : list seg) (path : list string) : option (list (string * string)) :=
  match pat, path with
  | [], [] => Some []
  | Lit s :: pat', p :: path' => if String.eqb s p then match_path pat' path' else None
  | Wild name :: pat', p :: path' =>
      if String.eqb p "" then None
      else option_map (cons (name, p)) (match_path pat' path')
  | _, _ => None
  end.

Record route (W : Type) := { rt_method : string; rt_pattern : list seg; rt_handler : Handler W }.
Arguments rt_method {W}.
Arguments rt_pattern {W}.
Arguments rt_handler {W}.
Definition mk_route {W} (m : string) (p : list seg) (h : Handler W) : route W :=
  {| rt_method := m; rt_pattern := p; rt_handler := h |}.

(** A GET pattern also serves HEAD. *)
Definition method_matches (pat m : string) : bool :=
  String.eqb pat m || (String.eqb pat "GET" && String.eqb m "HEAD").

Fixpoint find_route {W} (rts : list (route W)) (m : string) (path : list string)
    : option (Handler W * list (string * string)) :=
  match rts with
  | [] => None
  | rt :: rest =>
      match (if method_matches (rt_method rt) m then match_path (rt_pattern rt) path else None) with
      | Some vs => Some (rt_handler rt, vs)
      | None => find_route rest m path
      end
  end.

(** The methods some pattern allows on a path *)
Definition allowed_methods {W} (rts : list (route W)) (path : list string) : list string :=
  flat_map (fun rt => match match_path (rt_pattern rt) path with
                      | Some _ => if String.eqb (rt_method rt) "GET" then ["GET"; "HEAD"] else [rt_method rt]
                      | None => []
                      end) rts.

(** [http.ServeMux.ServeHTTP] *)
Definition ServeMux {W} (rts : list (route W)) : Handler W := fun r rw w =>
  let path := URL_Path r in
  if negb (String.eqb (Method r) "CONNECT") && negb (String.eqb (cleanPath path) path) then
    (http_Redirect (Method r) (cleanPath path) 301 rw, w)
  else
    match find_route rts (Method r) (segments path) with
    | Some (h, vs) => h (with_path_values r vs) rw w
    | None =>
        match allowed_methods rts (segments path) with
        | [] => (http_Error "404 page not found" 404 rw, w)
        | ms => (http_Error "Method Not Allowed" 405
                   (map_header (fun h => Header_Set h "Allow" (String.concat ", " ms)) rw), w)
        end
    end.

(** ** The server *)

(** [Dependencies]; the ports come from the classes of the world, the flags
    say which of the optional collaborators are not nil. *)
Record Dependencies (W : Type) := {
  HealthCheckers : list (Op W unit);
  has_Auth : bool;
  has_Check : bool;
  has_Projects : bool;
  AdminToken : string;
  DashboardOrigins : list string;
  has_Console : bool;
  has_AuthService : bool;
  BehindProxy : bool
}.
Arguments HealthCheckers {W}.
Arguments has_Auth {W}.
Arguments has_Check {W}.
Arguments has_Projects {W}.
Arguments AdminToken {W}.
Arguments DashboardOrigins {W}.
Arguments has_Console {W}.
Arguments has_AuthService {W}.
Arguments BehindProxy {W}.

(** The limiter that [NewMux] creates for sign-ups: 5 per hour. *)
Definition signup_limiter {W} (deps : Dependencies W) : signupLimiter :=
  new_limiter 5 3600000000000 (BehindProxy deps).

Section Server.
Context `{!GoJSON} `{!UUIDText} {W : Type} `{!GoClock W} `{!GoLog W} `{!Prometheus W} `{!SignupState W}.
Context `{!APIKeyRepository W} `{!TenantRepository W} `{!RuleRepository W}.
Context `{!RateLimitChecker W} `{!ProjectService W}.
(** [promhttp.Handler()] *)
Variable promhttp_Handler : Handler W.

Definition check_routes (deps : Dependencies W) : list (route W) :=
  if has_Check deps then
    let check := CheckHandler in
    let check := if has_AuthService deps then RequireCheckRole check else check in
    [mk_route "POST" [Lit "v1"; Lit "check"] check]
  else [].

Definition config_routes : list (route W) :=
  [mk_route "GET" [Lit "v1"; Lit "config"; Lit "tenants"] ListTenants;
   mk_route "GET" [Lit "v1"; Lit "config"; Lit "tenants"; Wild "id"; Lit "rules"] ListTenantRules].

Definition console_routes (deps : Dependencies W) : list (route W) :=
  if has_Console deps && has_AuthService deps then
    [mk_route "POST" [Lit "v1"; Lit "projects"] (SignupLimit console_Create);
     mk_route "GET" [Lit "v1"; Lit "projects"; Lit "me"] (ProjectAuth console_Me);
     mk_route "POST" [Lit "v1"; Lit "projects"; Lit "me"; Lit "keys"] (ProjectAuth console_AddKey);
     mk_route "DELETE" [Lit "v1"; Lit "projects"; Lit "me"; Lit "keys"; Wild "keyId"] (ProjectAuth console_RevokeKey)]
  else [].

Definition admin_routes (deps : Dependencies W) : list (route W) :=
  if has_Projects deps && negb (String.eqb (AdminToken deps) "") then
    let guard := AdminAuth (AdminToken deps) in
    [mk_route "GET" [Lit "v1"; Lit "admin"; Lit "projects"] (guard admin_ListProjects);
     mk_route "POST" [Lit "v1"; Lit "admin"; Lit "projects"] (guard admin_CreateProject);
     mk_route "POST" [Lit "v1"; Lit "admin"; Lit "projects"; Wild "id"; Lit "keys"] (guard admin_AddKey);
     mk_route "DELETE" [Lit "v1"; Lit "admin"; Lit "projects"; Wild "id"; Lit "keys"; Wild "keyId"]
       (guard admin_RevokeKey)]
  else [].

Definition routes (deps : Dependencies W) : list (route W) :=
  [mk_route "GET" [Lit "health"; Lit "live"] Live;
   mk_route "GET" [Lit "health"; Lit "ready"] (Ready (HealthCheckers deps))] ++
  check_routes deps ++ config_routes ++ console_routes deps ++ admin_routes deps ++
  [mk_route "GET" [Lit "metrics"] promhttp_Handler].

(** [NewMux] *)
Definition NewMux (deps : Dependencies W) : Handler W :=
  let handler := ServeMux (routes deps) in
  let handler := Metrics handler in
  let handler := Logging handler in
  let handler := if has_Auth deps then AuthOrPublic handler else handler in
  match DashboardOrigins deps with
  | [] => handler
  | _ => CORS (DashboardOrigins deps) handler
  end.

End Server.

Example cleanPath_dots : cleanPath "/v1/admin/../config//tenants/" = "/v1/config/tenants/".
Proof. vm_compute. reflexivity. Qed.

(** ** What the handlers are given *)

(** [w'] differs from [w] by log lines and metrics only. *)
Inductive observed `{GoLog W, Prometheus W} (w : W) : W -> Prop :=
  | observed_none : observed w w
  | observed_log msg kv w' : observed w w' -> observed w (slog_Info msg kv w')
  | observed_inc name labels w' : observed w w' -> observed w (Inc name labels w')
  | observed_time name labels d w' : observed w w' -> observed w (Observe name labels d w').

(** ** Lemmas *)

Lemma base_inner w : base (inner_writer w) = base w.
Proof. by destruct w. Qed.

Lemma base_Write c w : base (Write c w) =
  {| res_header := res_header (base w); res_sent := res_sent (send 200 (base w)); res_body := res_body (base w) ++ [c] |}.
Proof. unfold Write. by rewrite base_on_base. Qed.

Lemma answered_http_Error text code w : res_sent (base w) = None -> answered (http_Error text code w) = code.
Proof.
  intros Hs. unfold answered, http_Error. rewrite base_Write, base_WriteHeader. unfold send. simpl.
  by rewrite map_header_unsent, Hs.
Qed.

Lemma answered_http_Redirect m url code w : res_sent (base w) = None ->
  answered (http_Redirect m url code w) = code.
Proof.
  intros Hs. unfold answered, http_Redirect.
  destruct (String.eqb m "GET" || String.eqb m "HEAD"), (String.eqb m "GET");
    rewrite ?base_Write, base_WriteHeader; unfold send; simpl; rewrite ?map_header_unsent, ?Hs; done.
Qed.

Section Lemmas.
Context {W : Type} `{!GoClock W} `{!GoLog W} `{!Prometheus W}.

Lemma Metrics_response (next : Handler W) r rw w :
  base (fst (Metrics next r rw w)) = base (fst (next r (NewStatusWriter rw) w)).
Proof. unfold Metrics. destruct (next r (NewStatusWriter rw) w) as [sw w1]. apply base_inner. Qed.

Lemma Metrics_observed (next : Handler W) r rw w0 w : observed w0 (snd (next r (NewStatusWriter rw) w)) ->
  observed w0 (snd (Metrics next r rw w)).
Proof.
  unfold Metrics. destruct (next r (NewStatusWriter rw) w) as [sw w1]. simpl. intros Ho.
  unfold RecordHTTPRequest. by repeat constructor.
Qed.

(** Logging changes neither the response nor anything but the log. *)
Lemma Logging_response (next : Handler W) r rw w :
  exists rw1, base rw1 = base rw /\
    base (fst (Logging next r rw w)) = base (fst (next r rw1 w)) /\
    observed (snd (next r rw1 w)) (snd (Logging next r rw w)).
Proof.
  unfold Logging. destruct (skipRequestLog (URL_Path r)).
  - exists rw. split; [done|]. split; [done|constructor].
  - exists (NewStatusWriter rw). split; [done|].
    destruct (next r (NewStatusWriter rw) w) as [sw w1]. simpl. split; [apply base_inner|repeat constructor].
Qed.

Lemma observed_trans (w1 w2 w3 : W) : observed w1 w2 -> observed w2 w3 -> observed w1 w3.
Proof. intros H12 H23. induction H23; [done|by constructor..]. Qed.

(** What the inner middleware adds around the mux. *)
Lemma inner_response (next : Handler W) r rw w :
  exists rw1, base rw1 = base rw /\
    base (fst (Logging (Metrics next) r rw w)) = base (fst (next r rw1 w)) /\
    observed (snd (next r rw1 w)) (snd (Logging (Metrics next) r rw w)).
Proof.
  destruct (Logging_response (Metrics next) r rw w) as (rw1 & E1 & E2 & Ho).
  exists (NewStatusWriter rw1). split; [exact E1|]. split; [by rewrite E2, Metrics_response|].
  eapply observed_trans; [|exact Ho]. apply Metrics_observed. constructor.
Qed.

(** CORS answers a preflight itself, and passes any other request on with an
    unsent writer. *)
Definition preflight_answered (origins : list string) (r : Request) : bool :=
  negb (bool_decide (origins = [])) && String.eqb (Method r) "OPTIONS" &&
  negb (String.eqb (Header_Get (Req_Header r) "Access-Control-Request-Method") "").

Lemma not_preflight origins r : Method r <> "OPTIONS" -> preflight_answered origins r = false.
Proof. intros Hm. unfold preflight_answered. rewrite (proj2 (String.eqb_neq _ _) Hm). by rewrite andb_false_r. Qed.

Lemma CORS_outcome (next : Handler W) origins r rw w : res_sent (base rw) = None ->
  exists rw1, res_sent (base rw1) = None /\ res_body (base rw1) = res_body (base rw) /\
    (match origins with [] => next | _ => CORS origins next end) r rw w =
      if preflight_answered origins r then (WriteHeader 204 rw1, w) else next r rw1 w.
Proof.
  intros Hs. unfold preflight_answered. destruct origins as [|o origins]; [by exists rw|].
  rewrite bool_decide_eq_false_2 by done. cbn [negb andb]. unfold CORS. cbv zeta.
  destruct (bool_decide _ && _); [|by exists rw].
  exists (map_header (cors_headers (Header_Get (Req_Header r) "Origin")) rw).
  split; [by rewrite map_header_unsent|]. split; [|done]. unfold map_header. by rewrite base_on_base.
Qed.

Lemma CORS_response (next : Handler W) origins r rw w : res_sent (base rw) = None -> Method r <> "OPTIONS" ->
  exists rw1, res_sent (base rw1) = None /\ res_body (base rw1) = res_body (base rw) /\
    (match origins with [] => next | _ => CORS origins next end) r rw w = next r rw1 w.
Proof.
  intros Hs Hm. destruct (CORS_outcome next origins r rw w Hs) as (rw1 & H1 & H2 & E). exists rw1.
  by rewrite not_preflight in E.
Qed.

End Lemmas.

(** ** Properties *)

Section Properties.
Context `{!GoJSON} `{!UUIDText} {W : Type} `{!GoClock W} `{!GoLog W} `{!Prometheus W} `{!SignupState W}.
Context `{!APIKeyRepository W} `{!TenantRepository W} `{!RuleRepository W}.
Context `{!RateLimitChecker W} `{!ProjectService W}.
Variable promhttp_Handler : Handler W.

Lemma answered_same w1 w2 : base w1 = base w2 -> answered w1 = answered w2.
Proof. intros E. unfold answered. by rewrite E. Qed.

Lemma answered_refused rw rw' : res_sent (base rw) = None -> refused rw rw' ->
  answered rw' = 401 \/ answered rw' = 403 \/ answered rw' = 503.
Proof. intros Hs (status & msg & -> & Hst). by rewrite answered_WriteError. Qed.

Lemma ApplyRateLimitHeaders_base d rw : res_sent (base (ApplyRateLimitHeaders d rw)) = res_sent (base rw) /\
  res_body (base (ApplyRateLimitHeaders d rw)) = res_body (base rw).
Proof. unfold ApplyRateLimitHeaders. destruct (_ && _); [done|]. unfold map_header. by rewrite base_on_base. Qed.

Lemma body_WriteJSON status body rw : res_sent (base rw) = None ->
  res_body (base (WriteJSON status body rw)) = res_body (base rw) ++ [Encoded body].
Proof. intros Hs. by rewrite base_WriteJSON. Qed.

(** How far a check request comes before the checker: the tenant and the
    request for it, if it is accepted, and the world then. *)
Definition check_stage (r : Request) (w : W) : option (uuid * checkRequest) * W :=
  let key := Header_Get (Req_Header r) "X-API-Key" in
  match Authenticate key w with
  | (Err _, w1) => (None, w1)
  | (Ok tc, w1) =>
      match Authenticate key w1 with
      | (Err _, w2) => (None, w2)
      | (Ok tc', w2) =>
          (if String.eqb (APIKey_Role (TC_APIKey tc')) RoleAdmin then None
           else option_map (pair (Tenant_ID (TC_Tenant tc))) (parse_check r), w2)
      end
  end.

Lemma check_stage_ok r w tenantID req w2 : check_stage r w = (Some (tenantID, req), w2) -> check_request_ok req.
Proof.
  unfold check_stage. destruct (Authenticate _ w) as [[tc|e] w1]; [|done].
  destruct (Authenticate _ w1) as [[tc'|e] w2']; [|done]. destruct (String.eqb _ RoleAdmin); [done|].
  destruct (parse_check r) as [req'|] eqn:Ep; [|done]. intros [= _ <- _]. by eapply parse_check_ok.
Qed.

(** The answer to a request that is put to the checker. *)
Definition check_status (d : result goerror RateLimitDecision) : Z :=
  match d with Ok d => if Allowed d then 200 else 429 | Err _ => 503 end.

(** [rw'] answers the decision [d], as the only thing after [rw]. *)
Definition answers (d : result goerror RateLimitDecision) (rw rw' : writer) : Prop :=
  answered rw' = check_status d /\
  forall d', d = Ok d' -> res_body (base rw') = res_body (base rw) ++ [Encoded (checkResponse d')].

(** The check handler once the role is known, for an accepted request. *)
Lemma check_handler r rw w tenantID req : ctx_tenant r = Some tenantID -> res_sent (base rw) = None ->
  Method r = "POST" -> parse_check r = Some req ->
  let '(d, w1) := checker_Check tenantID (cr_Route req) (cr_Subject req) (cr_Cost req) w in
  answers d rw (fst (CheckHandler r rw w)) /\ observed w1 (snd (CheckHandler r rw w)).
Proof.
  intros Ht Hs Hm Hp. unfold CheckHandler, TenantIDFromContext. rewrite Hm, Ht, Hp.
  change (String.eqb "POST" "POST") with true. cbn [negb].
  destruct (checker_Check tenantID _ _ _ w) as [[d|e] w1]; cbn [fst snd]; unfold answers, check_status.
  - destruct (ApplyRateLimitHeaders_base d rw) as [E1 E2].
    rewrite answered_WriteJSON, body_WriteJSON, E2 by congruence.
    split; [split; [done|by intros ? [= <-]]|repeat constructor].
  - unfold unavailable. rewrite answered_WriteError by done. split; [done|repeat constructor].
Qed.

(** The mux behind Logging and Metrics, on the check route. *)
Lemma mux_check deps r rw w : has_Check deps = true -> has_AuthService deps = true ->
  Method r = "POST" -> URL_Path r = "/v1/check" ->
  ServeMux (routes promhttp_Handler deps) r rw w = RequireCheckRole CheckHandler (with_path_values r []) rw w.
Proof.
  intros Hc Ha Hm Hp. unfold ServeMux, routes, check_routes. by rewrite Hc, Ha, Hm, Hp.
Qed.

(** The check endpoint through every middleware: it asks the checker once, or
    not at all. *)
Lemma check_does deps r w :
  has_Auth deps = true -> has_Check deps = true -> has_AuthService deps = true ->
  Method r = "POST" -> URL_Path r = "/v1/check" ->
  let '(rw', w') := NewMux promhttp_Handler deps r (Conn fresh_response) w in
  let '(ask, w2) := check_stage r w in
  match ask with
  | None => answered rw' ∈ [400; 401; 403; 503] /\ observed w2 w'
  | Some (tenantID, req) =>
      let '(d, w3) := checker_Check tenantID (cr_Route req) (cr_Subject req) (cr_Cost req) w2 in
      answers d (Conn fresh_response) rw' /\ observed w3 w'
  end.
Proof.
  intros Hauth Hcheck Hsvc Hm Hp. unfold NewMux. rewrite Hauth.
  set (inner := Logging (Metrics (ServeMux (routes promhttp_Handler deps)))).
  destruct (CORS_response (AuthOrPublic inner) (DashboardOrigins deps) r (Conn fresh_response) w eq_refl)
    as (rw0 & Hs & Hb & E); [by rewrite Hm|].
  rewrite E. clear E. unfold AuthOrPublic. rewrite Hp.
  change (PublicPaths "/v1/check" || IsAdminPath "/v1/check" || IsProjectPath "/v1/check") with false.
  cbv iota. unfold Wrap, check_stage. destruct (Authenticate _ w) as [[tc|e] w1] eqn:Ea.
  2:{ split; [|constructor]. destruct (answered_refused rw0 _ Hs (refused_auth e rw0)) as [->|[->| ->]]; in_list. }
  set (r1 := WithTenantID r (Tenant_ID (TC_Tenant tc))).
  destruct (inner_response (ServeMux (routes promhttp_Handler deps)) r1 rw0 w1) as (rw1 & Eb & Er & Ho).
  fold inner in Er, Ho. rewrite (mux_check deps r1 rw1 w1 Hcheck Hsvc Hm Hp) in Er, Ho.
  assert (Hs1 : res_sent (base rw1) = None) by congruence.
  destruct (inner r1 rw0 w1) as [rw' w']. cbn [fst snd] in Er, Ho. apply answered_same in Er as Era.
  unfold RequireCheckRole in Er, Era, Ho.
  change (Req_Header (with_path_values r1 [])) with (Req_Header r) in Er, Era, Ho.
  destruct (Authenticate _ w1) as [[tc'|e] w2] eqn:Ea'.
  2:{ split; [|exact Ho]. rewrite Era. cbn [fst].
      destruct (answered_refused rw1 _ Hs1 (refused_auth e rw1)) as [->|[->| ->]]; in_list. }
  destruct (String.eqb (APIKey_Role (TC_APIKey tc')) RoleAdmin).
  { split; [|exact Ho]. rewrite Era. cbn [fst]. rewrite answered_WriteError by done. in_list. }
  destruct (parse_check r) as [req|] eqn:Ep; cbn [option_map].
  - pose proof (check_handler (with_path_values r1 []) rw1 w2 _ req eq_refl Hs1 Hm Ep) as Hc.
    cbn [Tenant_ID] in Hc. destruct (checker_Check _ _ _ _ w2) as [d w3]. destruct Hc as [[Hc1 Hc2] Hc3].
    split; [|by eapply observed_trans]. split; [by rewrite Era|].
    intros d' Hd. rewrite Er, (Hc2 d' Hd), Eb, Hb. done.
  - assert (E : CheckHandler (with_path_values r1 []) rw1 w2 = (bad_request rw1, w2)).
    { unfold CheckHandler. change (parse_check (with_path_values r1 [])) with (parse_check r).
      change (Method (with_path_values r1 [])) with (Method r). by rewrite Hm, Ep. }
    rewrite E in Era, Ho. split; [|exact Ho]. rewrite Era. cbn [fst]. unfold bad_request.
    rewrite answered_WriteError by done. in_list.
Qed.

(** The decisions among the answers *)
Lemma check_answers deps r w :
  has_Auth deps = true -> has_Check deps = true -> has_AuthService deps = true ->
  Method r = "POST" -> URL_Path r = "/v1/check" ->
  let '(rw', w') := NewMux promhttp_Handler deps r (Conn fresh_response) w in
  let key := Header_Get (Req_Header r) "X-API-Key" in
  answered rw' ∈ [400; 401; 403; 503] \/
  exists tc w1 tc' w2 req d w3,
    Authenticate key w = (Ok tc, w1) /\ Authenticate key w1 = (Ok tc', w2) /\
    APIKey_Role (TC_APIKey tc') <> RoleAdmin /\ parse_check r = Some req /\ check_request_ok req /\
    checker_Check (Tenant_ID (TC_Tenant tc)) (cr_Route req) (cr_Subject req) (cr_Cost req) w2 = (Ok d, w3) /\
    answered rw' = (if Allowed d then 200 else 429) /\ res_body (base rw') = [Encoded (checkResponse d)] /\
    observed w3 w'.
Proof.
  intros Ha Hc Hsvc Hm Hp. pose proof (check_does deps r w Ha Hc Hsvc Hm Hp) as Hd.
  destruct (NewMux _ _ _ _ _) as [rw' w']. unfold check_stage in Hd. cbn zeta in *.
  destruct (Authenticate _ w) as [[tc|e] w1] eqn:Ea; [|left; apply Hd].
  destruct (Authenticate _ w1) as [[tc'|e] w2] eqn:Ea'; [|left; apply Hd].
  destruct (String.eqb_spec (APIKey_Role (TC_APIKey tc')) RoleAdmin) as [|Hrole]; [left; apply Hd|].
  destruct (parse_check r) as [req|] eqn:Ep; [|left; apply Hd]. cbn [option_map] in Hd.
  destruct (checker_Check _ _ _ _ w2) as [[d|e] w3] eqn:Ek; destruct Hd as [[Hst Hbody] Hobs].
  - right. exists tc, w1, tc', w2, req, d, w3. repeat (split; [done|]).
    split; [by eapply parse_check_ok|]. repeat (split; [done|]). split; [by apply Hbody|done].
  - left. rewrite Hst. in_list.
Qed.

(** The answer to a preflight *)
Lemma preflight_answer (rw : writer) (w : W) : res_sent (base rw) = None -> res_body (base rw) = [] ->
  answered (WriteHeader 204 rw) = 204 /\ res_body (base (WriteHeader 204 rw)) = [] /\ w = w.
Proof. intros Hs Hb. split; [by apply answered_WriteHeader|]. rewrite base_WriteHeader. unfold send. by destruct (res_sent (base rw)). Qed.

(** C8: the rate-limit endpoint, end to end through every middleware.  POST
    /v1/check answers 200 or 429 only for a request whose X-API-Key
    authenticated an active key of an active tenant that is not an admin key,
    whose body is within the bounds, and for which the checker, asked for that
    tenant, allowed (200) or denied (429); the decision is the whole body,
    and after the checker only log lines and metrics are added.
    Everything else, every failure included, is answered 400, 401, 403 or 503. *)
Theorem check_endpoint deps r w :
  has_Auth deps = true -> has_Check deps = true -> has_AuthService deps = true ->
  Method r = "POST" -> URL_Path r = "/v1/check" ->
  let '(rw', w') := NewMux promhttp_Handler deps r (Conn fresh_response) w in
  let key := Header_Get (Req_Header r) "X-API-Key" in
  answered rw' ∈ [400; 401; 403; 503] \/
  exists tc w1 tc' w2 req d w3,
    Authenticate key w = (Ok tc, w1) /\ Authenticate key w1 = (Ok tc', w2) /\
    APIKey_Role (TC_APIKey tc') <> RoleAdmin /\ parse_check r = Some req /\ check_request_ok req /\
    checker_Check (Tenant_ID (TC_Tenant tc)) (cr_Route req) (cr_Subject req) (cr_Cost req) w2 = (Ok d, w3) /\
    answered rw' = (if Allowed d then 200 else 429) /\ res_body (base rw') = [Encoded (checkResponse d)] /\
    observed w3 w'.
Proof. apply check_answers. Qed.

(** C10: without a valid key nothing runs.  In a mux with authentication, as
    the server's, a request of any method outside the public, console and admin
    paths whose X-API-Key does not authenticate is answered with the status of
    the failure, and the lookups of the authentication are all it does: no handler, no metric and no log line.  The
    one exception is a CORS preflight (OPTIONS with
    Access-Control-Request-Method, where dashboard origins are configured): it
    is answered 204 without a body before the key is looked at, and does nothing. *)
Theorem api_requires_key deps r w e w1 :
  has_Auth deps = true ->
  PublicPaths (URL_Path r) = false -> IsAdminPath (URL_Path r) = false -> IsProjectPath (URL_Path r) = false ->
  Authenticate (Header_Get (Req_Header r) "X-API-Key") w = (Err e, w1) ->
  let '(rw', w') := NewMux promhttp_Handler deps r (Conn fresh_response) w in
  if preflight_answered (DashboardOrigins deps) r
  then answered rw' = 204 /\ res_body (base rw') = [] /\ w' = w
  else answered rw' = fst (MapAuthError e) /\ w' = w1.
Proof.
  intros Hauth H1 H2 H3 Ha. unfold NewMux. rewrite Hauth.
  set (inner := Logging (Metrics (ServeMux (routes promhttp_Handler deps)))).
  destruct (CORS_outcome (AuthOrPublic inner) (DashboardOrigins deps) r (Conn fresh_response) w eq_refl)
    as (rw0 & Hs & Hb & E). rewrite E. clear E.
  destruct (preflight_answered _ _); [by apply preflight_answer|].
  unfold AuthOrPublic. rewrite H1, H2, H3. cbn [orb]. unfold Wrap. rewrite Ha. split; [|done].
  unfold refuse_auth. destruct (MapAuthError e) as [st msg]. by apply answered_WriteError.
Qed.

Lemma find_route_in (rts : list (route W)) m path h vs : find_route rts m path = Some (h, vs) ->
  exists rt, rt ∈ rts /\ rt_handler rt = h /\ match_path (rt_pattern rt) path = Some vs /\
    method_matches (rt_method rt) m = true.
Proof.
  induction rts as [|rt rts IH]; cbn [find_route]; [done|].
  assert (Hrest : find_route rts m path = Some (h, vs) -> exists rt', rt' ∈ rt :: rts /\ rt_handler rt' = h /\
    match_path (rt_pattern rt') path = Some vs /\ method_matches (rt_method rt') m = true).
  { intros Hf. destruct (IH Hf) as (rt' & Hin & Hrt). exists rt'. split; [apply elem_of_cons; by right|done]. }
  destruct (method_matches (rt_method rt) m) eqn:Ek; [|exact Hrest].
  destruct (match_path (rt_pattern rt) path) as [vs'|] eqn:Em; [|exact Hrest].
  intros [= <- <-]. exists rt. split; [apply elem_of_cons; by left|done].
Qed.

(** A route matches nothing below /v1/admin, or is behind the admin token. *)
Definition admin_safe (token : string) (rt : route W) : Prop :=
  (forall rest, match_path (rt_pattern rt) ("v1" :: "admin" :: rest) = None) \/
  exists h, rt_handler rt = AdminAuth token h.

Lemma routes_admin_safe deps : Forall (admin_safe (AdminToken deps)) (routes promhttp_Handler deps).
Proof.
  unfold routes, check_routes, config_routes, console_routes, admin_routes. rewrite !Forall_app.
  assert (Hnone : forall m pat (h : Handler W), (forall rest, match_path pat ("v1" :: "admin" :: rest) = None) ->
    admin_safe (AdminToken deps) (mk_route m pat h)) by (intros; by left).
  destruct (has_Check deps), (has_Console deps && has_AuthService deps),
    (has_Projects deps && negb (String.eqb (AdminToken deps) ""));
    repeat split; repeat apply Forall_cons_2; try apply Forall_nil_2;
    try (apply Hnone; reflexivity); right; eexists; reflexivity.
Qed.

(** Every route below /v1/admin is behind the admin token. *)
Lemma admin_route_guarded deps m rest h vs :
  find_route (routes promhttp_Handler deps) m ("v1" :: "admin" :: rest) = Some (h, vs) ->
  exists h', h = AdminAuth (AdminToken deps) h'.
Proof.
  intros (rt & Hin & Hh & Hm & _)%find_route_in.
  destruct (proj1 (Forall_forall _ _) (routes_admin_safe deps) rt Hin) as [Hn|[h' E]].
  - by rewrite Hn in Hm.
  - exists h'. congruence.
Qed.

Lemma admin_segments t : exists rest, segments ("/v1/admin/" +:+ t) = "v1" :: "admin" :: rest.
Proof. unfold segments. rewrite explode_app. cbn. eauto. Qed.

(** The mux on an admin path without the token *)
Lemma mux_admin deps r rw w : IsAdminPath (URL_Path r) = true -> res_sent (base rw) = None ->
  ~ (AdminToken deps <> "" /\ exists p, Header_Get (Req_Header r) "Authorization" = "Bearer " +:+ p /\
       TrimSpace p = AdminToken deps) ->
  let '(rw', w') := ServeMux (routes promhttp_Handler deps) r rw w in
  answered rw' ∈ [301; 401; 404; 405; 503] /\ w' = w.
Proof.
  intros Hp%HasPrefix_spec Hs Hno. destruct Hp as [t Hp]. unfold AdminPathPrefix in Hp. unfold ServeMux.
  destruct (negb _ && negb _); [rewrite answered_http_Redirect by done; split; [in_list|done]|].
  destruct (admin_segments t) as [rest Hr]. rewrite Hp, Hr.
  destruct (find_route _ _ _) as [[h vs]|] eqn:Ef.
  - apply admin_route_guarded in Ef as [h' ->].
    destruct (AdminAuth_guard (AdminToken deps) h' (with_path_values r vs) rw w) as [(_ & H1 & H2)|[[-> _]|[-> _]]].
    + by destruct Hno.
    + rewrite answered_WriteError by done. split; [in_list|done].
    + rewrite answered_WriteError by done. split; [in_list|done].
  - destruct (allowed_methods _ _).
    + rewrite answered_http_Error by done. split; [in_list|done].
    + rewrite answered_http_Error by (by rewrite map_header_unsent). split; [in_list|done].
Qed.

(** C11: the admin API needs the token.  For a path below /v1/admin/, without
    the configured token in the Authorization header - or with no token
    configured - no handler runs, whatever the method: the answer is 301, 401,
    404, 405 or 503 and the request leaves nothing but metrics and a log line.
    Only a CORS preflight, which has no use for a token, is answered 204 without
    a body, and leaves nothing at all. *)
Theorem admin_requires_token deps r w :
  IsAdminPath (URL_Path r) = true ->
  ~ (AdminToken deps <> "" /\ exists p, Header_Get (Req_Header r) "Authorization" = "Bearer " +:+ p /\
       TrimSpace p = AdminToken deps) ->
  let '(rw', w') := NewMux promhttp_Handler deps r (Conn fresh_response) w in
  if preflight_answered (DashboardOrigins deps) r
  then answered rw' = 204 /\ res_body (base rw') = [] /\ w' = w
  else answered rw' ∈ [301; 401; 404; 405; 503] /\ observed w w'.
Proof.
  intros Hp Hno. unfold NewMux.
  set (inner := Logging (Metrics (ServeMux (routes promhttp_Handler deps)))).
  destruct (CORS_outcome (if has_Auth deps then AuthOrPublic inner else inner) (DashboardOrigins deps) r (Conn fresh_response) w eq_refl)
    as (rw0 & Hs & Hb & E). rewrite E. clear E.
  destruct (preflight_answered _ _); [by apply preflight_answer|].
  replace ((if has_Auth deps then AuthOrPublic inner else inner) r rw0 w) with (inner r rw0 w)
    by (destruct (has_Auth deps); [|done]; unfold AuthOrPublic; by rewrite Hp, orb_true_r).
  destruct (inner_response (ServeMux (routes promhttp_Handler deps)) r rw0 w) as (rw1 & Eb & Er & Ho).
  fold inner in Er, Ho. pose proof (mux_admin deps r rw1 w Hp ltac:(congruence) Hno) as Hx.
  destruct (ServeMux _ r rw1 w) as [rw2 w2]. destruct (inner r rw0 w) as [rw' w'].
  cbn [fst snd] in *. destruct Hx as [Hx ->]. split; [|done]. by rewrite (answered_same _ _ Er).
Qed.

End Properties.

(** ** Witnesses: a world with one check key *)

Module Demo.
#[local] Instance clock : GoClock unit := {| Now w := 0 |}.
#[local] Instance log : GoLog unit := {| slog_Info m kv w := w |}.
#[local] Instance prom : Prometheus unit := {| Inc n l w := w; Observe n l d w := w |}.
#[local] Instance signup : SignupState unit :=
  {| limiter_of w := new_limiter 5 3600 true; set_limiter l w := w; spare_room w := 0%nat |}.
Definition key : APIKey := {| APIKey_ID := 1%N; APIKey_TenantID := 7%N; KeyPrefix := "rl_";
  APIKey_Status := APIKeyStatusActive; APIKey_Role := RoleCheck |}.
#[local] Instance keys : APIKeyRepository unit := {| FindByHash h w := (Ok key, w) |}.
#[local] Instance tenants : TenantRepository unit :=
  {| GetByID t w := (Ok {| Tenant_ID := t; Tenant_Name := "demo"; Tenant_Status := TenantStatusActive |}, w) |}.
#[local] Instance rules : RuleRepository unit := {| ListByTenant t w := (Ok [], w); ListAll w := (Ok [], w) |}.
#[local] Instance checker : RateLimitChecker unit := {| checker_Check t r s c w := (Ok allow_decision, w) |}.
#[local] Instance projects : ProjectService unit := {|
  svc_CreateProject n h p r rs w := (Ok 7%N, w);
  svc_ListProjects w := (Ok [], w);
  svc_GetProject t w := (Err (Sentinel ErrTenantNotFound), w);
  svc_AddAPIKey t h p r w := (Ok tt, w);
  svc_RevokeAPIKey t k w := (Ok tt, w) |}.
#[local] Instance scanner : GoJSON :=
  {| json_scan s := Some (JObject [("route", JString "/login")]); unicode_fold_eq a b := false |}.
#[local] Existing Instance canonical.

Definition deps : Dependencies unit :=
  {| HealthCheckers := []; has_Auth := true; has_Check := true; has_Projects := true; AdminToken := "secret";
     DashboardOrigins := ["https://a.example"]; has_Console := true; has_AuthService := true; BehindProxy := true |}.
Definition metrics_page : Handler unit := fun r rw w => (rw, w).
Definition request (method path : string) (h : header) : Request :=
  {| Method := method; URL_Path := path; Req_Header := h; Body_text := "{}"; Body_broken := false;
     RemoteAddr := "203.0.113.9:4000"; ctx_tenant := None; path_values := [] |}.

Definition check_request : Request := request "POST" "/v1/check" (Header_Set ∅ "X-API-Key" "rl_key").

Lemma check_endpoint_witness :
  answered (fst (NewMux metrics_page deps check_request (Conn fresh_response) tt)) = 200 /\
  let '(rw', w') := NewMux metrics_page deps check_request (Conn fresh_response) tt in
  let key := Header_Get (Req_Header check_request) "X-API-Key" in
  answered rw' ∈ [400; 401; 403; 503] \/
  exists tc w1 tc' w2 req d w3,
    Authenticate key tt = (Ok tc, w1) /\ Authenticate key w1 = (Ok tc', w2) /\
    APIKey_Role (TC_APIKey tc') <> RoleAdmin /\ parse_check check_request = Some req /\ check_request_ok req /\
    checker_Check (Tenant_ID (TC_Tenant tc)) (cr_Route req) (cr_Subject req) (cr_Cost req) w2 = (Ok d, w3) /\
    answered rw' = (if Allowed d then 200 else 429) /\ res_body (base rw') = [Encoded (checkResponse d)] /\
    observed w3 w'.
Proof.
  split; [reflexivity|].
  exact (check_endpoint metrics_page deps check_request tt eq_refl eq_refl eq_refl eq_refl eq_refl).
Defined.

(** No key at all; and no key on a preflight *)
Definition bare_preflight (path : string) : Request :=
  request "OPTIONS" path (Header_Set (Header_Set ∅ "Origin" "https://a.example") "Access-Control-Request-Method" "POST").

Lemma api_requires_key_witness :
  let r := request "GET" "/v1/config/tenants" ∅ in
  let r' := bare_preflight "/v1/config/tenants" in
  (let '(rw', w') := NewMux metrics_page deps r (Conn fresh_response) tt in
   answered rw' = fst (MapAuthError (Sentinel ErrAPIKeyNotFound)) /\ w' = tt) /\
  (let '(rw', w') := NewMux metrics_page deps r' (Conn fresh_response) tt in
   answered rw' = 204 /\ res_body (base rw') = [] /\ w' = tt).
Proof.
  intros r r'.
  assert (Ha : forall r, r = request "GET" "/v1/config/tenants" ∅ \/ r = bare_preflight "/v1/config/tenants" ->
    Authenticate (Header_Get (Req_Header r) "X-API-Key") tt = (Err (Sentinel ErrAPIKeyNotFound), tt)) by (by intros ? [-> | ->]).
  split.
  - exact (api_requires_key metrics_page deps r tt _ _ eq_refl eq_refl eq_refl eq_refl (Ha r (or_introl eq_refl))).
  - exact (api_requires_key metrics_page deps r' tt _ _ eq_refl eq_refl eq_refl eq_refl (Ha r' (or_intror eq_refl))).
Defined.

(** The wrong token; and a preflight without one *)
Lemma admin_requires_token_witness :
  let r := request "GET" "/v1/admin/projects" (Header_Set ∅ "Authorization" "Bearer guess") in
  let r' := bare_preflight "/v1/admin/projects" in
  (let '(rw', w') := NewMux metrics_page deps r (Conn fresh_response) tt in
   answered rw' ∈ [301; 401; 404; 405; 503] /\ observed tt w') /\
  (let '(rw', w') := NewMux metrics_page deps r' (Conn fresh_response) tt in
   answered rw' = 204 /\ res_body (base rw') = [] /\ w' = tt).
Proof.
  intros r r'.
  assert (Hno : ~ (AdminToken deps <> "" /\ exists p,
    Header_Get (Req_Header r) "Authorization" = "Bearer " +:+ p /\ TrimSpace p = AdminToken deps)).
  { intros (_ & p & E & Ht). change (Header_Get (Req_Header r) "Authorization") with ("Bearer " +:+ "guess") in E.
    apply string_app_inj_l in E. subst p. vm_compute in Ht. discriminate. }
  assert (Hno' : ~ (AdminToken deps <> "" /\ exists p,
    Header_Get (Req_Header r') "Authorization" = "Bearer " +:+ p /\ TrimSpace p = AdminToken deps)).
  { intros (_ & p & E & _). by change (Header_Get (Req_Header r') "Authorization") with "" in E. }
  split.
  - exact (admin_requires_token metrics_page deps r tt eq_refl Hno).
  - exact (admin_requires_token metrics_page deps r' tt eq_refl Hno').
Defined.
End Demo.
