(* ===== verification/Frame.v ===== *)
(** What a request leaves alone.  A request reaches at most one route, and what
    happens around the route's handler is reading and observing
    ([NewMux_reaches]).  A relation on worlds that every port but the checker
    keeps to is kept by the whole server, for every request that is not a check
    ([keeps_NewMux]). *)

From stdpp Require Import base gmap strings list.
From Stdlib Require Import ZArith NArith Lia Ascii.
From S2P Require Import Prelude Float64 GoStrings Domain Uuid Ports AuthService Http Observability Decode.
From S2P Require Import Middleware SignupLimit Handlers Server.

Local Open Scope Z_scope.

(** An operation and a handler that keep to a relation *)
Definition keeps {W A} (P : W -> W -> Prop) (m : Op W A) : Prop := forall w, P w (snd (m w)).
Definition handler_keeps {W} (P : W -> W -> Prop) (h : Handler W) : Prop :=
  forall r rw w, P w (snd (h r rw w)).

(** The ports that read keep to [P]. *)
Class PortsRead `{SignupState W, APIKeyRepository W, TenantRepository W, RuleRepository W, ProjectService W}
    (P : W -> W -> Prop) : Prop := {
  rk_order :: PreOrder P;
  rk_signup l w : P w (set_limiter l w);
  rk_keys h : keeps P (FindByHash h);
  rk_tenants t : keeps P (GetByID t);
  rk_rules t : keeps P (ListByTenant t);
  rk_list : keeps P svc_ListProjects;
  rk_get t : keeps P (svc_GetProject t)
}.

(** The ports that write keep to [P], too. *)
Class PortsWrite `{SignupState W, APIKeyRepository W, TenantRepository W, RuleRepository W, ProjectService W}
    (P : W -> W -> Prop) : Prop := {
  pw_reads :: PortsRead P;
  pk_create n h p r rs : keeps P (svc_CreateProject n h p r rs);
  pk_add t h p r : keeps P (svc_AddAPIKey t h p r);
  pk_revoke t k : keeps P (svc_RevokeAPIKey t k)
}.

(** What is logged and measured keeps to [P]. *)
Class Observes `{GoLog W, Prometheus W} (P : W -> W -> Prop) : Prop := {
  rk_log msg kv w : P w (slog_Info msg kv w);
  rk_inc m labels w : P w (Inc m labels w);
  rk_observe m labels d w : P w (Observe m labels d w)
}.

(** One call on the way: [rest] starts where [m] ended. *)
Lemma keeps_then {W A} (P : W -> W -> Prop) `{!PreOrder P} (m : Op W A) w w' :
  keeps P m -> P (snd (m w)) w' -> P w w'.
Proof. intros Hm. by transitivity (snd (m w)). Qed.

Create HintDb keeps discriminated.

(** Follows the calls of a handler, one match at a time. *)
Ltac follow :=
  repeat match goal with
  | |- ?P ?w ?w => reflexivity
  | |- ?P ?w (snd (match ?m ?w with _ => _ end)) =>
      apply (keeps_then P m w); [solve [eauto with keeps]|];
      let E := fresh "E" in destruct (m w) as [[?|?] ?] eqn:E; cbn [snd]
  | |- ?P ?w (snd ((match ?c with _ => _ end) _)) => destruct c; cbn [snd]
  | |- ?P ?w (snd (match ?c with _ => _ end)) => destruct c; cbn [snd]
  | |- _ => progress (cbn zeta)
  end.

Section Frame.
Context `{!GoJSON} `{!UUIDText} {W : Type} `{!GoClock W} `{!GoLog W} `{!Prometheus W} `{!SignupState W}.
Context `{!APIKeyRepository W} `{!TenantRepository W} `{!RuleRepository W}.
Context `{!RateLimitChecker W} `{!ProjectService W}.
Variable promhttp_Handler : Handler W.

(** ** Reading and observing *)

Section Reads.
Context (P : W -> W -> Prop) `{!PortsRead P}.
#[local] Hint Resolve rk_keys rk_tenants rk_rules rk_list rk_get : keeps.

Lemma keeps_observed `{!Observes P} w w' : observed w w' -> P w w'.
Proof.
  induction 1 as [|msg kv w' _ IH|n l w' _ IH|n l d w' _ IH]; [reflexivity|..];
    (etrans; [exact IH|]); [apply rk_log|apply rk_inc|apply rk_observe].
Qed.

Lemma keeps_Authenticate raw : keeps P (Authenticate raw).
Proof. intros w. unfold Authenticate, fail, mret, Op_ret, mbind, Op_bind. follow. Qed.
#[local] Hint Resolve keeps_Authenticate : keeps.

Lemma keeps_AdminAuth token h : handler_keeps P h -> handler_keeps P (AdminAuth token h).
Proof. intros Hh r rw w. unfold AdminAuth. follow; apply Hh. Qed.

Lemma keeps_ProjectAuth h : handler_keeps P h -> handler_keeps P (ProjectAuth h).
Proof. intros Hh r rw w. unfold ProjectAuth. follow; apply Hh. Qed.

Lemma keeps_SignupLimit h : handler_keeps P h -> handler_keeps P (SignupLimit h).
Proof.
  intros Hh r rw w. unfold SignupLimit. destruct (allow _ _ _ _) as [ok l].
  transitivity (set_limiter l w); [apply rk_signup|]. destruct ok; [apply Hh|reflexivity].
Qed.

Lemma keeps_Ready checkers : Forall (keeps P) checkers -> handler_keeps P (Ready checkers).
Proof.
  induction 1 as [|ping checkers Hp _ IH]; intros r rw w; cbn [Ready]; [reflexivity|].
  apply (keeps_then P ping w _ Hp). destruct (ping w) as [[[]|e] w1]; cbn [snd]; [apply IH|reflexivity].
Qed.

Lemma keeps_Live : handler_keeps P Live.
Proof. intros r rw w. reflexivity. Qed.

Lemma keeps_ListTenants : handler_keeps P ListTenants.
Proof. intros r rw w. unfold ListTenants. follow. Qed.

Lemma keeps_ListTenantRules : handler_keeps P ListTenantRules.
Proof. intros r rw w. unfold ListTenantRules. follow. Qed.

Lemma keeps_console_Me : handler_keeps P console_Me.
Proof. intros r rw w. unfold console_Me. follow. Qed.

Lemma keeps_admin_ListProjects : handler_keeps P admin_ListProjects.
Proof. intros r rw w. unfold admin_ListProjects. follow. Qed.

Lemma keeps_CheckHandler `{!Observes P} : (forall t r s c, keeps P (checker_Check t r s c)) ->
  handler_keeps P (RequireCheckRole CheckHandler).
Proof.
  intros Hchecker r rw w. unfold RequireCheckRole, CheckHandler, TenantIDFromContext, RecordRateLimitCheck. follow;
    (etrans; [apply rk_observe|apply rk_inc]).
Qed.

(** ** The way to a route *)

(** The request as a route's handler gets it: with the tenant of the API key,
    where one is asked for, and the values of the pattern. *)
Definition routed (r : Request) (tenant : option uuid) (vs : list (string * string)) : Request :=
  with_path_values (match tenant with Some t => WithTenantID r t | None => r end) vs.

(** The route is one for the request, whose path is clean. *)
Record reached (rts : list (route W)) (r : Request) (rt : route W) (vs : list (string * string)) : Prop := {
  rd_in : rt ∈ rts;
  rd_method : method_matches (rt_method rt) (Method r) = true;
  rd_path : match_path (rt_pattern rt) (segments (URL_Path r)) = Some vs;
  rd_clean : Method r = "CONNECT" \/ cleanPath (URL_Path r) = URL_Path r
}.

Lemma ServeMux_reaches rts r rw w : snd (ServeMux rts r rw w) = w \/
  exists rt vs, reached rts r rt vs /\ ServeMux rts r rw w = rt_handler rt (with_path_values r vs) rw w.
Proof.
  unfold ServeMux. destruct (negb _ && negb _) eqn:Eclean; [by left|].
  destruct (find_route rts (Method r) (segments (URL_Path r))) as [[h vs]|] eqn:Ef.
  2:{ left. by destruct (allowed_methods rts _). }
  apply find_route_in in Ef as (rt & Hin & <- & Hm & Hk). right. exists rt, vs. split; [|done].
  constructor; [done..|]. apply andb_false_iff in Eclean as [Hc|Hc]; apply negb_false_iff, String.eqb_eq in Hc; auto.
Qed.

(** Before and after the route's handler the server reads and observes. *)
Lemma NewMux_reaches `{!Observes P} deps r rw w :
  let w' := snd (NewMux promhttp_Handler deps r rw w) in
  P w w' \/
  exists rt vs tenant rw1 w1, reached (routes promhttp_Handler deps) r rt vs /\ P w w1 /\
    P (snd (rt_handler rt (routed r tenant vs) rw1 w1)) w'.
Proof.
  unfold NewMux. set (rts := routes promhttp_Handler deps). set (inner := Logging (Metrics (ServeMux rts))).
  assert (Hinner : forall tenant rw' w0, P w w0 ->
    P w (snd (inner (match tenant with Some t => WithTenantID r t | None => r end) rw' w0)) \/
    exists rt vs rw1, reached rts r rt vs /\
      P (snd (rt_handler rt (routed r tenant vs) rw1 w0))
        (snd (inner (match tenant with Some t => WithTenantID r t | None => r end) rw' w0))).
  { intros tenant rw' w0 Hw0. set (r' := match tenant with Some t => _ | None => r end).
    destruct (inner_response (ServeMux rts) r' rw' w0) as (rw1 & _ & _ & Ho). fold inner in Ho.
    apply keeps_observed in Ho.
    destruct (ServeMux_reaches rts r' rw1 w0) as [E|(rt & vs & Hrt & E)]; rewrite E in Ho.
    - left. by etrans.
    - right. exists rt, vs, rw1. split; [|exact Ho]. destruct Hrt. by destruct tenant; constructor. }
  assert (Hauth : forall rw', let w' := snd ((if has_Auth deps then AuthOrPublic inner else inner) r rw' w) in
    P w w' \/ exists rt vs tenant rw1 w1, reached rts r rt vs /\ P w w1 /\
      P (snd (rt_handler rt (routed r tenant vs) rw1 w1)) w').
  { intros rw'. assert (Hplain : P w (snd (inner r rw' w)) \/ exists rt vs tenant rw1 w1, reached rts r rt vs /\ P w w1 /\
      P (snd (rt_handler rt (routed r tenant vs) rw1 w1)) (snd (inner r rw' w))).
    { destruct (Hinner None rw' w ltac:(reflexivity)) as [Hp|(rt & vs & rw1 & Hrt & Hp)]; [by left|right].
      exists rt, vs, None, rw1, w. split; [done|]. split; [reflexivity|done]. }
    destruct (has_Auth deps); [|exact Hplain]. unfold AuthOrPublic, Wrap. destruct (_ || _); [exact Hplain|].
    pose proof (keeps_Authenticate (Header_Get (Req_Header r) "X-API-Key") w) as Ha.
    destruct (Authenticate _ w) as [[tc|e] w1]; cbn [snd] in Ha; [|by left].
    destruct (Hinner (Some (Tenant_ID (TC_Tenant tc))) rw' w1 Ha) as [Hp|(rt & vs & rw1 & Hrt & Hp)]; [by left|right].
    by exists rt, vs, (Some (Tenant_ID (TC_Tenant tc))), rw1, w1. }
  destruct (DashboardOrigins deps); [apply Hauth|]. unfold CORS. destruct (_ && _); [left; reflexivity|apply Hauth].
Qed.

End Reads.

(** ** Requests that are not checks *)

Section Writes.
Context (P : W -> W -> Prop) `{!PortsWrite P}.
#[local] Hint Resolve pk_create pk_add pk_revoke : keeps.

Lemma keeps_create : handler_keeps P console_Create /\ handler_keeps P admin_CreateProject.
Proof. split; intros r rw w; unfold console_Create, admin_CreateProject; follow. Qed.

Lemma keeps_key_handlers : handler_keeps P console_AddKey /\ handler_keeps P console_RevokeKey /\
  handler_keeps P admin_AddKey /\ handler_keeps P admin_RevokeKey.
Proof.
  split_and!; intros r rw w; unfold console_AddKey, console_RevokeKey, admin_AddKey, admin_RevokeKey, answer_revoke; follow.
Qed.

(** Every route but the check route keeps to [P]. *)
Definition quiet_route (deps : Dependencies W) (rt : route W) : Prop :=
  handler_keeps P (rt_handler rt) \/ rt ∈ check_routes deps.

Lemma check_route_at deps rt : rt ∈ check_routes deps -> rt_method rt = "POST" /\ rt_pattern rt = [Lit "v1"; Lit "check"].
Proof. unfold check_routes. destruct (has_Check deps); [|by intros ?%elem_of_nil]. by intros ->%list_elem_of_singleton. Qed.

Lemma routes_quiet deps : handler_keeps P promhttp_Handler ->
  Forall (keeps P) (HealthCheckers deps) -> Forall (quiet_route deps) (routes promhttp_Handler deps).
Proof.
  intros Hprom Hping. assert (Hreads : PortsRead P) by apply _. destruct keeps_create as [Hc1 Hc2]. destruct keeps_key_handlers as (Hk1 & Hk2 & Hk3 & Hk4).
  unfold routes, config_routes, console_routes, admin_routes. rewrite !Forall_app.
  destruct (has_Console deps && has_AuthService deps), (has_Projects deps && negb (String.eqb (AdminToken deps) ""));
    repeat split; try (apply Forall_forall; by right); repeat apply Forall_cons_2; try apply Forall_nil_2;
    left; cbn [rt_handler mk_route];
    auto using keeps_SignupLimit, keeps_ProjectAuth, keeps_AdminAuth, keeps_Ready, keeps_Live, keeps_ListTenants,
      keeps_ListTenantRules, keeps_console_Me, keeps_admin_ListProjects.
Qed.

(** A clean path with the segments of the check route is its path. *)
Lemma check_path path : cleanPath path = path -> segments path = ["v1"; "check"] -> path = "/v1/check".
Proof.
  intros Hc Hs. destruct (HasPrefix path "/") eqn:Hp.
  - unfold cleanPath in Hc. rewrite Hp, Hs in Hc.
    change (rev (fold_left clean_step ["v1"; "check"] [])) with ["v1"; "check"] in Hc.
    change ("/" +:+ String.concat "/" ["v1"; "check"]) with "/v1/check" in Hc.
    destruct (HasSuffix path "/" && _); [|done]. subst path. by vm_compute in Hs.
  - exfalso. unfold cleanPath in Hc. rewrite Hp in Hc. cbn zeta in Hc.
    assert (HasPrefix path "/" = true) as Hp'; [|congruence]. apply HasPrefix_spec. rewrite <- Hc.
    destruct (_ && _); [rewrite <- string_app_assoc|]; eexists; reflexivity.
Qed.

Lemma match_check path vs : match_path [Lit "v1"; Lit "check"] path = Some vs -> path = ["v1"; "check"].
Proof.
  destruct path as [|p1 [|p2 [|p3 path]]]; cbn [match_path]; [done|by destruct (String.eqb "v1" p1)| |].
  - destruct (String.eqb_spec "v1" p1) as [<-|]; [|done]. by destruct (String.eqb_spec "check" p2) as [<-|].
  - by destruct (String.eqb "v1" p1), (String.eqb "check" p2).
Qed.

Definition is_check (r : Request) : bool := String.eqb (Method r) "POST" && String.eqb (URL_Path r) "/v1/check".

(** Only a check reaches the check route. *)
Lemma reached_check rts r rt vs : reached rts r rt vs -> rt_method rt = "POST" ->
  rt_pattern rt = [Lit "v1"; Lit "check"] -> is_check r = true.
Proof.
  intros [_ Hk Hm Hc] Hpost Hpat. rewrite Hpat in Hm. apply match_check in Hm. rewrite Hpost in Hk.
  assert (Em : Method r = "POST").
  { unfold method_matches in Hk. apply orb_true_iff in Hk as [Hk|Hk]; [by apply String.eqb_eq in Hk|done]. }
  destruct Hc as [Hc|Hc]; [congruence|]. unfold is_check. by rewrite Em, (check_path _ Hc Hm).
Qed.

(** A request that is not a check keeps to [P]. *)
Lemma keeps_NewMux `{!Observes P} deps r rw w : handler_keeps P promhttp_Handler ->
  Forall (keeps P) (HealthCheckers deps) -> is_check r = false ->
  P w (snd (NewMux promhttp_Handler deps r rw w)).
Proof.
  intros Hprom Hping Hno. destruct (NewMux_reaches P deps r rw w) as [Hp|(rt & vs & tenant & rw1 & w1 & Hrt & Hw1 & Hw2)];
    [exact Hp|].
  destruct (proj1 (Forall_forall _ _) (routes_quiet deps Hprom Hping) rt (rd_in _ _ _ _ Hrt)) as [Hq|[Hpost Hpat]%check_route_at].
  - etrans; [exact Hw1|]. etrans; [apply Hq|exact Hw2].
  - by rewrite (reached_check _ _ _ _ Hrt Hpost Hpat) in Hno.
Qed.

End Writes.

End Frame.
