(* ===== verification/Browser.v ===== *)
(** The browser between a page and the server: [fetch] to another origin, with
    the preflight request and the checks of the answers that the Fetch standard
    asks for, and what the server's [CORS] middleware makes of them.

    No answer to a preflight is cached, and there are no credentials (cookies):
    the console sends its token in a header of its own. *)

From stdpp Require Import base gmap strings list.
From Stdlib Require Import ZArith NArith Lia Ascii.
From S2P Require Import Prelude Float64 GoStrings Domain Uuid Ports AuthService Http Observability Decode.
From S2P Require Import Middleware SignupLimit Handlers Client Server Frame.

Local Open Scope Z_scope.

Definition allow_origin : string := "Access-Control-Allow-Origin".

(** ** Fetch *)

(** Methods and headers that a page may use without a preflight *)
Definition simple_methods : list string := ["GET"; "HEAD"; "POST"].
Definition safelisted (h : string * list string) : bool :=
  let '(name, values) := h in
  bool_decide (name ∈ ["Accept"; "Accept-Language"; "Content-Language"]) ||
  (String.eqb name "Content-Type" &&
   forallb (fun v => bool_decide (v ∈ ["application/x-www-form-urlencoded"; "multipart/form-data"; "text/plain"])) values).
Definition unsafe_names (q : http_request) : list string :=
  map (fun h => ascii_lower (fst h)) (List.filter (fun h => negb (safelisted h)) (map_to_list (hr_Header q))).
Definition needs_preflight (q : http_request) : bool :=
  negb (bool_decide (hr_Method q ∈ simple_methods)) || negb (bool_decide (unsafe_names q = [])).

Definition preflight (origin : string) (q : http_request) : http_request :=
  let h := Header_Set (Header_Set ∅ "Origin" origin) "Access-Control-Request-Method" (hr_Method q) in
  {| hr_Method := "OPTIONS"; hr_URL := hr_URL q;
     hr_Header := match unsafe_names q with
                  | [] => h
                  | names => Header_Set h "Access-Control-Request-Headers" (String.concat "," names)
                  end;
     hr_Body := "" |}.

(** Header values go without the blanks around them; the request itself carries
    the page's origin. *)
Definition normalised (s : string) : string := implode (trimSpace (explode s)).
Definition cross_origin (origin : string) (q : http_request) : http_request :=
  {| hr_Method := hr_Method q; hr_URL := hr_URL q;
     hr_Header := Header_Set (map normalised <$> hr_Header q) "Origin" origin; hr_Body := hr_Body q |}.

(** The members of a list-valued header *)
Definition header_items (h : header) (name : string) : list string := flat_map splitAndTrim (default [] (h !! name)).

Definition cors_check (origin : string) (resp : http_response) : bool :=
  match Resp_Header resp !! allow_origin with
  | Some [v] => String.eqb v "*" || String.eqb v origin
  | _ => false
  end.

Definition preflight_ok (origin : string) (q : http_request) (resp : http_response) : bool :=
  let methods := header_items (Resp_Header resp) "Access-Control-Allow-Methods" in
  let headers := map ascii_lower (header_items (Resp_Header resp) "Access-Control-Allow-Headers") in
  cors_check origin resp && ((200 <=? StatusCode resp) && (StatusCode resp <=? 299)) &&
  (bool_decide (hr_Method q ∈ methods) || bool_decide (hr_Method q ∈ simple_methods) || bool_decide ("*" ∈ methods)) &&
  forallb (fun name => bool_decide (name ∈ headers) || (bool_decide ("*" ∈ headers) && negb (String.eqb name "authorization")))
    (unsafe_names q).

Section Fetch.
Context `{!JSONText} {W : Type}.
(** The page's origin, its address, and the path of a URL *)
Variable origin remote : string.
Variable path_of : string -> string.

Definition exchange (h : Handler W) (q : http_request) (w : W) : http_response * W :=
  let '(rw, w') := h (delivered (path_of (hr_URL q)) remote q) (Conn fresh_response) w in (received rw, w').

(** [fetch]: [None] is a rejected promise. *)
Definition fetch_via (h : Handler W) (q : http_request) (w : W) : option http_response * W :=
  let send w :=
    let '(resp, w') := exchange h (cross_origin origin q) w in
    (if cors_check origin resp then Some resp else None, w') in
  if needs_preflight q then
    let '(pre, w1) := exchange h (preflight origin q) w in
    if preflight_ok origin q pre then send w1 else (None, w1)
  else send w.

End Fetch.

(** ** What the handlers leave of a header *)

(** The header that the client receives *)
Definition answer_header (rw : writer) : header :=
  match res_sent (base rw) with Some (_, h) => h | None => res_header (base rw) end.

(** The allowed origin in it, as it stands *)
Definition carries (v : option (list string)) (rw : writer) : Prop := answer_header rw !! allow_origin = v.
Definition handler_carries {W} (v : option (list string)) (h : Handler W) : Prop :=
  forall r rw w, carries v rw -> carries v (fst (h r rw w)).

Create HintDb carried.

Lemma carries_base v rw rw' : base rw = base rw' -> carries v rw -> carries v rw'.
Proof. unfold carries, answer_header. by intros ->. Qed.

Lemma carries_send v code res : carries v (Conn res) -> carries v (Conn (send code res)).
Proof. unfold carries, answer_header, send. simpl. by destruct (res_sent res) as [[c h]|]. Qed.

Lemma carries_WriteHeader v code rw : carries v rw -> carries v (WriteHeader code rw).
Proof. intros H. apply (carries_base v (Conn (send code (base rw)))); [by rewrite base_WriteHeader|by apply carries_send]. Qed.

Lemma carries_Write v c rw : carries v rw -> carries v (Write c rw).
Proof.
  intros H. apply (carries_send v 200 (base rw)) in H. revert H. unfold carries, answer_header. by rewrite base_Write.
Qed.

Lemma carries_map v f rw : (forall h, h !! allow_origin = v -> f h !! allow_origin = v) ->
  carries v rw -> carries v (map_header f rw).
Proof.
  intros Hf. unfold carries, answer_header, map_header. rewrite base_on_base. simpl.
  destruct (res_sent (base rw)) as [[c h]|]; [done|apply Hf].
Qed.

Lemma Header_Set_origin h k s : canonical_key true k <> allow_origin -> Header_Set h k s !! allow_origin = h !! allow_origin.
Proof. intros Hk. unfold Header_Set. by rewrite lookup_insert_ne. Qed.

Ltac other_headers := apply carries_map; [by intros; rewrite ?Header_Set_origin|].

Lemma carries_WriteJSON v st body rw : carries v rw -> carries v (WriteJSON st body rw).
Proof. intros H. apply carries_Write, carries_WriteHeader. by other_headers. Qed.

Lemma carries_http_Error v text code rw : carries v rw -> carries v (http_Error text code rw).
Proof. intros H. apply carries_Write, carries_WriteHeader. by other_headers. Qed.

Lemma carries_http_Redirect v m url code rw : carries v rw -> carries v (http_Redirect m url code rw).
Proof.
  intros H. unfold http_Redirect. assert (Hh : carries v (WriteHeader code
    (if String.eqb m "GET" || String.eqb m "HEAD"
     then map_header (fun h => Header_Set h "Content-Type" "text/html; charset=utf-8") (map_header (fun h => Header_Set h "Location" url) rw)
     else map_header (fun h => Header_Set h "Location" url) rw))).
  { apply carries_WriteHeader. destruct (_ || _); repeat other_headers; done. }
  destruct (String.eqb m "GET"); [by apply carries_Write|done].
Qed.

Lemma carries_rate v d rw : carries v rw -> carries v (ApplyRateLimitHeaders d rw).
Proof.
  intros H. unfold ApplyRateLimitHeaders. destruct (_ && _); [done|]. apply carries_map; [|done]. intros h Hh.
  cbn zeta. destruct (_ && _); by rewrite ?Header_Set_origin.
Qed.

Lemma carries_new v rw : carries v (NewStatusWriter rw) <-> carries v rw.
Proof. done. Qed.

Lemma carries_inner v rw : carries v rw -> carries v (inner_writer rw).
Proof. by apply carries_base; rewrite base_inner. Qed.

Lemma carries_WriteError v st msg rw : carries v rw -> carries v (WriteError st msg rw).
Proof. apply carries_WriteJSON. Qed.

#[export] Hint Resolve carries_WriteHeader carries_Write carries_WriteJSON carries_WriteError carries_http_Error
  carries_http_Redirect carries_rate carries_inner : carried.
#[export] Hint Resolve <- carries_new : carried.

(** ** What the server leaves of it *)

(** Follows a handler to the writer it answers with. *)
Ltac follow_writer :=
  cbn [fst]; repeat match goal with
  | |- carries _ (fst (let '(_, _) := ?m in _)) => let E := fresh "E" in destruct m as [? ?] eqn:E; cbn [fst]
  | |- carries _ (fst (match ?c with _ => _ end)) => destruct c; cbn [fst]
  | |- carries _ (fst (match ?c with _ => _ end _)) => destruct c; cbn [fst]
  | |- carries _ (match ?c with _ => _ end) => destruct c; cbn [fst]
  end; auto with carried.

Section Carried.
Context `{!GoJSON} `{!UUIDText} {W : Type} `{!GoClock W} `{!GoLog W} `{!Prometheus W} `{!SignupState W}.
Context `{!APIKeyRepository W} `{!TenantRepository W} `{!RuleRepository W}.
Context `{!RateLimitChecker W} `{!ProjectService W}.
Variable promhttp_Handler : Handler W.
Variable v : option (list string).

#[local] Abbreviation carried := (handler_carries (W := W) v).

Lemma carried_handlers :
  carried CheckHandler /\ carried ListTenants /\ carried ListTenantRules /\ carried Live /\ carried console_Create /\
  carried console_Me /\ carried console_AddKey /\ carried console_RevokeKey /\ carried admin_CreateProject /\
  carried admin_ListProjects /\ carried admin_AddKey /\ carried admin_RevokeKey.
Proof.
  split_and!; intros r rw w Hc; unfold CheckHandler, ListTenants, ListTenantRules, Live, console_Create, console_Me,
    console_AddKey, console_RevokeKey, admin_CreateProject, admin_ListProjects, admin_AddKey, admin_RevokeKey,
    answer_revoke, writeProjectError, unauthorized, bad_request, unavailable; cbn zeta; follow_writer.
Qed.

Lemma carried_Ready checkers : carried (Ready checkers).
Proof.
  induction checkers as [|ping checkers IH]; intros r rw w Hc; cbn [Ready]; [by apply carries_WriteJSON|].
  destruct (ping w) as [[[]|e] w1]; [by apply IH|by apply carries_WriteJSON].
Qed.

Lemma carried_refuse_auth e rw : carries v rw -> carries v (refuse_auth e rw).
Proof. intros Hc. unfold refuse_auth. follow_writer. Qed.
#[local] Hint Resolve carried_refuse_auth : carried.

Lemma carried_guards (next : Handler W) token : carried next ->
  carried (AdminAuth token next) /\ carried (ProjectAuth next) /\ carried (RequireCheckRole next) /\
  carried (Wrap next) /\ carried (AuthOrPublic next).
Proof.
  intros Hn. assert (Hw : carried (Wrap next)).
  { intros r rw w Hc. unfold Wrap. follow_writer. }
  split_and!; [| | |done|]; intros r rw w Hc; unfold AdminAuth, ProjectAuth, RequireCheckRole, AuthOrPublic; follow_writer;
    first [by apply Hn|by apply Hw].
Qed.

Lemma carried_SignupLimit (next : Handler W) : carried next -> carried (SignupLimit next).
Proof.
  intros Hn r rw w Hc. unfold SignupLimit. destruct (allow _ _ _ _) as [ok l]. destruct (negb ok); [|by apply Hn].
  apply carries_WriteError. by other_headers.
Qed.

Lemma carried_inner (next : Handler W) : carried next -> carried (Logging (Metrics next)).
Proof.
  intros Hn r rw w Hc. destruct (inner_response next r rw w) as (rw1 & E1 & E2 & _).
  apply (carries_base _ _ _ (eq_sym E2)), Hn. by apply (carries_base _ _ _ (eq_sym E1)).
Qed.

Lemma carried_routes deps : carried promhttp_Handler ->
  Forall (fun rt => carried (rt_handler rt)) (routes promhttp_Handler deps).
Proof.
  intros Hprom. destruct carried_handlers as (? & ? & ? & ? & ? & ? & ? & ? & ? & ? & ? & ?).
  unfold routes, check_routes, config_routes, console_routes, admin_routes. rewrite !Forall_app.
  repeat match goal with |- context [if ?b then _ else _] => destruct b end;
    repeat split; repeat apply Forall_cons_2; try apply Forall_nil_2; cbn [rt_handler mk_route];
    first [assumption|by apply carried_Ready|by apply carried_SignupLimit
          |by apply (carried_guards _ (AdminToken deps))|by apply (carried_guards _ "")].
Qed.

Lemma carried_ServeMux rts : Forall (fun rt => carried (rt_handler rt)) rts -> carried (ServeMux rts).
Proof.
  intros Hrts r rw w Hc. unfold ServeMux. destruct (_ && _); [by apply carries_http_Redirect|].
  destruct (find_route rts _ _) as [[h vs]|] eqn:Ef.
  - apply find_route_in in Ef as (rt & Hin & <- & _). by apply (proj1 (Forall_forall _ _) Hrts rt Hin).
  - destruct (allowed_methods rts _); apply carries_http_Error; [done|]. by other_headers.
Qed.

(** Everything inside [CORS] *)
Definition behind_cors (deps : Dependencies W) : Handler W :=
  let handler := Logging (Metrics (ServeMux (routes promhttp_Handler deps))) in
  if has_Auth deps then AuthOrPublic handler else handler.

Lemma carried_behind_cors deps : carried promhttp_Handler -> carried (behind_cors deps).
Proof.
  intros Hprom. unfold behind_cors. pose proof (carried_inner _ (carried_ServeMux _ (carried_routes deps Hprom))) as Hi.
  destruct (has_Auth deps); [|done]. by apply (carried_guards _ "").
Qed.

End Carried.

(** ** A page and the server *)

Section Page.
Context `{!GoJSON} `{!JSONText} `{!UUIDText} {W : Type} `{!GoClock W} `{!GoLog W} `{!Prometheus W} `{!SignupState W}.
Context `{!APIKeyRepository W} `{!TenantRepository W} `{!RuleRepository W}.
Context `{!RateLimitChecker W} `{!ProjectService W}.
Variable promhttp_Handler : Handler W.
Context (Hprom : forall v, handler_carries v promhttp_Handler).
Context (origin remote : string) (path_of : string -> string) (Horigin : origin <> "").

(** A call that the console makes: to its part of the API, with a method and
    headers that the server allows, and not without a preflight *)
Record page_call (q : http_request) : Prop := {
  pc_path : IsProjectPath (path_of (hr_URL q)) = true;
  pc_method : hr_Method q ∈ ["GET"; "POST"; "DELETE"];
  pc_headers : Forall (fun name => name ∈ ["authorization"; "content-type"; "x-api-key"]) (unsafe_names q);
  pc_preflight : needs_preflight q = true
}.

Definition configured (deps : Dependencies W) : bool := bool_decide (origin ∈ allowed_origins (DashboardOrigins deps)).

Lemma behind_cors_eq deps : NewMux promhttp_Handler deps =
  match DashboardOrigins deps with
  | [] => behind_cors promhttp_Handler deps
  | _ => CORS (DashboardOrigins deps) (behind_cors promhttp_Handler deps)
  end.
Proof. done. Qed.

Lemma preflight_header q : Header_Get (hr_Header (preflight origin q)) "Origin" = origin /\
  Header_Get (hr_Header (preflight origin q)) "Access-Control-Request-Method" = hr_Method q.
Proof.
  unfold preflight. cbn [hr_Header]. destruct (unsafe_names q);
    rewrite ?(Header_Get_Set_other _ "Access-Control-Request-Headers") by done;
    rewrite (Header_Get_Set_other _ "Access-Control-Request-Method") by done; by rewrite !Header_Get_Set_same.
Qed.

(** The preflight of a configured origin goes well and changes nothing. *)
Lemma configured_preflight deps q w : configured deps = true -> page_call q ->
  exists pre, exchange remote path_of (NewMux promhttp_Handler deps) (preflight origin q) w = (pre, w) /\
    preflight_ok origin q pre = true.
Proof.
  intros Hc [_ Hm Hh _]. unfold exchange. rewrite behind_cors_eq.
  destruct (DashboardOrigins deps) as [|o os] eqn:Eo; [unfold configured in Hc; by rewrite Eo in Hc|]. rewrite <- Eo.
  unfold CORS, delivered. cbn [Method Req_Header]. destruct (preflight_header q) as [-> ->].
  unfold configured in Hc. rewrite Hc, (proj2 (String.eqb_neq _ _) Horigin). cbn [andb negb].
  assert (Hne : hr_Method q <> "") by (intros E; rewrite E in Hm; apply (bool_decide_pack _) in Hm; done).
  rewrite (proj2 (String.eqb_neq _ _) Hne). change (String.eqb (hr_Method (preflight origin q)) "OPTIONS") with true. cbn [andb negb].
  eexists. split; [reflexivity|]. unfold preflight_ok, cors_check, received. cbn [StatusCode Resp_Header].
  rewrite answered_WriteHeader by done. rewrite base_WriteHeader. unfold send, map_header. cbn [on_base base res_sent fresh_response res_header].
  set (h := cors_headers origin ∅).
  assert (Ho : h !! allow_origin = Some [origin]) by reflexivity. rewrite Ho, String.eqb_refl, orb_true_r. cbn [andb].
  change (header_items h "Access-Control-Allow-Methods") with ["GET"; "POST"; "DELETE"; "OPTIONS"].
  change (header_items h "Access-Control-Allow-Headers") with ["Authorization"; "Content-Type"; "X-API-Key"].
  rewrite (bool_decide_eq_true_2 (hr_Method q ∈ _)) by (revert Hm; rewrite !elem_of_cons; tauto). cbn [orb andb].
  apply forallb_forall. intros name Hn. apply orb_true_intro. left. apply bool_decide_eq_true_2.
  by apply (proj1 (List.Forall_forall _ _) Hh name Hn).
Qed.

(** No route answers OPTIONS. *)
Lemma no_options deps : Forall (fun rt : route W => method_matches (rt_method rt) "OPTIONS" = false) (routes promhttp_Handler deps).
Proof.
  unfold routes, check_routes, config_routes, console_routes, admin_routes. rewrite !Forall_app.
  repeat match goal with |- context [if ?b then _ else _] => destruct b end; repeat split; repeat constructor.
Qed.

Lemma options_observed deps r rw w : Method r = "OPTIONS" -> IsProjectPath (URL_Path r) = true ->
  observed w (snd (behind_cors promhttp_Handler deps r rw w)).
Proof.
  intros Hm Hp. unfold behind_cors. set (rts := routes promhttp_Handler deps).
  assert (Hi : observed w (snd (Logging (Metrics (ServeMux rts)) r rw w))).
  { destruct (inner_response (ServeMux rts) r rw w) as (rw1 & _ & _ & Ho).
    assert (E : snd (ServeMux rts r rw1 w) = w); [|by rewrite E in Ho].
    destruct (ServeMux_reaches rts r rw1 w) as [E|(rt & vs & [Hin Hmm _ _] & _)]; [exact E|].
    rewrite Hm, (proj1 (Forall_forall _ _) (no_options deps) rt Hin) in Hmm. done. }
  destruct (has_Auth deps); [|exact Hi]. unfold AuthOrPublic. by rewrite Hp, orb_true_r.
Qed.

(** The preflight of another origin fails, and leaves a log line at most. *)
Lemma foreign_preflight deps q w : configured deps = false -> IsProjectPath (path_of (hr_URL q)) = true ->
  let '(pre, w') := exchange remote path_of (NewMux promhttp_Handler deps) (preflight origin q) w in
  preflight_ok origin q pre = false /\ observed w w'.
Proof.
  intros Hc Hp. set (r := delivered (path_of (hr_URL (preflight origin q))) remote (preflight origin q)).
  assert (Hh : carries None (fst (NewMux promhttp_Handler deps r (Conn fresh_response) w)) /\
    observed w (snd (NewMux promhttp_Handler deps r (Conn fresh_response) w))).
  { assert (Hb : forall rw, carries None rw -> carries None (fst (behind_cors promhttp_Handler deps r rw w)) /\
      observed w (snd (behind_cors promhttp_Handler deps r rw w))).
    { intros rw Hrw. split; [by apply carried_behind_cors|by apply options_observed]. }
    rewrite behind_cors_eq. unfold configured in Hc. destruct (DashboardOrigins deps) as [|o os] eqn:Eo; [by apply Hb|].
    rewrite <- Eo in Hc |- *. unfold CORS. change (Req_Header r) with (hr_Header (preflight origin q)).
    destruct (preflight_header q) as [-> _]. rewrite Hc. cbn [andb].
    destruct (_ && _); [split; [by apply carries_WriteHeader|constructor]|by apply Hb]. }
  unfold exchange. fold r. destruct (NewMux promhttp_Handler deps r _ w) as [rw w']. destruct Hh as [Hh Ho].
  split; [|exact Ho]. unfold preflight_ok, cors_check. change (Resp_Header (received rw)) with (answer_header rw).
  cbn [fst] in Hh. unfold carries in Hh. by rewrite Hh.
Qed.

(** The answer to a configured origin tells the browser so. *)
Lemma configured_answer deps q w : configured deps = true -> page_call q ->
  let '(resp, w') := exchange remote path_of (NewMux promhttp_Handler deps) (cross_origin origin q) w in
  cors_check origin resp = true.
Proof.
  intros Hc [_ Hm _ _]. unfold exchange. rewrite behind_cors_eq.
  destruct (DashboardOrigins deps) as [|o os] eqn:Eo; [unfold configured in Hc; by rewrite Eo in Hc|]. rewrite <- Eo.
  set (r := delivered _ _ _).
  assert (Hcarry : carries (Some [origin]) (fst (CORS (DashboardOrigins deps) (behind_cors promhttp_Handler deps) r (Conn fresh_response) w))).
  { unfold CORS. change (Req_Header r) with (Header_Set (map normalised <$> hr_Header q) "Origin" origin). rewrite Header_Get_Set_same.
    unfold configured in Hc. rewrite Hc, (proj2 (String.eqb_neq _ _) Horigin). cbn [andb negb].
    assert (Hno : String.eqb (Method r) "OPTIONS" = false).
    { apply String.eqb_neq. change (Method r) with (hr_Method q). intros E. rewrite E in Hm. apply (bool_decide_pack _) in Hm. done. }
    rewrite Hno. cbn [andb]. by apply carried_behind_cors. }
  destruct (CORS _ _ r _ w) as [rw w']. unfold cors_check. change (Resp_Header (received rw)) with (answer_header rw).
  unfold carries in Hcarry. cbn [fst] in Hcarry. by rewrite Hcarry, String.eqb_refl, orb_true_r.
Qed.

(** What a page gets of the server *)
Lemma fetch_answer deps q w : page_call q ->
  let '(answer, w') := fetch_via origin remote path_of (NewMux promhttp_Handler deps) q w in
  if configured deps then
    let '(rw, w1) := NewMux promhttp_Handler deps (delivered (path_of (hr_URL q)) remote (cross_origin origin q))
                       (Conn fresh_response) w in
    answer = Some (received rw) /\ w' = w1
  else answer = None /\ observed w w'.
Proof.
  intros Hq. unfold fetch_via. rewrite (pc_preflight q Hq). destruct (configured deps) eqn:Hc.
  - destruct (configured_preflight deps q w Hc Hq) as (pre & -> & ->).
    pose proof (configured_answer deps q w Hc Hq) as Ha. unfold exchange in *. cbn [hr_URL cross_origin] in *.
    destruct (NewMux _ _ _ _ _) as [rw w1]. by rewrite Ha.
  - pose proof (foreign_preflight deps q w Hc (pc_path q Hq)) as Hf.
    destruct (exchange _ _ _ (preflight origin q) w) as [pre w1]. by destruct Hf as [-> Ho].
Qed.

(** C14: the configured origins, and no others.  A call of the console's from a
    page of an origin on the list (after the trimming that [CORS] does) passes
    the browser's checks: the page gets the very answer that the server's
    handler gives to the call, whatever its status.  From any other origin the
    call is never sent: the page gets no answer, and the preflight leaves the
    server as it was but for a log line and metrics. *)
Theorem cors_gate deps q w : page_call q ->
  let '(answer, w') := fetch_via origin remote path_of (NewMux promhttp_Handler deps) q w in
  if bool_decide (origin ∈ allowed_origins (DashboardOrigins deps)) then
    let '(rw, w1) := NewMux promhttp_Handler deps (delivered (path_of (hr_URL q)) remote (cross_origin origin q))
                       (Conn fresh_response) w in
    answer = Some (received rw) /\ w' = w1
  else answer = None /\ observed w w'.
Proof. apply fetch_answer. Qed.

End Page.

Module Demo.
Import Server.Demo.
#[local] Existing Instances clock log prom signup keys tenants rules checker projects scanner canonical.
#[local] Instance printer : JSONText := {| json_print j := "{}"; unmarshal_error s := Text "json" |}.

Definition load : http_request :=
  {| hr_Method := "GET"; hr_URL := "/v1/projects/me"; hr_Header := Header_Set ∅ "Authorization" "Bearer rl_key"; hr_Body := "" |}.

Lemma load_page_call : page_call id load.
Proof. by split; [|apply (bool_decide_unpack _)| |]; try (vm_compute; repeat constructor). Qed.

Lemma cors_gate_witness :
  fst (fetch_via "https://a.example" "203.0.113.9:4000" id (NewMux metrics_page deps) load tt) <> None /\
  let '(answer, w') := fetch_via "https://b.example" "203.0.113.9:4000" id (NewMux metrics_page deps) load tt in
  answer = None /\ observed tt w'.
Proof.
  assert (Hprom : forall v, handler_carries v metrics_page) by (intros v r rw w H; exact H).
  split.
  - pose proof (cors_gate metrics_page Hprom "https://a.example" "203.0.113.9:4000" id ltac:(discriminate) deps load tt load_page_call) as H.
    change (bool_decide ("https://a.example" ∈ allowed_origins (DashboardOrigins deps))) with true in H.
    destruct (fetch_via _ _ _ _ _ _) as [answer w']. destruct (NewMux _ _ _ _ _) as [rw w1]. by destruct H as [-> _].
  - exact (cors_gate metrics_page Hprom "https://b.example" "203.0.113.9:4000" id ltac:(discriminate) deps load tt load_page_call).
Defined.
End Demo.
