(* ===== verification/Console.v ===== *)
(** The console ([web/src/api.js] and the actions of [web/src/App.jsx]): the
    key that the browser makes, the calls of the API, and the session - the
    token in the tab's storage, the token and the project on the page, and the
    messages - as a state that the user's actions change.

    Texts are kept in UTF-8, as [fetch] and [TextEncoder] send them.  Rendering
    is left out.  An action is given by its parts, up to a call of the API and
    from the answer on, and as a whole, with nothing in between; [Session] puts
    the parts together as the browser runs them, interleaved with each other and
    with what the user does meanwhile.  [fetch] and [crypto.getRandomValues] act
    on the world. *)

From stdpp Require Import base gmap strings list.
From Stdlib Require Import ZArith NArith Lia Ascii SpecFloat.
From S2P Require Import Prelude Float64 GoStrings Sha256 Domain Ports AuthService Provisioning Http Observability Decode Client.

Local Open Scope Z_scope.

(** ** JavaScript *)

(** [JSON.stringify], [JSON.parse] ([None]: it throws), the digits of a number
    beyond [2 ^ 53], which are not all its own, and the lower case of a text
    beyond ASCII *)
Class JavaScript := {
  stringify : json -> string;
  parse : string -> option json;
  large_number : float -> json;
  unicode_toLowerCase : string -> string
}.

(** [toLowerCase] *)
Definition toLowerCase `{!JavaScript} (s : string) : string :=
  if forallb is_ascii_byte (explode s) then implode (map lower_byte (explode s)) else unicode_toLowerCase s.

(** [trim]: white space is that of Go but for U+0085, and the byte order mark. *)
Definition js_spaces : list (list ascii) :=
  map (map byte_of) [[239; 187; 191]]%nat ++
  List.filter (fun w => negb (bool_decide (w = map byte_of [194; 133]%nat))) space_encodings.
Definition js_trim (s : string) : string :=
  let left := fun l => strip_all (length l) js_spaces l in
  let right := fun l => rev (strip_all (length l) (map (@rev ascii) js_spaces) (rev l)) in
  implode (right (left (explode s))).

(** The whole number that a double is, if it is one *)
Definition whole (f : float) : option Z :=
  match f with
  | S754_zero _ => Some 0
  | S754_finite _ _ _ => if sval f mod one =? 0 then Some (sval f / one) else None
  | _ => None
  end.

(** A number in a JSON text; an infinite one is written [null]. *)
Definition number_json `{!JavaScript} (f : float) : json :=
  match whole f with
  | Some z => if Z.abs z <=? 2 ^ 53 then JInt z else large_number f
  | None => if finb f then JFloat f else JNull
  end.

(** [Number(x) || 0], for a number or [undefined] *)
Definition or_zero (x : option float) : float :=
  match x with
  | None | Some S754_nan | Some (S754_zero _) => of_Z 0
  | Some f => f
  end.

(** [data?.error]: the last of the fields with that name *)
Definition field (name : string) (j : json) : option json :=
  match j with
  | JObject fields => option_map snd (last (List.filter (fun kv => String.eqb (fst kv) name) fields))
  | _ => None
  end.

(** A value that [||] keeps *)
Definition truthy (v : option json) : bool :=
  match v with
  | None | Some JNull | Some (JBool false) => false
  | Some (JInt z) => negb (z =? 0)
  | Some (JFloat (S754_nan | S754_zero _)) => false
  | Some (JString s) => negb (String.eqb s "")
  | _ => true
  end.

(** ** The key *)

Record generated := { raw : string; hash : string; prefix : string }.

Definition letter_or_digit (c : ascii) : bool := alnum (lower_byte c).

(** [b.toString(16).padStart(2, '0')] over the bytes, joined, is the
    hexadecimal text of [GoStrings]. *)
Definition slug (projectName : string) : string :=
  let s := implode (map lower_byte (List.filter letter_or_digit (explode projectName))) in
  if String.eqb s "" then "project" else s.

(** [generateKey], for the bytes of [crypto.getRandomValues] *)
Definition generateKey (projectName : string) (bytes : list Z) : generated :=
  let raw := "rl_" +:+ slug projectName +:+ "_" +:+ hex_encode bytes in
  {| raw := raw; hash := hex_encode (Sum256 (bytes_of_string raw)); prefix := "rl_" +:+ slug projectName +:+ "_" |}.

(** ** The project form *)

(** A rule as the form keeps it: a missing field is [None]. *)
Record draft := {
  dr_pattern : string; dr_algorithm : string; dr_enabled : option bool;
  dr_limit_count : option float; dr_window_seconds : option float;
  dr_bucket_capacity : option float; dr_refill_rate : option float
}.

(** The rules of [PRESETS] *)
Definition preset_sliding (pattern : string) (limit window : Z) : draft :=
  {| dr_pattern := pattern; dr_algorithm := "sliding_window"; dr_enabled := None;
     dr_limit_count := Some (of_Z limit); dr_window_seconds := Some (of_Z window);
     dr_bucket_capacity := None; dr_refill_rate := None |}.
Definition half : float := fdiv (of_Z 1) (of_Z 2).
Definition PRESETS : list draft :=
  [ preset_sliding "/login/*" 10 900; preset_sliding "/intake/*" 5 600;
    {| dr_pattern := "/ai/*"; dr_algorithm := "token_bucket"; dr_enabled := None;
       dr_limit_count := None; dr_window_seconds := None;
       dr_bucket_capacity := Some (of_Z 10); dr_refill_rate := Some half |} ].

(** The replacement text of [replace(/^\//, text)] in a text that goes on with
    [rest]: a dollar sign makes a reference to the match or to what is around it. *)
Fixpoint expand (rest : string) (text : list ascii) : string :=
  match text with
  | "$"%char :: "$"%char :: text' => "$" +:+ expand rest text'
  | "$"%char :: "&"%char :: text' => "/" +:+ expand rest text'
  | "$"%char :: "`"%char :: text' => expand rest text'
  | "$"%char :: "'"%char :: text' => rest +:+ expand rest text'
  | c :: text' => String c (expand rest text')
  | [] => ""
  end.

(** [addPreset] for the trimmed lower-case [name] in the form: the pattern's
    first slash is replaced by the name between slashes. *)
Definition scoped (name pattern : string) : string :=
  match pattern with
  | String "/"%char rest =>
      expand rest (explode ("/" +:+ (if String.eqb name "" then "app" else name) +:+ "/")) +:+ rest
  | _ => pattern
  end.
Definition addPreset (name : string) (preset : draft) (rules : list draft) : list draft :=
  let p := scoped name (dr_pattern preset) in
  if existsb (fun r => String.eqb (dr_pattern r) p) rules then rules
  else rules ++ [{| dr_pattern := p; dr_algorithm := dr_algorithm preset; dr_enabled := Some true;
                    dr_limit_count := dr_limit_count preset; dr_window_seconds := dr_window_seconds preset;
                    dr_bucket_capacity := dr_bucket_capacity preset; dr_refill_rate := dr_refill_rate preset |}].

(** [onSave] of the rule editor, for its draft *)
Definition saveRule (d : draft) (rules : list draft) : list draft :=
  let p := js_trim (dr_pattern d) in
  if String.eqb p "" then rules
  else if existsb (fun r => String.eqb (dr_pattern r) p) rules then rules
  else rules ++ [{| dr_pattern := p; dr_algorithm := dr_algorithm d; dr_enabled := dr_enabled d;
                    dr_limit_count := dr_limit_count d; dr_window_seconds := dr_window_seconds d;
                    dr_bucket_capacity := dr_bucket_capacity d; dr_refill_rate := dr_refill_rate d |}].

(** Removing the rule at an index *)
Definition removeRule (i : nat) (rules : list draft) : list draft := take i rules ++ drop (S i) rules.

(** The states of [NewProject]: the name as typed, and the rules *)
Record form := { fm_name : string; fm_rules : list draft }.
Definition empty_form : form := {| fm_name := ""; fm_rules := [] |}.

Section Form.
Context `{!JavaScript}.
Definition form_name (f : form) : string := toLowerCase (js_trim (fm_name f)).
Definition nameOk (f : form) : bool := MatchString projectNameRe (form_name f).
Definition canCreate (f : form) (busy : bool) : bool := nameOk f && negb (bool_decide (fm_rules f = [])) && negb busy.

(** What the user does to the form: typing the name, a click on a preset, a rule
    saved in the editor, a rule removed *)
Inductive edit := TypeName (s : string) | ClickPreset (n : nat) | SaveRule (d : draft) | RemoveRule (i : nat).
Definition with_rules (f : form) (rules : list draft) : form := {| fm_name := fm_name f; fm_rules := rules |}.
Definition apply_edit (f : form) (e : edit) : form :=
  match e with
  | TypeName s => {| fm_name := s; fm_rules := fm_rules f |}
  | ClickPreset n =>
      match PRESETS !! n with
      | Some p => with_rules f (addPreset (form_name f) p (fm_rules f))
      | None => f
      end
  | SaveRule d => with_rules f (saveRule d (fm_rules f))
  | RemoveRule i => with_rules f (removeRule i (fm_rules f))
  end.
Definition edited (edits : list edit) : form := fold_left apply_edit edits empty_form.
End Form.

(** [humanWindow], for a number of seconds *)
Definition humanWindow (s : Z) : string :=
  if s =? 0 then "—"
  else if Z.rem s 3600 =? 0 then FormatInt (s / 3600) +:+ " " +:+ (if s / 3600 =? 1 then "hour" else "hours")
  else if Z.rem s 60 =? 0 then FormatInt (s / 60) +:+ " min"
  else FormatInt s +:+ " sec".

Example humanWindow_hour : map humanWindow [3600; 7200; 900; 61] = ["1 hour"; "2 hours"; "15 min"; "61 sec"].
Proof. vm_compute. reflexivity. Qed.

Section Payload.
Context `{!JavaScript}.

(** The rules in the payload of [handleCreate] *)
Definition rule_payload (r : draft) : json :=
  let bucket := String.eqb (dr_algorithm r) "token_bucket" in
  let unless (b : bool) (x : option float) := number_json (if b then of_Z 0 else or_zero x) in
  JObject
    [("route_pattern", JString (dr_pattern r)); ("algorithm", JString (dr_algorithm r));
     ("enabled", JBool (default true (dr_enabled r)));
     ("limit_count", unless bucket (dr_limit_count r)); ("window_seconds", unless bucket (dr_window_seconds r));
     ("bucket_capacity", unless (negb bucket) (dr_bucket_capacity r)); ("refill_rate", unless (negb bucket) (dr_refill_rate r))].

Definition project_payload (name : string) (key : generated) (rules : list draft) : json :=
  JObject [("name", JString name); ("key_hash", JString (hash key)); ("key_prefix", JString (prefix key));
           ("rules", JArray (map rule_payload rules))].

Definition key_payload (key : generated) : json :=
  JObject [("key_hash", JString (hash key)); ("key_prefix", JString (prefix key)); ("role", JString "check")].

End Payload.

(** ** The session *)

(** [sessionStorage] under the token's key: access throws, or an item is there *)
Inductive storage := Blocked | Stored (item : option string).

Definition getToken (s : storage) : string :=
  match s with Stored (Some t) => t | _ => "" end.
Definition setToken (t : string) (s : storage) : storage :=
  match s with
  | Blocked => Blocked
  | Stored _ => Stored (if String.eqb t "" then None else Some t)
  end.

(** The states of the [App] component *)
Record view := {
  token : string; project : json; landingError : json; error : json;
  busy : bool; newOpen : bool; reveal : option (string * string * string); toast : string
}.

(** What an exception of the calls is: an [ApiError] with its status and
    [code], or another error *)
Inductive failure := ApiError (status : Z) (code : option json) | OtherError.

(** [friendly] *)
Definition friendly (err : failure) : json :=
  match err with
  | OtherError => JString "Something went wrong."
  | ApiError status code =>
      match code with
      | Some (JString "unreachable") => JString "Could not reach the API. It can take 30–60s to wake up. Try again."
      | Some (JString "project_exists") => JString "That name is taken. Pick another."
      | _ =>
          if status =? 401 then JString "That token is not valid."
          else if status =? 429 then JString "Too many projects created from here. Try again later."
          else if truthy code then default JNull code
          else JString ("Failed (" +:+ FormatInt status +:+ ").")
      end
  end.

(** The world beyond the tab: [fetch] ([None] is a network error) and the
    random numbers *)
Class Web (W : Type) := {
  fetch : http_request -> W -> option http_response * W;
  getRandomValues : nat -> W -> list Z * W
}.

Record page (W : Type) := { pg_storage : storage; pg_view : view; pg_world : W }.
Arguments pg_storage {W}.
Arguments pg_view {W}.
Arguments pg_world {W}.

Section Console.
Context `{!JavaScript} {W : Type} `{!Web W}.
Variable API_BASE : string.

Definition call_result : Type := result failure json.

(** From the response on: the data, [null] where the body is no JSON, or the
    error that the status makes of it *)
Definition read_data (res : http_response) : json :=
  match Resp_fault res with Some _ => JNull | None => default JNull (parse (Resp_Body res)) end.
Definition res_ok (res : http_response) : bool := (200 <=? StatusCode res) && (StatusCode res <=? 299).
Definition settle_response (res : http_response) : call_result :=
  let data := read_data res in
  if res_ok res then Ok data else Err (ApiError (StatusCode res) (field "error" data)).

Definition unreachable : failure := ApiError 0 (Some (JString "unreachable")).

(** What [requestPublic] and [request] make of an answer, [None] where [fetch]
    throws *)
Definition settle_public (answer : option http_response) : call_result :=
  match answer with None => Err unreachable | Some res => settle_response res end.
Definition settle_scoped (answer : option http_response) : call_result :=
  match answer with
  | None => Err unreachable
  | Some res => if StatusCode res =? 204 then Ok JNull else settle_response res
  end.

(** [requestPublic], with the request that it makes *)
Definition public (path : string) (body : json) : http_request :=
  {| hr_Method := "POST"; hr_URL := API_BASE +:+ path;
     hr_Header := Header_Set ∅ "Content-Type" "application/json"; hr_Body := stringify body |}.
Definition requestPublic (path : string) (body : json) (w : W) : call_result * W :=
  let '(answer, w1) := fetch (public path body) w in (settle_public answer, w1).

(** [request], with the request that it makes *)
Definition authorized (tok path method : string) (body : option json) : http_request :=
  let h := Header_Set ∅ "Authorization" ("Bearer " +:+ tok) in
  {| hr_Method := method; hr_URL := API_BASE +:+ path;
     hr_Header := match body with Some _ => Header_Set h "Content-Type" "application/json" | None => h end;
     hr_Body := match body with Some b => stringify b | None => "" end |}.
Definition request (s : storage) (path method : string) (body : option json) (w : W) : call_result * W :=
  let '(answer, w1) := fetch (authorized (getToken s) path method body) w in (settle_scoped answer, w1).

Definition createProject (payload : json) : W -> call_result * W := requestPublic "/v1/projects" payload.
Definition loadProject (s : storage) : W -> call_result * W := request s "/v1/projects/me" "GET" None.
Definition mintKey (s : storage) (payload : json) : W -> call_result * W :=
  request s "/v1/projects/me/keys" "POST" (Some payload).
Definition revokeKey (s : storage) (keyId : string) : W -> call_result * W :=
  request s ("/v1/projects/me/keys/" +:+ keyId) "DELETE" None.

(** ** The actions *)

(** Setting one state of the page *)
Definition on_view (f : view -> view) (p : page W) : page W :=
  {| pg_storage := pg_storage p; pg_view := f (pg_view p); pg_world := pg_world p |}.
Definition set_storage (f : storage -> storage) (p : page W) : page W :=
  {| pg_storage := f (pg_storage p); pg_view := pg_view p; pg_world := pg_world p |}.
Definition set_world (w : W) (p : page W) : page W :=
  {| pg_storage := pg_storage p; pg_view := pg_view p; pg_world := w |}.

Definition setTok (t : string) : page W -> page W := on_view (fun v =>
  {| token := t; project := project v; landingError := landingError v; error := error v; busy := busy v;
     newOpen := newOpen v; reveal := reveal v; toast := toast v |}).
Definition setProject (j : json) : page W -> page W := on_view (fun v =>
  {| token := token v; project := j; landingError := landingError v; error := error v; busy := busy v;
     newOpen := newOpen v; reveal := reveal v; toast := toast v |}).
Definition setLandingError (j : json) : page W -> page W := on_view (fun v =>
  {| token := token v; project := project v; landingError := j; error := error v; busy := busy v;
     newOpen := newOpen v; reveal := reveal v; toast := toast v |}).
Definition setError (j : json) : page W -> page W := on_view (fun v =>
  {| token := token v; project := project v; landingError := landingError v; error := j; busy := busy v;
     newOpen := newOpen v; reveal := reveal v; toast := toast v |}).
Definition setBusy (b : bool) : page W -> page W := on_view (fun v =>
  {| token := token v; project := project v; landingError := landingError v; error := error v; busy := b;
     newOpen := newOpen v; reveal := reveal v; toast := toast v |}).
Definition setNewOpen (b : bool) : page W -> page W := on_view (fun v =>
  {| token := token v; project := project v; landingError := landingError v; error := error v; busy := busy v;
     newOpen := b; reveal := reveal v; toast := toast v |}).
Definition setReveal (r : option (string * string * string)) : page W -> page W := on_view (fun v =>
  {| token := token v; project := project v; landingError := landingError v; error := error v; busy := busy v;
     newOpen := newOpen v; reveal := r; toast := toast v |}).
Definition showToast (t : string) : page W -> page W := on_view (fun v =>
  {| token := token v; project := project v; landingError := landingError v; error := error v; busy := busy v;
     newOpen := newOpen v; reveal := reveal v; toast := t |}).

Definition no_message : json := JString "".

(** A call from the page *)
Definition call (m : W -> call_result * W) (p : page W) : call_result * page W :=
  let '(r, w') := m (pg_world p) in (r, set_world w' p).
Definition fresh_key (name : string) (p : page W) : generated * page W :=
  let '(bytes, w') := getRandomValues 24 (pg_world p) in (generateKey name bytes, set_world w' p).

(** [err instanceof ApiError && err.status === 401] *)
Definition is_unauthorized (err : failure) : bool :=
  match err with ApiError status _ => status =? 401 | OtherError => false end.

(** [refresh]: up to the call, and from its answer on *)
Definition begin_refresh : page W -> page W := setError no_message.
Definition end_refresh (r : call_result) (p : page W) : page W :=
  match r with
  | Ok data => setProject data p
  | Err err =>
      if is_unauthorized err then
        setLandingError (JString "That token is no longer valid.")
          (setProject JNull (setTok "" (set_storage (setToken "") p)))
      else setError (friendly err) p
  end.
Definition refresh (p : page W) : page W :=
  let p := begin_refresh p in
  let '(r, p) := call (loadProject (pg_storage p)) p in end_refresh r p.

(** The effect of [App]: [refresh] when the token has changed to one *)
Definition after_render (old : string) (p : page W) : page W :=
  let t := token (pg_view p) in
  if String.eqb t old || String.eqb t "" then p else refresh p.

(** Opening the page *)
Definition fresh_page (s : storage) (w : W) : page W :=
  {| pg_storage := s; pg_world := w;
     pg_view := {| token := getToken s; project := JNull; landingError := no_message; error := no_message;
                   busy := false; newOpen := false; reveal := None; toast := "" |} |}.
Definition open_page (s : storage) (w : W) : page W := after_render "" (fresh_page s w).

(** [signIn] *)
Definition begin_signIn (value : string) (p : page W) : page W :=
  set_storage (setToken value) (setLandingError no_message (setBusy true p)).
Definition end_signIn (value : string) (r : call_result) (p : page W) : page W :=
  setBusy false
    match r with
    | Ok data => setTok value (setProject data p)
    | Err err => setLandingError (friendly err) (set_storage (setToken "") p)
    end.
Definition signIn (value : string) (p : page W) : page W :=
  let p := begin_signIn value p in
  let '(r, p) := call (loadProject (pg_storage p)) p in end_signIn value r p.

(** [handleCreate] *)
Definition begin_create (p : page W) : page W := setLandingError no_message (setError no_message (setBusy true p)).
Definition end_create (name : string) (key : generated) (r : call_result) (p : page W) : page W :=
  match r with
  | Ok _ =>
      setBusy false (setTok (raw key) (set_storage (setToken (raw key))
               (setReveal (Some (name, raw key, "project")) (setNewOpen false p))))
  | Err err => setBusy false (setLandingError (friendly err) (setError (friendly err) p))
  end.
Definition handleCreate (name : string) (rules : list draft) (p : page W) : bool * page W :=
  let '(key, p) := fresh_key name (begin_create p) in
  let '(r, p) := call (createProject (project_payload name key rules)) p in
  (is_ok r, end_create name key r p).

(** The button of the form: it is off unless [canCreate]. *)
Definition submit (f : form) (p : page W) : form * page W :=
  if canCreate f (busy (pg_view p)) then
    let '(ok, p') := handleCreate (form_name f) (fm_rules f) p in (if ok then empty_form else f, p')
  else (f, p).

(** [handleMintKey]; without a project, or with one whose name is no text,
    [generateKey] throws, in the second case after the random numbers.  The end
    of the call leads to [refresh], or to the end of the action. *)
Definition begin_mint (p : page W) : page W := setError no_message (setBusy true p).
Definition minted (name : string) (key : generated) (p : page W) : page W := setReveal (Some (name, raw key, "api")) p.
Definition end_in_error (err : failure) (p : page W) : page W := setBusy false (setError (friendly err) p).
Definition handleMintKey (p : page W) : page W :=
  let p := begin_mint p in
  match project (pg_view p) with
  | JNull => end_in_error OtherError p
  | data =>
      match field "name" data with
      | Some (JString name) =>
          let '(key, p) := fresh_key name p in
          match call (mintKey (pg_storage p) (key_payload key)) p with
          | (Ok _, p) => setBusy false (refresh (minted name key p))
          | (Err err, p) => end_in_error err p
          end
      | _ => end_in_error OtherError (snd (fresh_key "" p))
      end
  end.

(** [handleRevoke], with the answer to [confirm] *)
Definition revoked (p : page W) : page W := showToast "Key revoked" p.
Definition handleRevoke (confirmed : bool) (keyId : string) (p : page W) : page W :=
  if negb confirmed then p
  else
    match call (revokeKey (pg_storage p) keyId) (setBusy true p) with
    | (Ok _, p) => setBusy false (refresh (revoked p))
    | (Err err, p) => end_in_error err p
    end.

(** [signOut] *)
Definition signOut (p : page W) : page W :=
  setError no_message (setProject JNull (setTok "" (set_storage (setToken "") p))).

(** ** Facts that the compositions use *)

Lemma getToken_setToken t s : s <> Blocked -> getToken (setToken t s) = t.
Proof. destruct s as [|item]; [done|]. intros _. simpl. by destruct (String.eqb_spec t "") as [->|]. Qed.

Lemma setToken_blocked t s : setToken t s <> Blocked -> s <> Blocked.
Proof. by destruct s. Qed.

(** [refresh] by the answer to the load *)
Lemma refresh_answer p r w' : loadProject (pg_storage p) (pg_world p) = (r, w') ->
  refresh p =
  match r with
  | Ok data => setProject data (set_world w' (setError no_message p))
  | Err err =>
      if is_unauthorized err then
        setLandingError (JString "That token is no longer valid.")
          (setProject JNull (setTok "" (set_storage (setToken "") (set_world w' (setError no_message p)))))
      else setError (friendly err) (set_world w' (setError no_message p))
  end.
Proof.
  intros El. unfold refresh, begin_refresh, call. change (pg_storage (setError no_message p)) with (pg_storage p).
  change (pg_world (setError no_message p)) with (pg_world p). rewrite El. by destruct r.
Qed.

End Console.

(** A network that is down *)
Module Demo.
#[local] Instance offline : Web unit := {| fetch q w := (None, w); getRandomValues n w := (repeat 0 n, w) |}.
#[local] Instance plain : JavaScript := {| stringify j := ""; parse s := None; large_number f := JNull;
  unicode_toLowerCase s := s |}.
End Demo.
