(* ===== verification/Session.v ===== *)
(** The page as the browser runs it ([web/src/App.jsx]): the actions of
    [Console] cut at what they wait for - the digest of a new key, the answer to
    a call - and interleaved with each other, with the effect that loads the
    project when the token has changed, and with what the user does meanwhile.
    The page is rendered between two steps, so a click meets the guards of the
    state that it finds.

    [busy] keeps the actions that set it apart from each other; a sign-out and
    the load of the effect heed no flag.  So an answer can come late, for a load
    that an earlier session sent: the session's invariant holds up to such an
    answer ([console_session]), and not beyond it ([late_project],
    [late_refusal]). *)

From stdpp Require Import base gmap strings list.
From Stdlib Require Import ZArith NArith Lia Ascii SpecFloat.
From S2P Require Import Prelude Float64 GoStrings Sha256 Domain Ports AuthService Provisioning Http Observability Decode Client Console.

Local Open Scope Z_scope.

(** ** Tasks *)

(** An action that waits, with what it has still to do; a load stands alone or
    inside the action that it ends. *)
Inductive task :=
  | SigningIn (value : string)
  | Creating (name : string) (key : generated) (rules : list draft)
  | Minting (name : string) (key : generated)
  | Revoking
  | Refreshing (inside : bool).

(** What it waits for: [crypto.subtle.digest]; the server; or only its turn,
    the call being answered *)
Inductive stage := Digesting | Sent (q : http_request) | Answered (q : http_request) (r : result failure json).

(** A task is of the session in which the user started it. *)
Record awaiting := { aw_task : task; aw_session : nat; aw_stage : stage }.

(** The task sets [busy] at its start and clears it at its end. *)
Definition is_busy (k : task) : bool := match k with Refreshing inside => inside | _ => true end.
Definition busy_tasks (l : list awaiting) : list awaiting := List.filter (fun a => is_busy (aw_task a)) l.
Definition is_signing (k : task) : bool := match k with SigningIn _ => true | _ => false end.

(** The tab: the page and its tasks; the token that the effect has seen; how
    many sessions have ended; the answers that the page was given; and whether
    one that changes the session came late. *)
Record tab (W : Type) := {
  tb_page : page W; tb_tasks : list awaiting; tb_seen : string;
  tb_sessions : nat; tb_log : list (http_request * result failure json); tb_late : bool
}.
Arguments tb_page {W}.
Arguments tb_tasks {W}.
Arguments tb_seen {W}.
Arguments tb_sessions {W}.
Arguments tb_log {W}.
Arguments tb_late {W}.

Section Session.
Context `{!JavaScript} {W : Type} `{!Web W}.
Variable API_BASE : string.

(** ** The calls of a task *)

Definition load_with (tok : string) : http_request := authorized API_BASE tok "/v1/projects/me" "GET" None.
Definition load_of (p : page W) : stage := Sent (load_with (getToken (pg_storage p))).
Definition revoke_of (keyId : string) (p : page W) : stage :=
  Sent (authorized API_BASE (getToken (pg_storage p)) ("/v1/projects/me/keys/" +:+ keyId) "DELETE" None).

(** The call that follows the digest: the token is read only now. *)
Definition call_of (k : task) (p : page W) : stage :=
  match k with
  | Creating name key rules => Sent (public API_BASE "/v1/projects" (project_payload name key rules))
  | Minting name key =>
      Sent (authorized API_BASE (getToken (pg_storage p)) "/v1/projects/me/keys" "POST" (Some (key_payload key)))
  | _ => load_of p
  end.

Definition settle (k : task) (answer : option http_response) : result failure json :=
  match k with Creating _ _ _ => settle_public answer | _ => settle_scoped answer end.

(** The end of the action that a load is inside *)
Definition release (inside : bool) (p : page W) : page W := if inside then setBusy false p else p.

(** The task from its answer on: the page, and whether a load follows *)
Definition resume (k : task) (r : result failure json) (p : page W) : page W * bool :=
  match k, r with
  | SigningIn value, _ => (end_signIn value r p, false)
  | Creating name key _, _ => (end_create name key r p, false)
  | Minting name key, Ok _ => (begin_refresh (minted name key p), true)
  | Revoking, Ok _ => (begin_refresh (revoked p), true)
  | Minting _ _, Err err | Revoking, Err err => (end_in_error err p, false)
  | Refreshing inside, _ => (release inside (end_refresh r p), false)
  end.

(** The start of [handleMintKey]: it fails at once, or goes on to the digest. *)
Definition start_mint (p : page W) : page W * option task :=
  let p := begin_mint p in
  match project (pg_view p) with
  | JNull => (end_in_error OtherError p, None)
  | data =>
      match field "name" data with
      | Some (JString name) => let '(key, p) := fresh_key name p in (p, Some (Minting name key))
      | _ => (end_in_error OtherError (snd (fresh_key "" p)), None)
      end
  end.

(** ** Sessions *)

(** A load refused as unauthorized ends the session. *)
Definition ends_session (k : task) (r : result failure json) : bool :=
  match k, r with Refreshing _, Err err => is_unauthorized err | _, _ => false end.

(** The answer to a load of a session that is over, with a project, or with a
    refusal while the storage holds a token, which is another session's *)
Definition late_answer (sessions : nat) (s : storage) (a : awaiting) (r : result failure json) : bool :=
  (aw_session a <? sessions)%nat &&
  match aw_task a, r with
  | Refreshing _, Ok _ => true
  | Refreshing _, Err err => is_unauthorized err && negb (String.eqb (getToken s) "")
  | _, _ => false
  end.

(** ** Steps *)

Definition with_page (p : page W) (t : tab W) : tab W :=
  {| tb_page := p; tb_tasks := tb_tasks t; tb_seen := tb_seen t; tb_sessions := tb_sessions t; tb_log := tb_log t;
     tb_late := tb_late t |}.
Definition with_tasks (l : list awaiting) (t : tab W) : tab W :=
  {| tb_page := tb_page t; tb_tasks := l; tb_seen := tb_seen t; tb_sessions := tb_sessions t; tb_log := tb_log t;
     tb_late := tb_late t |}.
Definition with_seen (tok : string) (t : tab W) : tab W :=
  {| tb_page := tb_page t; tb_tasks := tb_tasks t; tb_seen := tok; tb_sessions := tb_sessions t; tb_log := tb_log t;
     tb_late := tb_late t |}.
Definition end_session (t : tab W) : tab W :=
  {| tb_page := tb_page t; tb_tasks := tb_tasks t; tb_seen := tb_seen t; tb_sessions := S (tb_sessions t);
     tb_log := tb_log t; tb_late := tb_late t |}.

(** A new task *)
Definition launch (k : task) (st : stage) (p : page W) (t : tab W) : tab W :=
  with_tasks (tb_tasks t ++ [{| aw_task := k; aw_session := tb_sessions t; aw_stage := st |}]) (with_page p t).
Definition at_stage (st : stage) (a : awaiting) : awaiting :=
  {| aw_task := aw_task a; aw_session := aw_session a; aw_stage := st |}.

(** The task between [l1] and [l2] takes its turn. *)
Definition take_turn (l1 l2 : list awaiting) (a : awaiting) (q : http_request) (r : result failure json) (t : tab W) : tab W :=
  let '(p, again) := resume (aw_task a) r (tb_page t) in
  {| tb_page := p;
     tb_tasks := l1 ++ (if again then [{| aw_task := Refreshing true; aw_session := aw_session a; aw_stage := load_of p |}] else []) ++ l2;
     tb_seen := tb_seen t;
     tb_sessions := if ends_session (aw_task a) r then S (tb_sessions t) else tb_sessions t;
     tb_log := tb_log t ++ [(q, r)];
     tb_late := tb_late t || late_answer (tb_sessions t) (pg_storage (tb_page t)) a r |}.

(** The effect on the token: a load, if there is a token *)
Definition run_effect (t : tab W) : tab W :=
  let tok := token (pg_view (tb_page t)) in
  let t := with_seen tok t in
  if String.eqb tok "" then t
  else let p := begin_refresh (tb_page t) in launch (Refreshing false) (load_of p) p t.

(** Opening the page, with the answers to earlier ones *)
Definition open_tab (s : storage) (w : W) (sessions : nat) (log : list (http_request * result failure json)) : tab W :=
  {| tb_page := fresh_page s w; tb_tasks := []; tb_seen := ""; tb_sessions := sessions; tb_log := log; tb_late := false |}.

(** The clicks, with the guards of the buttons; the turns of the tasks; a
    reload, which drops the tasks; and what others do to the world *)
Inductive page_step (t : tab W) : tab W -> Prop :=
  | click_sign_in typed :
      token (pg_view (tb_page t)) = "" -> busy (pg_view (tb_page t)) = false -> js_trim typed <> "" ->
      page_step t (let p := begin_signIn (js_trim typed) (tb_page t) in launch (SigningIn (js_trim typed)) (load_of p) p t)
  | click_create f :
      token (pg_view (tb_page t)) = "" -> newOpen (pg_view (tb_page t)) = true ->
      canCreate f (busy (pg_view (tb_page t))) = true ->
      page_step t (let '(key, p) := fresh_key (form_name f) (begin_create (tb_page t)) in
              launch (Creating (form_name f) key (fm_rules f)) Digesting p t)
  | click_mint :
      token (pg_view (tb_page t)) <> "" -> truthy (Some (project (pg_view (tb_page t)))) = true ->
      busy (pg_view (tb_page t)) = false ->
      page_step t (match start_mint (tb_page t) with
              | (p, None) => with_page p t
              | (p, Some k) => launch k Digesting p t
              end)
  | click_revoke keyId :
      token (pg_view (tb_page t)) <> "" -> truthy (Some (project (pg_view (tb_page t)))) = true ->
      busy (pg_view (tb_page t)) = false ->
      page_step t (let p := setBusy true (tb_page t) in launch Revoking (revoke_of keyId p) p t)
  | click_sign_out :
      token (pg_view (tb_page t)) <> "" -> page_step t (end_session (with_page (signOut (tb_page t)) t))
  | click_new opened : page_step t (with_page (setNewOpen opened (tb_page t)) t)
  | click_close_reveal : page_step t (with_page (setReveal None (tb_page t)) t)
  | toasts text : page_step t (with_page (showToast text (tb_page t)) t)
  | digested l1 a l2 : tb_tasks t = l1 ++ a :: l2 -> aw_stage a = Digesting ->
      page_step t (with_tasks (l1 ++ at_stage (call_of (aw_task a) (tb_page t)) a :: l2) t)
  | served l1 a l2 q answer w : tb_tasks t = l1 ++ a :: l2 -> aw_stage a = Sent q ->
      fetch q (pg_world (tb_page t)) = (answer, w) ->
      page_step t (with_tasks (l1 ++ at_stage (Answered q (settle (aw_task a) answer)) a :: l2)
                (with_page (set_world w (tb_page t)) t))
  | resumed l1 a l2 q r : tb_tasks t = l1 ++ a :: l2 -> aw_stage a = Answered q r ->
      page_step t (take_turn l1 l2 a q r t)
  | effect : token (pg_view (tb_page t)) <> tb_seen t -> page_step t (run_effect t)
  | reloaded : page_step t (open_tab (pg_storage (tb_page t)) (pg_world (tb_page t)) (tb_sessions t) (tb_log t))
  | elsewhere w : page_step t (with_page (set_world w (tb_page t)) t).

(** ** The invariant *)

(** What a task of the session [aw_session] knows, the page being in session [n]
    with the token [tok]: the landing page starts what signs in, the project
    page the rest. *)
Definition task_ok (n : nat) (tok : string) (a : awaiting) : Prop :=
  (aw_session a <= n)%nat /\
  match aw_task a with
  | SigningIn value => tok = "" /\ value <> ""
  | Creating _ _ _ => tok = ""
  | _ => aw_session a = n -> tok <> ""
  end.

(** The task has put the call, answered or not. *)
Definition carries_call (q : http_request) (st : stage) : Prop := st = Sent q \/ exists r, st = Answered q r.

(** With a storage that works: a sign-in has put its token there; a load of the
    session was sent with the page's token. *)
Definition task_clean (n : nat) (tok stored : string) (a : awaiting) : Prop :=
  match aw_task a with
  | SigningIn value => stored = value /\ carries_call (load_with value) (aw_stage a)
  | Refreshing _ => aw_session a = n -> carries_call (load_with tok) (aw_stage a)
  | _ => True
  end.

(** The project shown is none, or what the server answered to the page's token. *)
Definition own_project (tok : string) (shown : json) (log : list (http_request * result failure json)) : Prop :=
  shown = JNull \/ (load_with tok, Ok shown) ∈ log.

Record clean (n : nat) (tok : string) (shown : json) (s : storage) (l : list awaiting)
    (log : list (http_request * result failure json)) : Prop := {
  cl_none : tok = "" -> shown = JNull;
  cl_tasks : s <> Blocked -> Forall (task_clean n tok (getToken s)) l;
  cl_stored : s <> Blocked -> existsb (fun a => is_signing (aw_task a)) l = false -> getToken s = tok;
  cl_own : s <> Blocked -> own_project tok shown log
}.

Record tab_ok (t : tab W) : Prop := {
  tk_busy : length (busy_tasks (tb_tasks t)) = if busy (pg_view (tb_page t)) then 1%nat else 0%nat;
  tk_tasks : Forall (task_ok (tb_sessions t) (token (pg_view (tb_page t)))) (tb_tasks t);
  tk_clean : tb_late t = false ->
    clean (tb_sessions t) (token (pg_view (tb_page t))) (project (pg_view (tb_page t))) (pg_storage (tb_page t))
      (tb_tasks t) (tb_log t)
}.

(** ** Facts on lists of tasks *)

Lemma busy_tasks_app l1 l2 : busy_tasks (l1 ++ l2) = busy_tasks l1 ++ busy_tasks l2.
Proof. apply List.filter_app. Qed.

Lemma busy_tasks_nil l : busy_tasks l = [] <-> Forall (fun a => is_busy (aw_task a) = false) l.
Proof.
  unfold busy_tasks. induction l as [|a l IH]; simpl; [by split|]. rewrite Forall_cons, <- IH.
  destruct (is_busy (aw_task a)); [by split; [|intros [? _]]|tauto].
Qed.

Lemma signing_busy a : is_busy (aw_task a) = false -> is_signing (aw_task a) = false.
Proof. by destruct (aw_task a). Qed.

Lemma none_signing l : Forall (fun a => is_signing (aw_task a) = false) l <-> existsb (fun a => is_signing (aw_task a)) l = false.
Proof.
  induction l as [|a l IH]; simpl; [by split|]. rewrite Forall_cons, orb_false_iff, IH. done.
Qed.

Lemma idle_signing l : Forall (fun a => is_busy (aw_task a) = false) l -> existsb (fun a => is_signing (aw_task a)) l = false.
Proof. intros Hl. apply none_signing. eapply Forall_impl; [exact Hl|]. intros a. apply signing_busy. Qed.

(** With a token on the page nobody is signing in. *)
Lemma token_signing n tok l : Forall (task_ok n tok) l -> tok <> "" -> existsb (fun a => is_signing (aw_task a)) l = false.
Proof.
  intros Hl Ht. apply none_signing. eapply Forall_impl; [exact Hl|]. intros a [_ Ha]. by destruct (aw_task a); try done; destruct Ha.
Qed.

(** Over a landing page what is not busy is of an earlier session, and of no
    consequence for the next. *)
Lemma idle_past n l : Forall (task_ok n "") l -> Forall (fun a => is_busy (aw_task a) = false) l ->
  forall tok stored, Forall (task_ok n tok) l /\ Forall (task_clean n tok stored) l.
Proof.
  rewrite !Forall_forall. intros Hl Hi tok stored.
  assert (Hp : forall a, a ∈ l -> (aw_session a <= n)%nat /\ exists inside, aw_task a = Refreshing inside /\ aw_session a <> n).
  { intros a Ha. destruct (Hl a Ha) as [H1 H2]. specialize (Hi a Ha). split; [done|].
    destruct (aw_task a) as [| | | |inside]; try done. exists inside. split; [done|]. intros E. by apply H2 in E. }
  split; apply Forall_forall; intros a Ha; destruct (Hp a Ha) as (H1 & inside & E & H2); unfold task_ok, task_clean; by rewrite E.
Qed.

(** The end of a session leaves only tasks of earlier ones. *)
Lemma past_ok n tok l : Forall (task_ok n tok) l -> Forall (task_ok (S n) "") l.
Proof.
  intros Hl. eapply Forall_impl; [exact Hl|]. intros a [H1 H2]. split; [lia|].
  destruct (aw_task a); try done; [by destruct H2|..]; intros E; lia.
Qed.

Lemma past_clean n tok stored l : Forall (task_ok n tok) l -> existsb (fun a => is_signing (aw_task a)) l = false ->
  Forall (task_clean (S n) "" stored) l.
Proof.
  intros Hl Hs%none_signing. rewrite Forall_forall in *. intros a Ha. destruct (Hl a Ha) as [H1 _]. specialize (Hs a Ha).
  unfold task_clean. destruct (aw_task a); try done. intros E. lia.
Qed.

Lemma own_more tok shown log log' : own_project tok shown log -> own_project tok shown (log ++ log').
Proof. intros [?|?]; [by left|right]. apply elem_of_app. by left. Qed.

(** ** What keeps the invariant *)

(** The pages agree in what the invariant looks at, but for [busy]. *)
Definition agree (p p' : page W) : Prop :=
  pg_storage p' = pg_storage p /\ token (pg_view p') = token (pg_view p) /\ project (pg_view p') = project (pg_view p).

Lemma with_page_ok p t : agree (tb_page t) p -> busy (pg_view p) = busy (pg_view (tb_page t)) -> tab_ok t -> tab_ok (with_page p t).
Proof.
  intros (E1 & E2 & E3) E4 [Hb Ht Hc]. constructor; cbn [with_page tb_page tb_tasks tb_sessions tb_late tb_log]; by rewrite ?E1, ?E2, ?E3, ?E4.
Qed.

Lemma launch_ok k st p t : agree (tb_page t) p -> busy (pg_view p) = is_busy k || busy (pg_view (tb_page t)) ->
  (is_busy k = true -> busy (pg_view (tb_page t)) = false) -> is_signing k = false ->
  let a := {| aw_task := k; aw_session := tb_sessions t; aw_stage := st |} in
  task_ok (tb_sessions t) (token (pg_view p)) a ->
  (tab_ok t -> tb_late t = false -> pg_storage p <> Blocked ->
   task_clean (tb_sessions t) (token (pg_view p)) (getToken (pg_storage p)) a) ->
  tab_ok t -> tab_ok (launch k st p t).
Proof.
  intros (E1 & E2 & E3) Eb Hex Hs a Hok Hclean Ht. pose proof Ht as [Hb Hts Hc].
  constructor; cbn [launch with_tasks with_page tb_page tb_tasks tb_sessions tb_late tb_log]; fold a; rewrite ?E1, ?E2, ?E3 in *.
  - rewrite busy_tasks_app, length_app, Hb, Eb. simpl. destruct (is_busy k); simpl; [by rewrite Hex|by rewrite Nat.add_0_r].
  - apply Forall_app_2; [done|by apply Forall_singleton].
  - intros Hl. destruct (Hc Hl) as [C1 C2 C3 C4]. constructor; [done| | |done].
    + intros Hbl. apply Forall_app_2; [by apply C2|]. apply Forall_singleton. by apply Hclean.
    + intros Hbl. rewrite existsb_app. simpl. rewrite Hs, orb_false_r. by apply C3.
Qed.

(** A task takes another stage, or goes on with a load. *)
Lemma replaced_ok l1 a a' l2 p log late t : tb_tasks t = l1 ++ a :: l2 -> agree (tb_page t) p ->
  busy (pg_view p) = busy (pg_view (tb_page t)) -> aw_session a' = aw_session a ->
  is_busy (aw_task a') = is_busy (aw_task a) -> is_signing (aw_task a') = is_signing (aw_task a) ->
  (forall n tok, task_ok n tok a -> task_ok n tok a') -> (late = false -> tb_late t = false) ->
  (forall x, x ∈ tb_log t -> x ∈ log) ->
  (pg_storage p <> Blocked -> clean (tb_sessions t) (token (pg_view p)) (project (pg_view p)) (pg_storage p) (tb_tasks t) (tb_log t) ->
   task_ok (tb_sessions t) (token (pg_view p)) a ->
   task_clean (tb_sessions t) (token (pg_view p)) (getToken (pg_storage p)) a') ->
  tab_ok t ->
  tab_ok {| tb_page := p; tb_tasks := l1 ++ a' :: l2; tb_seen := tb_seen t; tb_sessions := tb_sessions t; tb_log := log; tb_late := late |}.
Proof.
  intros El (E1 & E2 & E3) Eb Es Ebusy Esign Hok Hlate Hlog Hclean [Hb Hts Hc]. rewrite E1, E2, E3 in Hclean.
  assert (Ha : task_ok (tb_sessions t) (token (pg_view (tb_page t))) a).
  { rewrite El, Forall_app, Forall_cons in Hts. by destruct Hts as (_ & ? & _). }
  constructor; cbn [tb_page tb_tasks tb_sessions tb_late tb_log]; rewrite ?E1, ?E2, ?E3, ?Eb.
  - rewrite <- Hb, El, !busy_tasks_app, !length_app. unfold busy_tasks. simpl. rewrite Ebusy. by destruct (is_busy (aw_task a)).
  - rewrite El, Forall_app, Forall_cons in Hts. destruct Hts as (H1 & H2 & H3). apply Forall_app_2; [done|]. apply Forall_cons_2; [by apply Hok|done].
  - intros Hl. pose proof (Hc (Hlate Hl)) as Hcl. destruct Hcl as [C1 C2 C3 C4]. constructor; [done| | |].
    + intros Hbl. pose proof (C2 Hbl) as Hf. rewrite El, Forall_app, Forall_cons in Hf. destruct Hf as (H1 & H2 & H3).
      apply Forall_app_2; [done|]. apply Forall_cons_2; [|done]. by apply Hclean.
    + intros Hbl Hs. apply (C3 Hbl). rewrite El. rewrite existsb_app in *. simpl in *. by rewrite <- Esign.
    + intros Hbl. destruct (C4 Hbl) as [?|?]; [by left|right; by apply Hlog].
Qed.

(** A task ends and leaves the token; what it may change is the project. *)
Lemma removed_ok l1 a l2 p log late t : tb_tasks t = l1 ++ a :: l2 ->
  pg_storage p = pg_storage (tb_page t) -> token (pg_view p) = token (pg_view (tb_page t)) ->
  busy (pg_view p) = (if is_busy (aw_task a) then false else busy (pg_view (tb_page t))) -> is_signing (aw_task a) = false ->
  (late = false -> tb_late t = false) ->
  (late = false -> clean (tb_sessions t) (token (pg_view p)) (project (pg_view (tb_page t))) (pg_storage p) (tb_tasks t) (tb_log t) ->
   task_ok (tb_sessions t) (token (pg_view p)) a ->
   (token (pg_view p) = "" -> project (pg_view p) = JNull) /\
   (pg_storage p <> Blocked -> own_project (token (pg_view p)) (project (pg_view p)) log)) ->
  tab_ok t ->
  tab_ok {| tb_page := p; tb_tasks := l1 ++ l2; tb_seen := tb_seen t; tb_sessions := tb_sessions t; tb_log := log; tb_late := late |}.
Proof.
  intros El E1 E2 Eb Es Hlate Hproj [Hb Hts Hc]. rewrite E1, E2 in Hproj. rewrite El in Hb, Hts.
  pose proof Hts as Hts'. rewrite Forall_app, Forall_cons in Hts'. destruct Hts' as (H1 & H2 & H3).
  constructor; cbn [tb_page tb_tasks tb_sessions tb_late tb_log]; rewrite ?E1, ?E2, ?Eb.
  - rewrite busy_tasks_app, length_app in *. unfold busy_tasks at 2 in Hb. simpl in Hb. fold (busy_tasks l2) in Hb.
    destruct (is_busy (aw_task a)); [|done]. simpl in Hb. destruct (busy (pg_view (tb_page t))); lia.
  - by apply Forall_app_2.
  - intros Hl. pose proof (Hc (Hlate Hl)) as Hcl. destruct (Hproj Hl Hcl H2) as [P1 P2]. destruct Hcl as [C1 C2 C3 C4].
    constructor; [done| | |done].
    + intros Hbl. pose proof (C2 Hbl) as Hf. rewrite El, Forall_app, Forall_cons in Hf. destruct Hf as (F1 & _ & F3). by apply Forall_app_2.
    + intros Hbl Hs. apply (C3 Hbl). rewrite El. rewrite existsb_app in *. simpl. by rewrite Es.
Qed.

(** A task that signs in, or would, ends on a landing page: whatever token it
    leaves, the storage has it and the project is that token's. *)
Lemma signing_ended_ok l1 a l2 p log late t : tb_tasks t = l1 ++ a :: l2 -> is_busy (aw_task a) = true ->
  token (pg_view (tb_page t)) = "" -> busy (pg_view p) = false -> (late = false -> tb_late t = false) ->
  (late = false -> clean (tb_sessions t) "" (project (pg_view (tb_page t))) (pg_storage (tb_page t)) (tb_tasks t) (tb_log t) ->
   existsb (fun a => is_signing (aw_task a)) (l1 ++ l2) = false ->
   (token (pg_view p) = "" -> project (pg_view p) = JNull) /\
   (pg_storage p <> Blocked -> getToken (pg_storage p) = token (pg_view p) /\
      own_project (token (pg_view p)) (project (pg_view p)) log)) ->
  tab_ok t ->
  tab_ok {| tb_page := p; tb_tasks := l1 ++ l2; tb_seen := tb_seen t; tb_sessions := tb_sessions t; tb_log := log; tb_late := late |}.
Proof.
  intros El Ha Et Eb Hlate Hend [Hb Hts Hc]. rewrite El in Hb, Hts. rewrite Et in Hts, Hc.
  assert (Hnil : busy_tasks (l1 ++ l2) = []).
  { apply nil_length_inv. rewrite busy_tasks_app, length_app in *. unfold busy_tasks at 2 in Hb. simpl in Hb. fold (busy_tasks l2) in Hb.
    rewrite Ha in Hb. simpl in Hb. destruct (busy (pg_view (tb_page t))); lia. }
  assert (Hrest : Forall (task_ok (tb_sessions t) "") (l1 ++ l2)).
  { rewrite Forall_app, Forall_cons in Hts. destruct Hts as (? & _ & ?). by apply Forall_app_2. }
  pose proof (idle_past _ _ Hrest (proj1 (busy_tasks_nil _) Hnil)) as Hpast.
  constructor; cbn [tb_page tb_tasks tb_sessions tb_late tb_log].
  - by rewrite Hnil, Eb.
  - apply Hpast, "".
  - intros Hl. destruct (Hend Hl (Hc (Hlate Hl)) (idle_signing _ (proj1 (busy_tasks_nil _) Hnil))) as [P1 P2]. constructor; [done| | |].
    + intros _. apply Hpast.
    + intros Hbl _. by apply P2.
    + intros Hbl. by apply P2.
Qed.

(** A session ends: the token is gone from the page and, where no sign-in is
    under way, from the storage. *)
Lemma ended_ok l p log late (t : tab W) : Forall (task_ok (tb_sessions t) (token (pg_view (tb_page t)))) l ->
  length (busy_tasks l) = (if busy (pg_view p) then 1%nat else 0%nat) ->
  token (pg_view p) = "" -> project (pg_view p) = JNull -> (pg_storage p <> Blocked -> getToken (pg_storage p) = "") ->
  (late = false -> pg_storage p <> Blocked -> existsb (fun a => is_signing (aw_task a)) l = false) ->
  tab_ok {| tb_page := p; tb_tasks := l; tb_seen := tb_seen t; tb_sessions := S (tb_sessions t); tb_log := log; tb_late := late |}.
Proof.
  intros Hl Hb Et Ep Es Hsign. constructor; cbn [tb_page tb_tasks tb_sessions tb_late tb_log]; [done|rewrite Et; by eapply past_ok|].
  rewrite Et, Ep. intros Hlate. constructor; [done| | |].
  - intros Hbl. eapply past_clean; [exact Hl|by apply Hsign].
  - intros Hbl _. by apply Es.
  - intros _. by left.
Qed.

(** ** Every step keeps the invariant *)

Lemma sign_in_ok value t : token (pg_view (tb_page t)) = "" -> busy (pg_view (tb_page t)) = false -> value <> "" ->
  tab_ok t -> let p := begin_signIn value (tb_page t) in tab_ok (launch (SigningIn value) (load_of p) p t).
Proof.
  intros Et Eb Hv [Hb Hts Hc] p. rewrite Et in *. rewrite Eb in Hb. apply nil_length_inv, busy_tasks_nil in Hb.
  pose proof (idle_past _ _ Hts Hb) as Hpast.
  constructor; cbn [launch with_tasks with_page tb_page tb_tasks tb_sessions tb_late tb_log]; change (token (pg_view p)) with (token (pg_view (tb_page t)));
    rewrite ?Et; [..|intros Hl; destruct (Hc Hl) as [C1 C2 C3 C4]; constructor].
  - rewrite busy_tasks_app, (proj2 (busy_tasks_nil _) Hb). reflexivity.
  - apply Forall_app_2; [apply Hpast, ""|]. apply Forall_singleton. split; [simpl; lia|by split].
  - exact C1.
  - intros Hbl%setToken_blocked. apply Forall_app_2; [by apply Hpast|]. apply Forall_singleton.
    assert (Hg : getToken (pg_storage p) = value) by by apply getToken_setToken.
    split; [exact Hg|]. left. cbn [aw_stage]. unfold load_of. by rewrite Hg.
  - intros _. rewrite existsb_app. simpl. by rewrite orb_true_r.
  - intros Hbl. left. by apply C1.
Qed.

Lemma start_mint_ok t : token (pg_view (tb_page t)) <> "" -> busy (pg_view (tb_page t)) = false -> tab_ok t ->
  tab_ok (match start_mint (tb_page t) with (p, None) => with_page p t | (p, Some k) => launch k Digesting p t end).
Proof.
  intros Ht Eb Hok. unfold start_mint. change (project (pg_view (begin_mint (tb_page t)))) with (project (pg_view (tb_page t))).
  assert (Hfail : forall p, agree (tb_page t) p -> tab_ok (with_page (end_in_error OtherError p) t)).
  { intros p (H1 & H2 & H3). apply with_page_ok; [done|by rewrite Eb|done]. }
  assert (Hnew : agree (tb_page t) (snd (fresh_key "" (begin_mint (tb_page t))))).
  { unfold fresh_key. by destruct (getRandomValues _ _). }
  destruct (project (pg_view (tb_page t))) as [| | | | | |fields]; try (by apply Hfail); try (by apply Hfail; apply Hnew).
  destruct (field "name" _) as [[| | | |name| |]|]; try (by apply Hfail; apply Hnew).
  unfold fresh_key. destruct (getRandomValues _ _) as [bytes w]. cbv iota beta zeta.
  apply launch_ok; [by split_and!|done|done|done|split; [simpl; lia|by intros _]|done|done].
Qed.

(** What [clean] and [task_ok] say of the task whose turn it is *)
Lemma turn_clean n tok shown s l1 a l2 log : clean n tok shown s (l1 ++ a :: l2) log -> s <> Blocked ->
  task_clean n tok (getToken s) a.
Proof. intros Hc Hs. pose proof (cl_tasks _ _ _ _ _ _ Hc Hs) as Hf. rewrite Forall_app, Forall_cons in Hf. tauto. Qed.

Lemma answered_call q q' r st : carries_call q st -> st = Answered q' r -> q' = q.
Proof. by intros [->|[r' ->]] [=]. Qed.

Lemma release_agree inside p : agree p (release inside p) /\
  busy (pg_view (release inside p)) = if inside then false else busy (pg_view p).
Proof. by destruct inside. Qed.

Section Load.
Variables (inside : bool) (l1 l2 : list awaiting) (a : awaiting) (q : http_request) (t : tab W).
Hypothesis Ek : aw_task a = Refreshing inside.
Hypothesis El : tb_tasks t = l1 ++ a :: l2.
Hypothesis Hok : tab_ok t.

Lemma load_data_ok data : aw_stage a = Answered q (Ok data) -> tab_ok (take_turn l1 l2 a q (Ok data) t).
Proof.
  intros Est. unfold take_turn. rewrite Ek. cbn [resume ends_session end_refresh].
  destruct (release_agree inside (setProject data (tb_page t))) as ((R1 & R2 & R3) & R4).
  eapply (removed_ok l1 a l2); [exact El|exact R1|exact R2|by rewrite Ek|by rewrite Ek|by intros [? _]%orb_false_iff| |exact Hok].
  rewrite R1, R2, R3. cbn [setProject on_view pg_view pg_storage token project]. intros [_ Hlate]%orb_false_iff Hc [Hs Ha].
  unfold late_answer in Hlate. rewrite Ek in *. rewrite andb_true_r in Hlate. apply Nat.ltb_ge in Hlate.
  assert (Esess : aw_session a = tb_sessions t) by lia. specialize (Ha Esess).
  split; [intros E; by exfalso|]. intros Hbl. right. apply elem_of_app. right. apply list_elem_of_singleton.
  rewrite El in Hc. pose proof (turn_clean _ _ _ _ _ _ _ _ Hc Hbl) as Hcl. unfold task_clean in Hcl. rewrite Ek in Hcl.
  by rewrite (answered_call _ _ _ _ (Hcl Esess) Est).
Qed.

(** No sign-in is under way when a refusal is in time. *)
Lemma refusal_alone err : is_unauthorized err = true -> tb_late t = false ->
  late_answer (tb_sessions t) (pg_storage (tb_page t)) a (Err err) = false -> pg_storage (tb_page t) <> Blocked ->
  existsb (fun a => is_signing (aw_task a)) (l1 ++ l2) = false.
Proof.
  intros Eu Hl Hlate Hbl. pose proof Hok as [_ Hts Hc]. pose proof (cl_tasks _ _ _ _ _ _ (Hc Hl) Hbl) as Hcf.
  rewrite El, Forall_app, Forall_cons in Hts, Hcf. destruct Hts as (T1 & [Hs Ha] & T2), Hcf as (C1 & _ & C2). rewrite Ek in Ha.
  apply none_signing, Forall_forall. intros b Hin. destruct (aw_task b) as [value| | | |] eqn:Eb; try done. exfalso.
  assert (Hb : task_ok (tb_sessions t) (token (pg_view (tb_page t))) b /\
               task_clean (tb_sessions t) (token (pg_view (tb_page t))) (getToken (pg_storage (tb_page t))) b).
  { rewrite Forall_forall in *. apply elem_of_app in Hin as [?|?]; auto. }
  unfold task_ok, task_clean in Hb. rewrite Eb in Hb. destruct Hb as [[_ [Et Hv]] [Hstored _]].
  unfold late_answer in Hlate. rewrite Ek, Eu, Hstored, (proj2 (String.eqb_neq _ _) Hv), andb_true_r in Hlate.
  apply Nat.ltb_ge in Hlate. apply Ha; [lia|done].
Qed.

Lemma load_refused_ok err : is_unauthorized err = true -> tab_ok (take_turn l1 l2 a q (Err err) t).
Proof.
  intros Eu. unfold take_turn. rewrite Ek. cbn [resume ends_session end_refresh]. rewrite Eu.
  match goal with |- context [release inside ?p] => destruct (release_agree inside p) as ((R1 & R2 & R3) & R4) end.
  pose proof Hok as [Hb Hts Hc]. rewrite El in Hb, Hts. apply ended_ok; [| |exact R2|exact R3| |].
  - rewrite Forall_app, Forall_cons in Hts. apply Forall_app_2; tauto.
  - rewrite R4, busy_tasks_app, length_app in *. unfold busy_tasks at 2 in Hb. simpl in Hb. fold (busy_tasks l2) in Hb. rewrite Ek in Hb.
    destruct inside; simpl in *; [|exact Hb]. destruct (busy (pg_view (tb_page t))); lia.
  - rewrite R1. intros Hbl. by apply getToken_setToken, (setToken_blocked "").
  - rewrite R1. intros [Hl Hlate]%orb_false_iff Hbl%setToken_blocked. by eapply refusal_alone.
Qed.

Lemma load_failed_ok err : is_unauthorized err = false -> tab_ok (take_turn l1 l2 a q (Err err) t).
Proof.
  intros Eu. unfold take_turn. rewrite Ek. cbn [resume ends_session end_refresh]. rewrite Eu.
  destruct (release_agree inside (setError (friendly err) (tb_page t))) as ((R1 & R2 & R3) & R4).
  eapply (removed_ok l1 a l2); [exact El|exact R1|exact R2|by rewrite Ek|by rewrite Ek|by intros [? _]%orb_false_iff| |exact Hok].
  rewrite R1, R2, R3. intros _ Hc _. split; [apply Hc|]. intros Hbl. by apply own_more, (cl_own _ _ _ _ _ _ Hc).
Qed.

End Load.

(** The end of a sign-in, and of a sign-up *)
Lemma signed_in_ok value l1 a l2 q r t : aw_task a = SigningIn value -> tb_tasks t = l1 ++ a :: l2 ->
  aw_stage a = Answered q r -> tab_ok t -> tab_ok (take_turn l1 l2 a q r t).
Proof.
  intros Ek El Est Hok. unfold take_turn. rewrite Ek. cbn [resume ends_session].
  pose proof (tk_tasks _ Hok) as Hts. rewrite El, Forall_app, Forall_cons in Hts. destruct Hts as (_ & [_ Ha] & _). rewrite Ek in Ha.
  destruct Ha as [Et Hv]. eapply (signing_ended_ok l1 a l2); [exact El|by rewrite Ek|exact Et|by destruct r|by intros [? _]%orb_false_iff| |exact Hok].
  intros _ Hc _. destruct r as [data|err]; cbn [end_signIn setBusy setTok setProject setLandingError set_storage on_view pg_view pg_storage token project].
  - split; [by intros ->|]. intros Hbl. rewrite El in Hc. pose proof (turn_clean _ _ _ _ _ _ _ _ Hc Hbl) as Hcl.
    unfold task_clean in Hcl. rewrite Ek in Hcl. destruct Hcl as [Hs Hq]. split; [exact Hs|]. right. apply elem_of_app. right.
    apply list_elem_of_singleton. by rewrite (answered_call _ _ _ _ Hq Est).
  - rewrite Et. split; [apply Hc; done|]. intros Hbl%setToken_blocked. split; [by apply getToken_setToken|]. left. by apply Hc.
Qed.

Lemma created_ok name key rules l1 a l2 q r t : aw_task a = Creating name key rules ->
  tb_tasks t = l1 ++ a :: l2 -> tab_ok t -> tab_ok (take_turn l1 l2 a q r t).
Proof.
  intros Ek El Hok. unfold take_turn. rewrite Ek. cbn [resume ends_session].
  pose proof (tk_tasks _ Hok) as Hts. rewrite El, Forall_app, Forall_cons in Hts. destruct Hts as (_ & [_ Et] & _). rewrite Ek in Et.
  eapply (signing_ended_ok l1 a l2); [exact El|by rewrite Ek|exact Et|by destruct r|by intros [? _]%orb_false_iff| |exact Hok].
  intros _ Hc Hidle. assert (Hp : project (pg_view (tb_page t)) = JNull) by by apply Hc.
  destruct r as [data|err]; cbn [end_create setBusy setTok setReveal setNewOpen setError setLandingError set_storage on_view pg_view pg_storage token project].
  - split; [by intros _|]. intros Hbl%setToken_blocked. split; [by apply getToken_setToken|by left].
  - rewrite Et. split; [done|]. intros Hbl. split; [|by left]. apply (cl_stored _ _ _ _ _ _ Hc Hbl). rewrite El.
    rewrite existsb_app in *. simpl. by rewrite Ek.
Qed.

(** A call that a load follows, or that fails *)
Lemma goes_on_ok p l1 a l2 q r t : aw_task a = Revoking \/ (exists name key, aw_task a = Minting name key) ->
  resume (aw_task a) r (tb_page t) = (p, true) -> agree (tb_page t) p -> busy (pg_view p) = busy (pg_view (tb_page t)) ->
  tb_tasks t = l1 ++ a :: l2 -> tab_ok t -> tab_ok (take_turn l1 l2 a q r t).
Proof.
  intros Ek Er Hp Hb El Hok. unfold take_turn. rewrite Er.
  assert (E : ends_session (aw_task a) r = false) by by destruct Ek as [->|(? & ? & ->)]. rewrite E.
  cbn [app]. eapply (replaced_ok l1 a); [exact El|exact Hp|exact Hb|done|by destruct Ek as [->|(? & ? & ->)]
    |by destruct Ek as [->|(? & ? & ->)]| |by intros [? _]%orb_false_iff|intros x Hx; apply elem_of_app; by left| |exact Hok].
  - intros n tok [H1 H2]. split; [done|]. cbn [aw_task aw_session]. by destruct Ek as [E'|(? & ? & E')]; rewrite E' in H2.
  - intros Hbl Hc [_ Ha] Es. cbn [aw_session] in Es. left. cbn [aw_stage]. unfold load_of.
    rewrite (cl_stored _ _ _ _ _ _ Hc Hbl); [done|]. apply (token_signing (tb_sessions t) (token (pg_view p))).
    + destruct Hp as (_ & -> & _). apply Hok.
    + by destruct Ek as [E'|(? & ? & E')]; rewrite E' in Ha; apply Ha.
Qed.

Lemma action_failed_ok err l1 a l2 q r t : is_busy (aw_task a) = true -> is_signing (aw_task a) = false ->
  resume (aw_task a) r (tb_page t) = (end_in_error err (tb_page t), false) -> ends_session (aw_task a) r = false ->
  tb_tasks t = l1 ++ a :: l2 -> tab_ok t -> tab_ok (take_turn l1 l2 a q r t).
Proof.
  intros Hb Hs Er Ee El Hok. unfold take_turn. rewrite Er, Ee.
  eapply (removed_ok l1 a l2); [exact El|done|done|by rewrite Hb|exact Hs|by intros [? _]%orb_false_iff| |exact Hok].
  intros _ Hc _. split; [apply Hc|]. intros Hbl. by apply own_more, (cl_own _ _ _ _ _ _ Hc).
Qed.

Lemma turn_ok l1 a l2 q r t : tb_tasks t = l1 ++ a :: l2 -> aw_stage a = Answered q r -> tab_ok t ->
  tab_ok (take_turn l1 l2 a q r t).
Proof.
  intros El Est Hok. destruct (aw_task a) as [value|name key rules|name key| |inside] eqn:Ek.
  - by eapply signed_in_ok.
  - by eapply created_ok.
  - destruct r as [data|err].
    + eapply goes_on_ok; [right; by eexists _, _|by rewrite Ek|by split_and!|done..].
    + by eapply (action_failed_ok err); rewrite ?Ek.
  - destruct r as [data|err].
    + eapply goes_on_ok; [by left|by rewrite Ek|by split_and!|done..].
    + by eapply (action_failed_ok err); rewrite ?Ek.
  - destruct r as [data|err]; [by eapply load_data_ok|]. destruct (is_unauthorized err) eqn:Eu; [by eapply load_refused_ok|by eapply load_failed_ok].
Qed.

Lemma staged_ok st p l1 a l2 t : tb_tasks t = l1 ++ a :: l2 -> agree (tb_page t) p -> busy (pg_view p) = busy (pg_view (tb_page t)) ->
  (forall q, carries_call q (aw_stage a) -> carries_call q st) -> tab_ok t ->
  tab_ok (with_tasks (l1 ++ at_stage st a :: l2) (with_page p t)).
Proof.
  intros El Hp Hb Hst Hok. apply (replaced_ok l1 a (at_stage st a) l2 p (tb_log t) (tb_late t) t); try done. intros Hbl Hc _. rewrite El in Hc.
  pose proof (turn_clean _ _ _ _ _ _ _ _ Hc Hbl) as Hcl. unfold task_clean in *. cbn [at_stage aw_task aw_session aw_stage].
  destruct (aw_task a); [by split; [|apply Hst]; destruct Hcl|done..|]. intros E. by apply Hst, Hcl.
Qed.

Lemma run_effect_ok t : tab_ok t -> tab_ok (run_effect t).
Proof.
  intros Hok. unfold run_effect. destruct (String.eqb_spec (token (pg_view (tb_page t))) "") as [Et|Et]; [by destruct Hok|].
  apply launch_ok; try done; [split; [simpl; lia|by intros _]| |by destruct Hok].
  intros _ Hl Hbl _. left. destruct Hok as [_ Hts Hc].
  pose proof (cl_stored _ _ _ _ _ _ (Hc Hl) Hbl (token_signing _ _ _ Hts Et)) as Hg.
  exact (f_equal (fun s => Sent (load_with s)) Hg).
Qed.

Lemma open_tab_ok s w n log : tab_ok (open_tab s w n log).
Proof. constructor; [done|by constructor|]. intros _. constructor; [done|by constructor|done|by left]. Qed.

Lemma step_ok t t' : page_step t t' -> tab_ok t -> tab_ok t'.
Proof.
  intros [typed Et Eb Hv|f Et Hn Hcan|Et _ Eb|keyId Et _ Eb|Et|opened| |text|l1 a l2 El Est|l1 a l2 q answer w El Est Ef|l1 a l2 q r El Est|Hch| |w] Hok.
  - by apply sign_in_ok.
  - unfold canCreate in Hcan. apply andb_prop in Hcan as [_ Eb%negb_true_iff].
    unfold fresh_key. destruct (getRandomValues _ _) as [bytes w]. cbv iota beta zeta.
    apply launch_ok; [by split_and!|done|done|done|split; [simpl; lia|exact Et]|done|done].
  - by apply start_mint_ok.
  - apply launch_ok; [by split_and!|done|done|done|split; [simpl; lia|by intros _]|done|done].
  - destruct Hok as [Hb Hts Hc]. apply (ended_ok (tb_tasks t) (signOut (tb_page t)) (tb_log t) (tb_late t) t);
      [exact Hts|exact Hb|done|done| |].
    + intros Hbl. by apply getToken_setToken, (setToken_blocked "").
    + intros _ _. by eapply token_signing.
  - by apply with_page_ok.
  - by apply with_page_ok.
  - by apply with_page_ok.
  - apply (staged_ok (call_of (aw_task a) (tb_page t)) (tb_page t) l1 a l2 t); try done. intros q [E|[r E]]; congruence.
  - eapply staged_ok; try done. intros q' [E|[r E]]; [|congruence]. rewrite Est in E. injection E as ->. right. by eexists.
  - by apply turn_ok.
  - by apply run_effect_ok.
  - apply open_tab_ok.
  - by apply with_page_ok.
Qed.

(** ** Steps by name, to run them *)

(** The clicks without a form, and the turn of the task at a place: its call is
    answered, or it takes up the answer *)
Inductive event := SignIn (typed : string) | SignOut | Serve (i : nat) | Turn (i : nat) | Effect | Elsewhere (w : W) | Reload.

Definition perform (t : tab W) (e : event) : option (tab W) :=
  let p := tb_page t in
  let put i f := a ← tb_tasks t !! i; f (take i (tb_tasks t)) a (drop (S i) (tb_tasks t)) in
  match e with
  | SignIn typed =>
      if String.eqb (token (pg_view p)) "" && negb (busy (pg_view p)) && negb (String.eqb (js_trim typed) "")
      then Some (let p := begin_signIn (js_trim typed) p in launch (SigningIn (js_trim typed)) (load_of p) p t) else None
  | SignOut => if String.eqb (token (pg_view p)) "" then None else Some (end_session (with_page (signOut p) t))
  | Serve i => put i (fun l1 a l2 =>
      match aw_stage a with
      | Sent q => let '(answer, w) := fetch q (pg_world p) in
          Some (with_tasks (l1 ++ at_stage (Answered q (settle (aw_task a) answer)) a :: l2) (with_page (set_world w p) t))
      | _ => None
      end)
  | Turn i => put i (fun l1 a l2 => match aw_stage a with Answered q r => Some (take_turn l1 l2 a q r t) | _ => None end)
  | Effect => if String.eqb (token (pg_view p)) (tb_seen t) then None else Some (run_effect t)
  | Elsewhere w => Some (with_page (set_world w p) t)
  | Reload => Some (open_tab (pg_storage p) (pg_world p) (tb_sessions t) (tb_log t))
  end.

Lemma perform_step t e t' : perform t e = Some t' -> page_step t t'.
Proof.
  destruct e as [typed| |i|i| |w|]; cbn [perform].
  - destruct (String.eqb_spec (token (pg_view (tb_page t))) ""); [|done]. destruct (busy _) eqn:Eb; [done|].
    destruct (String.eqb_spec (js_trim typed) ""); [done|]. intros [= <-]. by apply click_sign_in.
  - destruct (String.eqb_spec (token (pg_view (tb_page t))) ""); [done|]. intros [= <-]. by apply click_sign_out.
  - destruct (tb_tasks t !! i) as [a|] eqn:Ei; [|done]. cbn [mbind option_bind]. destruct (aw_stage a) as [|q|] eqn:Ea; try done.
    destruct (fetch q _) as [answer w] eqn:Ef. intros [= <-]. eapply served; [|done|done]. symmetry. by apply take_drop_middle.
  - destruct (tb_tasks t !! i) as [a|] eqn:Ei; [|done]. cbn [mbind option_bind]. destruct (aw_stage a) as [| |q r] eqn:Ea; try done.
    intros [= <-]. apply resumed; [|done]. symmetry. by apply take_drop_middle.
  - destruct (String.eqb_spec (token (pg_view (tb_page t))) (tb_seen t)); [done|]. intros [= <-]. by apply effect.
  - intros [= <-]. apply elsewhere.
  - intros [= <-]. apply reloaded.
Qed.

Definition performs (t : tab W) (es : list event) : option (tab W) :=
  fold_left (fun ot e => t ← ot; perform t e) es (Some t).

Lemma performs_run es t t' : performs t es = Some t' -> rtc page_step t t'.
Proof.
  unfold performs. revert t. induction es as [|e es IH]; intros t; simpl; [by intros [= <-]|].
  destruct (perform t e) as [t1|] eqn:Ep.
  - intros Hr. eapply rtc_l; [by eapply perform_step|by apply IH].
  - intros Hr. exfalso. clear -Hr. induction es as [|e es IH]; [done|]. by apply IH.
Qed.

(** ** The actions of [Console] are the runs with nothing in between *)

(** The last task's call, answered and taken up at once *)
Lemma answered_at_once t l a q answer w : tb_tasks t = l ++ [a] -> aw_stage a = Sent q ->
  fetch q (pg_world (tb_page t)) = (answer, w) ->
  let r := settle (aw_task a) answer in
  exists t', rtc page_step t t' /\
    tb_page t' = fst (resume (aw_task a) r (set_world w (tb_page t))) /\
    tb_tasks t' = l ++ if snd (resume (aw_task a) r (set_world w (tb_page t)))
                       then [{| aw_task := Refreshing true; aw_session := aw_session a; aw_stage := load_of (tb_page t') |}] else [].
Proof.
  intros El Est Ef r. set (t1 := with_tasks (l ++ [at_stage (Answered q r) a]) (with_page (set_world w (tb_page t)) t)).
  exists (take_turn l [] (at_stage (Answered q r) a) q r t1). split; [|].
  - eapply rtc_l; [by eapply (served t l a [])|]. by eapply rtc_once, (resumed t1 l _ []).
  - unfold take_turn. cbn [at_stage aw_task]. change (tb_page t1) with (set_world w (tb_page t)).
    destruct (resume (aw_task a) r (set_world w (tb_page t))) as [p again]. cbn [tb_page tb_tasks fst snd aw_session].
    by rewrite app_nil_r.
Qed.

(** A load at the end of the tasks *)
Lemma loaded_at_once t l inside n : tb_tasks t = l ++ [{| aw_task := Refreshing inside; aw_session := n; aw_stage := load_of (tb_page t) |}] ->
  exists t', rtc page_step t t' /\ tb_tasks t' = l /\
    tb_page t' = release inside (let '(r, p) := call (loadProject API_BASE (pg_storage (tb_page t))) (tb_page t) in end_refresh r p).
Proof.
  intros El. destruct (fetch (load_with (getToken (pg_storage (tb_page t)))) (pg_world (tb_page t))) as [answer w] eqn:Ef.
  destruct (answered_at_once t l _ _ answer w El eq_refl Ef) as (t' & Hr & Hp & Ht). exists t'. split; [done|].
  cbn [aw_task resume snd fst] in *. rewrite app_nil_r in Ht. split; [done|]. rewrite Hp. unfold call, loadProject, request.
  fold (load_with (getToken (pg_storage (tb_page t)))). by rewrite Ef.
Qed.

Lemma signIn_runs typed t : token (pg_view (tb_page t)) = "" -> busy (pg_view (tb_page t)) = false -> js_trim typed <> "" ->
  exists t', rtc page_step t t' /\ tb_tasks t' = tb_tasks t /\ tb_page t' = signIn API_BASE (js_trim typed) (tb_page t).
Proof.
  intros Et Eb Hv. set (p := begin_signIn (js_trim typed) (tb_page t)).
  destruct (fetch (load_with (getToken (pg_storage p))) (pg_world p)) as [answer w] eqn:Ef.
  destruct (answered_at_once (launch (SigningIn (js_trim typed)) (load_of p) p t) (tb_tasks t) _ _ answer w eq_refl eq_refl Ef) as (t' & Hr & Hp & Ht).
  exists t'. split; [by eapply rtc_l; [apply click_sign_in|]|]. cbn [aw_task resume snd fst] in *. rewrite app_nil_r in Ht.
  split; [done|]. rewrite Hp. unfold signIn, call, loadProject, request. fold p. fold (load_with (getToken (pg_storage p))). by rewrite Ef.
Qed.

Lemma submit_runs f t : token (pg_view (tb_page t)) = "" -> newOpen (pg_view (tb_page t)) = true ->
  canCreate f (busy (pg_view (tb_page t))) = true ->
  exists t', rtc page_step t t' /\ tb_tasks t' = tb_tasks t /\ tb_page t' = snd (submit API_BASE f (tb_page t)).
Proof.
  intros Et Hn Hc. pose proof (click_create t f Et Hn Hc) as Hstep. unfold submit. rewrite Hc. unfold handleCreate.
  destruct (fresh_key (form_name f) (begin_create (tb_page t))) as [key p] eqn:Ek.
  set (k := Creating (form_name f) key (fm_rules f)) in *. set (t1 := launch k Digesting p t) in *.
  set (a := {| aw_task := k; aw_session := tb_sessions t; aw_stage := call_of k p |}).
  destruct (fetch (public API_BASE "/v1/projects" (project_payload (form_name f) key (fm_rules f))) (pg_world p)) as [answer w] eqn:Ef.
  destruct (answered_at_once (with_tasks (tb_tasks t ++ [a]) t1) (tb_tasks t) a _ answer w eq_refl eq_refl Ef) as (t' & Hr & Hp & Ht).
  exists t'. split.
  { eapply rtc_l; [exact Hstep|]. eapply rtc_l; [by eapply (digested t1 (tb_tasks t) _ [])|exact Hr]. }
  cbn [a k aw_task resume snd fst] in *. rewrite app_nil_r in Ht. split; [done|]. rewrite Hp.
  unfold call, createProject, requestPublic. rewrite Ef. change (settle k answer) with (settle_public answer).
  by destruct (settle_public answer).
Qed.

Lemma handleRevoke_runs keyId t : token (pg_view (tb_page t)) <> "" -> truthy (Some (project (pg_view (tb_page t)))) = true ->
  busy (pg_view (tb_page t)) = false ->
  exists t', rtc page_step t t' /\ tb_tasks t' = tb_tasks t /\ tb_page t' = handleRevoke API_BASE true keyId (tb_page t).
Proof.
  intros Et Hp Eb. set (p := setBusy true (tb_page t)). set (t1 := launch Revoking (revoke_of keyId p) p t).
  set (q := authorized API_BASE (getToken (pg_storage p)) ("/v1/projects/me/keys/" +:+ keyId) "DELETE" None).
  destruct (fetch q (pg_world p)) as [answer w] eqn:Ef.
  destruct (answered_at_once t1 (tb_tasks t) _ q answer w eq_refl eq_refl Ef) as (t' & Hr & Hpg & Ht).
  unfold handleRevoke, call, revokeKey, request. cbn [negb]. fold p. change (pg_storage (tb_page t)) with (pg_storage p). fold q. rewrite Ef.
  cbn [aw_task resume settle] in *. destruct (settle_scoped answer) as [data|err]; cbn [fst snd] in *.
  - destruct (loaded_at_once t' _ _ _ Ht) as (t'' & Hr' & Ht' & Hp'). exists t''. split; [|split; [done|]].
    + eapply rtc_l; [by apply click_revoke|]. by etrans.
    + by rewrite Hp', Hpg.
  - exists t'. rewrite app_nil_r in Ht. split; [|by split]. eapply rtc_l; [by apply click_revoke|done].
Qed.

Lemma handleMintKey_runs t : token (pg_view (tb_page t)) <> "" -> truthy (Some (project (pg_view (tb_page t)))) = true ->
  busy (pg_view (tb_page t)) = false ->
  exists t', rtc page_step t t' /\ tb_tasks t' = tb_tasks t /\ tb_page t' = handleMintKey API_BASE (tb_page t).
Proof.
  intros Et Hp Eb. pose proof (click_mint t Et Hp Eb) as Hstep. unfold start_mint in Hstep. unfold handleMintKey.
  change (project (pg_view (begin_mint (tb_page t)))) with (project (pg_view (tb_page t))) in *.
  assert (Hnow : forall p, page_step t (with_page p t) -> exists t', rtc page_step t t' /\ tb_tasks t' = tb_tasks t /\ tb_page t' = p).
  { intros p Hs. exists (with_page p t). split; [by apply rtc_once|done]. }
  revert Hstep. destruct (project (pg_view (tb_page t))) as [| | | | | |fields]; try (intros Hstep; by apply Hnow).
  destruct (field "name" (JObject fields)) as [[| | | |name| |]|]; try (intros Hstep; by apply Hnow).
  destruct (fresh_key name (begin_mint (tb_page t))) as [key p] eqn:Ek. intros Hstep.
  set (k := Minting name key) in *. set (t1 := launch k Digesting p t) in *.
  set (a := {| aw_task := k; aw_session := tb_sessions t; aw_stage := call_of k p |}).
  set (q := authorized API_BASE (getToken (pg_storage p)) "/v1/projects/me/keys" "POST" (Some (key_payload key))).
  destruct (fetch q (pg_world p)) as [answer w] eqn:Ef.
  destruct (answered_at_once (with_tasks (tb_tasks t ++ [a]) t1) (tb_tasks t) a q answer w eq_refl eq_refl Ef) as (t' & Hr & Hpg & Ht).
  assert (Hr0 : rtc page_step t t').
  { eapply rtc_l; [exact Hstep|]. eapply rtc_l; [by eapply (digested t1 (tb_tasks t) _ [])|exact Hr]. }
  unfold call, mintKey, request. fold q. rewrite Ef. cbn [a k aw_task resume settle] in *.
  destruct (settle_scoped answer) as [data|err]; cbn [fst snd] in *.
  - destruct (loaded_at_once t' _ _ _ Ht) as (t'' & Hr' & Ht' & Hp'). exists t''. split; [by etrans|]. split; [done|]. by rewrite Hp', Hpg.
  - exists t'. rewrite app_nil_r in Ht. by split_and!.
Qed.

Lemma after_render_runs t :
  exists t', rtc page_step t t' /\ tb_tasks t' = tb_tasks t /\ tb_page t' = after_render API_BASE (tb_seen t) (tb_page t).
Proof.
  unfold after_render. destruct (String.eqb_spec (token (pg_view (tb_page t))) (tb_seen t)) as [Es|Es]; cbn [orb]; [by exists t|].
  pose proof (effect t Es) as Hstep. unfold run_effect in Hstep.
  destruct (String.eqb_spec (token (pg_view (tb_page t))) "") as [Et|Et]; [by eexists; split; [eapply rtc_once, Hstep|]|].
  set (t1 := launch _ _ _ _) in Hstep. destruct (loaded_at_once t1 (tb_tasks t) false (tb_sessions t) eq_refl) as (t' & Hr & Ht & Hp).
  exists t'. split; [by eapply rtc_l|]. by split.
Qed.

End Session.

(** ** Properties *)


(** A server that knows the tokens of the world, and gives each its name *)
Module Demo.
#[local] Instance reader : JavaScript := {|
  stringify j := ""; parse s := Some (JObject [("name", JString s)]); large_number f := JNull; unicode_toLowerCase s := s |}.
Definition give (tok : string) (known : list string) : http_response :=
  {| StatusCode := if bool_decide (tok ∈ known) then 200 else 401; Resp_Header := ∅; Resp_Body := tok; Resp_fault := None |}.
#[local] Instance keeper : Web (list string) := {|
  fetch q known := (Some (give (fst (CutPrefix (Header_Get (hr_Header q) "Authorization") "Bearer ")) known), known);
  getRandomValues n known := (repeat 0 n, known) |}.
Definition api : string := "https://api".
Definition start : tab (list string) := open_tab (Stored None) ["A"] 0 [].
Definition project_of (tok : string) : json := JObject [("name", JString tok)].

(** What the claims below look at *)
Definition seen (t : tab (list string)) : string * json * string * bool * list awaiting :=
  (token (pg_view (tb_page t)), project (pg_view (tb_page t)), getToken (pg_storage (tb_page t)), tb_late t, tb_tasks t).
Definition works (t : tab (list string)) : bool := match pg_storage (tb_page t) with Blocked => false | Stored _ => true end.

(** A run of events, and what is seen after it *)
Lemma run_seen es x : option_map (fun t => (seen t, works t)) (performs api start es) = Some (x, true) ->
  exists t, rtc (page_step api) start t /\ seen t = x /\ pg_storage (tb_page t) <> Blocked.
Proof.
  destruct (performs api start es) as [t|] eqn:Ep; [|done]. cbn [option_map]. intros E. exists t.
  split; [by eapply performs_run|]. injection E as <- Hw. split; [done|]. intros Hb. unfold works in Hw. by rewrite Hb in Hw.
Qed.


(** A load that the sign-out left behind puts its project on a page that has no
    token any more: whoever signs up next is shown it until the next load. *)
Theorem late_project : exists t, rtc (page_step api) start t /\
  token (pg_view (tb_page t)) = "" /\ project (pg_view (tb_page t)) = project_of "A".
Proof.
  destruct (run_seen [SignIn "A"; Serve 0; Turn 0; Effect; SignOut; Serve 0; Turn 0] ("", project_of "A", "", true, []))
    as (t & Hr & Hseen & _); [vm_compute; reflexivity|]. injection Hseen as Ht Hp _ _ _. by exists t.
Qed.

(** A load that the sign-out left behind, refused while the next sign-in is under
    way, takes that sign-in's token out of the storage: the page opens the
    project, but its next call has no token. *)
Theorem late_refusal : exists t, rtc (page_step api) start t /\
  token (pg_view (tb_page t)) = "B" /\ project (pg_view (tb_page t)) = project_of "B" /\
  pg_storage (tb_page t) <> Blocked /\ getToken (pg_storage (tb_page t)) = "".
Proof.
  destruct (run_seen [SignIn "A"; Serve 0; Turn 0; Effect; SignOut; Elsewhere ["B"]; SignIn "B"; Serve 0; Serve 1; Turn 0; Turn 0]
    ("B", project_of "B", "", true, [])) as (t & Hr & Hseen & Hs); [vm_compute; reflexivity|].
  injection Hseen as Ht Hp Hg _ _. by exists t.
Qed.
End Demo.
