(* ===== verification/ConsoleForm.v ===== *)
(** What the console sends against what the server accepts: the keys that the
    browser makes ([generateKey]) and the rules of the project form ([PRESETS],
    [addPreset] and the payload of [handleCreate]), read by the server's decoder
    and checked by its provisioning service. *)

From stdpp Require Import base gmap strings list.
From Stdlib Require Import ZArith NArith Lia Ascii SpecFloat.
From S2P Require Import Prelude Float64 GoStrings Sha256 Domain Uuid Ports AuthService Provisioning Http Observability Decode.
From S2P Require Import Handlers Client Console.

Local Open Scope Z_scope.

(** ** Trimming *)

(** A text with a printable byte at either end is left as it is. *)
Lemma TrimSpace_ends c l d : printable c = true -> printable d = true ->
  TrimSpace (implode (c :: l ++ [d])) = implode (c :: l ++ [d]).
Proof.
  intros Hc Hd. unfold TrimSpace. rewrite explode_implode. f_equal.
  assert (Hl : trim_left (c :: l ++ [d]) = c :: l ++ [d]).
  { unfold trim_left. cbn [length strip_all]. by rewrite (proj1 (strip_one_printable c _ Hc)). }
  rewrite Hl. unfold trim_right. change (c :: l ++ [d]) with ((c :: l) ++ [d]).
  rewrite rev_app_distr. cbn [rev app length strip_all].
  rewrite (proj2 (strip_one_printable d _ Hd)). cbn [rev]. by rewrite rev_app_distr, rev_involutive.
Qed.

(** ** The key *)

Definition letters (name : string) : nat := length (List.filter letter_or_digit (explode name)).

Lemma alnum_printable c : alnum c = true -> printable c = true.
Proof. destruct c as [[] [] [] [] [] [] [] []]; vm_compute; done. Qed.

Lemma slug_alnum name : forallb alnum (explode (slug name)) = true.
Proof.
  unfold slug. set (s := implode _). destruct (String.eqb_spec s ""); [done|]. subst s. rewrite explode_implode.
  apply forallb_forall. intros c (d & <- & [_ Hd]%filter_In)%in_map_iff. exact Hd.
Qed.

Lemma slug_length name : String.length (slug name) = if (letters name =? 0)%nat then 7%nat else letters name.
Proof.
  unfold slug, letters. set (l := List.filter _ _). destruct l as [|c l]; [done|].
  change (String.eqb (implode (map lower_byte (c :: l))) "") with false. cbv iota.
  by rewrite <- length_explode, explode_implode, length_map.
Qed.

Section Key.
Context (name : string) (bytes : list Z) (Hbytes : Forall (fun b => 0 <= b < 256) bytes).
Let k := generateKey name bytes.

Lemma generated_hash : hash k = HashAPIKey (raw k).
Proof.
  unfold HashAPIKey, sha256_hex. pose proof (Sum256_length (bytes_of_string (raw k))) as Hl.
  rewrite take_ge by lia. reflexivity.
Qed.

Lemma prefix_printable : forallb printable (explode (prefix k)) = true.
Proof.
  unfold k, generateKey, prefix. rewrite !explode_app, !forallb_app. cbn [forallb].
  change (forallb printable (explode "rl_")) with true. change (forallb printable (explode "_")) with true.
  rewrite andb_true_r. cbn [andb]. apply forallb_forall. intros c Hc. apply alnum_printable.
  by apply (proj1 (forallb_forall _ _) (slug_alnum name)).
Qed.

Lemma raw_printable : forallb printable (explode (raw k)) = true.
Proof.
  assert (E : raw k = prefix k +:+ hex_encode bytes).
  { unfold k, generateKey, raw, prefix. by rewrite !string_app_assoc. }
  rewrite E, explode_app, forallb_app, prefix_printable. cbn [andb]. apply forallb_forall. intros c Hc.
  pose proof (proj1 (forallb_forall _ _) (hex_encode_chars bytes Hbytes) c Hc) as Hx. by apply hex_plain, andb_prop in Hx as [Hx _].
Qed.

Lemma raw_trimmed : TrimSpace (raw k) = raw k.
Proof. apply TrimSpace_printable, raw_printable. Qed.

Lemma raw_nonempty : raw k <> "".
Proof. done. Qed.

Lemma prefix_length : len (prefix k) = 4 + Z.of_nat (String.length (slug name)).
Proof. unfold k, generateKey, prefix, len. rewrite !string_length_app. simpl String.length. lia. Qed.

Lemma prefix_fits : letters name <> 0%nat -> prefix_ok (TrimSpace (prefix k)) = (letters name <=? 28)%nat.
Proof.
  intros Hn. rewrite TrimSpace_printable by apply prefix_printable. apply eq_bool_prop_intro. split; intros Hp%Is_true_eq_true; apply Is_true_eq_left.
  - apply prefix_ok_spec in Hp as [_ Hp]. rewrite prefix_length, slug_length in Hp.
    apply Nat.leb_le. destruct (Nat.eqb_spec (letters name) 0); lia.
  - apply prefix_ok_spec. split; [done|]. apply Nat.leb_le in Hp. rewrite prefix_length, slug_length.
    destruct (Nat.eqb_spec (letters name) 0); lia.
Qed.

Lemma generated_digest : hex_digest (hash k).
Proof. rewrite generated_hash. split; [by apply (sha256_hex_length 32)|apply sha256_hex_chars]. Qed.

Lemma digest_accepted `{!GoText} : normalise (hash k) = hash k /\ MatchString sha256HexRe (hash k) = true.
Proof. pose proof generated_digest. split; [by apply normalise_hex|by apply sha256HexRe_spec]. Qed.

End Key.

(** A name that the form and the server accept has letters or digits. *)
Lemma project_name_letters name : project_name name -> letters name <> 0%nat.
Proof.
  intros (a & mid & z & E & _ & Ha & _). unfold letters. rewrite E. cbn [List.filter].
  assert (Hl : letter_or_digit a = true) by (revert Ha; destruct a as [[] [] [] [] [] [] [] []]; vm_compute; done).
  by rewrite Hl.
Qed.

Lemma project_name_normal `{!GoText} name : project_name name -> normalise name = name.
Proof.
  intros (a & mid & z & E & _ & Ha & Hm & Hz). unfold normalise.
  assert (Hall : forallb alnum_dash (explode name) = true).
  { rewrite E. cbn [forallb]. unfold alnum_dash at 1. rewrite Ha, forallb_app, Hm. cbn [forallb]. unfold alnum_dash. by rewrite Hz. }
  assert (Hd : forall c, alnum_dash c = true -> printable c && lower_ascii c = true).
  { intros c. destruct c as [[] [] [] [] [] [] [] []]; vm_compute; done. }
  rewrite forallb_forall in Hall. rewrite TrimSpace_printable; [apply ToLower_lower|]; apply forallb_forall; intros c Hc;
    apply Hall, Hd, andb_prop in Hc; by destruct Hc.
Qed.

(** ** The form *)

(** A rule made of a preset: its own fields under another pattern *)
Definition made_of (p r : draft) : Prop :=
  (exists pattern, dr_pattern r = "/" +:+ pattern +:+ "*") /\
  r = {| dr_pattern := dr_pattern r; dr_algorithm := dr_algorithm p; dr_enabled := Some true;
         dr_limit_count := dr_limit_count p; dr_window_seconds := dr_window_seconds p;
         dr_bucket_capacity := dr_bucket_capacity p; dr_refill_rate := dr_refill_rate p |}.
Definition from_preset (r : draft) : Prop := exists p, p ∈ PRESETS /\ made_of p r.

Lemma scoped_shape name p : p ∈ PRESETS -> exists pattern, scoped name (dr_pattern p) = "/" +:+ pattern +:+ "*".
Proof.
  intros Hp. unfold PRESETS in Hp. rewrite !elem_of_cons, elem_of_nil in Hp.
  assert (E : exists rest, dr_pattern p = "/" +:+ rest +:+ "*").
  { destruct Hp as [->|[->|[->|[]]]]; [by exists "login/"|by exists "intake/"|by exists "ai/"]. }
  destruct E as [rest ->]. set (n := (if String.eqb name "" then "app" else name) +:+ "/").
  exists (expand (rest +:+ "*") (explode n) +:+ rest).
  change (scoped name ("/" +:+ rest +:+ "*")) with ("/" +:+ expand (rest +:+ "*") (explode n) +:+ (rest +:+ "*")).
  by rewrite !string_app_assoc.
Qed.

Lemma snoc_distinct (rules : list draft) d : existsb (fun r => String.eqb (dr_pattern r) (dr_pattern d)) rules = false ->
  NoDup (dr_pattern <$> rules) -> NoDup (dr_pattern <$> (rules ++ [d])).
Proof.
  intros Ex Hn. rewrite fmap_app. apply NoDup_app. split; [done|]. split; [|apply NoDup_singleton].
  intros q Hq ->%list_elem_of_singleton. apply list_elem_of_fmap in Hq as (r & Hr & Hin).
  apply not_true_iff_false in Ex. apply Ex, existsb_exists. exists r. split; [by apply list_elem_of_In|]. by apply String.eqb_eq.
Qed.

Lemma addPreset_distinct name p rules : NoDup (dr_pattern <$> rules) -> NoDup (dr_pattern <$> addPreset name p rules).
Proof. intros Hn. unfold addPreset. destruct (existsb _ rules) eqn:Ex; [done|]. by apply snoc_distinct. Qed.

Lemma addPreset_ok name p rules : p ∈ PRESETS -> Forall from_preset rules -> Forall from_preset (addPreset name p rules).
Proof.
  intros Hp Hf. unfold addPreset. destruct (existsb _ rules); [done|]. apply Forall_app. split; [done|].
  constructor; [|constructor]. exists p. split; [done|]. split; [by apply scoped_shape|done].
Qed.

Lemma saveRule_ok d rules : NoDup (dr_pattern <$> rules) -> NoDup (dr_pattern <$> saveRule d rules).
Proof.
  intros Hn. unfold saveRule. destruct (String.eqb _ ""); [done|]. destruct (existsb _ rules) eqn:Ex; [done|].
  by apply snoc_distinct.
Qed.

Lemma removeRule_ok i rules : removeRule i rules `sublist_of` rules.
Proof.
  unfold removeRule. rewrite <- (take_drop i rules) at 3. apply sublist_app; [done|].
  replace (S i) with (i + 1)%nat by lia. rewrite <- drop_drop. apply sublist_drop.
Qed.

Lemma sublist_patterns l k : l `sublist_of` k -> NoDup (dr_pattern <$> k) -> NoDup (dr_pattern <$> l).
Proof. intros Hs Hn. eapply sublist_NoDup; [exact Hn|]. by apply fmap_sublist. Qed.

Section Edits.
Context `{!JavaScript}.

(** No pattern is there twice, whatever the edits. *)
Lemma edited_distinct edits : NoDup (dr_pattern <$> fm_rules (edited edits)).
Proof.
  unfold edited. assert (Hf : NoDup (dr_pattern <$> fm_rules empty_form)) by apply NoDup_nil_2.
  revert Hf. generalize empty_form. induction edits as [|e edits IH]; intros f Hf; [done|]. cbn [fold_left]. apply IH.
  destruct e as [s|n|d|i]; cbn [apply_edit]; [done| |by apply saveRule_ok|].
  - destruct (PRESETS !! n); [by apply addPreset_distinct|done].
  - by apply (sublist_patterns _ _ (removeRule_ok i _)).
Qed.

(** Without the rule editor every rule comes from a preset. *)
Definition presets_only (e : edit) : bool := match e with SaveRule _ => false | _ => true end.

Lemma edited_presets edits : forallb presets_only edits = true -> Forall from_preset (fm_rules (edited edits)).
Proof.
  unfold edited. assert (Hf : Forall from_preset (fm_rules empty_form)) by apply Forall_nil_2.
  revert Hf. generalize empty_form. induction edits as [|e edits IH]; intros f Hf He; [done|]. cbn [forallb] in He. apply andb_prop in He as [He Hes].
  cbn [fold_left]. apply IH; [|done]. destruct e as [s|n|d|i]; cbn [apply_edit]; [done| |done|].
  - destruct (PRESETS !! n) as [p|] eqn:Ep; [|done]. apply addPreset_ok; [by eapply list_elem_of_lookup_2|done].
  - apply Forall_forall. intros r Hr. apply (proj1 (Forall_forall _ _) Hf). cbn [fm_rules with_rules] in Hr.
    unfold removeRule in Hr. apply elem_of_app in Hr as [Hr|Hr]; apply list_elem_of_lookup in Hr as [j Hj].
    + apply list_elem_of_lookup. exists j. by apply lookup_take_Some in Hj as [? _].
    + rewrite lookup_drop in Hj. by eapply list_elem_of_lookup_2.
Qed.

Lemma canCreate_name f b : canCreate f b = true -> project_name (form_name f) /\ fm_rules f <> [].
Proof.
  unfold canCreate, nameOk. intros [[Hn Hr]%andb_prop _]%andb_prop. split; [by apply projectNameRe_spec|].
  by apply negb_true_iff, bool_decide_eq_false in Hr.
Qed.

End Edits.

(** The rule that the form shows, as a rule of the server *)
Definition form_rule (tenantID : uuid) (r : draft) : Rule :=
  let number x := default 0 (x ≫= whole) in
  {| Rule_ID := uuid_Nil; Rule_TenantID := tenantID; RoutePattern := dr_pattern r; Rule_Algorithm := dr_algorithm r;
     Enabled := default true (dr_enabled r); LimitCount := number (dr_limit_count r);
     WindowSeconds := number (dr_window_seconds r); BucketCapacity := number (dr_bucket_capacity r);
     RefillRate := default (of_Z 0) (dr_refill_rate r) |}.

Section Reading.
Context `{!GoJSON} `{!JavaScript} `{!GoText}.

(** The server reads a preset's rule as it is, and finds it valid. *)
Lemma preset_read r : from_preset r -> exists b, read_ruleBody (rule_payload r) = Some b /\ toEntity b = form_rule uuid_Nil r.
Proof.
  intros (p & Hp & _ & ->). unfold PRESETS in Hp. rewrite !elem_of_cons, elem_of_nil in Hp.
  destruct Hp as [->|[->|[->|[]]]]; (eexists; split; [vm_compute; reflexivity|vm_compute; reflexivity]).
Qed.

Lemma preset_pattern r : from_preset r -> TrimSpace (dr_pattern r) = dr_pattern r /\ dr_pattern r <> "".
Proof.
  intros (p & _ & (pattern & ->) & _). split; [|done].
  assert (E : "/" +:+ pattern +:+ "*" = implode ("/"%char :: explode pattern ++ ["*"%char])).
  { apply explode_inj. by rewrite explode_implode, !explode_app. }
  rewrite E. by apply TrimSpace_ends.
Qed.

Lemma preset_valid tenantID r : tenantID <> uuid_Nil -> from_preset r ->
  Validate (form_rule tenantID r) = Ok tt /\ owned_rule tenantID (form_rule uuid_Nil r) = form_rule tenantID r.
Proof.
  intros Ht Hr. destruct (preset_pattern r Hr) as [Hp Hne]. split.
  - unfold Validate. cbn [form_rule Rule_TenantID RoutePattern]. rewrite bool_decide_eq_false_2 by done.
    rewrite Hp, (proj2 (String.eqb_neq _ _) Hne).
    destruct Hr as (p & Hin & _ & ->). unfold PRESETS in Hin. rewrite !elem_of_cons, elem_of_nil in Hin.
    destruct Hin as [->|[->|[->|[]]]]; vm_compute; reflexivity.
  - unfold owned_rule, form_rule. cbn [RoutePattern]. by rewrite Hp.
Qed.

Lemma presets_read rules : Forall from_preset rules ->
  exists bs, mapM read_ruleBody (map rule_payload rules) = Some bs /\ map toEntity bs = map (form_rule uuid_Nil) rules.
Proof.
  induction 1 as [|r rules Hr _ (bs & E1 & E2)]; [by exists []|]. destruct (preset_read r Hr) as (b & Eb & Et).
  exists (b :: bs). cbn [map]. rewrite <- E2, <- Et. split; [|done].
  change (mapM read_ruleBody (rule_payload r :: map rule_payload rules))
    with (x ← read_ruleBody (rule_payload r); k ← mapM read_ruleBody (map rule_payload rules); mret (x :: k)).
  by rewrite Eb, E1.
Qed.

(** The payload of [handleCreate], read by the server: the rules can fail to. *)
Lemma payload_read name k rules : read_createProjectBody (project_payload name k rules) =
  option_map (Build_createProjectBody name (hash k) (prefix k)) (mapM read_ruleBody (map rule_payload rules)).
Proof.
  unfold read_createProjectBody, object_into, project_payload. cbn [fold_left fst snd].
  set (l := map rule_payload rules).
  transitivity (x ← list_into read_ruleBody (JArray l); Some (Build_createProjectBody name (hash k) (prefix k) x)); [reflexivity|].
  cbn [list_into]. by destruct (mapM read_ruleBody l).
Qed.

End Reading.

(** ** Properties *)

Section Properties.
Context `{!GoText} {W : Type} `{!GoUUID W} `{!ProjectStore W}.

(** C23: the browser's keys on the server.  What the browser calls the hash is
    the digest under which the server looks a key up, and the key survives the
    trimming of an Authorization header.  With a name of at most 28 letters and
    digits a key of either role is passed to the store with that digest and its
    prefix; a longer name - a project may have forty - makes a prefix of more
    than 32 bytes, and every key and every project with it is refused before
    the store is asked. *)
Theorem generated_key_accepted name bytes tenantID role rules w :
  project_name name -> Forall (fun b => 0 <= b < 256) bytes -> role = RoleAdmin \/ role = RoleCheck ->
  let k := generateKey name bytes in
  hash k = HashAPIKey (raw k) /\ raw k <> "" /\ TrimSpace (raw k) = raw k /\
  if (letters name <=? 28)%nat then
    AddAPIKey tenantID (hash k) (prefix k) role w = store_AddAPIKey tenantID (HashAPIKey (raw k)) (prefix k) role w
  else
    AddAPIKey tenantID (hash k) (prefix k) role w = (Err bad_prefix, w) /\
    CreateProject name (hash k) (prefix k) role rules w = (Err bad_prefix, w).
Proof.
  intros Hname Hbytes Hrole k.
  split; [apply generated_hash|]. split; [done|]. split; [by apply raw_trimmed|].
  pose proof (prefix_fits name bytes (project_name_letters name Hname)) as Hp. fold k in Hp.
  destruct (digest_accepted name bytes) as [Hd1 Hd2]. fold k in Hd1, Hd2.
  assert (Htrim : TrimSpace (prefix k) = prefix k) by apply TrimSpace_printable, prefix_printable.
  destruct (letters name <=? 28)%nat; unfold AddAPIKey, CreateProject.
  - rewrite Hd1, Hd2, Hp. cbn [negb]. rewrite (proj2 (role_ok_spec role) Hrole). cbn [negb].
    rewrite Htrim. unfold k. by rewrite generated_hash.
  - rewrite (project_name_normal name Hname), (proj2 (projectNameRe_spec name) Hname), Hd1, Hd2, Hp. done.
Qed.

(** C24: the presets work.  Whatever is typed as the name, and whatever presets
    are clicked and rules removed: when the form offers to create the project,
    its name has at most 28 letters and digits and it has at most fifty rules,
    the server reads the payload and puts to the store the project of that name
    with the key's digest, the admin role and the rules as the form shows them. *)
Theorem presets_accepted `{!GoJSON} `{!JavaScript} edits bytes w :
  let f := edited edits in
  let name := form_name f in
  let k := generateKey name bytes in
  let tenantID := fst (uuid_New w) in
  forallb presets_only edits = true -> canCreate f false = true ->
  (letters name <= 28)%nat -> Z.of_nat (length (fm_rules f)) <= 50 -> Forall (fun b => 0 <= b < 256) bytes ->
  exists body, read_createProjectBody (project_payload name k (fm_rules f)) = Some body /\
    CreateProject (cp_Name body) (cp_KeyHash body) (cp_KeyPrefix body) RoleAdmin (map toEntity (cp_Rules body)) w =
    match store_CreateProject
            {| NP_TenantID := tenantID; NP_Name := name; NP_KeyHash := HashAPIKey (raw k); NP_KeyPrefix := prefix k;
               NP_KeyRole := RoleAdmin; NP_Rules := map (form_rule tenantID) (fm_rules f) |} (snd (uuid_New w)) with
    | (Ok _, w') => (Ok tenantID, w')
    | (Err e, w') => (Err e, w')
    end.
Proof.
  intros f name k tenantID Honly [Hname Hsome]%canCreate_name Hlen Hcount Hbytes. fold name in Hname.
  set (rules := fm_rules f) in *.
  pose proof (edited_presets edits Honly : Forall from_preset rules) as Hpre.
  pose proof (edited_distinct edits : NoDup (dr_pattern <$> rules)) as Hnd.
  assert (Hcount1 : 1 <= Z.of_nat (length rules)) by (destruct rules; [done|simpl; lia]).
  destruct (presets_read rules Hpre) as (bs & E1 & E2). rewrite payload_read, E1. cbn [option_map].
  eexists. split; [reflexivity|]. cbn [cp_Name cp_KeyHash cp_KeyPrefix cp_Rules]. rewrite E2.
  assert (Ht : tenantID <> uuid_Nil) by apply uuid_New_nonzero.
  pose proof (prefix_fits name bytes (project_name_letters name Hname)) as Hp. fold k in Hp.
  rewrite (proj2 (Nat.leb_le _ _) Hlen) in Hp. apply prefix_ok_spec in Hp as [Hp1 Hp2].
  assert (Htrim : TrimSpace (prefix k) = prefix k) by apply TrimSpace_printable, prefix_printable. rewrite Htrim in Hp1, Hp2.
  rewrite Forall_forall in Hpre.
  assert (Hmap : map (owned_rule tenantID) (map (form_rule uuid_Nil) rules) = map (form_rule tenantID) rules).
  { rewrite map_map. apply map_ext_in. intros r Hr%list_elem_of_In. by apply preset_valid, Hpre. }
  assert (Hh : hash k = sha256_hex 32 (raw k)) by apply generated_hash. rewrite Hh.
  rewrite CreateProject_accepts; [unfold tenantID in Hmap; by rewrite Hmap|done|by apply project_name_normal|done|done|done|by left|by rewrite length_map| |].
  - apply Forall_forall. intros r (d & -> & Hd)%list_elem_of_fmap. fold tenantID.
    destruct (preset_valid tenantID d Ht (Hpre d Hd)) as [Hv Ho]. by rewrite Ho.
  - replace (TrimSpace <$> (RoutePattern <$> map (form_rule uuid_Nil) rules)) with (dr_pattern <$> rules); [done|].
    change (map (form_rule uuid_Nil) rules) with (form_rule uuid_Nil <$> rules). rewrite <- !list_fmap_compose.
    apply list_fmap_ext. intros i d Hd%list_elem_of_lookup_2. cbn. symmetry. by apply preset_pattern, Hpre.
Qed.

End Properties.

Module Demo.
#[local] Existing Instances one_uuid any_store plain_text.
#[local] Instance scanner : GoJSON := {| json_scan s := None; unicode_fold_eq a b := false |}.
#[local] Existing Instance Console.Demo.plain.

Definition long_name : string := "the-national-museum-of-letters-2024".
Definition bytes : list Z := map Z.of_nat (seq 100 24).

Lemma bytes_ok : Forall (fun b => 0 <= b < 256) bytes.
Proof. unfold bytes. apply Forall_forall. intros b (n & -> & Hn%elem_of_seq)%list_elem_of_fmap. lia. Qed.
Lemma long_ok : project_name long_name.
Proof. by apply projectNameRe_spec. Qed.
Lemma short_ok : project_name "demo-app".
Proof. by apply projectNameRe_spec. Qed.

Lemma generated_key_accepted_witness :
  let k := generateKey long_name bytes in
  letters long_name = 30%nat /\ hash k = HashAPIKey (raw k) /\
  CreateProject long_name (hash k) (prefix k) RoleAdmin demo_rules tt = (Err bad_prefix, tt).
Proof.
  intros k. destruct (generated_key_accepted long_name bytes 7%N RoleAdmin demo_rules tt long_ok bytes_ok (or_introl eq_refl))
    as (Hh & _ & _ & Hk). split; [reflexivity|]. split; [exact Hh|]. exact (proj2 Hk).
Defined.

Definition edits : list edit :=
  [TypeName " Demo-App "; ClickPreset 0; ClickPreset 1; ClickPreset 2; ClickPreset 0; RemoveRule 1].

Lemma presets_accepted_witness :
  (dr_pattern <$> fm_rules (edited edits)) = ["/demo-app/login/*"; "/demo-app/ai/*"] /\
  exists body, read_createProjectBody (project_payload "demo-app" (generateKey "demo-app" bytes) (fm_rules (edited edits))) = Some body /\
    CreateProject (cp_Name body) (cp_KeyHash body) (cp_KeyPrefix body) RoleAdmin (map toEntity (cp_Rules body)) tt = (Ok 7%N, tt).
Proof.
  split; [reflexivity|].
  exact (presets_accepted edits bytes tt eq_refl eq_refl ltac:(vm_compute; lia) ltac:(vm_compute; discriminate) bytes_ok).
Defined.
End Demo.
