(* ===== verification/Measured.v ===== *)
(** What the metrics say about the server ([internal/observability/metrics.go],
    [middleware/metrics.go]).  Over the documented reading of the registry, every
    request that gets past CORS and authentication is counted once, under its
    method, route label and the class of the status that was answered
    ([server_counts]); so the counters and the latency histogram go on agreeing
    ([serve_all_agrees]).  [Monitoring] discharges what this file asks of the
    ports for the assembled server. *)

From stdpp Require Import base gmap strings list.
From Stdlib Require Import ZArith NArith Lia.
From S2P Require Import Prelude Float64 GoStrings Domain Uuid Ports AuthService Http Observability Decode.
From S2P Require Import Middleware SignupLimit Handlers Server Frame.

Local Open Scope Z_scope.

#[export] Instance buckets_eq : EqDecision buckets.
Proof. solve_decision. Defined.
#[export] Instance metric_eq : EqDecision metric.
Proof. solve_decision. Defined.

(** What the client library documents of a registry: [series] is the value of a
    counter and the number of observations of a histogram, by metric and label
    values; a call with as many values as the metric has labels adds one to its
    own series and to no other. *)
Class Registry (W : Type) `{!Prometheus W} := {
  series : metric -> list string -> W -> Z;
  series_Inc m l m' l' w : length l' = length (label_names m') ->
    series m l (Inc m' l' w) = series m l w + Z.b2z (bool_decide (m = m' /\ l = l'));
  series_Observe m l m' l' d w : length l' = length (label_names m') ->
    series m l (Observe m' l' d w) = series m l w + Z.b2z (bool_decide (m = m' /\ l = l'))
}.

(** ** The status that a handler leaves *)

(** The [StatusWriter] knows the status that the client sees. *)
Definition recorded (rw : writer) : Prop := Status rw = answered rw.
Definition handler_records {W} (h : Handler W) : Prop :=
  forall r rw w, res_sent (base rw) = None -> recorded (fst (h r (NewStatusWriter rw) w)).

Lemma records_WriteHeader st c rw : res_sent (base rw) = None -> recorded (WriteHeader c (StatusWriter st rw)).
Proof. intros Hs. unfold recorded. by rewrite answered_WriteHeader. Qed.

Lemma records_on_body st c x rw : res_sent (base rw) = None -> recorded (Write x (WriteHeader c (StatusWriter st rw))).
Proof.
  intros Hs. unfold recorded, answered. rewrite base_Write, base_WriteHeader. unfold send. cbn. by rewrite Hs.
Qed.

Lemma records_WriteJSON st c b rw : res_sent (base rw) = None -> recorded (WriteJSON c b (StatusWriter st rw)).
Proof.
  intros Hs. unfold WriteJSON, Encode. change (map_header ?f (StatusWriter st rw)) with (StatusWriter st (map_header f rw)).
  apply records_on_body. by rewrite map_header_unsent.
Qed.

Lemma map_header_status f st rw : map_header f (StatusWriter st rw) = StatusWriter st (map_header f rw).
Proof. done. Qed.

Lemma rate_headers_status d st rw :
  exists rw', ApplyRateLimitHeaders d (StatusWriter st rw) = StatusWriter st rw' /\ res_sent (base rw') = res_sent (base rw).
Proof.
  unfold ApplyRateLimitHeaders. destruct (_ && _); [by exists rw|]. cbn zeta. rewrite map_header_status.
  eexists. split; [reflexivity|apply map_header_unsent].
Qed.

(** Every branch of a handler writes one header. *)
Ltac one_header :=
  unfold NewStatusWriter, writeProjectError, refuse_auth, unauthorized, bad_request, unavailable, WriteError; cbn [fst];
  repeat match goal with
  | |- recorded (fst (match ?x with _ => _ end)) => destruct x; cbn [fst]
  | |- recorded (match ?x with _ => _ end) => destruct x
  | |- context [map_header ?f (StatusWriter ?st ?rw)] => rewrite (map_header_status f st rw)
  end;
  first [apply records_WriteJSON|apply records_WriteHeader|apply records_on_body]; rewrite ?map_header_unsent; assumption.

Section Records.
Context `{!GoJSON} `{!UUIDText} {W : Type} `{!GoClock W} `{!GoLog W} `{!Prometheus W} `{!SignupState W}.
Context `{!APIKeyRepository W} `{!TenantRepository W} `{!RuleRepository W}.
Context `{!RateLimitChecker W} `{!ProjectService W}.

Lemma records_CheckHandler : handler_records CheckHandler.
Proof.
  intros r rw w Hs. unfold CheckHandler. destruct (negb _); [one_header|]. destruct (TenantIDFromContext r); [|one_header].
  destruct (parse_check r); [|one_header]. cbn zeta. destruct (checker_Check _ _ _ _ w) as [[d|e] w1]; [|one_header].
  destruct (rate_headers_status d 200 rw) as (rw' & E & Eh). cbn [fst]. unfold NewStatusWriter. rewrite E.
  apply records_WriteJSON. by rewrite Eh.
Qed.

Lemma records_config : handler_records ListTenants /\ handler_records ListTenantRules.
Proof. split; intros r rw w Hs; unfold ListTenants, ListTenantRules; one_header. Qed.

Lemma records_health (checkers : list (Op W unit)) : handler_records (@Live W) /\ handler_records (Ready checkers).
Proof.
  split; [intros r rw w Hs; unfold Live; one_header|].
  induction checkers as [|ping rest IH]; intros r rw w Hs; cbn [Ready]; [one_header|].
  destruct (ping w) as [[[]|e] w1]; [by apply IH|one_header].
Qed.

Lemma records_console : handler_records console_Create /\ handler_records console_Me /\ handler_records console_AddKey /\
  handler_records console_RevokeKey.
Proof.
  split_and!; intros r rw w Hs; unfold console_Create, console_Me, console_AddKey, console_RevokeKey, answer_revoke;
    cbn zeta; one_header.
Qed.

Lemma records_admin : handler_records admin_CreateProject /\ handler_records admin_ListProjects /\
  handler_records admin_AddKey /\ handler_records admin_RevokeKey.
Proof.
  split_and!; intros r rw w Hs; unfold admin_CreateProject, admin_ListProjects, admin_AddKey, admin_RevokeKey, answer_revoke;
    cbn zeta; one_header.
Qed.

(** *** The guards *)

Lemma records_AdminAuth token (h : Handler W) : handler_records h -> handler_records (AdminAuth token h).
Proof.
  intros Hh r rw w Hs. unfold AdminAuth. destruct (String.eqb token ""); [one_header|].
  destruct (CutPrefix _ _) as [presented ok]. destruct (negb ok); [one_header|]. destruct (negb _); [one_header|]. by apply Hh.
Qed.

Lemma records_ProjectAuth (h : Handler W) : handler_records h -> handler_records (ProjectAuth h).
Proof.
  intros Hh r rw w Hs. unfold ProjectAuth. destruct (bearerToken r); [|one_header].
  destruct (Authenticate _ w) as [[tc|e] w1]; [|one_header]. destruct (negb _); [one_header|]. by apply Hh.
Qed.

Lemma records_RequireCheckRole (h : Handler W) : handler_records h -> handler_records (RequireCheckRole h).
Proof.
  intros Hh r rw w Hs. unfold RequireCheckRole. destruct (Authenticate _ w) as [[tc|e] w1]; [|one_header].
  destruct (String.eqb _ _); [one_header|]. by apply Hh.
Qed.

Lemma records_SignupLimit (h : Handler W) : handler_records h -> handler_records (SignupLimit h).
Proof.
  intros Hh r rw w Hs. unfold SignupLimit. cbn zeta. destruct (allow _ _ _ _) as [ok l].
  destruct (negb ok); [one_header|]. by apply Hh.
Qed.

(** *** The routes *)

Lemma records_http_Error st text c rw : res_sent (base rw) = None -> recorded (http_Error text c (StatusWriter st rw)).
Proof. intros Hs. unfold http_Error. rewrite map_header_status. apply records_on_body. by rewrite map_header_unsent. Qed.

Lemma records_http_Redirect st m url c rw : res_sent (base rw) = None -> recorded (http_Redirect m url c (StatusWriter st rw)).
Proof.
  intros Hs. unfold http_Redirect. rewrite !map_header_status.
  destruct (String.eqb m "GET" || String.eqb m "HEAD"), (String.eqb m "GET");
    first [apply records_on_body|apply records_WriteHeader]; by rewrite ?map_header_unsent.
Qed.

Variable promhttp_Handler : Handler W.
Hypothesis page_records : handler_records promhttp_Handler.

Lemma records_routes deps : Forall (fun rt => handler_records (rt_handler rt)) (routes promhttp_Handler deps).
Proof.
  destruct records_config as [Hc1 Hc2]. destruct (records_health (HealthCheckers deps)) as [Hh1 Hh2].
  destruct records_console as (Hp1 & Hp2 & Hp3 & Hp4). destruct records_admin as (Ha1 & Ha2 & Ha3 & Ha4).
  unfold routes, check_routes, config_routes, console_routes, admin_routes. rewrite !Forall_app.
  destruct (has_Check deps), (has_AuthService deps), (has_Console deps), (has_Projects deps && negb (String.eqb (AdminToken deps) ""));
    repeat split; repeat apply Forall_cons_2; try apply Forall_nil_2; cbn [rt_handler mk_route];
    auto using records_SignupLimit, records_ProjectAuth, records_AdminAuth, records_RequireCheckRole, records_CheckHandler.
Qed.

Lemma records_ServeMux deps : handler_records (ServeMux (routes promhttp_Handler deps)).
Proof.
  intros r rw w Hs. unfold ServeMux, NewStatusWriter. destruct (_ && _); [by apply records_http_Redirect|].
  destruct (find_route _ _ _) as [[h vs]|] eqn:Ef.
  - apply find_route_in in Ef as (rt & Hin & <- & _). exact (proj1 (Forall_forall _ _) (records_routes deps) rt Hin _ rw w Hs).
  - destruct (allowed_methods _ _); [by apply records_http_Error|]. cbn [fst]. rewrite map_header_status.
    apply records_http_Error. by rewrite map_header_unsent.
Qed.

End Records.

(** ** The counts *)

(** The series of requests are as they were. *)
Definition same_requests `{Registry W} (w w' : W) : Prop :=
  forall m labels, m = httpRequestsTotal \/ m = httpRequestDuration -> series m labels w' = series m labels w.

(** The labels of a request that was answered with a status *)
Definition request_labels (r : Request) (status : Z) : list string :=
  [Method r; NormalizeRoute (URL_Path r); statusClass status].
Definition latency_labels (r : Request) : list string := [Method r; NormalizeRoute (URL_Path r)].

(** One more request, under its labels, and nothing else *)
Definition counted_once `{Registry W} (r : Request) (status : Z) (w w' : W) : Prop := forall labels,
  series httpRequestsTotal labels w' =
    series httpRequestsTotal labels w + Z.b2z (bool_decide (labels = request_labels r status)) /\
  series httpRequestDuration labels w' =
    series httpRequestDuration labels w + Z.b2z (bool_decide (labels = latency_labels r)).

Section Counting.
Context {W : Type} `{!Prometheus W} `{!Registry W}.

#[export] Instance same_requests_order : PreOrder same_requests.
Proof.
  split; [by intros w m l|]. intros w1 w2 w3 H12 H23 m l Hm. by rewrite H23, H12.
Qed.

Lemma RecordRateLimitCheck_same d e dur w : same_requests w (RecordRateLimitCheck d e dur w).
Proof.
  intros m l Hm. unfold RecordRateLimitCheck. rewrite series_Inc, series_Observe by done.
  rewrite !bool_decide_eq_false_2 by (destruct Hm as [-> | ->]; by intros [? _]). cbn. lia.
Qed.

Lemma RecordHTTPRequest_counts r status dur w w1 : same_requests w w1 ->
  counted_once r status w (RecordHTTPRequest (Method r) (URL_Path r) status dur w1).
Proof.
  intros Hs labels. unfold RecordHTTPRequest. rewrite !series_Observe, !series_Inc, !Hs by auto.
  rewrite (bool_decide_eq_false_2 (httpRequestsTotal = httpRequestDuration /\ _)) by (by intros [? _]).
  rewrite (bool_decide_eq_false_2 (httpRequestDuration = httpRequestsTotal /\ _)) by (by intros [? _]).
  split; cbn [Z.b2z]; rewrite ?Z.add_0_r; do 2 f_equal; apply bool_decide_ext; tauto.
Qed.

End Counting.

(** ** The server *)

(** A cross-origin preflight, which CORS answers itself *)
Definition preflight {W} (deps : Dependencies W) (r : Request) : bool :=
  match DashboardOrigins deps with
  | [] => false
  | _ => String.eqb (Method r) "OPTIONS" && negb (String.eqb (Header_Get (Req_Header r) "Access-Control-Request-Method") "")
  end.

Section Server.
Context `{!GoJSON} `{!UUIDText} {W : Type} `{!GoClock W} `{!GoLog W} `{!Prometheus W} `{!Registry W} `{!SignupState W}.
Context `{!APIKeyRepository W} `{!TenantRepository W} `{!RuleRepository W}.
Context `{!RateLimitChecker W} `{!ProjectService W}.
Variable promhttp_Handler : Handler W.

(** The requests that reach the middleware [Metrics] *)
Definition measured (deps : Dependencies W) (r : Request) (w : W) : bool :=
  negb (preflight deps r) &&
  (negb (has_Auth deps) || (PublicPaths (URL_Path r) || IsAdminPath (URL_Path r) || IsProjectPath (URL_Path r)) ||
   is_ok (fst (Authenticate (Header_Get (Req_Header r) "X-API-Key") w))).

(** Only the middleware counts requests: not the log, not the ports and not
    the page of the metrics, which leaves the status as it was written. *)
Record counts_nothing (deps : Dependencies W) : Prop := {
  cn_log msg kv w : same_requests w (slog_Info msg kv w);
  cn_ports : PortsWrite same_requests;
  cn_checker t r s c : keeps same_requests (checker_Check t r s c);
  cn_pings : Forall (keeps same_requests) (HealthCheckers deps);
  cn_page : handler_keeps same_requests promhttp_Handler;
  cn_page_status : handler_records promhttp_Handler
}.

Section Routes.
Context (deps : Dependencies W) (Hq : counts_nothing deps).
#[local] Instance ports_same : PortsWrite same_requests := cn_ports deps Hq.

Lemma checker_uncounted t r s c : keeps same_requests (checker_Check t r s c).
Proof. exact (cn_checker deps Hq t r s c). Qed.
Lemma Authenticate_same raw : keeps same_requests (Authenticate raw).
Proof. exact (keeps_Authenticate same_requests raw). Qed.
#[local] Hint Resolve checker_uncounted Authenticate_same : keeps.

Lemma CheckHandler_same : handler_keeps same_requests CheckHandler /\ handler_keeps same_requests (RequireCheckRole CheckHandler).
Proof.
  split; intros r rw w; unfold RequireCheckRole, CheckHandler, TenantIDFromContext; follow; apply RecordRateLimitCheck_same.
Qed.

Lemma routes_same : Forall (fun rt => handler_keeps same_requests (rt_handler rt)) (routes promhttp_Handler deps).
Proof.
  eapply Forall_impl; [apply (routes_quiet promhttp_Handler same_requests); by apply Hq|]. intros rt [Hk|Hc]; [done|].
  destruct CheckHandler_same as [Hplain Hrole]. unfold check_routes in Hc.
  destruct (has_Check deps); [|by apply elem_of_nil in Hc]. apply list_elem_of_singleton in Hc as ->. cbn [rt_handler mk_route].
  by destruct (has_AuthService deps).
Qed.

Lemma ServeMux_same : handler_keeps same_requests (ServeMux (routes promhttp_Handler deps)).
Proof.
  intros r rw w. destruct (ServeMux_reaches (routes promhttp_Handler deps) r rw w) as [E|(rt & vs & [Hin _ _ _] & E)]; rewrite E;
    [reflexivity|]. exact (proj1 (Forall_forall _ _) routes_same rt Hin _ rw w).
Qed.

Lemma counted_around r st w0 w1 w2 w3 :
  same_requests w0 w1 -> counted_once r st w1 w2 -> same_requests w2 w3 -> counted_once r st w0 w3.
Proof. intros H01 Hc H23 l. destruct (Hc l) as [Ht Hd]. rewrite !H23, Ht, Hd, !H01 by auto. done. Qed.

(** Behind the authentication every request is counted once. *)
Lemma inner_counts r rw w0 w : res_sent (base rw) = None -> same_requests w0 w ->
  let '(rw', w') := Logging (Metrics (ServeMux (routes promhttp_Handler deps))) r rw w in
  counted_once r (answered rw') w0 w'.
Proof.
  intros Hs Hw. assert (Hm : forall rw, res_sent (base rw) = None ->
    let '(rw', w') := Metrics (ServeMux (routes promhttp_Handler deps)) r rw w in counted_once r (answered rw') w0 w').
  { intros rw1 Hs1. unfold Metrics. pose proof (records_ServeMux promhttp_Handler (cn_page_status _ Hq) deps r rw1 w Hs1) as Hr.
    pose proof (ServeMux_same r (NewStatusWriter rw1) w) as Hk.
    destruct (ServeMux _ r (NewStatusWriter rw1) w) as [sw w1]. cbn [fst snd] in *.
    replace (answered (inner_writer sw)) with (Status sw) by (rewrite Hr; unfold answered; by rewrite base_inner).
    apply RecordHTTPRequest_counts. by etrans. }
  unfold Logging. destruct (skipRequestLog (URL_Path r)); [by apply Hm|]. cbn zeta.
  specialize (Hm (NewStatusWriter rw) Hs). destruct (Metrics _ r (NewStatusWriter rw) w) as [sw w1].
  replace (answered (inner_writer sw)) with (answered sw) by (unfold answered; by rewrite base_inner).
  eapply counted_around; [reflexivity|exact Hm|apply Hq].
Qed.

Lemma server_counts r w :
  let '(rw', w') := NewMux promhttp_Handler deps r (Conn fresh_response) w in
  if measured deps r w then counted_once r (answered rw') w w' else same_requests w w'.
Proof.
  unfold NewMux, measured, preflight. set (inner := Logging (Metrics (ServeMux (routes promhttp_Handler deps)))).
  set (public := _ || _ || IsProjectPath _).
  assert (Hauth : forall rw, res_sent (base rw) = None ->
    let '(rw', w') := (if has_Auth deps then AuthOrPublic inner else inner) r rw w in
    if negb (has_Auth deps) || public || is_ok (fst (Authenticate (Header_Get (Req_Header r) "X-API-Key") w))
    then counted_once r (answered rw') w w' else same_requests w w').
  { intros rw Hs. destruct (has_Auth deps); [|by apply inner_counts]. cbn [negb orb]. unfold AuthOrPublic. fold public.
    destruct public; [by apply inner_counts|]. cbn [orb]. unfold Wrap.
    pose proof (Authenticate_same (Header_Get (Req_Header r) "X-API-Key") w) as Ha.
    destruct (Authenticate _ w) as [[tc|e] w1]; cbn [fst snd is_ok] in *; [|exact Ha].
    exact (inner_counts (WithTenantID r (Tenant_ID (TC_Tenant tc))) rw w w1 Hs Ha). }
  destruct (DashboardOrigins deps); [by apply Hauth|]. unfold CORS. destruct (_ && negb _); cbn [negb andb].
  - reflexivity.
  - apply Hauth. destruct (_ && _); by rewrite ?map_header_unsent.
Qed.

End Routes.

(** Requests one after another, each on a new connection *)
Definition serve_all (deps : Dependencies W) (rs : list Request) (w : W) : W :=
  fold_left (fun w r => snd (NewMux promhttp_Handler deps r (Conn fresh_response) w)) rs w.

Lemma serve_step deps r w : counts_nothing deps ->
  let w' := snd (NewMux promhttp_Handler deps r (Conn fresh_response) w) in
  same_requests w w' \/ exists status, counted_once r status w w'.
Proof.
  intros Hq. pose proof (server_counts deps Hq r w) as Hc. destruct (NewMux _ deps r _ w) as [rw' w']. cbn [snd].
  destruct (measured deps r w); [right; by eexists|by left].
Qed.

End Server.

(** ** The two metrics of a request *)

Definition status_classes : list string := ["5xx"; "4xx"; "3xx"; "2xx"; "other"].
Definition sum (l : list Z) : Z := foldr Z.add 0 l.

(** As many latencies as requests, for every method and route *)
Definition counts_agree `{Registry W} (w : W) : Prop := forall method route,
  series httpRequestDuration [method; route] w =
  sum (map (fun c => series httpRequestsTotal [method; route; c] w) status_classes).

Section Agreement.
Context {W : Type} `{!Prometheus W} `{!Registry W}.

Lemma one_class m rt m' rt' code :
  sum (map (fun c => Z.b2z (bool_decide ([m; rt; c] = [m'; rt'; statusClass code]))) status_classes) =
  Z.b2z (bool_decide ([m; rt] = [m'; rt'])).
Proof.
  destruct (decide (m = m' /\ rt = rt')) as [[-> ->]|Hne].
  - rewrite (bool_decide_eq_true_2 ([m'; rt'] = _)) by done. unfold statusClass, status_classes. cbn [map].
    repeat match goal with |- context [if ?b then _ else _] => destruct b end;
      repeat match goal with |- context [bool_decide (?l = ?l')] =>
        first [rewrite (bool_decide_eq_true_2 (l = l')) by reflexivity|rewrite (bool_decide_eq_false_2 (l = l')) by (intros [=])] end;
      reflexivity.
  - rewrite (bool_decide_eq_false_2 ([m; rt] = _)) by (intros [= -> ->]; tauto). unfold status_classes. cbn [map].
    by rewrite !bool_decide_eq_false_2 by (intros [= -> -> _]; tauto).
Qed.

Lemma sum_add {A} (f g : A -> Z) l : sum (map (fun x => f x + g x) l) = sum (map f l) + sum (map g l).
Proof. induction l as [|x l IH]; cbn [sum map foldr] in *; [done|]. unfold sum in *. lia. Qed.

Lemma agree_same w w' : same_requests w w' -> counts_agree w -> counts_agree w'.
Proof.
  intros Hs Ha m rt. rewrite Hs, Ha by auto. f_equal. apply map_ext. intros c. by rewrite Hs by auto.
Qed.

Lemma agree_counted r status w w' : counted_once r status w w' -> counts_agree w -> counts_agree w'.
Proof.
  intros Hc Ha m rt. rewrite (proj2 (Hc [m; rt])), Ha. unfold latency_labels. rewrite <- (one_class m rt _ _ status), <- sum_add.
  f_equal. apply map_ext. intros c. by rewrite (proj1 (Hc [m; rt; c])).
Qed.

Lemma latency_grows r status w w' l : counted_once r status w w' -> series httpRequestDuration l w <= series httpRequestDuration l w'.
Proof. intros Hc. rewrite (proj2 (Hc l)). destruct (bool_decide _); cbn; lia. Qed.

End Agreement.

(** ** Properties *)

Section Properties.
Context `{!GoJSON} `{!UUIDText} {W : Type} `{!GoClock W} `{!GoLog W} `{!Prometheus W} `{!Registry W} `{!SignupState W}.
Context `{!APIKeyRepository W} `{!TenantRepository W} `{!RuleRepository W}.
Context `{!RateLimitChecker W} `{!ProjectService W}.
Variable promhttp_Handler : Handler W.

(** The latencies go on agreeing with the requests. *)
Lemma serve_all_agrees deps rs w : counts_nothing promhttp_Handler deps ->
  counts_agree w -> counts_agree (serve_all promhttp_Handler deps rs w).
Proof.
  intros Hq. revert w. induction rs as [|r rs IH]; intros w Ha; [exact Ha|]. apply IH.
  destruct (serve_step promhttp_Handler deps r w Hq) as [Hs|[st Hc]]; [by eapply agree_same|by eapply agree_counted].
Qed.

Lemma latency_kept deps rs w l : counts_nothing promhttp_Handler deps ->
  series httpRequestDuration l w <= series httpRequestDuration l (serve_all promhttp_Handler deps rs w).
Proof.
  intros Hq. revert w. induction rs as [|r rs IH]; intros w; [reflexivity|]. etrans; [|apply IH]. cbn beta.
  destruct (serve_step promhttp_Handler deps r w Hq) as [Hs|[st Hc]]; [by rewrite Hs by auto|by eapply latency_grows].
Qed.

(** The method of a request is a label as the client wrote it: without any key,
    requests for a public path make one more series for every method a client
    thinks of. *)
Theorem method_series_unbounded deps (make : string -> Request) ms w : counts_nothing promhttp_Handler deps ->
  DashboardOrigins deps = [] -> (forall m, Method (make m) = m /\ URL_Path (make m) = "/health/live") ->
  Forall (fun m => series httpRequestDuration [m; "/health/live"] w <
                   series httpRequestDuration [m; "/health/live"] (serve_all promhttp_Handler deps (map make ms) w)) ms.
Proof.
  intros Hq Hcors Hmake. revert w. induction ms as [|m ms IH]; intros w; [constructor|].
  destruct (Hmake m) as [Em Ep]. pose proof (server_counts promhttp_Handler deps Hq (make m) w) as Hc.
  assert (Hm : measured deps (make m) w = true).
  { unfold measured, preflight. rewrite Hcors, Ep. cbn. by destruct (has_Auth deps). }
  rewrite Hm in Hc. unfold serve_all. cbn [map fold_left]. fold (serve_all promhttp_Handler deps (map make ms)).
  destruct (NewMux _ deps (make m) _ w) as [rw' w1]. cbn [snd]. change (fold_left _ (map make ms) w1) with (serve_all promhttp_Handler deps (map make ms) w1).
  constructor.
  - pose proof (latency_kept deps (map make ms) w1 [m; "/health/live"] Hq) as Hk.
    pose proof (proj2 (Hc [m; "/health/live"])) as Hl. unfold latency_labels in Hl. rewrite Em, Ep in Hl.
    rewrite bool_decide_eq_true_2 in Hl by done. cbn [Z.b2z] in Hl. cbn beta. lia.
  - eapply Forall_impl; [apply (IH w1)|]. intros m' Hlt. cbn beta in Hlt.
    pose proof (latency_grows _ _ _ _ [m'; "/health/live"] Hc). lia.
Qed.

End Properties.

(** ** A registry: the list of what was recorded *)

Module Demo.
Definition events : Type := list (metric * list string).
#[local] Instance prom : Prometheus events := {| Inc m l w := (m, l) :: w; Observe m l d w := (m, l) :: w |}.

Fixpoint occurrences (m : metric) (l : list string) (w : events) : Z :=
  match w with
  | [] => 0
  | (m', l') :: w => occurrences m l w + Z.b2z (bool_decide (m = m' /\ l = l'))
  end.
#[local] Instance registry : Registry events.
Proof. by refine {| series := occurrences |}. Defined.

End Demo.
