(* ===== verification/Examples.v ===== *)
(** The example services that put the limiter in front of their routes:
    [examples/payment-service], [examples/order-service] and the reverse proxy
    [examples/gateway-middleware].  Each asks the limiter through the Go client
    before it does anything for a request. *)

From stdpp Require Import base gmap strings list.
From Stdlib Require Import ZArith NArith Lia Ascii.
From S2P Require Import Prelude Float64 GoStrings Domain Ports Http Observability Decode Strconv Handlers Client Os Server.

Local Open Scope Z_scope.

(** ** Settings, the same in the three programs *)

(** [env] *)
Definition env (getenv : environment) (key fallback : string) : string :=
  let v := TrimSpace (getenv key) in
  if String.eqb v "" then fallback else v.

(** [envInt] *)
Definition envInt `{!GoText} (getenv : environment) (key : string) (fallback : Z) : Z :=
  let v := env getenv key "" in
  if String.eqb v "" then fallback
  else match Atoi v with Ok n => n | Err _ => fallback end.

(** The URL of the limiter, for the log *)
Definition limiter_url (getenv : environment) : string := env getenv "RATE_LIMITER_URL" "http://localhost:8080".

Definition limiter_client (getenv : environment) : Client :=
  New (limiter_url getenv) (env getenv "API_KEY" "rl_demo_abc123xyz").

(** The address a service listens on *)
Definition listen_addr `{!GoText} (getenv : environment) (port : Z) : string :=
  ":" +:+ FormatInt (envInt getenv "HTTP_PORT" port).

Section Services.
Context `{!GoJSON, !JSONText} {W : Type} `{!Transport W} `{!StdLog W}.

Definition log_check_failed (e : goerror) (w : W) : W :=
  log_Printf ("rate limit check failed: " +:+ Error e) w.

(** ** payment-service *)

(** The handler of [POST /api/payments/{id}] *)
Definition payment_handler (client : Client) : Handler W := fun r rw w =>
  let route := URL_Path r in
  match Client_Check client route 1 w with
  | (Err e, w1) =>
      (WriteJSON 503 (JObject [("error", JString "rate_limiter_unavailable")]) rw, log_check_failed e w1)
  | (Ok dec, w1) =>
      if negb (Decision_Allowed dec) then
        let rw := if 0 <? D_RetryAfter dec
                  then map_header (fun h => Header_Set h "Retry-After" (FormatInt (D_RetryAfter dec))) rw else rw in
        (WriteJSON 429 (JObject [("error", JString "rate_limit_exceeded");
                                 ("message", JString "payment rate limit exceeded — try again later");
                                 ("route", JString route)]) rw, w1)
      else
        (WriteJSON 201 (JObject [("payment_id", JString (PathValue r "id")); ("remaining", JInt (D_Remaining dec));
                                 ("status", JString "created")]) rw, w1)
  end.

Definition health_handler (service : string) : Handler W := fun r =>
  reply (WriteJSON 200 (JObject [("service", JString service); ("status", JString "ok")])).

(** The mux of [main] *)
Definition payment_mux (getenv : environment) : Handler W :=
  ServeMux [mk_route "POST" [Lit "api"; Lit "payments"; Wild "id"] (payment_handler (limiter_client getenv));
            mk_route "GET" [Lit "health"] (health_handler "payment-service")].

(** ** order-service *)

(** The handler of [POST /api/orders] *)
Definition order_handler (client : Client) : Handler W := fun r rw w =>
  let route := URL_Path r in
  match Client_Check client route 1 w with
  | (Err e, w1) =>
      (WriteJSON 503 (JObject [("error", JString "rate_limiter_unavailable")]) rw, log_check_failed e w1)
  | (Ok dec, w1) =>
      if negb (Decision_Allowed dec) then
        let rw := if 0 <? D_RetryAfter dec
                  then map_header (fun h => Header_Set h "Retry-After" (FormatInt (D_RetryAfter dec))) rw else rw in
        (WriteJSON 429 (JObject [("error", JString "rate_limit_exceeded");
                                 ("message", JString "order rate limit exceeded — try again later");
                                 ("route", JString route)]) rw, w1)
      else
        (WriteJSON 201 (JObject [("order_id", JString "ord_demo"); ("remaining", JInt (D_Remaining dec));
                                 ("status", JString "created")]) rw, w1)
  end.

Definition order_mux (getenv : environment) : Handler W :=
  ServeMux [mk_route "POST" [Lit "api"; Lit "orders"] (order_handler (limiter_client getenv));
            mk_route "GET" [Lit "health"] (health_handler "order-service")].

(** ** gateway-middleware *)

Definition in_quotes (s : string) : string := let q := String (ascii_of_nat 34) "" in q +:+ s +:+ q.

(** The JSON texts that the gateway writes literally *)
Fixpoint literal_fields (l : list (string * string)) : string :=
  match l with
  | [] => ""
  | [(k, v)] => in_quotes k +:+ ":" +:+ in_quotes v
  | (k, v) :: l' => in_quotes k +:+ ":" +:+ in_quotes v +:+ "," +:+ literal_fields l'
  end.
Definition literal_json (l : list (string * string)) : string := "{" +:+ literal_fields l +:+ "}".

(** [w.WriteHeader(status)] and [io.WriteString] of such a text *)
Definition write_literal (status : Z) (l : list (string * string)) (rw : writer) : writer :=
  let rw := map_header (fun h => Header_Set h "Content-Type" "application/json") rw in
  Write (Printed (literal_json l)) (WriteHeader status rw).

(** The handler on every path; [proxy] is the reverse proxy of
    [net/http/httputil] to the upstream. *)
Definition gateway_handler (client : Client) (proxy : Handler W) : Handler W := fun r rw w =>
  if String.eqb (URL_Path r) "/health" then
    (write_literal 200 [("status", "ok"); ("service", "gateway-middleware")] rw, w)
  else
    match Client_Check client (URL_Path r) 1 w with
    | (Err e, w1) => (write_literal 503 [("error", "rate_limiter_unavailable")] rw, log_check_failed e w1)
    | (Ok dec, w1) =>
        if negb (Decision_Allowed dec) then
          let rw := if 0 <? D_RetryAfter dec
                    then map_header (fun h => Header_Set h "Retry-After" (FormatInt (D_RetryAfter dec))) rw else rw in
          (write_literal 429 [("error", "rate_limit_exceeded"); ("enforced_by", "gateway-middleware")] rw, w1)
        else proxy r rw w1
    end.

(** The mux with the one pattern [/]: it redirects to the clean path and
    serves every clean one. *)
Definition gateway_mux (getenv : environment) (proxy : Handler W) : Handler W := fun r rw w =>
  if negb (String.eqb (Method r) "CONNECT") && negb (String.eqb (cleanPath (URL_Path r)) (URL_Path r)) then
    (http_Redirect (Method r) (cleanPath (URL_Path r)) 301 rw, w)
  else gateway_handler (limiter_client getenv) proxy r rw w.

(** ** The programs *)

(** What [main] serves, and the line it logs before *)
Record service := { sv_addr : string; sv_banner : string; sv_handler : Handler W; ReadHeaderTimeout : Z }.
Definition listening (name addr settings : string) (h : Handler W) : service :=
  {| sv_addr := addr; sv_banner := name +:+ " listening on " +:+ addr +:+ " (" +:+ settings +:+ ")"; sv_handler := h;
     ReadHeaderTimeout := 5000000000 |}.

Definition payment_main `{!GoText} (getenv : environment) : service :=
  listening "payment-service" (listen_addr getenv 8081) ("limiter=" +:+ limiter_url getenv) (payment_mux getenv).

Definition order_main `{!GoText} (getenv : environment) : service :=
  listening "order-service" (listen_addr getenv 8082) ("limiter=" +:+ limiter_url getenv) (order_mux getenv).

(** [url.Parse] and [httputil.NewSingleHostReverseProxy] *)
Class ReverseProxy := {
  URL : Type;
  url_Parse : string -> result goerror URL;
  NewSingleHostReverseProxy : URL -> Handler W
}.

(** An [Err] has been logged and ends the program with status 1. *)
Definition gateway_main `{!GoText} `{!ReverseProxy} (getenv : environment) : result string service :=
  let upstream := env getenv "UPSTREAM_URL" "http://localhost:8081" in
  match url_Parse upstream with
  | Err e => Err ("invalid UPSTREAM_URL: " +:+ Error e)
  | Ok upstreamURL =>
      Ok (listening "gateway-middleware" (listen_addr getenv 8083) ("upstream=" +:+ upstream +:+ " limiter=" +:+ limiter_url getenv)
            (gateway_mux getenv (NewSingleHostReverseProxy upstreamURL)))
  end.

(** How [ListenAndServe] ended, and what [main] makes of it *)
Inductive serve_error := ErrServerClosed | ServeFailed (e : goerror).
Definition serve_until (s : service) (e : serve_error) (w : W) : result string unit * W :=
  let w := log_Printf (sv_banner s) w in
  match e with
  | ErrServerClosed => (Ok tt, w)
  | ServeFailed e => (Err (Error e), log_Printf (Error e) w)
  end.

End Services.

(** ** Properties *)

Section Outcome.
Context `{!GoJSON, !JSONText, !GoText} {W : Type} `{!Transport W} `{!StdLog W} `{!ReverseProxy (W := W)}.

Lemma retry_unsent (n : Z) f rw : res_sent (base rw) = None ->
  res_sent (base (if 0 <? n then map_header f rw else rw)) = None.
Proof. intros Hs. destruct (0 <? n); by rewrite ?map_header_unsent. Qed.

(** The answer of either service, by the client's result *)
Lemma service_outcome client (h : Handler W) r rw w :
  h = payment_handler client \/ h = order_handler client -> res_sent (base rw) = None ->
  let '(rw', w') := h r rw w in
  match Client_Check client (URL_Path r) 1 w with
  | (Ok dec, w1) => w' = w1 /\ answered rw' = if Decision_Allowed dec then 201 else 429
  | (Err e, w1) => w' = log_check_failed e w1 /\ answered rw' = 503
  end.
Proof.
  intros Hh Hs. destruct Hh as [-> | ->]; unfold payment_handler, order_handler;
    (destruct (Client_Check client (URL_Path r) 1 w) as [[dec|e] w1]; [|split; [done|by rewrite answered_WriteJSON]]);
    (destruct (Decision_Allowed dec); cbn [negb]; (split; [done|]);
     rewrite answered_WriteJSON; auto using retry_unsent).
Qed.

Lemma answered_Write c code rw : res_sent (base rw) = None -> answered (Write c (WriteHeader code rw)) = code.
Proof.
  intros Hs. unfold answered, Write. rewrite base_on_base, base_WriteHeader. unfold send. simpl. by rewrite Hs.
Qed.

Lemma answered_literal status l rw : res_sent (base rw) = None -> answered (write_literal status l rw) = status.
Proof. intros Hs. apply answered_Write. by rewrite map_header_unsent. Qed.

(** C37: the gateway forwards only what the limiter allowed.  When the
    program starts, it has a proxy to the URL of the settings, and every request
    is either handed to that proxy after the client reported an allowed decision
    for its path, or answered with 200 (its own health check), 301 (a path that
    is not clean), 429 or 503 without the upstream being called. *)
Theorem gateway_forwards_only_allowed getenv s r rw w :
  gateway_main getenv = Ok s -> res_sent (base rw) = None ->
  let checked := Client_Check (limiter_client getenv) (URL_Path r) 1 w in
  let '(rw', w') := sv_handler s r rw w in
  (exists dec u, fst checked = Ok dec /\ Decision_Allowed dec = true /\
     url_Parse (env getenv "UPSTREAM_URL" "http://localhost:8081") = Ok u /\
     (rw', w') = NewSingleHostReverseProxy u r rw (snd checked)) \/
  (answered rw' ∈ [200; 301] /\ w' = w) \/
  (answered rw' = 429 /\ w' = snd checked /\ exists dec, fst checked = Ok dec /\ Decision_Allowed dec = false) \/
  (answered rw' = 503 /\ exists e, fst checked = Err e /\ w' = log_check_failed e (snd checked)).
Proof.
  intros Hmain Hs. cbn zeta. unfold gateway_main in Hmain. destruct (url_Parse _) as [u|e]; [|done]. injection Hmain as <-.
  cbn [sv_handler listening]. unfold gateway_mux, gateway_handler. destruct (negb _ && negb _).
  - right. left. split; [rewrite answered_http_Redirect by done; in_list|done].
  - destruct (String.eqb (URL_Path r) "/health").
    + right. left. split; [rewrite answered_literal by done; in_list|done].
    + destruct (Client_Check (limiter_client getenv) (URL_Path r) 1 w) as [[dec|e] w1]; cbn [fst snd].
      * destruct (Decision_Allowed dec) eqn:Ed; cbn [negb].
        -- destruct (NewSingleHostReverseProxy u r rw w1) as [rw' w'] eqn:Ep. left. by exists dec, u.
        -- right. right. left. rewrite answered_literal by auto using retry_unsent.
           split; [done|]. split; [done|]. by exists dec.
      * right. right. right. rewrite answered_literal by done. split; [done|]. by exists e.
Qed.

End Outcome.

Section Composed.
Context `{!GoJSON, !JSONText} {W : Type} `{!StdLog W} `{!GoClock W} `{!Prometheus W} `{!RateLimitChecker W}.

(** The services do what the limiter says.  With the client connected to
    the check handler of a tenant, a request to the payment or the order service
    is answered 201 exactly when the checker allows its path for that tenant at
    cost 1, 429 when the checker refuses and 503 when the checker fails. *)
Theorem services_follow_checker client tid path_of remote (r : Request) rw (w : W) :
  res_sent (base rw) = None -> exchange_ok tid (URL_Path r) 1 w ->
  let status (h : Client -> Handler W) := answered (fst (h client r rw w)) in
  let expected := match fst (checker_Check tid (TrimSpace (URL_Path r)) "" 1 w) with
                  | Ok d => if Allowed d then 201 else 429
                  | Err _ => 503
                  end in
  status (@payment_handler _ _ W (wired path_of remote (authenticated tid)) _) = expected /\
  status (@order_handler _ _ W (wired path_of remote (authenticated tid)) _) = expected.
Proof.
  intros Hs He. cbn zeta. pose proof (wired_check client tid (URL_Path r) 1 path_of remote w He) as Hw.
  assert (Ho : forall h : Handler W,
    h = @payment_handler _ _ W (wired path_of remote (authenticated tid)) _ client \/
    h = @order_handler _ _ W (wired path_of remote (authenticated tid)) _ client ->
    answered (fst (h r rw w)) = match fst (checker_Check tid (TrimSpace (URL_Path r)) "" 1 w) with
                                | Ok d => if Allowed d then 201 else 429
                                | Err _ => 503
                                end).
  { intros h Hh. pose proof (@service_outcome _ _ W (wired path_of remote (authenticated tid)) _ client h r rw w Hh Hs) as Hout.
    destruct (h r rw w) as [rw' w'].
    destruct (@Client_Check _ _ W (wired path_of remote (authenticated tid)) client (URL_Path r) 1 w) as [res w1].
    cbn [fst] in *. destruct (fst (checker_Check tid _ "" _ w)) as [d|e]; subst res; simpl in Hout; tauto. }
  split; apply Ho; [by left|by right].
Qed.

End Composed.

(** ** Concrete requests *)

Module Demo.
#[local] Existing Instance Client.Demo.texts.
#[local] Existing Instance Client.Demo.clock.
#[local] Existing Instance Client.Demo.prom.
#[local] Existing Instance Client.Demo.checker.
#[local] Instance quiet : StdLog unit := {| log_Printf s w := w |}.

Definition known : list json := [checkRequest_json "/api/orders" 1; checkResponse Client.Demo.refusal].
#[local] Instance scanner : GoJSON :=
  {| json_scan s := find (fun j => String.eqb s (json_print j) || String.eqb s (json_print j +:+ newline)) known;
     unicode_fold_eq a b := false |}.

Definition order_request : Request :=
  {| Method := "POST"; URL_Path := "/api/orders"; Req_Header := ∅; Body_text := ""; Body_broken := false;
     RemoteAddr := "10.0.0.7:5000"; ctx_tenant := None; path_values := [] |}.

(** The checker refuses: both services answer 429. *)
Lemma services_follow_checker_witness :
  let T := wired (fun _ => "/v1/check") "10.0.0.9:4000" (authenticated 7%N) in
  let c := New "http://limiter" "rl_key" in
  answered (fst (@payment_handler _ _ unit T _ c order_request (Conn fresh_response) tt)) = 429 /\
  answered (fst (@order_handler _ _ unit T _ c order_request (Conn fresh_response) tt)) = 429.
Proof.
  exact (services_follow_checker (New "http://limiter" "rl_key") 7%N (fun _ => "/v1/check") "10.0.0.9:4000"
           order_request (Conn fresh_response) tt eq_refl
           ltac:(split; [by vm_compute|]; split; [by vm_compute|]; split; [by vm_compute|];
                 split; [vm_compute; repeat split|];
                 intros d; cbn [fst]; intros Hd; injection Hd as <-; vm_compute; repeat split; discriminate)).
Defined.

(** The limiter cannot be reached: the gateway answers 503. *)
#[local] Instance unreachable : Transport unit :=
  {| bad_url u := None; Do q w := (Err (Text "connection refused"), w) |}.

(** A proxy that answers 200 itself *)
#[local] Instance upstream : ReverseProxy (W := unit) :=
  {| URL := string; url_Parse u := Ok u; NewSingleHostReverseProxy u := fun r rw w => (WriteJSON 200 JNull rw, w) |}.
#[local] Existing Instance plain_text.
Definition no_env : environment := fun _ => "".
Definition gateway : service := listening "gateway-middleware" ":8083"
  "upstream=http://localhost:8081 limiter=http://localhost:8080" (gateway_mux no_env (NewSingleHostReverseProxy "http://localhost:8081")).

Lemma gateway_forwards_only_allowed_witness :
  let checked := Client_Check (limiter_client no_env) (URL_Path order_request) 1 tt in
  gateway_main no_env = Ok gateway /\
  let '(rw', w') := sv_handler gateway order_request (Conn fresh_response) tt in
  (exists dec u, fst checked = Ok dec /\ Decision_Allowed dec = true /\
     url_Parse (env no_env "UPSTREAM_URL" "http://localhost:8081") = Ok u /\
     (rw', w') = NewSingleHostReverseProxy u order_request (Conn fresh_response) (snd checked)) \/
  (answered rw' ∈ [200; 301] /\ w' = tt) \/
  (answered rw' = 429 /\ w' = snd checked /\ exists dec, fst checked = Ok dec /\ Decision_Allowed dec = false) \/
  (answered rw' = 503 /\ exists e, fst checked = Err e /\ w' = log_check_failed e (snd checked)).
Proof.
  intros checked. assert (Hm : gateway_main no_env = Ok gateway) by reflexivity. split; [exact Hm|].
  exact (gateway_forwards_only_allowed no_env gateway order_request (Conn fresh_response) tt Hm eq_refl).
Defined.

End Demo.
