(* ===== verification/Database.v ===== *)
(** The database the Postgres adapter talks to: the three tables with the
    constraints of the migrations ([migrations/*.up.sql]), the statements of
    the adapter with their documented effect on the tables, and the interface
    [Postgres] through which the adapter reaches a server.

    A server is known by what it has committed and by the view of an open
    transaction.  Any call may fail, for instance because the connection is
    lost; a failed COMMIT, or a failed statement outside a transaction, may
    still have taken effect.  Calls of different operations do not interleave. *)

From stdpp Require Import base strings list.
From Stdlib Require Import ZArith NArith Lia.
From S2P Require Import Prelude Float64 GoStrings Domain.

Local Open Scope Z_scope.

(** ** Tables *)

Record tenant_row := { tn_id : uuid; tn_name : string; tn_status : string; tn_created : Z }.

Record key_row := {
  ak_id : uuid; ak_tenant : uuid; ak_hash : string; ak_prefix : string; ak_status : string;
  ak_role : string; ak_created : Z
}.

(** [refill_rate NUMERIC(10, 2)] is kept in hundredths. *)
Record rule_row := {
  rl_id : uuid; rl_tenant : uuid; rl_pattern : string; rl_algorithm : string;
  rl_limit : option Z; rl_window : option Z; rl_capacity : option Z; rl_refill : option Z;
  rl_enabled : bool
}.

Record db := { tenants : list tenant_row; api_keys : list key_row; rules : list rule_row }.

Definition set_tenants (l : list tenant_row) (d : db) : db :=
  {| tenants := l; api_keys := api_keys d; rules := rules d |}.
Definition set_keys (l : list key_row) (d : db) : db :=
  {| tenants := tenants d; api_keys := l; rules := rules d |}.
Definition set_rules (l : list rule_row) (d : db) : db :=
  {| tenants := tenants d; api_keys := api_keys d; rules := l |}.

(** ** Statements *)

Inductive stmt :=
  | InsertTenant (id : uuid) (name : string)
  | InsertKey (tenant : uuid) (hash prefix role : string)
  | InsertKeyIfTenant (tenant : uuid) (hash prefix role : string)
  | InsertRule (tenant : uuid) (pattern algorithm : string)
      (limit window capacity refill : option Z) (enabled : bool)
  | RevokeKey (id tenant : uuid).

Definition unique_violation : string := "23505".
Definition foreign_key_violation : string := "23503".
Definition check_violation : string := "23514".
Definition out_of_range : string := "22003".

Definition has_tenant (t : uuid) (d : db) : bool := existsb (fun r => (tn_id r =? t)%N) (tenants d).
Definition name_taken (n : string) (d : db) : bool := existsb (fun r => String.eqb (tn_name r) n) (tenants d).
Definition hash_taken (h : string) (d : db) : bool := existsb (fun r => String.eqb (ak_hash r) h) (api_keys d).
Definition pattern_taken (t : uuid) (p : string) (d : db) : bool :=
  existsb (fun r => (rl_tenant r =? t)%N && String.eqb (rl_pattern r) p) (rules d).

(** The range of INT, and of NUMERIC(10, 2) in hundredths *)
Definition int4_ok (o : option Z) : bool :=
  match o with None => true | Some z => (- 2 ^ 31 <=? z) && (z <? 2 ^ 31) end.
Definition numeric_ok (o : option Z) : bool :=
  match o with None => true | Some z => (- 10 ^ 10 <? z) && (z <? 10 ^ 10) end.

Definition insert_key (id : uuid) (now : Z) (t : uuid) (h p r : string) (d : db) : result string (Z * db) :=
  if negb (String.eqb r "admin" || String.eqb r "check") then Err check_violation
  else if hash_taken h d then Err unique_violation
  else if negb (has_tenant t d) then Err foreign_key_violation
  else Ok (1, set_keys (api_keys d ++ [{| ak_id := id; ak_tenant := t; ak_hash := h; ak_prefix := p;
                                          ak_status := "active"; ak_role := r; ak_created := now |}]) d).

Definition revoked_row (k : key_row) : key_row :=
  {| ak_id := ak_id k; ak_tenant := ak_tenant k; ak_hash := ak_hash k; ak_prefix := ak_prefix k;
     ak_status := "revoked"; ak_role := ak_role k; ak_created := ak_created k |}.

Definition is_key (id tenant : uuid) (k : key_row) : bool := (ak_id k =? id)%N && (ak_tenant k =? tenant)%N.

(** The effect of a statement on the tables, with the number of rows it
    reports or the SQLSTATE of the constraint it violates; [id] is the
    generated primary key and [now] the transaction's time. *)
Definition effect (id : uuid) (now : Z) (s : stmt) (d : db) : result string (Z * db) :=
  match s with
  | InsertTenant t n =>
      if has_tenant t d || name_taken n d then Err unique_violation
      else Ok (1, set_tenants (tenants d ++ [{| tn_id := t; tn_name := n; tn_status := "active";
                                                tn_created := now |}]) d)
  | InsertKey t h p r => insert_key id now t h p r d
  | InsertKeyIfTenant t h p r => if has_tenant t d then insert_key id now t h p r d else Ok (0, d)
  | InsertRule t p a l w c f e =>
      if negb (int4_ok l && int4_ok w && int4_ok c && numeric_ok f) then Err out_of_range
      else if negb (Algorithm_Valid a) then Err check_violation
      else if pattern_taken t p d then Err unique_violation
      else if negb (has_tenant t d) then Err foreign_key_violation
      else Ok (1, set_rules (rules d ++ [{| rl_id := id; rl_tenant := t; rl_pattern := p; rl_algorithm := a;
                                            rl_limit := l; rl_window := w; rl_capacity := c; rl_refill := f;
                                            rl_enabled := e |}]) d)
  | RevokeKey k t =>
      Ok (Z.of_nat (length (List.filter (is_key k t) (api_keys d))),
          set_keys (map (fun r => if is_key k t r then revoked_row r else r) (api_keys d)) d)
  end.

(** A generated primary key is new. *)
Definition fresh_id (id : uuid) (d : db) : Prop :=
  (id ∉ (ak_id <$> api_keys d)) /\ (id ∉ (rl_id <$> rules d)).

(** ** The server *)

(** An error of pgx; [pg_code] is the SQLSTATE when the server reported one. *)
Record pg_error := { pg_code : option string; pg_text : string }.

(** The rows of a query, and the error that ended their iteration early. *)
Definition rows (A : Type) : Type := list A * option pg_error.

(** A query for one tenant, or for all *)
Definition in_scope (o : option uuid) (tenant : uuid) : bool :=
  match o with None => true | Some t => (tenant =? t)%N end.

Class Postgres (W : Type) := {
  committed : W -> db;
  tx : Type;
  view : W -> tx -> option db;

  pg_exec : stmt -> W -> result pg_error Z * W;
  pg_key_by_hash : string -> W -> result pg_error (option key_row) * W;
  pg_tenant_by_id : uuid -> W -> result pg_error (option tenant_row) * W;
  pg_tenants : W -> result pg_error (rows tenant_row) * W;
  pg_keys : option uuid -> W -> result pg_error (rows key_row) * W;
  pg_rules : option uuid -> W -> result pg_error (rows rule_row) * W;

  tx_begin : W -> result pg_error tx * W;
  tx_exec : tx -> stmt -> W -> result pg_error Z * W;
  tx_batch_close : tx -> W -> result pg_error unit * W;
  tx_commit : tx -> W -> result pg_error unit * W;
  tx_rollback : tx -> W -> W;

  (** A statement on its own commits its effect; the code of a unique
      violation is reported for nothing else. *)
  pg_exec_ok s w n w' : pg_exec s w = (Ok n, w') ->
    exists id now, fresh_id id (committed w) /\ effect id now s (committed w) = Ok (n, committed w');
  pg_exec_err s w e w' : pg_exec s w = (Err e, w') ->
    (committed w' = committed w \/
     pg_code e = None /\ exists id now n, fresh_id id (committed w) /\
                          effect id now s (committed w) = Ok (n, committed w')) /\
    (pg_code e = Some unique_violation ->
     exists id now, effect id now s (committed w) = Err unique_violation);

  (** Queries read what is committed, in an order of the server's choice. *)
  pg_key_by_hash_ok h w o w' : pg_key_by_hash h w = (Ok o, w') ->
    o = find (fun k => String.eqb (ak_hash k) h) (api_keys (committed w));
  pg_tenant_by_id_ok t w o w' : pg_tenant_by_id t w = (Ok o, w') ->
    o = find (fun r => (tn_id r =? t)%N) (tenants (committed w));
  pg_tenants_ok w l w' : pg_tenants w = (Ok (l, None), w') -> l ≡ₚ tenants (committed w);
  pg_keys_ok o w l w' : pg_keys o w = (Ok (l, None), w') ->
    l ≡ₚ List.filter (fun k => in_scope o (ak_tenant k))
           (api_keys (committed w));
  pg_rules_ok o w l w' : pg_rules o w = (Ok (l, None), w') ->
    l ≡ₚ List.filter (fun k => in_scope o (rl_tenant k))
           (rules (committed w));
  pg_reads w : (forall h, committed (snd (pg_key_by_hash h w)) = committed w) /\
    (forall t, committed (snd (pg_tenant_by_id t w)) = committed w) /\
    committed (snd (pg_tenants w)) = committed w /\
    (forall o, committed (snd (pg_keys o w)) = committed w) /\
    (forall o, committed (snd (pg_rules o w)) = committed w);

  (** A transaction works on its own view; nothing is committed before COMMIT. *)
  tx_begin_ok w t w' : tx_begin w = (Ok t, w') -> view w' t = Some (committed w);
  tx_exec_ok t s w n w' : tx_exec t s w = (Ok n, w') ->
    exists d id now d', view w t = Some d /\ fresh_id id d /\ effect id now s d = Ok (n, d') /\
      view w' t = Some d';
  tx_exec_err t s w e w' : tx_exec t s w = (Err e, w') -> pg_code e = Some unique_violation ->
    exists d id now, view w t = Some d /\ effect id now s d = Err unique_violation;
  tx_batch_close_ok t w w' : tx_batch_close t w = (Ok tt, w') -> view w' t = view w t;
  tx_commit_ok t w w' : tx_commit t w = (Ok tt, w') -> view w t = Some (committed w');
  tx_commit_err t w e w' : tx_commit t w = (Err e, w') ->
    committed w' = committed w \/ view w t = Some (committed w');
  tx_uncommitted w : committed (snd (tx_begin w)) = committed w /\
    (forall t s, committed (snd (tx_exec t s w)) = committed w) /\
    (forall t, committed (snd (tx_batch_close t w)) = committed w) /\
    (forall t, committed (tx_rollback t w) = committed w)
}.

(** ** A server that never fails *)

Record memory := { mem_db : db; mem_view : option db }.

Definition run_stmt (s : stmt) (n : N) (d : db) : result pg_error (Z * db) :=
  match effect n (Z.of_N n) s d with
  | Ok r => Ok r
  | Err c => Err {| pg_code := Some c; pg_text := "constraint violated" |}
  end.

Definition conn_closed : pg_error := {| pg_code := None; pg_text := "tx is closed" |}.

(** A primary key above all in use *)
Definition next_id (d : db) : N :=
  N.succ (fold_right N.max 0%N ((ak_id <$> api_keys d) ++ (rl_id <$> rules d))).

Lemma le_max_list x l : x ∈ l -> (x <= fold_right N.max 0 l)%N.
Proof. induction l as [|y l IH]; intros Hx; [by apply not_elem_of_nil in Hx|].
  apply elem_of_cons in Hx as [->|Hx]; simpl; [lia|]. specialize (IH Hx). lia.
Qed.

Lemma next_id_fresh d : fresh_id (next_id d) d.
Proof.
  split; intros Hin; unfold next_id in Hin;
    match type of Hin with N.succ (fold_right _ _ ?l) ∈ _ => pose proof (le_max_list (N.succ (fold_right N.max 0%N l)) l) as Hl end;
    (assert (N.succ (fold_right N.max 0%N ((ak_id <$> api_keys d) ++ (rl_id <$> rules d))) <=
             fold_right N.max 0 ((ak_id <$> api_keys d) ++ (rl_id <$> rules d)))%N; [|lia]);
    apply Hl, elem_of_app; [by left|by right].
Qed.

Definition mem_exec (s : stmt) (m : memory) : result pg_error Z * memory :=
  match run_stmt s (next_id (mem_db m)) (mem_db m) with
  | Ok (n, d) => (Ok n, {| mem_db := d; mem_view := mem_view m |})
  | Err e => (Err e, m)
  end.

Definition mem_tx_exec (s : stmt) (m : memory) : result pg_error Z * memory :=
  match mem_view m with
  | None => (Err conn_closed, m)
  | Some d =>
      match run_stmt s (next_id d) d with
      | Ok (n, d') => (Ok n, {| mem_db := mem_db m; mem_view := Some d' |})
      | Err e => (Err e, {| mem_db := mem_db m; mem_view := None |})
      end
  end.

Definition mem_commit (m : memory) : result pg_error unit * memory :=
  match mem_view m with
  | None => (Err conn_closed, m)
  | Some d => (Ok tt, {| mem_db := d; mem_view := None |})
  end.

Lemma run_stmt_ok s n d k d' : run_stmt s n d = Ok (k, d') -> effect n (Z.of_N n) s d = Ok (k, d').
Proof. unfold run_stmt. destruct (effect n _ s d); congruence. Qed.

Lemma run_stmt_err s n d e : run_stmt s n d = Err e -> exists c, pg_code e = Some c /\ effect n (Z.of_N n) s d = Err c.
Proof. unfold run_stmt. destruct (effect n _ s d) as [|c]; intros E; [done|injection E as <-; eauto]. Qed.

#[local] Obligation Tactic := idtac.

#[program] Definition in_memory : Postgres memory := {|
  committed := mem_db;
  tx := unit;
  view m _ := mem_view m;
  pg_exec := mem_exec;
  pg_key_by_hash h m := (Ok (find (fun k => String.eqb (ak_hash k) h) (api_keys (mem_db m))), m);
  pg_tenant_by_id t m := (Ok (find (fun r => (tn_id r =? t)%N) (tenants (mem_db m))), m);
  pg_tenants m := (Ok (tenants (mem_db m), None), m);
  pg_keys o m := (Ok (List.filter (fun k => in_scope o (ak_tenant k))
                        (api_keys (mem_db m)), None), m);
  pg_rules o m := (Ok (List.filter (fun k => in_scope o (rl_tenant k))
                         (rules (mem_db m)), None), m);
  tx_begin m := (Ok tt, {| mem_db := mem_db m; mem_view := Some (mem_db m) |});
  tx_exec _ := mem_tx_exec;
  tx_batch_close _ m := (Ok tt, m);
  tx_commit _ := mem_commit;
  tx_rollback _ m := {| mem_db := mem_db m; mem_view := None |}
|}.
Next Obligation.
  intros s w n w'. unfold mem_exec. destruct (run_stmt s _ _) as [[k d]|e] eqn:E; [|done].
  intros [= <- <-]. apply run_stmt_ok in E. eexists _, _. split; [apply next_id_fresh|exact E].
Qed.
Next Obligation.
  intros s w e w'. unfold mem_exec. destruct (run_stmt s _ _) as [[k d]|e'] eqn:E; [done|].
  intros [= <- <-]. split; [by left|]. intros Hc. apply run_stmt_err in E as (c & Hc' & E).
  eexists _, _. rewrite Hc in Hc'. injection Hc' as <-. exact E.
Qed.
Next Obligation. by intros h w o w' [= <- _]. Qed.
Next Obligation. by intros h w o w' [= <- _]. Qed.
Next Obligation. by intros w l w' [= <- _]. Qed.
Next Obligation. intros o w l w' E. injection E as <- _. reflexivity. Qed.
Next Obligation. intros o w l w' E. injection E as <- _. reflexivity. Qed.
Next Obligation. done. Qed.
Next Obligation. by intros w t w' [= _ <-]. Qed.
Next Obligation.
  intros [] s w n w'. simpl. unfold mem_tx_exec. destruct (mem_view w) as [d|]; [|done].
  destruct (run_stmt s _ d) as [[k d']|e] eqn:E; [|done]. intros [= <- <-].
  apply run_stmt_ok in E. eexists d, _, _, d'. split; [done|]. split; [apply next_id_fresh|]. split; [exact E|done].
Qed.
Next Obligation.
  intros [] s w e w'. simpl. unfold mem_tx_exec. destruct (mem_view w) as [d|]; [|by intros [= <- _]].
  destruct (run_stmt s _ d) as [[k d']|e'] eqn:E; [done|]. intros [= <- <-] Hc.
  apply run_stmt_err in E as (c & Hc' & E). rewrite Hc in Hc'. injection Hc' as <-.
  eexists d, _, _. split; [done|exact E].
Qed.
Next Obligation. by intros t w w' [= <-]. Qed.
Next Obligation. intros [] w w'. simpl. unfold mem_commit. destruct (mem_view w); [by intros [= <-]|done]. Qed.
Next Obligation. intros [] w e w'. simpl. unfold mem_commit. destruct (mem_view w); [done|intros [= _ <-]; by left]. Qed.
Next Obligation.
  intros w. split; [done|]. split; [|done]. intros _ s. unfold mem_tx_exec.
  destruct (mem_view w) as [d|]; [|done]. by destruct (run_stmt s _ d) as [[k d']|e].
Qed.

(** ** Well-formed tables *)

(** The constraints of the migrations. *)
Record db_ok (d : db) : Prop := {
  ok_tenant_ids : NoDup (tn_id <$> tenants d);
  ok_names : NoDup (tn_name <$> tenants d);
  ok_key_ids : NoDup (ak_id <$> api_keys d);
  ok_hashes : NoDup (ak_hash <$> api_keys d);
  ok_key_tenants : Forall (fun k => has_tenant (ak_tenant k) d = true) (api_keys d);
  ok_key_values : Forall (fun k => (ak_status k = "active" \/ ak_status k = "revoked") /\
                                   (ak_role k = "admin" \/ ak_role k = "check")) (api_keys d);
  ok_rule_ids : NoDup (rl_id <$> rules d);
  ok_patterns : NoDup ((fun r => (rl_tenant r, rl_pattern r)) <$> rules d);
  ok_rule_tenants : Forall (fun r => has_tenant (rl_tenant r) d = true) (rules d);
  ok_rule_values : Forall (fun r => Algorithm_Valid (rl_algorithm r) = true) (rules d)
}.

Definition empty_db : db := {| tenants := []; api_keys := []; rules := [] |}.

(** ** The statements keep the tables well formed *)

Lemma existsb_false {A} (f : A -> bool) l : existsb f l = false -> forall x, x ∈ l -> f x = false.
Proof.
  intros Hl x Hx%list_elem_of_In. destruct (f x) eqn:E; [|done].
  assert (existsb f l = true) by (apply existsb_exists; eauto). congruence.
Qed.

Lemma NoDup_fmap_snoc {A B} (f : A -> B) (l : list A) (x : A) : NoDup (f <$> l) ->
  (forall y, y ∈ l -> f y <> f x) -> NoDup (f <$> (l ++ [x])).
Proof.
  intros Hl Hx. rewrite fmap_app. apply NoDup_app. split; [done|]. split; [|apply NoDup_singleton].
  intros b (y & -> & Hy)%list_elem_of_fmap Hb. apply list_elem_of_singleton in Hb. by apply (Hx y).
Qed.

Lemma NoDup_fmap_fresh {A} (f : A -> uuid) (l : list A) (x : A) : NoDup (f <$> l) -> f x ∉ f <$> l ->
  NoDup (f <$> (l ++ [x])).
Proof.
  intros Hl Hx. apply NoDup_fmap_snoc; [done|]. intros y Hy E. apply Hx. rewrite <- E. by apply list_elem_of_fmap_2.
Qed.

Lemma has_tenant_more t d x : has_tenant t d = true -> has_tenant t (set_tenants (tenants d ++ [x]) d) = true.
Proof. intros Ht. unfold has_tenant in *. simpl. by rewrite existsb_app, Ht. Qed.

Lemma insert_key_ok id now t h p r d n d' : db_ok d -> fresh_id id d ->
  insert_key id now t h p r d = Ok (n, d') -> db_ok d'.
Proof.
  intros [H1 H2 H3 H4 H5 H6 H7 H8 H9 H10] [Hf _]. unfold insert_key.
  destruct (String.eqb r "admin" || String.eqb r "check") eqn:Er; cbn [negb]; [|done].
  destruct (hash_taken h d) eqn:Eh; [done|]. destruct (has_tenant t d) eqn:Et; cbn [negb]; [|done].
  intros [= <- <-]. split; try done; simpl.
  - by apply NoDup_fmap_fresh.
  - apply NoDup_fmap_snoc; [done|]. intros y Hy. pose proof (existsb_false _ _ Eh y Hy) as E. by apply String.eqb_neq in E.
  - apply Forall_app. split; [done|]. by repeat constructor.
  - apply Forall_app. split; [done|]. apply Forall_singleton. simpl. split; [by left|].
    apply orb_true_iff in Er as [Er|Er]; apply String.eqb_eq in Er; auto.
Qed.

Lemma insert_tenant_ok t name now d n d' id : db_ok d -> effect id now (InsertTenant t name) d = Ok (n, d') -> db_ok d'.
Proof.
  intros [H1 H2 H3 H4 H5 H6 H7 H8 H9 H10]. cbn [effect].
  destruct (has_tenant t d || name_taken name d) eqn:E; [done|]. apply orb_false_iff in E as [Et En].
  intros [= <- <-]. split; try done; simpl.
  - apply NoDup_fmap_snoc; [done|]. intros y Hy. pose proof (existsb_false _ _ Et y Hy) as E. by apply N.eqb_neq in E.
  - apply NoDup_fmap_snoc; [done|]. intros y Hy. pose proof (existsb_false _ _ En y Hy) as E. by apply String.eqb_neq in E.
  - eapply Forall_impl; [exact H5|]. intros k. apply has_tenant_more.
  - eapply Forall_impl; [exact H9|]. intros k. apply has_tenant_more.
Qed.

Lemma insert_rule_ok id now t p a l w c f e d n d' : db_ok d -> fresh_id id d ->
  effect id now (InsertRule t p a l w c f e) d = Ok (n, d') -> db_ok d'.
Proof.
  intros [H1 H2 H3 H4 H5 H6 H7 H8 H9 H10] [_ Hf]. cbn [effect].
  destruct (negb _); [done|]. destruct (Algorithm_Valid a) eqn:Ea; cbn [negb]; [|done].
  destruct (pattern_taken t p d) eqn:Ep; [done|]. destruct (has_tenant t d) eqn:Et; cbn [negb]; [|done].
  intros [= <- <-]. split; try done; simpl.
  - by apply NoDup_fmap_fresh.
  - apply NoDup_fmap_snoc; [done|]. intros y Hy [= E1 E2]. pose proof (existsb_false _ _ Ep y Hy) as E.
    simpl in E. by rewrite E1, E2, N.eqb_refl, String.eqb_refl in E.
  - apply Forall_app. split; [done|]. by repeat constructor.
  - apply Forall_app. split; [done|]. by repeat constructor.
Qed.

Lemma map_same_field {A B} (f : A -> B) (g : A -> A) l : (forall x, f (g x) = f x) -> f <$> map g l = f <$> l.
Proof. intros Hg. induction l as [|x l IH]; [done|]. cbn. by rewrite Hg, IH. Qed.

Lemma revoke_ok k t d : db_ok d ->
  db_ok (set_keys (map (fun r => if is_key k t r then revoked_row r else r) (api_keys d)) d).
Proof.
  intros [H1 H2 H3 H4 H5 H6 H7 H8 H9 H10]. split; try done; simpl.
  - rewrite map_same_field; [done|]. intros r. by destruct (is_key k t r).
  - rewrite map_same_field; [done|]. intros r. by destruct (is_key k t r).
  - apply Forall_map. eapply Forall_impl; [exact H5|]. intros r Hr. simpl. by destruct (is_key k t r).
  - apply Forall_map. eapply Forall_impl; [exact H6|]. intros r [Hr1 Hr2]. simpl.
    destruct (is_key k t r); [|done]. split; [by right|done].
Qed.

Lemma effect_ok id now s d n d' :
  db_ok d -> fresh_id id d -> effect id now s d = Ok (n, d') -> db_ok d'.
Proof.
  intros Hd Hf. destruct s as [t name|t h p r|t h p r|t p a l w c f e|k t].
  - by apply insert_tenant_ok.
  - by apply insert_key_ok.
  - cbn [effect]. destruct (has_tenant t d); [by apply insert_key_ok|by intros [= <- <-]].
  - by apply insert_rule_ok.
  - cbn [effect]. intros [= <- <-]. by apply revoke_ok.
Qed.

(** ** Properties *)

(** Every statement of the adapter keeps the tables within the constraints
    of the migrations: primary keys, tenant names, key digests and the
    patterns of a tenant stay unique, keys and rules belong to tenants that
    exist, and statuses, roles and algorithms stay in their ranges. *)
Theorem effect_keeps_constraints id now s d n d' :
  db_ok d -> fresh_id id d -> effect id now s d = Ok (n, d') -> db_ok d'.
Proof. apply effect_ok. Qed.

Lemma empty_db_ok : db_ok empty_db.
Proof. split; constructor. Qed.

Lemma effect_keeps_constraints_witness :
  let d := {| tenants := [{| tn_id := 7%N; tn_name := "demo-app"; tn_status := "active"; tn_created := 5 |}];
              api_keys := []; rules := [] |} in
  db_ok empty_db /\ fresh_id 1%N empty_db /\
  effect 1%N 5 (InsertTenant 7%N "demo-app") empty_db = Ok (1, d) /\ db_ok d.
Proof.
  intros d. assert (Hf : fresh_id 1%N empty_db) by (split; apply not_elem_of_nil).
  split; [exact empty_db_ok|]. split; [exact Hf|]. split; [reflexivity|].
  exact (effect_keeps_constraints 1%N 5 (InsertTenant 7%N "demo-app") empty_db 1 d empty_db_ok Hf eq_refl).
Defined.
