(* ===== verification/Postgres.v ===== *)
(** The Postgres adapter ([internal/infrastructure/postgres]): the
    repositories of keys, tenants, rules and projects, over the server
    interface of the file Database. *)

From stdpp Require Import base gmap strings list.
From Stdlib Require Import ZArith NArith Lia.
From S2P Require Import Prelude Float64 GoStrings Domain Ports Database.

Local Open Scope Z_scope.

(** What the adapter relies on for NUMERIC(10, 2): a double is stored as the
    nearest number of hundredths, and zero and every stored number come back
    as they were. *)
Class Numeric := {
  to_numeric : float -> Z;
  of_numeric : Z -> float;
  numeric_nearest f : fin f -> 2 * Z.abs (100 * sval f - to_numeric f * one) <= one;
  numeric_zero : of_numeric 0 = of_Z 0;
  numeric_roundtrip h : Z.abs h < 10 ^ 10 -> to_numeric (of_numeric h) = h
}.

(** A concrete conversion: round to the nearest hundredth, and divide by 100. *)
Definition nearest_hundredth (f : float) : Z := (200 * sval f + one) / (2 * one).
Definition of_hundredths (h : Z) : float := fdiv (of_Z h) (of_Z 100).

Lemma nearest_hundredth_spec f : 2 * Z.abs (100 * sval f - nearest_hundredth f * one) <= one.
Proof.
  unfold nearest_hundredth. pose proof one_pos.
  pose proof (Z.div_mod (200 * sval f + one) (2 * one) ltac:(lia)) as Hd.
  pose proof (Z.mod_pos_bound (200 * sval f + one) (2 * one) ltac:(lia)) as Hm.
  set (q := (200 * sval f + one) / (2 * one)) in *. lia.
Qed.

Lemma hundredths_back h : Z.abs h < 10 ^ 10 -> nearest_hundredth (of_hundredths h) = h.
Proof.
  intros Hh. destruct (of_Z_int h ltac:(lia)) as [Hf Hs]. destruct (of_Z_int 100 ltac:(lia)) as [Hf100 Hs100].
  pose proof one_pos as Hone. assert (H1074 : 2 ^ 100 <= one) by (apply Z.pow_le_mono_r; lia).
  destruct (fdiv_rounds (of_Z h) (of_Z 100) Hf Hf100) as [_ Hc].
  { rewrite Hs100. lia. }
  { rewrite Hs, Hs100, big_one. rewrite !Z.abs_mul, (Z.abs_eq one) by lia.
    apply Z.le_trans with (2 ^ 1023 * one * one); [|nia].
    apply Z.mul_le_mono_nonneg_r; [lia|]. apply Z.mul_le_mono_nonneg_r; [lia|].
    apply Z.le_trans with (2 ^ 40); [lia|]. apply Z.pow_le_mono_r; lia. }
  unfold nearest_hundredth. fold (of_hundredths h) in Hc. unfold close in Hc. set (r := sval (of_hundredths h)) in *.
  rewrite Hs, Hs100 in Hc. set (u := one) in *.
  assert (Hd : 4 * Z.abs (100 * r - h * u) <= u).
  { replace (r * (100 * u) - h * u * u) with ((100 * r - h * u) * u) in Hc by ring.
    rewrite !Z.abs_mul, (Z.abs_eq u) in Hc by lia. destruct Hc as [Hc|Hc].
    - apply Z.mul_le_mono_pos_r in Hc; lia.
    - rewrite <- Z.mul_assoc, (Z.mul_comm u), Z.mul_assoc in Hc.
      apply Z.mul_le_mono_pos_r in Hc; [|lia]. nia. }
  symmetry. apply Z.div_unique with (200 * r + u - 2 * u * h); lia.
Qed.

Definition hundredths : Numeric :=
  {| to_numeric := nearest_hundredth; of_numeric := of_hundredths;
     numeric_nearest f _ := nearest_hundredth_spec f; numeric_zero := eq_refl;
     numeric_roundtrip := hundredths_back |}.

Definition pg_goerror (e : pg_error) : goerror := Text (pg_text e).

(** [wrapUnique] *)
Definition wrapUnique (e : pg_error) (op : string) : goerror :=
  if bool_decide (pg_code e = Some unique_violation) then wrap_op op (Sentinel ErrProjectExists)
  else wrap_op op (pg_goerror e).

(** [nullIfZero] and [nullIfZeroFloat] *)
Definition nullIfZero (v : Z) : option Z := if v =? 0 then None else Some v.
Definition nullIfZeroFloat `{Numeric} (v : float) : option Z :=
  if feqb v (of_Z 0) then None else Some (to_numeric v).

(** ** Rows as entities *)

Definition key_entity (k : key_row) : APIKey :=
  {| APIKey_ID := ak_id k; APIKey_TenantID := ak_tenant k; KeyPrefix := ak_prefix k;
     APIKey_Status := ak_status k; APIKey_Role := ak_role k |}.
Definition key_summary (k : key_row) : KeySummary :=
  {| KS_ID := ak_id k; KS_Prefix := ak_prefix k; KS_Status := ak_status k; KS_Role := ak_role k;
     KS_CreatedAt := ak_created k |}.
Definition tenant_entity (t : tenant_row) : Tenant :=
  {| Tenant_ID := tn_id t; Tenant_Name := tn_name t; Tenant_Status := tn_status t |}.

(** The columns of a rule with their [COALESCE(..., 0)] *)
Definition rule_entity `{Numeric} (r : rule_row) : Rule :=
  {| Rule_ID := rl_id r; Rule_TenantID := rl_tenant r; RoutePattern := rl_pattern r;
     Rule_Algorithm := rl_algorithm r; Enabled := rl_enabled r;
     LimitCount := default 0 (rl_limit r); WindowSeconds := default 0 (rl_window r);
     BucketCapacity := default 0 (rl_capacity r); RefillRate := of_numeric (default 0 (rl_refill r)) |}.

Definition project_of (t : tenant_row) (keys : list KeySummary) (rs : list Rule) : ProjectSummary :=
  {| PS_ID := tn_id t; PS_Name := tn_name t; PS_Status := tn_status t; PS_CreatedAt := tn_created t;
     RuleCount := Z.of_nat (length rs); PS_Rules := rs; PS_Keys := keys |}.

(** ** Key, tenant and rule repositories *)

Section Repositories.
Context {W : Type} `{!Postgres W} `{!Numeric} `{!GoText}.

(** [APIKeyRepository.FindByHash] *)
Definition pg_FindByHash (keyHash : string) : Op W APIKey := fun w =>
  match pg_key_by_hash keyHash w with
  | (Err e, w1) => (Err (wrap_op "find api key" (pg_goerror e)), w1)
  | (Ok None, w1) => (Err (Sentinel ErrAPIKeyNotFound), w1)
  | (Ok (Some k), w1) => (Ok (key_entity k), w1)
  end.

(** [TenantRepository.GetByID] *)
Definition pg_GetByID (tenantID : uuid) : Op W Tenant := fun w =>
  match pg_tenant_by_id tenantID w with
  | (Err e, w1) => (Err (wrap_op "get tenant" (pg_goerror e)), w1)
  | (Ok None, w1) => (Err (Sentinel ErrTenantNotFound), w1)
  | (Ok (Some t), w1) => (Ok (tenant_entity t), w1)
  end.

(** [scanRule] *)
Definition scanRule (r : rule_row) : result goerror Rule :=
  match ParseAlgorithm (rl_algorithm r) with
  | Err e => Err e
  | Ok _ => Ok (rule_entity r)
  end.

(** [for rows.Next() { rule, err := scanRule(rows); ... }] *)
Fixpoint scan_rules (l : list rule_row) : result goerror (list Rule) :=
  match l with
  | [] => Ok []
  | r :: l' =>
      match scanRule r with
      | Err e => Err e
      | Ok rule => match scan_rules l' with Err e => Err e | Ok rest => Ok (rule :: rest) end
      end
  end.

(** [rows.Err()] after the loop *)
Definition rows_err {A} (tail : option pg_error) (a : A) : result goerror A :=
  match tail with Some e => Err (pg_goerror e) | None => Ok a end.

Definition list_rules (op : string) (scope : option uuid) : Op W (list Rule) := fun w =>
  match pg_rules scope w with
  | (Err e, w1) => (Err (wrap_op op (pg_goerror e)), w1)
  | (Ok (l, tail), w1) =>
      match scan_rules l with
      | Err e => (Err e, w1)
      | Ok rs => (rows_err tail rs, w1)
      end
  end.

(** [RuleRepository.ListByTenant] and [RuleRepository.ListAll] *)
Definition pg_ListByTenant (tenantID : uuid) : Op W (list Rule) :=
  list_rules "list rules by tenant" (Some tenantID).
Definition pg_ListAll : Op W (list Rule) := list_rules "list all rules" None.

(** ** Project repository *)

(** The loop over the batch results: the first error ends it. *)
Fixpoint insert_rules (t : tx) (tenant : uuid) (rs : list Rule) : W -> option pg_error * W := fun w =>
  match rs with
  | [] => (None, w)
  | r :: rs' =>
      match tx_exec t (InsertRule tenant (RoutePattern r) (Rule_Algorithm r) (nullIfZero (LimitCount r))
                         (nullIfZero (WindowSeconds r)) (nullIfZero (BucketCapacity r))
                         (nullIfZeroFloat (RefillRate r)) (Enabled r)) w with
      | (Err e, w1) => (Some e, w1)
      | (Ok _, w1) => insert_rules t tenant rs' w1
      end
  end.

(** The batch of rules, closed at the end *)
Definition insert_batch (t : tx) (p : NewProject) : Op W unit := fun w =>
  match NP_Rules p with
  | [] => (Ok tt, w)
  | rs =>
      match insert_rules t (NP_TenantID p) rs w with
      | (Some e, w1) => (Err (wrapUnique e "insert rule"), snd (tx_batch_close t w1))
      | (None, w1) =>
          match tx_batch_close t w1 with
          | (Err e, w2) => (Err (wrap_op "close rule batch" (pg_goerror e)), w2)
          | (Ok _, w2) => (Ok tt, w2)
          end
      end
  end.

(** The statements of the transaction, up to and including COMMIT *)
Definition create_in_tx (t : tx) (p : NewProject) : Op W unit := fun w =>
  match tx_exec t (InsertTenant (NP_TenantID p) (NP_Name p)) w with
  | (Err e, w1) => (Err (wrapUnique e "insert tenant"), w1)
  | (Ok _, w1) =>
      match tx_exec t (InsertKey (NP_TenantID p) (NP_KeyHash p) (NP_KeyPrefix p) (NP_KeyRole p)) w1 with
      | (Err e, w2) => (Err (wrapUnique e "insert api key"), w2)
      | (Ok _, w2) =>
          match insert_batch t p w2 with
          | (Err e, w3) => (Err e, w3)
          | (Ok _, w3) =>
              match tx_commit t w3 with
              | (Err e, w4) => (Err (wrap_op "commit" (pg_goerror e)), w4)
              | (Ok _, w4) => (Ok tt, w4)
              end
          end
      end
  end.

(** [ProjectRepository.CreateProject], with the deferred rollback *)
Definition pg_CreateProject (p : NewProject) : Op W unit := fun w =>
  match tx_begin w with
  | (Err e, w1) => (Err (wrap_op "begin" (pg_goerror e)), w1)
  | (Ok t, w1) => let '(r, w2) := create_in_tx t p w1 in (r, tx_rollback t w2)
  end.

(** The first loop of [ListProjects]: the projects and their positions *)
Definition index_step (acc : gmap N nat * list ProjectSummary) (t : tenant_row)
    : gmap N nat * list ProjectSummary :=
  (<[tn_id t := length (snd acc)]> (fst acc), snd acc ++ [project_of t [] []]).

Definition add_key (k : key_row) (p : ProjectSummary) : ProjectSummary :=
  {| PS_ID := PS_ID p; PS_Name := PS_Name p; PS_Status := PS_Status p; PS_CreatedAt := PS_CreatedAt p;
     RuleCount := RuleCount p; PS_Rules := PS_Rules p; PS_Keys := PS_Keys p ++ [key_summary k] |}.
Definition add_rule (r : rule_row) (p : ProjectSummary) : ProjectSummary :=
  {| PS_ID := PS_ID p; PS_Name := PS_Name p; PS_Status := PS_Status p; PS_CreatedAt := PS_CreatedAt p;
     RuleCount := RuleCount p + 1; PS_Rules := PS_Rules p ++ [rule_entity r]; PS_Keys := PS_Keys p |}.

(** [if i, ok := index[tenantID]; ok { out[i] = ... }] *)
Definition at_tenant (index : gmap N nat) (tenant : uuid) (f : ProjectSummary -> ProjectSummary)
    (out : list ProjectSummary) : list ProjectSummary :=
  match index !! tenant with
  | Some i => alter f i out
  | None => out
  end.

Definition add_keys (index : gmap N nat) (l : list key_row) (out : list ProjectSummary) : list ProjectSummary :=
  fold_left (fun out k => at_tenant index (ak_tenant k) (add_key k) out) l out.
Definition add_rules (index : gmap N nat) (l : list rule_row) (out : list ProjectSummary) : list ProjectSummary :=
  fold_left (fun out r => at_tenant index (rl_tenant r) (add_rule r) out) l out.

(** [ProjectRepository.ListProjects] *)
Definition pg_ListProjects : Op W (list ProjectSummary) := fun w =>
  match pg_tenants w with
  | (Err e, w1) => (Err (wrap_op "list tenants" (pg_goerror e)), w1)
  | (Ok (_, Some e), w1) => (Err (pg_goerror e), w1)
  | (Ok (ts, None), w1) =>
      let '(index, out) := fold_left index_step ts (∅, []) in
      if bool_decide (out = []) then (Ok out, w1)
      else
        match pg_keys None w1 with
        | (Err e, w2) => (Err (wrap_op "list keys" (pg_goerror e)), w2)
        | (Ok (_, Some e), w2) => (Err (pg_goerror e), w2)
        | (Ok (ks, None), w2) =>
            let out := add_keys index ks out in
            match pg_rules None w2 with
            | (Err e, w3) => (Err (wrap_op "list rules" (pg_goerror e)), w3)
            | (Ok (rs, tail), w3) => (rows_err tail (add_rules index rs out), w3)
            end
        end
  end.

(** [ProjectRepository.AddAPIKey] *)
Definition pg_AddAPIKey (tenantID : uuid) (keyHash keyPrefix role : string) : Op W unit := fun w =>
  match pg_exec (InsertKeyIfTenant tenantID keyHash keyPrefix role) w with
  | (Err e, w1) => (Err (wrapUnique e "insert api key"), w1)
  | (Ok n, w1) => (if n =? 0 then Err (Sentinel ErrTenantNotFound) else Ok tt, w1)
  end.

(** [ProjectRepository.RevokeAPIKey] *)
Definition pg_RevokeAPIKey (tenantID keyID : uuid) : Op W unit := fun w =>
  match pg_exec (RevokeKey keyID tenantID) w with
  | (Err e, w1) => (Err (wrap_op "revoke key" (pg_goerror e)), w1)
  | (Ok n, w1) => (if n =? 0 then Err (Sentinel ErrAPIKeyNotFound) else Ok tt, w1)
  end.

(** [ProjectRepository.GetProject] *)
Definition pg_GetProject (tenantID : uuid) : Op W ProjectSummary := fun w =>
  match pg_tenant_by_id tenantID w with
  | (Err e, w1) => (Err (wrap_op "get tenant" (pg_goerror e)), w1)
  | (Ok None, w1) => (Err (Sentinel ErrTenantNotFound), w1)
  | (Ok (Some t), w1) =>
      match pg_keys (Some tenantID) w1 with
      | (Err e, w2) => (Err (wrap_op "get keys" (pg_goerror e)), w2)
      | (Ok (_, Some e), w2) => (Err (pg_goerror e), w2)
      | (Ok (ks, None), w2) =>
          match pg_rules (Some tenantID) w2 with
          | (Err e, w3) => (Err (wrap_op "get rules" (pg_goerror e)), w3)
          | (Ok (rs, tail), w3) =>
              (rows_err tail (project_of t (map key_summary ks) (map rule_entity rs)), w3)
          end
      end
  end.

(** ** The ports *)

#[export] Instance pg_keys_port : APIKeyRepository W := {| FindByHash := pg_FindByHash |}.
#[export] Instance pg_tenants_port : TenantRepository W := {| GetByID := pg_GetByID |}.
#[export] Instance pg_rules_port : RuleRepository W :=
  {| ListByTenant := pg_ListByTenant; ListAll := pg_ListAll |}.
#[export] Instance pg_store : ProjectStore W :=
  {| store_CreateProject := pg_CreateProject; store_ListProjects := pg_ListProjects;
     store_GetProject := pg_GetProject; store_AddAPIKey := pg_AddAPIKey;
     store_RevokeAPIKey := pg_RevokeAPIKey |}.

End Repositories.
