(* ===== verification/PostgresSpec.v ===== *)
(** What the Postgres adapter achieves: projects are created as a whole or not
    at all, what was created is what is read back, conflicts are recognised,
    and the three queries of [ListProjects] agree with one [GetProject] per
    project. *)

From stdpp Require Import base gmap strings list.
From Stdlib Require Import ZArith NArith Lia.
From S2P Require Import Prelude Float64 GoStrings Sha256 Domain Ports AuthService Database Postgres.

Local Open Scope Z_scope.

(** ** Specifications *)

Section Specs.
Context `{!Numeric}.

(** The row that a rule of a new project becomes. *)
Definition rule_written (tenant : uuid) (r : Rule) (row : rule_row) : Prop :=
  rl_tenant row = tenant /\ rl_pattern row = RoutePattern r /\ rl_algorithm row = Rule_Algorithm r /\
  rl_limit row = nullIfZero (LimitCount r) /\ rl_window row = nullIfZero (WindowSeconds r) /\
  rl_capacity row = nullIfZero (BucketCapacity r) /\ rl_refill row = nullIfZeroFloat (RefillRate r) /\
  rl_enabled row = Enabled r.

(** The tables with the whole project added, the constraints kept. *)
Definition created (p : NewProject) (d d' : db) : Prop :=
  (exists now, tenants d' = tenants d ++ [{| tn_id := NP_TenantID p; tn_name := NP_Name p;
                                             tn_status := "active"; tn_created := now |}]) /\
  (exists id now, api_keys d' = api_keys d ++
     [{| ak_id := id; ak_tenant := NP_TenantID p; ak_hash := NP_KeyHash p; ak_prefix := NP_KeyPrefix p;
         ak_status := "active"; ak_role := NP_KeyRole p; ak_created := now |}]) /\
  (exists rows, rules d' = rules d ++ rows /\ Forall2 (rule_written (NP_TenantID p)) (NP_Rules p) rows) /\
  has_tenant (NP_TenantID p) d = false /\ name_taken (NP_Name p) d = false /\
  hash_taken (NP_KeyHash p) d = false /\ (db_ok d -> db_ok d').

(** Why a project cannot be created next to what is there. *)
Definition conflict (p : NewProject) (d : db) : Prop :=
  has_tenant (NP_TenantID p) d = true \/ name_taken (NP_Name p) d = true \/
  hash_taken (NP_KeyHash p) d = true \/
  (exists row, row ∈ rules d /\ rl_tenant row = NP_TenantID p) \/
  ~ NoDup (RoutePattern <$> NP_Rules p).

(** A rule as it comes back from the database, up to its generated id. *)
Definition as_stored (tenant : uuid) (r : Rule) : Rule :=
  {| Rule_ID := uuid_Nil; Rule_TenantID := tenant; RoutePattern := RoutePattern r;
     Rule_Algorithm := Rule_Algorithm r; Enabled := Enabled r; LimitCount := LimitCount r;
     WindowSeconds := WindowSeconds r; BucketCapacity := BucketCapacity r;
     RefillRate := of_numeric (default 0 (nullIfZeroFloat (RefillRate r))) |}.
Definition without_id (r : Rule) : Rule :=
  {| Rule_ID := uuid_Nil; Rule_TenantID := Rule_TenantID r; RoutePattern := RoutePattern r;
     Rule_Algorithm := Rule_Algorithm r; Enabled := Enabled r; LimitCount := LimitCount r;
     WindowSeconds := WindowSeconds r; BucketCapacity := BucketCapacity r; RefillRate := RefillRate r |}.

(** A project as the tables have it. *)
Definition project_matches (d : db) (t : tenant_row) (p : ProjectSummary) : Prop :=
  PS_ID p = tn_id t /\ PS_Name p = tn_name t /\ PS_Status p = tn_status t /\ PS_CreatedAt p = tn_created t /\
  PS_Keys p ≡ₚ map key_summary (List.filter (fun k => in_scope (Some (tn_id t)) (ak_tenant k)) (api_keys d)) /\
  PS_Rules p ≡ₚ map rule_entity (List.filter (fun r => in_scope (Some (tn_id t)) (rl_tenant r)) (rules d)) /\
  RuleCount p = Z.of_nat (length (PS_Rules p)).

End Specs.

(** The tables change by one statement of the adapter. *)
Definition evolves (d d' : db) : Prop :=
  exists id now s n, fresh_id id d /\ effect id now s d = Ok (n, d').

(** The key with this id exists and is revoked. *)
Definition is_revoked (kid : uuid) (d : db) : Prop :=
  exists k, k ∈ api_keys d /\ ak_id k = kid /\ ak_status k = "revoked".

(** ** Lemmas *)

Lemma wrapUnique_is e op : Is (wrapUnique e op) ErrProjectExists = true <-> pg_code e = Some unique_violation.
Proof. unfold wrapUnique. case_bool_decide; simpl; [done|]. split; [done|congruence]. Qed.

Lemma insert_key_eq id now t h p r d n d' : insert_key id now t h p r d = Ok (n, d') ->
  d' = set_keys (api_keys d ++ [{| ak_id := id; ak_tenant := t; ak_hash := h; ak_prefix := p;
                                    ak_status := "active"; ak_role := r; ak_created := now |}]) d /\
  n = 1 /\ hash_taken h d = false /\ has_tenant t d = true /\ (r = "admin" \/ r = "check").
Proof.
  unfold insert_key. destruct (String.eqb r "admin" || String.eqb r "check") eqn:Er; cbn [negb]; [|done].
  destruct (hash_taken h d) eqn:Eh; [done|]. destruct (has_tenant t d) eqn:Et; cbn [negb]; [|done].
  intros [= <- <-]. repeat (split; [done|]). apply orb_true_iff in Er as [Er|Er]; apply String.eqb_eq in Er; auto.
Qed.

Lemma insert_key_conflict id now t h p r d : insert_key id now t h p r d = Err unique_violation ->
  hash_taken h d = true.
Proof.
  unfold insert_key. destruct (negb _); [done|]. destruct (hash_taken h d); [done|]. by destruct (negb _).
Qed.

Lemma default_nullIfZero v : default 0 (nullIfZero v) = v.
Proof. unfold nullIfZero. by destruct (Z.eqb_spec v 0). Qed.

Section Lemmas.
Context {W : Type} `{!Postgres W} `{!Numeric} `{!GoText}.

Lemma uncommitted_exec t s w r w' : tx_exec t s w = (r, w') -> committed w' = committed w.
Proof. intros E. pose proof (tx_uncommitted w) as (_ & He & _). specialize (He t s). by rewrite E in He. Qed.

Lemma uncommitted_close t w r w' : tx_batch_close t w = (r, w') -> committed w' = committed w.
Proof. intros E. pose proof (tx_uncommitted w) as (_ & _ & He & _). specialize (He t). by rewrite E in He. Qed.

Lemma uncommitted_rollback t w : committed (tx_rollback t w) = committed w.
Proof. by pose proof (tx_uncommitted w) as (_ & _ & _ & He). Qed.

Lemma uncommitted_begin w r w' : tx_begin w = (r, w') -> committed w' = committed w.
Proof. intros E. pose proof (tx_uncommitted w) as (He & _). by rewrite E in He. Qed.

(** A statement of a transaction, from a known view *)
Lemma exec_view t s w n w' d : tx_exec t s w = (Ok n, w') -> view w t = Some d ->
  exists id now d', fresh_id id d /\ effect id now s d = Ok (n, d') /\ view w' t = Some d'.
Proof. intros E Hv. apply tx_exec_ok in E as (d0 & id & now & d' & Hv' & ?). rewrite Hv in Hv'. simplify_eq. eauto. Qed.

Lemma exec_view_err t s w e w' d : tx_exec t s w = (Err e, w') -> view w t = Some d ->
  pg_code e = Some unique_violation -> exists id now, effect id now s d = Err unique_violation.
Proof.
  intros E Hv Hc. destruct (tx_exec_err t s w e w' E Hc) as (d0 & id & now & Hv' & He).
  rewrite Hv in Hv'. simplify_eq. eauto.
Qed.

Definition insert_of (tenant : uuid) (r : Rule) : stmt :=
  InsertRule tenant (RoutePattern r) (Rule_Algorithm r) (nullIfZero (LimitCount r))
    (nullIfZero (WindowSeconds r)) (nullIfZero (BucketCapacity r)) (nullIfZeroFloat (RefillRate r)) (Enabled r).

Lemma insert_of_ok id now tenant r d n d' : effect id now (insert_of tenant r) d = Ok (n, d') ->
  exists row, d' = set_rules (rules d ++ [row]) d /\ rule_written tenant r row /\
    pattern_taken tenant (RoutePattern r) d = false.
Proof.
  unfold insert_of. cbn [effect]. destruct (negb _); [done|]. destruct (negb _); [done|].
  destruct (pattern_taken tenant (RoutePattern r) d) eqn:Ep; [done|]. destruct (negb _); [done|].
  intros [= <- <-]. eexists. split; [reflexivity|]. done.
Qed.

Lemma insert_of_conflict id now tenant r d : effect id now (insert_of tenant r) d = Err unique_violation ->
  pattern_taken tenant (RoutePattern r) d = true.
Proof.
  unfold insert_of. cbn [effect]. destruct (negb _); [done|]. destruct (negb _); [done|].
  destruct (pattern_taken tenant (RoutePattern r) d); [done|]. by destruct (negb _).
Qed.

(** The rules of a project are inserted in order, on top of the view. *)
Lemma insert_rules_spec t tenant rs : forall w d, view w t = Some d ->
  let '(o, w') := insert_rules t tenant rs w in
  committed w' = committed w /\
  match o with
  | None => exists rows, view w' t = Some (set_rules (rules d ++ rows) d) /\
              Forall2 (rule_written tenant) rs rows /\ (db_ok d -> db_ok (set_rules (rules d ++ rows) d))
  | Some e => pg_code e = Some unique_violation ->
              (exists row, row ∈ rules d /\ rl_tenant row = tenant /\ rl_pattern row ∈ RoutePattern <$> rs) \/
              ~ NoDup (RoutePattern <$> rs)
  end.
Proof.
  induction rs as [|r rs IH]; intros w d Hv; cbn [insert_rules].
  { split; [done|]. exists []. rewrite app_nil_r. destruct d. split; [done|]. split; [constructor|done]. }
  fold (insert_of tenant r). destruct (tx_exec t (insert_of tenant r) w) as [[n|e] w1] eqn:E.
  - destruct (exec_view _ _ _ _ _ _ E Hv) as (id & now & d1 & Hf & He & Hv1).
    destruct (insert_of_ok _ _ _ _ _ _ _ He) as (row & Ed1 & Hrow & Hp). subst d1.
    specialize (IH w1 _ Hv1). destruct (insert_rules t tenant rs w1) as [o w'] eqn:Er.
    destruct IH as [Hc IH]. split; [by rewrite Hc, (uncommitted_exec _ _ _ _ _ E)|]. cbn [rules set_rules] in IH.
    destruct o as [e|].
    + intros Hu. rewrite fmap_cons.
      destruct (IH Hu) as [(row' & Hin & Ht & Hpat)|Hd]; [|right; by intros [_ ?]%NoDup_cons].
      apply elem_of_app in Hin as [Hin|Hin%list_elem_of_singleton].
      * left. exists row'. rewrite elem_of_cons. auto.
      * right. subst row'. destruct Hrow as (_ & Epat & _). rewrite Epat in Hpat. by intros [? _]%NoDup_cons.
    + destruct IH as (rows & Hv' & Hall & Hok). exists (row :: rows). rewrite <- app_assoc in *.
      split; [done|]. split; [by constructor|]. intros Hd. apply Hok. by eapply effect_ok.
  - split; [by eapply uncommitted_exec|]. intros Hu.
    destruct (exec_view_err _ _ _ _ _ _ E Hv Hu) as (id & now & He).
    apply insert_of_conflict, existsb_exists in He as (row & Hin & Hr).
    apply andb_prop in Hr as [Ht%N.eqb_eq Hp%String.eqb_eq]. left. exists row.
    rewrite list_elem_of_In, fmap_cons, elem_of_cons. auto.
Qed.

Lemma insert_batch_spec t p w d : view w t = Some d ->
  let '(r, w') := insert_batch t p w in
  committed w' = committed w /\
  match r with
  | Ok _ => exists rows, view w' t = Some (set_rules (rules d ++ rows) d) /\
              Forall2 (rule_written (NP_TenantID p)) (NP_Rules p) rows /\
              (db_ok d -> db_ok (set_rules (rules d ++ rows) d))
  | Err e => Is e ErrProjectExists = true ->
              (exists row, row ∈ rules d /\ rl_tenant row = NP_TenantID p) \/ ~ NoDup (RoutePattern <$> NP_Rules p)
  end.
Proof.
  intros Hv. unfold insert_batch. destruct (NP_Rules p) as [|r rs] eqn:Ep.
  { split; [done|]. exists []. rewrite app_nil_r. destruct d. split; [done|]. split; [constructor|done]. }
  rewrite <- Ep. pose proof (insert_rules_spec t (NP_TenantID p) (NP_Rules p) w d Hv) as Hs.
  destruct (insert_rules t (NP_TenantID p) (NP_Rules p) w) as [[e|] w1]; destruct Hs as [Hc Hs].
  - destruct (tx_batch_close t w1) as [r' w2] eqn:Ec. simpl.
    split; [by rewrite (uncommitted_close _ _ _ _ Ec)|]. intros Hu%wrapUnique_is.
    destruct (Hs Hu) as [(row & ? & ? & _)|?]; [left; eauto|by right].
  - destruct (tx_batch_close t w1) as [[[]|e] w2] eqn:Ec; (split; [by rewrite (uncommitted_close _ _ _ _ Ec)|]).
    + by rewrite (tx_batch_close_ok _ _ _ Ec).
    + done.
Qed.

Lemma create_in_tx_spec t p w d : view w t = Some d -> committed w = d ->
  let '(r, w') := create_in_tx t p w in
  match r with
  | Ok _ => created p d (committed w')
  | Err e => (committed w' = d \/ created p d (committed w') /\ Is e ErrProjectExists = false) /\
             (Is e ErrProjectExists = true -> committed w' = d /\ conflict p d)
  end.
Proof.
  intros Hv Hd. unfold create_in_tx.
  destruct (tx_exec t (InsertTenant _ _) w) as [[n1|e] w1] eqn:E1.
  2:{ rewrite (uncommitted_exec _ _ _ _ _ E1), Hd. split; [by left|]. intros Hu%wrapUnique_is. split; [done|].
      destruct (exec_view_err _ _ _ _ _ _ E1 Hv Hu) as (id & now & He). revert He. cbn [effect].
      destruct (has_tenant _ d || name_taken _ d) eqn:Eo; [|done]. apply orb_true_iff in Eo as [?|?];
        unfold conflict; auto. }
  destruct (exec_view _ _ _ _ _ _ E1 Hv) as (id1 & now1 & d1 & Hf1 & He1 & Hv1).
  pose proof (fun Hok => effect_ok _ _ _ _ _ _ Hok Hf1 He1) as Hok1. revert He1. cbn [effect].
  destruct (has_tenant (NP_TenantID p) d || name_taken (NP_Name p) d) eqn:Eo; [done|].
  apply orb_false_iff in Eo as [Et En]. intros [= _ Ed1].
  destruct (tx_exec t (InsertKey _ _ _ _) w1) as [[n2|e] w2] eqn:E2.
  2:{ rewrite (uncommitted_exec _ _ _ _ _ E2), (uncommitted_exec _ _ _ _ _ E1), Hd.
      split; [by left|]. intros Hu%wrapUnique_is. split; [done|].
      destruct (exec_view_err _ _ _ _ _ _ E2 Hv1 Hu) as (id & now & He). apply insert_key_conflict in He.
      rewrite <- Ed1 in He. unfold conflict. auto. }
  destruct (exec_view _ _ _ _ _ _ E2 Hv1) as (id2 & now2 & d2 & Hf2 & He2 & Hv2).
  pose proof (fun Hok => effect_ok _ _ _ _ _ _ Hok Hf2 He2) as Hok2.
  destruct (insert_key_eq _ _ _ _ _ _ _ _ _ He2) as (Ed2 & _ & Eh & _ & _).
  pose proof (insert_batch_spec t p w2 d2 Hv2) as Hb.
  destruct (insert_batch t p w2) as [[[]|e] w3]; destruct Hb as [Hc3 Hb].
  2:{ rewrite Hc3, (uncommitted_exec _ _ _ _ _ E2), (uncommitted_exec _ _ _ _ _ E1), Hd.
      split; [by left|]. intros Hu. split; [done|]. subst d2. rewrite <- Ed1 in Hb. simpl in Hb. unfold conflict.
      destruct (Hb Hu) as [?|?]; auto. }
  destruct Hb as (rows & Hv3 & Hrows & Hok3).
  assert (Hcreated : created p d (set_rules (rules d2 ++ rows) d2)).
  { subst d2. rewrite <- Ed1 in *. unfold created. simpl in *. split; [eauto|]. split; [eauto|].
    split; [eauto|]. split; [done|]. split; [done|]. split; [exact Eh|]. tauto. }
  destruct (tx_commit t w3) as [[[]|e] w4] eqn:E4.
  - apply tx_commit_ok in E4. rewrite Hv3 in E4. injection E4 as <-. exact Hcreated.
  - split; [|done]. apply tx_commit_err in E4 as [E4|E4].
    + left. by rewrite E4, Hc3, (uncommitted_exec _ _ _ _ _ E2), (uncommitted_exec _ _ _ _ _ E1), Hd.
    + right. rewrite Hv3 in E4. injection E4 as <-. done.
Qed.

Lemma CreateProject_created p w w' : pg_CreateProject p w = (Ok tt, w') ->
  created p (committed w) (committed w').
Proof.
  unfold pg_CreateProject. destruct (tx_begin w) as [[t|e] w1] eqn:Eb; [|done].
  pose proof (uncommitted_begin _ _ _ Eb) as Hc.
  pose proof (create_in_tx_spec t p w1 _ (tx_begin_ok _ _ _ Eb) Hc) as Hs.
  destruct (create_in_tx t p w1) as [[[]|e] w2]; [|done]. intros [= <-]. by rewrite uncommitted_rollback.
Qed.

(** ** Reading back *)

Lemma read_keys h w r w' : pg_key_by_hash h w = (r, w') -> committed w' = committed w.
Proof. intros E. pose proof (pg_reads w) as (Hr & _). specialize (Hr h). by rewrite E in Hr. Qed.

Lemma read_tenant t w r w' : pg_tenant_by_id t w = (r, w') -> committed w' = committed w.
Proof. intros E. pose proof (pg_reads w) as (_ & Hr & _). specialize (Hr t). by rewrite E in Hr. Qed.

Lemma read_tenants w r w' : pg_tenants w = (r, w') -> committed w' = committed w.
Proof. intros E. pose proof (pg_reads w) as (_ & _ & Hr & _). by rewrite E in Hr. Qed.

Lemma read_tenant_keys o w r w' : pg_keys o w = (r, w') -> committed w' = committed w.
Proof. intros E. pose proof (pg_reads w) as (_ & _ & _ & Hr & _). specialize (Hr o). by rewrite E in Hr. Qed.

Lemma scan_rules_ok l rs : scan_rules l = Ok rs -> rs = map rule_entity l.
Proof.
  revert rs. induction l as [|r l IH]; intros rs; cbn [scan_rules map]; [by intros [= <-]|].
  unfold scanRule. destruct (ParseAlgorithm _); [|done]. destruct (scan_rules l) as [rest|]; [|done].
  intros [= <-]. f_equal. by apply IH.
Qed.

Lemma list_rules_ok op o w rs w' : list_rules op o w = (Ok rs, w') ->
  rs ≡ₚ map rule_entity (List.filter (fun r => in_scope o (rl_tenant r)) (rules (committed w))).
Proof.
  unfold list_rules. destruct (pg_rules o w) as [[[l tail]|e] w1] eqn:Eq; [|done].
  destruct (scan_rules l) as [rs'|e] eqn:Es; [|done]. destruct tail as [e|]; [done|]. intros [= <- <-].
  apply scan_rules_ok in Es as ->. apply pg_rules_ok in Eq. by rewrite Eq.
Qed.

Lemma filter_none {A} (f : A -> bool) l : Forall (fun x => f x = false) l -> List.filter f l = [].
Proof. induction 1 as [|x l Hx _ IH]; simpl; [done|]. by rewrite Hx. Qed.

Lemma filter_whole {A} (f : A -> bool) l : Forall (fun x => f x = true) l -> List.filter f l = l.
Proof. induction 1 as [|x l Hx _ IH]; simpl; [done|]. by rewrite Hx, IH. Qed.

(** A rule that was written reads back as stored. *)
Lemma rule_read_back tenant r row : rule_written tenant r row -> without_id (rule_entity row) = as_stored tenant r.
Proof.
  intros (E1 & E2 & E3 & E4 & E5 & E6 & E7 & E8). unfold without_id, as_stored, rule_entity. simpl.
  by rewrite E1, E2, E3, E4, E5, E6, E7, E8, !default_nullIfZero.
Qed.

Lemma rules_read_back tenant rs rows : Forall2 (rule_written tenant) rs rows ->
  map without_id (map rule_entity rows) = map (as_stored tenant) rs.
Proof.
  induction 1 as [|r row rs rows Hr _ IH]; [done|]. cbn [map]. by rewrite IH, (rule_read_back _ _ _ Hr).
Qed.

Lemma created_rules p d d' : db_ok d -> created p d d' ->
  exists rows, Forall2 (rule_written (NP_TenantID p)) (NP_Rules p) rows /\
    List.filter (fun r => in_scope (Some (NP_TenantID p)) (rl_tenant r)) (rules d') = rows.
Proof.
  intros Hd (_ & _ & (rows & Er & Hrows) & Ht & _). exists rows. split; [done|].
  rewrite Er, List.filter_app, filter_none, filter_whole; [done| |].
  - clear Er. induction Hrows as [|r row rs rows Hr _ IH]; constructor; [|done].
    destruct Hr as [E _]. simpl. by rewrite E, N.eqb_refl.
  - eapply Forall_impl; [apply (ok_rule_tenants _ Hd)|]. intros row Hrow. simpl in *.
    apply N.eqb_neq. intros E. rewrite E in Hrow. congruence.
Qed.

(** The new key and the new tenant are what the lookups find. *)
Lemma find_app_none {A} (f : A -> bool) l x : existsb f l = false -> f x = true -> find f (l ++ [x]) = Some x.
Proof.
  induction l as [|y l IH]; simpl; intros Hl Hx; [by rewrite Hx|].
  apply orb_false_iff in Hl as [Hy Hl]. rewrite Hy. by apply IH.
Qed.

End Lemmas.

(** ** Revocation *)

Lemma evolves_ok d d' : db_ok d -> evolves d d' -> db_ok d'.
Proof. intros Hd (id & now & s & n & Hf & He). by eapply effect_ok. Qed.

Lemma evolves_revoked kid d d' : evolves d d' -> is_revoked kid d -> is_revoked kid d'.
Proof.
  intros (id & now & s & n & _ & He) (k & Hk & Hid & Hst).
  assert (Hins : forall t h p r m dd, insert_key id now t h p r d = Ok (m, dd) -> is_revoked kid dd).
  { intros t h p r m dd E. apply insert_key_eq in E as [-> _]. exists k. split; [|done].
    apply elem_of_app. by left. }
  destruct s as [t name|t h p r|t h p r|t p a l w c f e|k' t]; cbn [effect] in He.
  - destruct (_ || _); [done|]. injection He as _ <-. by exists k.
  - by eapply Hins.
  - destruct (has_tenant t d); [by eapply Hins|]. injection He as _ <-. by exists k.
  - destruct (negb _); [done|]. destruct (negb _); [done|]. destruct (pattern_taken _ _ _); [done|].
    destruct (negb _); [done|]. injection He as _ <-. by exists k.
  - injection He as _ <-. exists (if is_key k' t k then revoked_row k else k). split; [|by destruct (is_key k' t k)].
    apply list_elem_of_In, in_map_iff. exists k. by rewrite <- list_elem_of_In.
Qed.

Lemma key_unique d k1 k2 : db_ok d -> k1 ∈ api_keys d -> k2 ∈ api_keys d -> ak_id k1 = ak_id k2 -> k1 = k2.
Proof.
  intros Hd [i Hi]%list_elem_of_lookup [j Hj]%list_elem_of_lookup E.
  pose proof (ok_key_ids _ Hd) as Hnd. rewrite NoDup_alt in Hnd.
  assert (i = j) as ->; [|congruence]. apply (Hnd i j (ak_id k1)).
  - by rewrite list_lookup_fmap, Hi.
  - by rewrite list_lookup_fmap, Hj, E.
Qed.

Lemma revoke_revokes id now kid tid d n d' : effect id now (RevokeKey kid tid) d = Ok (n, d') -> n <> 0 ->
  is_revoked kid d'.
Proof.
  cbn [effect]. intros [= <- <-] Hn.
  destruct (List.filter (is_key kid tid) (api_keys d)) as [|k l] eqn:Ef; [done|].
  assert (Hk : In k (List.filter (is_key kid tid) (api_keys d))) by (rewrite Ef; by left).
  apply filter_In in Hk as [Hin Hk]. exists (revoked_row k). simpl. split; [|split; [|done]].
  - apply list_elem_of_In, in_map_iff. exists k. by rewrite Hk.
  - by apply andb_prop in Hk as [?%N.eqb_eq _].
Qed.


(** ** Listing all projects *)

Section Listing.
Context `{!Numeric}.

(** [index] gives the position of every tenant. *)
Definition index_ok (ts : list tenant_row) (index : gmap N nat) : Prop :=
  forall tid i, index !! tid = Some i <-> exists t, ts !! i = Some t /\ tn_id t = tid.

Lemma index_fold ts : NoDup (tn_id <$> ts) ->
  exists index, fold_left index_step ts (∅, []) = (index, map (fun t => project_of t [] []) ts) /\
    index_ok ts index.
Proof.
  induction ts as [|t ts IH] using rev_ind.
  { exists ∅. split; [done|]. intros tid i. rewrite lookup_empty. split; [done|intros (t & Ht & _)].
    by rewrite lookup_nil in Ht. }
  rewrite fmap_app. intros (Hnd & Hnew & _)%NoDup_app. destruct (IH Hnd) as (index & E & Hi).
  exists (<[tn_id t := length ts]> index). rewrite fold_left_snoc, E, map_app. unfold index_step. simpl.
  rewrite length_map. split; [done|]. intros tid i. rewrite lookup_insert_Some, (Hi tid i). split.
  - intros [[<- <-]|[Hne (t' & Ht' & E')]].
    + exists t. by rewrite lookup_app_r, Nat.sub_diag.
    + exists t'. split; [|done]. by apply lookup_app_l_Some.
  - intros (t' & Ht' & E'). apply lookup_app_Some in Ht' as [Ht'|[Hle Ht']].
    + right. split; [|by exists t'].
      intros Heq. apply (Hnew (tn_id t')); [apply list_elem_of_fmap_2, list_elem_of_lookup; eauto|].
      rewrite E', <- Heq. by left.
    + apply list_lookup_singleton_Some in Ht' as [Hi0 ->]. left. split; [done|lia].
Qed.

Lemma at_tenant_map ts index tid f (g : tenant_row -> ProjectSummary) :
  index_ok ts index -> NoDup (tn_id <$> ts) ->
  at_tenant index tid f (map g ts) = map (fun t => if (tn_id t =? tid)%N then f (g t) else g t) ts.
Proof.
  intros Hi Hnd. unfold at_tenant. destruct (index !! tid) as [i|] eqn:E.
  - apply Hi in E as (t & Ht & Eid). apply list_eq. intros j. change (map g ts) with (g <$> ts).
    change (map ?h ts) with (h <$> ts). rewrite list_lookup_alter, !list_lookup_fmap.
    destruct (decide (i = j)) as [<-|Hne].
    + rewrite Ht. simpl. by rewrite Eid, N.eqb_refl.
    + destruct (ts !! j) as [t'|] eqn:Ej; [|done]. simpl. destruct (N.eqb_spec (tn_id t') tid) as [E'|]; [|done].
      exfalso. apply Hne. rewrite NoDup_alt in Hnd.
      apply (Hnd i j tid); by rewrite list_lookup_fmap, ?Ht, ?Ej; simpl; congruence.
  - apply map_ext_in. intros t Ht. destruct (N.eqb_spec (tn_id t) tid) as [E'|]; [|done].
    apply list_elem_of_In, list_elem_of_lookup in Ht as [i Ht].
    assert (index !! tid = Some i) by (apply Hi; eauto). congruence.
Qed.

Lemma add_keys_map ts index ks : index_ok ts index -> NoDup (tn_id <$> ts) -> forall g,
  add_keys index ks (map g ts) =
  map (fun t => fold_left (fun p k => if in_scope (Some (tn_id t)) (ak_tenant k) then add_key k p else p) ks (g t)) ts.
Proof.
  intros Hi Hnd. unfold add_keys. induction ks as [|k ks IH]; intros g; [done|]. cbn [fold_left].
  rewrite at_tenant_map, IH by done. apply map_ext. intros t. unfold in_scope. by rewrite N.eqb_sym.
Qed.

Lemma add_rules_map ts index rs : index_ok ts index -> NoDup (tn_id <$> ts) -> forall g,
  add_rules index rs (map g ts) =
  map (fun t => fold_left (fun p r => if in_scope (Some (tn_id t)) (rl_tenant r) then add_rule r p else p) rs (g t)) ts.
Proof.
  intros Hi Hnd. unfold add_rules. induction rs as [|r rs IH]; intros g; [done|]. cbn [fold_left].
  rewrite at_tenant_map, IH by done. apply map_ext. intros t. unfold in_scope. by rewrite N.eqb_sym.
Qed.

Lemma add_keys_fold (f : key_row -> bool) ks : forall p,
  let q := fold_left (fun p k => if f k then add_key k p else p) ks p in
  PS_ID q = PS_ID p /\ PS_Name q = PS_Name p /\ PS_Status q = PS_Status p /\ PS_CreatedAt q = PS_CreatedAt p /\
  PS_Keys q = PS_Keys p ++ map key_summary (List.filter f ks) /\ PS_Rules q = PS_Rules p /\
  RuleCount q = RuleCount p.
Proof.
  induction ks as [|k ks IH]; intros p; cbn [fold_left List.filter map]; [by rewrite app_nil_r|].
  destruct (IH (if f k then add_key k p else p)) as (E1 & E2 & E3 & E4 & E5 & E6 & E7).
  cbn zeta. rewrite E1, E2, E3, E4, E5, E6, E7. destruct (f k); simpl; [|done]. by rewrite <- app_assoc.
Qed.

Lemma add_rules_fold (f : rule_row -> bool) rs : forall p,
  let q := fold_left (fun p r => if f r then add_rule r p else p) rs p in
  PS_ID q = PS_ID p /\ PS_Name q = PS_Name p /\ PS_Status q = PS_Status p /\ PS_CreatedAt q = PS_CreatedAt p /\
  PS_Keys q = PS_Keys p /\ PS_Rules q = PS_Rules p ++ map rule_entity (List.filter f rs) /\
  RuleCount q = RuleCount p + Z.of_nat (length (List.filter f rs)).
Proof.
  induction rs as [|r rs IH]; intros p; cbn [fold_left List.filter map]; [rewrite app_nil_r; simpl; by rewrite Z.add_0_r|].
  destruct (IH (if f r then add_rule r p else p)) as (E1 & E2 & E3 & E4 & E5 & E6 & E7).
  cbn zeta. rewrite E1, E2, E3, E4, E5, E6, E7. destruct (f r); [|done].
  simpl. rewrite <- app_assoc. repeat (split; [done|]). lia.
Qed.

Lemma filter_perm {A} (f : A -> bool) l k : l ≡ₚ k -> List.filter f l ≡ₚ List.filter f k.
Proof.
  induction 1 as [|x l k _ IH|x y l|l k m _ IH1 _ IH2]; simpl; [done| | |by rewrite IH1].
  - destruct (f x); [by rewrite IH|done].
  - destruct (f x), (f y); try done. apply Permutation_swap.
Qed.

(** What the three loops build for one tenant. *)
Lemma built_matches d t ks rs : ks ≡ₚ api_keys d -> rs ≡ₚ rules d ->
  project_matches d t
    (fold_left (fun p r => if in_scope (Some (tn_id t)) (rl_tenant r) then add_rule r p else p) rs
       (fold_left (fun p k => if in_scope (Some (tn_id t)) (ak_tenant k) then add_key k p else p) ks
          (project_of t [] []))).
Proof.
  intros Hk Hr.
  destruct (add_keys_fold (fun k => in_scope (Some (tn_id t)) (ak_tenant k)) ks (project_of t [] []))
    as (K1 & K2 & K3 & K4 & K5 & K6 & K7).
  set (q := fold_left _ ks _) in *.
  destruct (add_rules_fold (fun r => in_scope (Some (tn_id t)) (rl_tenant r)) rs q)
    as (R1 & R2 & R3 & R4 & R5 & R6 & R7).
  unfold project_matches. cbn zeta in *. rewrite R1, R2, R3, R4, R5, R6, R7, K1, K2, K3, K4, K5, K6, K7.
  repeat (split; [done|]). split; [|split].
  - simpl. by rewrite (filter_perm _ _ _ Hk).
  - simpl. by rewrite (filter_perm _ _ _ Hr).
  - simpl. rewrite length_map. lia.
Qed.

End Listing.

(** ** Reading leaves the tables as they are *)

Section Reading.
Context {D : Type} `{!Postgres D} `{!Numeric} `{!GoText}.

Definition reads {A} (m : Op D A) : Prop := forall d, committed (snd (m d)) = committed d.

Lemma reads_FindByHash h : reads (pg_FindByHash h).
Proof.
  intros d. unfold pg_FindByHash. destruct (pg_key_by_hash h d) as [[[k|]|e] d'] eqn:Er; by eapply read_keys.
Qed.

Lemma reads_GetByID t : reads (pg_GetByID t).
Proof.
  intros d. unfold pg_GetByID. destruct (pg_tenant_by_id t d) as [[[k|]|e] d'] eqn:Er; by eapply read_tenant.
Qed.

Lemma reads_ListByTenant t : reads (pg_ListByTenant t).
Proof.
  intros d. unfold pg_ListByTenant, list_rules. pose proof (pg_reads d) as (_ & _ & _ & _ & Hr). specialize (Hr (Some t)).
  destruct (pg_rules (Some t) d) as [[[l tail]|e] d']; [|exact Hr]. by destruct (scan_rules l).
Qed.

Lemma reads_GetProject t : reads (pg_GetProject t).
Proof.
  intros d. unfold pg_GetProject. destruct (pg_tenant_by_id t d) as [[[r|]|e] d1] eqn:E1; apply read_tenant in E1; try done.
  destruct (pg_keys (Some t) d1) as [[[ks [e|]]|e] d2] eqn:E2; apply read_tenant_keys in E2; cbn [snd]; try congruence.
  pose proof (pg_reads d2) as (_ & _ & _ & _ & Hr). specialize (Hr (Some t)).
  destruct (pg_rules (Some t) d2) as [[[rs tail]|e] d3]; cbn [snd] in *; congruence.
Qed.

Lemma reads_ListProjects : reads pg_ListProjects.
Proof.
  intros d. unfold pg_ListProjects. destruct (pg_tenants d) as [[[ts [e|]]|e] d1] eqn:E1; apply read_tenants in E1; try done.
  destruct (fold_left index_step ts (∅, [])) as [index out]. case_bool_decide; [done|].
  destruct (pg_keys None d1) as [[[ks [e|]]|e] d2] eqn:E2; apply read_tenant_keys in E2; cbn [snd]; try congruence.
  pose proof (pg_reads d2) as (_ & _ & _ & _ & Hr). specialize (Hr None).
  destruct (pg_rules None d2) as [[[rs tail]|e] d3]; cbn [snd] in *; congruence.
Qed.

End Reading.

Section Projects.
Context {W : Type} `{!Postgres W} `{!Numeric} `{!GoText}.

Lemma all_in_scope {A} (f : A -> uuid) l : List.filter (fun x => in_scope None (f x)) l = l.
Proof. apply filter_whole. induction l; by constructor. Qed.

Lemma ListProjects_matches w ps w' : db_ok (committed w) -> pg_ListProjects w = (Ok ps, w') ->
  exists ts, ts ≡ₚ tenants (committed w) /\ Forall2 (project_matches (committed w)) ts ps.
Proof.
  intros Hd. unfold pg_ListProjects.
  destruct (pg_tenants w) as [[[ts [e|]]|e] w1] eqn:Et; try done.
  pose proof (pg_tenants_ok _ _ _ Et) as Hts.
  assert (Hnd : NoDup (tn_id <$> ts)) by (rewrite Hts; apply (ok_tenant_ids _ Hd)).
  destruct (index_fold ts Hnd) as (index & -> & Hi). case_bool_decide as Hnil.
  { intros [= <- <-]. exists ts. split; [done|]. apply map_eq_nil in Hnil as ->. constructor. }
  destruct (pg_keys None w1) as [[[ks [e|]]|e] w2] eqn:Ek; try done.
  destruct (pg_rules None w2) as [[[rs [e|]]|e] w3] eqn:Er; try done. simpl. intros [= <- <-].
  apply pg_keys_ok in Ek as Hks. apply pg_rules_ok in Er as Hrs.
  rewrite (all_in_scope ak_tenant) in Hks. rewrite (all_in_scope rl_tenant) in Hrs.
  rewrite (read_tenant_keys _ _ _ _ Ek), (read_tenants _ _ _ Et) in Hrs.
  rewrite (read_tenants _ _ _ Et) in Hks. exists ts. split; [done|].
  rewrite (add_keys_map ts index) by done. rewrite (add_rules_map ts index) by done.
  clear - Hks Hrs. induction ts as [|t ts IH]; constructor; [|done]. by apply built_matches.
Qed.

Lemma GetProject_matches tid w p w' : pg_GetProject tid w = (Ok p, w') ->
  exists t, t ∈ tenants (committed w) /\ tn_id t = tid /\ project_matches (committed w) t p.
Proof.
  unfold pg_GetProject. destruct (pg_tenant_by_id tid w) as [[[t|]|e] w1] eqn:Et; try done.
  destruct (pg_keys (Some tid) w1) as [[[ks [e|]]|e] w2] eqn:Ek; try done.
  destruct (pg_rules (Some tid) w2) as [[[rs [e|]]|e] w3] eqn:Er; try done. simpl. intros [= <- <-].
  pose proof (pg_tenant_by_id_ok _ _ _ _ Et) as Ht. symmetry in Ht. apply find_some in Ht as [Hin Hid%N.eqb_eq].
  subst tid.
  exists t. split; [by apply list_elem_of_In|]. split; [done|].
  apply pg_keys_ok in Ek as Hks. apply pg_rules_ok in Er as Hrs.
  rewrite (read_tenant_keys _ _ _ _ Ek), (read_tenant _ _ _ _ Et) in Hrs. rewrite (read_tenant _ _ _ _ Et) in Hks.
  unfold project_matches. simpl. repeat (split; [done|]). split; [by rewrite Hks|]. split; [by rewrite Hrs|].
  by rewrite length_map.
Qed.

(** ** A tenant and its key *)

(** The tables have this key, active, and its tenant, active, under this name. *)
Record opened (hash : string) (tenantID : uuid) (name role : string) (d : db) : Prop := {
  op_tenant : exists t, find (fun r => (tn_id r =? tenantID)%N) (tenants d) = Some t /\
    tn_id t = tenantID /\ tn_name t = name /\ tn_status t = "active";
  op_key : exists k, find (fun r => String.eqb (ak_hash r) hash) (api_keys d) = Some k /\
    ak_tenant k = tenantID /\ ak_status k = "active" /\ ak_role k = role
}.

Lemma created_opened p d d' : created p d d' -> opened (NP_KeyHash p) (NP_TenantID p) (NP_Name p) (NP_KeyRole p) d'.
Proof.
  intros ((now & Et) & (id & now' & Ek) & _ & Hnt & _ & Hnh & _). split.
  - eexists. rewrite Et, find_app_none; [done|exact Hnt|simpl; apply N.eqb_refl].
  - eexists. rewrite Ek, find_app_none; [done|exact Hnh|simpl; apply String.eqb_refl].
Qed.

(** Over fixed tables the lookups find the key and the tenant. *)
Lemma opened_known_at d hash tenantID name role : opened hash tenantID name role d ->
  Known (fun w => committed w = d) hash tenantID name role.
Proof.
  intros Hd. split; intros w Hw; cbn [FindByHash pg_keys_port GetByID pg_tenants_port]; unfold pg_FindByHash, pg_GetByID.
  - destruct (pg_key_by_hash _ w) as [[o|e] w1] eqn:Eq; pose proof (read_keys _ _ _ _ Eq) as Hc; [|split; [congruence|done]].
    rewrite (pg_key_by_hash_ok _ _ _ _ Eq), Hw. destruct (op_key _ _ _ _ _ Hd) as (k & -> & Hk). split; [congruence|done].
  - destruct (pg_tenant_by_id _ w) as [[o|e] w1] eqn:Eq; pose proof (read_tenant _ _ _ _ Eq) as Hc; [|split; [congruence|done]].
    rewrite (pg_tenant_by_id_ok _ _ _ _ Eq), Hw. destruct (op_tenant _ _ _ _ _ Hd) as (t & -> & Ht). split; [congruence|done].
Qed.

#[export] Instance opened_known hash tenantID name role :
  Known (fun w => opened hash tenantID name role (committed w)) hash tenantID name role.
Proof.
  split; intros w Hw; pose proof (opened_known_at _ _ _ _ _ Hw) as HK.
  - pose proof (kn_key (Known := HK) w eq_refl) as Hk. destruct (FindByHash hash w) as [r w1]. destruct Hk as [-> Hk]. by split.
  - pose proof (kn_tenant (Known := HK) w eq_refl) as Hk. destruct (GetByID tenantID w) as [r w1]. destruct Hk as [-> Hk]. by split.
Qed.

(** Its project is read as the tables have it, unless the database fails. *)
Lemma opened_project hash tenantID name role w : opened hash tenantID name role (committed w) ->
  match fst (pg_GetProject tenantID w) with
  | Ok s => exists t, t ∈ tenants (committed w) /\ tn_id t = tenantID /\ project_matches (committed w) t s
  | Err e => Is e ErrTenantNotFound = false
  end.
Proof.
  intros Hw. destruct (pg_GetProject tenantID w) as [[s|e] w'] eqn:Eg; cbn [fst]; [by apply GetProject_matches in Eg|].
  unfold pg_GetProject in Eg. destruct (pg_tenant_by_id _ w) as [[o|e'] w1] eqn:Eq; [|by injection Eg as <- _].
  rewrite (pg_tenant_by_id_ok _ _ _ _ Eq) in Eg. destruct (op_tenant _ _ _ _ _ Hw) as (t & Et & _). rewrite Et in Eg.
  destruct (pg_keys _ w1) as [[[ks [e'|]]|e'] w2]; [by injection Eg as <- _| |by injection Eg as <- _].
  destruct (pg_rules _ w2) as [[[rs [e'|]]|e'] w3]; try discriminate Eg; by injection Eg as <- _.
Qed.

(** A summary is that of the project as it was created: its key, active and of
    the role, is the only one, and its rules are all there are. *)
Definition just_created (p : NewProject) (s : ProjectSummary) : Prop :=
  PS_ID s = NP_TenantID p /\ PS_Name s = NP_Name p /\ PS_Status s = "active" /\
  (exists id now, PS_Keys s = [{| KS_ID := id; KS_Prefix := NP_KeyPrefix p; KS_Status := "active";
                                  KS_Role := NP_KeyRole p; KS_CreatedAt := now |}]) /\
  map without_id (PS_Rules s) ≡ₚ map (as_stored (NP_TenantID p)) (NP_Rules p) /\
  RuleCount s = Z.of_nat (length (NP_Rules p)).

Lemma created_summary p d d' t s : db_ok d -> created p d d' ->
  t ∈ tenants d' -> tn_id t = NP_TenantID p -> project_matches d' t s -> just_created p s.
Proof.
  intros Hd Hc Ht Hid (Eid & Ename & Est & _ & Ekeys & Erules & Ecount).
  destruct (created_rules p d d' Hd Hc) as (rows & Hrows & Er). rewrite Hid, Er in Erules. rewrite Hid in Ekeys.
  destruct Hc as ((now & Et) & (id & now' & Ek) & _ & Hnt & _). rewrite Et in Ht.
  apply elem_of_app in Ht as [Ht|Ht%list_elem_of_singleton].
  { exfalso. pose proof (existsb_false _ _ Hnt t Ht) as Hf. simpl in Hf. by rewrite Hid, N.eqb_refl in Hf. }
  subst t. cbn [tn_name tn_status] in *. split; [congruence|]. do 2 (split; [done|]). split; [|split].
  - rewrite Ek, List.filter_app, filter_none in Ekeys.
    + cbn [List.filter ak_tenant in_scope app] in Ekeys. rewrite N.eqb_refl in Ekeys. exists id, now'.
      by apply Permutation_singleton_r in Ekeys.
    + eapply Forall_impl; [apply (ok_key_tenants _ Hd)|]. intros k Hk. simpl in *. apply N.eqb_neq. intros E. rewrite E in Hk. congruence.
  - rewrite Erules. by rewrite (rules_read_back _ _ _ Hrows).
  - rewrite Ecount, Erules, length_map. by rewrite (Forall2_length _ _ _ Hrows).
Qed.

End Projects.

(** ** Properties *)

Section Properties.
Context {W : Type} `{!Postgres W} `{!Numeric} `{!GoText}.

(** C9: a project is created as a whole or not at all.  When [CreateProject]
    succeeds the tenant, its first key and every rule have been added and
    nothing else has changed; when it fails nothing has changed, unless the
    reply to COMMIT was lost after the whole project was added; and it reports
    [ErrProjectExists] only for a real conflict, with nothing changed. *)
Theorem CreateProject_atomic p w :
  let '(r, w') := pg_CreateProject p w in
  match r with
  | Ok _ => created p (committed w) (committed w')
  | Err e => (committed w' = committed w \/ created p (committed w) (committed w') /\ Is e ErrProjectExists = false) /\
             (Is e ErrProjectExists = true -> committed w' = committed w /\ conflict p (committed w))
  end.
Proof.
  unfold pg_CreateProject. destruct (tx_begin w) as [[t|e] w1] eqn:Eb.
  - pose proof (uncommitted_begin _ _ _ Eb) as Hc.
    pose proof (create_in_tx_spec t p w1 _ (tx_begin_ok _ _ _ Eb) Hc) as Hs.
    destruct (create_in_tx t p w1) as [[[]|e] w2]; by rewrite uncommitted_rollback.
  - rewrite (uncommitted_begin _ _ _ Eb). split; [by left|done].
Qed.

(** C21: what was created is what is read back.  After a project has been
    created, a successful reading of its tenant's rules gives exactly the rules
    it was created with, in some order, except that a refill rate comes back as
    the database stores it. *)
Theorem created_rules_listed p w w1 l w2 :
  db_ok (committed w) -> pg_CreateProject p w = (Ok tt, w1) ->
  pg_ListByTenant (NP_TenantID p) w1 = (Ok l, w2) ->
  map without_id l ≡ₚ map (as_stored (NP_TenantID p)) (NP_Rules p).
Proof.
  intros Hd Hc Hl. apply CreateProject_created in Hc. apply list_rules_ok in Hl.
  destruct (created_rules p _ _ Hd Hc) as (rows & Hrows & E). rewrite E in Hl.
  rewrite Hl. by rewrite (rules_read_back _ _ _ Hrows).
Qed.

(** The key of a new project works at once.  After a project was created
    with the digest of a key, that key authenticates as the new tenant with
    the role it was created with, or the database failed and the answer is
    503: it is never taken for unknown, revoked or suspended. *)
Theorem created_key_authenticates p raw w w1 :
  pg_CreateProject p w = (Ok tt, w1) -> raw <> "" -> NP_KeyHash p = HashAPIKey raw ->
  identifies (NP_TenantID p) (NP_Name p) (NP_KeyRole p) (fst (Authenticate raw w1)).
Proof.
  intros Hc Hraw Hhash. apply CreateProject_created, created_opened in Hc. rewrite Hhash in Hc.
  pose proof (known_authenticates _ raw _ _ _ w1 (opened_known _ _ _ _) Hraw Hc) as Ha.
  destruct (Authenticate raw w1) as [r w2]. apply Ha.
Qed.

(** C22: revocation is final.  Once [RevokeAPIKey] has succeeded, no key with
    that id authenticates any more, whatever statements the adapter runs
    afterwards. *)
Theorem revocation_is_final tid kid raw w w1 w2 tc w3 :
  db_ok (committed w) -> pg_RevokeAPIKey tid kid w = (Ok tt, w1) ->
  rtc evolves (committed w1) (committed w2) ->
  Authenticate raw w2 = (Ok tc, w3) -> APIKey_ID (TC_APIKey tc) <> kid.
Proof.
  intros Hd Hr Hevol Ha Hkid. unfold pg_RevokeAPIKey in Hr.
  destruct (pg_exec (RevokeKey kid tid) w) as [[n|e] w'] eqn:Ee; [|done].
  destruct (Z.eqb_spec n 0) as [|Hn]; [done|]. injection Hr as <-.
  apply pg_exec_ok in Ee as (id & now & Hf & He).
  assert (Hok : db_ok (committed w2) /\ is_revoked kid (committed w2)).
  { apply (rtc_preserves evolves (fun d => db_ok d /\ is_revoked kid d)) with (committed w'); [| |done].
    - intros a b [Ha1 Ha2] Hs. split; [by eapply evolves_ok|by eapply evolves_revoked].
    - split; [by eapply effect_ok|by eapply revoke_revokes]. }
  destruct Hok as [Hd2 (k & Hk & Hid & Hst)].
  unfold Authenticate, mbind, Op_bind in Ha. destruct (String.eqb raw ""); [done|].
  cbn [FindByHash pg_keys_port] in Ha. unfold pg_FindByHash in Ha.
  destruct (pg_key_by_hash (HashAPIKey raw) w2) as [[[k'|]|e] w2'] eqn:Eq; try done.
  apply pg_key_by_hash_ok in Eq. symmetry in Eq. apply find_some in Eq as [Hin _].
  destruct (APIKey_IsActive (key_entity k')) eqn:Eact; cbn [negb] in Ha; [|done].
  destruct (GetByID _ w2') as [[t|e] w3']; [|done]. destruct (negb _); [done|]. injection Ha as <- <-.
  cbn [TC_APIKey APIKey_ID key_entity] in Hkid.
  assert (k' = k) as ->. { eapply key_unique; [exact Hd2|by apply list_elem_of_In|done|congruence]. }
  unfold APIKey_IsActive in Eact. simpl in Eact. by rewrite Hst in Eact.
Qed.

(** C26: the dashboard's list agrees with the single projects.  Three queries
    and the grouping by an index of positions give, for every tenant, the
    project that [GetProject] gives for it, with the keys and rules in some
    order. *)
Theorem ListProjects_agrees w ps w' : db_ok (committed w) -> pg_ListProjects w = (Ok ps, w') ->
  (PS_ID <$> ps ≡ₚ tn_id <$> tenants (committed w)) /\
  forall p q w2, p ∈ ps -> pg_GetProject (PS_ID p) w = (Ok q, w2) ->
    PS_ID q = PS_ID p /\ PS_Name q = PS_Name p /\ PS_Status q = PS_Status p /\ PS_CreatedAt q = PS_CreatedAt p /\
    PS_Keys q ≡ₚ PS_Keys p /\ PS_Rules q ≡ₚ PS_Rules p /\ RuleCount q = RuleCount p.
Proof.
  intros Hd Hl. destruct (ListProjects_matches w ps w' Hd Hl) as (ts & Hts & Hall). split.
  - rewrite <- Hts. clear - Hall. induction Hall as [|t p ts ps (E & _) _ IH]; [done|].
    by rewrite !fmap_cons, E, IH.
  - intros p q w2 Hp Hq. apply GetProject_matches in Hq as (t & Ht & Eid & Q1 & Q2 & Q3 & Q4 & Q5 & Q6 & Q7).
    apply list_elem_of_lookup in Hp as [i Hp].
    destruct (Forall2_lookup_r _ _ _ _ _ Hall Hp) as (t' & Ht' & P1 & P2 & P3 & P4 & P5 & P6 & P7).
    assert (t' = t) as ->.
    { pose proof (ok_tenant_ids _ Hd) as Hnd. rewrite <- Hts in Ht, Hnd.
      apply list_elem_of_lookup in Ht as [j Hj]. rewrite NoDup_alt in Hnd.
      assert (i = j) as ->; [|congruence]. apply (Hnd i j (PS_ID p)); rewrite list_lookup_fmap.
      - by rewrite Ht', P1.
      - by rewrite Hj, <- Eid. }
    rewrite Q1, Q2, Q3, Q4, Q5, Q6, P1, P2, P3, P4, P5, P6, Q7, P7. repeat (split; [done|]).
    by rewrite Q6, P6.
Qed.

(** A small refill rate is lost.  A token bucket that [Validate] accepts,
    with a refill rate below half a hundredth of a token per second, comes
    back from the database with a refill rate of zero, which [Validate] would
    reject: a bucket of this rule is never refilled. *)
Theorem small_refill_lost tenant r :
  Validate r = Ok tt -> Rule_Algorithm r = AlgorithmTokenBucket ->
  fin (RefillRate r) -> 200 * sval (RefillRate r) < one ->
  RefillRate (as_stored tenant r) = of_Z 0 /\ exists e, Validate (as_stored tenant r) = Err e.
Proof.
  intros Hv Ha Hf Hs. pose proof one_pos.
  assert (Hpos : 0 < sval (RefillRate r)).
  { revert Hv. unfold Validate. rewrite Ha. repeat case_match; try done. intros _.
    destruct (of_Z_int 0 ltac:(lia)) as [Hz0 E0]. rewrite fleb_spec, E0 in * by done. lia. }
  assert (E : RefillRate (as_stored tenant r) = of_Z 0).
  { simpl. rewrite <- numeric_zero. f_equal. unfold nullIfZeroFloat. destruct (feqb _ _); [done|]. simpl.
    pose proof (numeric_nearest (RefillRate r) Hf) as Hn. set (h := to_numeric (RefillRate r)) in *.
    destruct (Z.lt_trichotomy h 0) as [Hh|[Hh|Hh]]; [nia|done|nia]. }
  split; [exact E|]. unfold Validate. rewrite E. cbn [as_stored Rule_Algorithm]. rewrite Ha.
  change (fleb (of_Z 0) (of_Z 0)) with true.
  change (String.eqb AlgorithmTokenBucket AlgorithmSlidingWindow) with false.
  change (String.eqb AlgorithmTokenBucket AlgorithmTokenBucket) with true. cbv iota.
  repeat match goal with |- context [if ?b then _ else _] => destruct b end; eauto.
Qed.

(** Adding a key.  [AddAPIKey] succeeds only for an existing tenant and an
    unused digest, and then adds one active key of that role; it reports
    [ErrTenantNotFound] only for a tenant that does not exist and
    [ErrProjectExists] only for a digest already used, changing nothing; any
    other failure changes nothing or has added the key. *)
Theorem AddAPIKey_outcome tid h p role w :
  let d := committed w in
  let added d' := exists id now,
    d' = set_keys (api_keys d ++ [{| ak_id := id; ak_tenant := tid; ak_hash := h; ak_prefix := p;
                                      ak_status := "active"; ak_role := role; ak_created := now |}]) d in
  let '(r, w') := pg_AddAPIKey tid h p role w in
  match r with
  | Ok _ => has_tenant tid d = true /\ hash_taken h d = false /\ added (committed w')
  | Err e =>
      (committed w' = d \/ added (committed w')) /\
      (Is e ErrTenantNotFound = true -> has_tenant tid d = false /\ committed w' = d) /\
      (Is e ErrProjectExists = true -> hash_taken h d = true /\ committed w' = d)
  end.
Proof.
  cbn zeta. unfold pg_AddAPIKey.
  destruct (pg_exec (InsertKeyIfTenant tid h p role) w) as [[n|e] w'] eqn:Ee.
  - apply pg_exec_ok in Ee as (id & now & Hf & He). cbn [effect] in He.
    destruct (has_tenant tid (committed w)) eqn:Et.
    + apply insert_key_eq in He as (Ed & -> & Hh & _ & _). simpl. eauto 6.
    + injection He as <- <-. simpl. split; [by left|done].
  - apply pg_exec_err in Ee as [Hd Hu]. split; [|split].
    + destruct Hd as [Hd|(_ & id & now & n & _ & He)]; [by left|]. cbn [effect] in He.
      destruct (has_tenant tid (committed w)); [|injection He as _ <-; by left].
      apply insert_key_eq in He as (Ed & _). eauto.
    + unfold wrapUnique. by case_bool_decide.
    + intros Hc%wrapUnique_is. destruct (Hu Hc) as (id & now & He). cbn [effect] in He.
      destruct (has_tenant tid (committed w)); [|done]. apply insert_key_conflict in He. split; [done|].
      destruct Hd as [Hd|[Hd _]]; [done|congruence].
Qed.

End Properties.

(** ** Witnesses: the server in memory *)

Module Demo.
#[local] Existing Instance in_memory.
#[local] Existing Instance hundredths.
#[local] Existing Instance plain_text.

Definition sign_in : Rule :=
  {| Rule_ID := 0%N; Rule_TenantID := 7%N; RoutePattern := "/login"; Rule_Algorithm := AlgorithmSlidingWindow;
     Enabled := true; LimitCount := 5; WindowSeconds := 60; BucketCapacity := 0; RefillRate := of_Z 0 |}.
Definition project_with (hash : string) : NewProject :=
  {| NP_TenantID := 7%N; NP_Name := "demo-app"; NP_KeyHash := hash; NP_KeyPrefix := "rl_";
     NP_KeyRole := RoleAdmin; NP_Rules := [sign_in] |}.
#[local] Abbreviation project := (project_with (HashAPIKey "rl_secret")).
Lemma project_hash hash : NP_KeyHash (project_with hash) = hash.
Proof. reflexivity. Qed.
Definition start : memory := {| mem_db := empty_db; mem_view := None |}.
Definition after : memory := snd (pg_CreateProject project start).

Lemma project_created : pg_CreateProject project start = (Ok tt, after).
Proof. reflexivity. Qed.

Lemma created_rules_listed_witness :
  db_ok (committed start) /\ pg_CreateProject project start = (Ok tt, after) /\
  exists l w2, pg_ListByTenant 7%N after = (Ok l, w2) /\
    map without_id l ≡ₚ map (as_stored 7%N) [sign_in].
Proof.
  split; [exact empty_db_ok|]. split; [exact project_created|].
  eexists _, _. split; [reflexivity|].
  exact (created_rules_listed project start after _ _ empty_db_ok project_created eq_refl).
Defined.

Lemma created_key_authenticates_witness :
  pg_CreateProject project start = (Ok tt, after) /\
  match fst (Authenticate "rl_secret" after) with
  | Ok tc => Tenant_ID (TC_Tenant tc) = 7%N /\ Tenant_Name (TC_Tenant tc) = "demo-app" /\
             APIKey_TenantID (TC_APIKey tc) = 7%N /\ APIKey_Role (TC_APIKey tc) = RoleAdmin
  | Err e => MapAuthError e = (503, "service_unavailable")
  end.
Proof.
  split; [exact project_created|].
  exact (created_key_authenticates project "rl_secret" start after project_created
           ltac:(discriminate) (project_hash _)).
Defined.

(** Two keys; the second one is revoked, the first one still works. *)
Definition key_with (hash : string) : key_row :=
  {| ak_id := 1%N; ak_tenant := 7%N; ak_hash := hash; ak_prefix := "rl_"; ak_status := "active";
     ak_role := "check"; ak_created := 1 |}.
#[local] Abbreviation key_one := (key_with (HashAPIKey "rl_one")).
Definition key_two : key_row :=
  {| ak_id := 2%N; ak_tenant := 7%N; ak_hash := "two"; ak_prefix := "rl_"; ak_status := "active";
     ak_role := "check"; ak_created := 1 |}.
Definition demo_tenant : tenant_row :=
  {| tn_id := 7%N; tn_name := "demo-app"; tn_status := "active"; tn_created := 0 |}.
Definition with_keys (ks : list key_row) : memory :=
  {| mem_db := {| tenants := [demo_tenant]; api_keys := ks; rules := [] |}; mem_view := None |}.
#[local] Abbreviation two_keys := (with_keys [key_one; key_two]).

Lemma hash_not_short raw : HashAPIKey raw <> "two".
Proof.
  pose proof (sha256_hex_length 32 raw ltac:(lia)) as Hl. unfold HashAPIKey.
  generalize dependent (sha256_hex 32 raw). intros h Hl ->. discriminate.
Qed.

Lemma with_keys_ok hash : hash <> "two" -> db_ok (mem_db (with_keys [key_with hash; key_two])).
Proof.
  intros Hh. split; simpl.
  - apply NoDup_singleton.
  - apply NoDup_singleton.
  - apply NoDup_cons. split; [intros E%list_elem_of_singleton; discriminate|apply NoDup_singleton].
  - apply NoDup_cons. split; [|apply NoDup_singleton]. by intros E%list_elem_of_singleton.
  - repeat constructor.
  - repeat (constructor; [simpl; auto|]). constructor.
  - constructor.
  - constructor.
  - constructor.
  - constructor.
Qed.

Lemma first_authenticates raw k rest : raw <> "" -> ak_hash k = HashAPIKey raw -> ak_status k = "active" ->
  ak_tenant k = 7%N ->
  Authenticate raw (with_keys (k :: rest)) =
    (Ok {| TC_Tenant := tenant_entity demo_tenant; TC_APIKey := key_entity k |}, with_keys (k :: rest)).
Proof.
  intros Hraw Hh Hs Ht. unfold Authenticate, mbind, Op_bind. rewrite (proj2 (String.eqb_neq _ _) Hraw).
  cbn [FindByHash pg_keys_port]. unfold pg_FindByHash.
  cbn [pg_key_by_hash in_memory with_keys mem_db api_keys find]. rewrite Hh, String.eqb_refl.
  unfold APIKey_IsActive. cbn [key_entity APIKey_Status APIKey_TenantID]. rewrite Hs, Ht. reflexivity.
Qed.

Lemma key_with_hash hash : ak_hash (key_with hash) = hash.
Proof. reflexivity. Qed.

Lemma revoke_two hash : pg_RevokeAPIKey 7%N 2%N (with_keys [key_with hash; key_two]) =
  (Ok tt, with_keys [key_with hash; revoked_row key_two]).
Proof. reflexivity. Qed.

Lemma revocation_is_final_witness :
  let w1 := with_keys [key_one; revoked_row key_two] in
  pg_RevokeAPIKey 7%N 2%N two_keys = (Ok tt, w1) /\ rtc evolves (committed w1) (committed w1) /\
  exists tc w3, Authenticate "rl_one" w1 = (Ok tc, w3) /\ APIKey_ID (TC_APIKey tc) <> 2%N.
Proof.
  intros w1. pose proof (revoke_two (HashAPIKey "rl_one")) as Hr.
  pose proof (first_authenticates "rl_one" key_one [revoked_row key_two] ltac:(discriminate)
                (key_with_hash _) eq_refl eq_refl) as Ha.
  split; [exact Hr|]. split; [apply rtc_refl|]. eexists _, _. split; [exact Ha|].
  exact (revocation_is_final 7%N 2%N "rl_one" two_keys w1 w1 _ _ (with_keys_ok _ (hash_not_short _)) Hr (rtc_refl _ _) Ha).
Defined.

Lemma list_two hash : pg_ListProjects (with_keys [key_with hash; key_two]) =
  (Ok [project_of demo_tenant [key_summary (key_with hash); key_summary key_two] []],
   with_keys [key_with hash; key_two]).
Proof. reflexivity. Qed.

Lemma ListProjects_agrees_witness :
  db_ok (committed two_keys) /\
  exists ps w', pg_ListProjects two_keys = (Ok ps, w') /\ length ps = 1%nat /\
  ((PS_ID <$> ps ≡ₚ tn_id <$> tenants (committed two_keys)) /\
  forall p q w2, p ∈ ps -> pg_GetProject (PS_ID p) two_keys = (Ok q, w2) ->
    PS_ID q = PS_ID p /\ PS_Name q = PS_Name p /\ PS_Status q = PS_Status p /\ PS_CreatedAt q = PS_CreatedAt p /\
    PS_Keys q ≡ₚ PS_Keys p /\ PS_Rules q ≡ₚ PS_Rules p /\ RuleCount q = RuleCount p).
Proof.
  pose proof (with_keys_ok _ (hash_not_short "rl_one")) as Hok. split; [exact Hok|].
  eexists _, _. split; [apply list_two|]. split; [reflexivity|].
  exact (ListProjects_agrees two_keys _ _ Hok (list_two _)).
Defined.

(** A rate of 1/1024 tokens per second *)
Definition slow_bucket : Rule :=
  {| Rule_ID := 0%N; Rule_TenantID := 7%N; RoutePattern := "/slow"; Rule_Algorithm := AlgorithmTokenBucket;
     Enabled := true; LimitCount := 0; WindowSeconds := 0; BucketCapacity := 5;
     RefillRate := SpecFloat.S754_finite false 4503599627370496 (-62) |}.

Lemma small_refill_lost_witness :
  Validate slow_bucket = Ok tt /\
  RefillRate (as_stored 7%N slow_bucket) = of_Z 0 /\ exists e, Validate (as_stored 7%N slow_bucket) = Err e.
Proof.
  assert (Hv : Validate slow_bucket = Ok tt) by reflexivity. split; [exact Hv|].
  exact (small_refill_lost 7%N slow_bucket Hv eq_refl eq_refl ltac:(vm_compute; reflexivity)).
Defined.
End Demo.
