(* ===== verification/Sql.v ===== *)
(** A relational database as the migration scripts see it: tables with typed
    columns, defaults and constraints, indexes, and the documented effect of
    the statements of PostgreSQL that the scripts and the adapter use.  Only
    what these statements need is covered: constraints are NOT NULL, CHECK on a
    list of texts, UNIQUE, PRIMARY KEY and references to a column [id] with ON
    DELETE CASCADE. *)

From stdpp Require Import base strings list.
From Stdlib Require Import ZArith NArith Lia.
From S2P Require Import Prelude Float64 GoStrings Domain Database.

Local Open Scope Z_scope.

(** ** Values *)

Inductive value :=
  | VNull
  | VUuid (u : uuid)
  | VText (s : string)
  | VInt (z : Z)
  | VNumeric (hundredths : Z)
  | VBool (b : bool)
  | VTime (t : Z).

Inductive sql_type := UUID | TEXT | INT | NUMERIC_10_2 | BOOLEAN | TIMESTAMPTZ.

(** Equality in SQL: NULL equals nothing. *)
Definition same_value (v w : value) : bool :=
  match v, w with
  | VUuid a, VUuid b => (a =? b)%N
  | VText a, VText b => String.eqb a b
  | VInt a, VInt b | VNumeric a, VNumeric b | VTime a, VTime b => a =? b
  | VBool a, VBool b => Bool.eqb a b
  | _, _ => false
  end.

Definition is_null (v : value) : bool := match v with VNull => true | _ => false end.

(** The value is one of the type, within its range. *)
Definition fits (t : sql_type) (v : value) : bool :=
  match t, v with
  | _, VNull => true
  | INT, VInt z => int4_ok (Some z)
  | NUMERIC_10_2, VNumeric z => numeric_ok (Some z)
  | UUID, VUuid _ | TEXT, VText _ | BOOLEAN, VBool _ | TIMESTAMPTZ, VTime _ => true
  | _, _ => false
  end.

(** Rows, and other things with names, in the order they were made *)
Definition row := list (string * value).

Fixpoint assoc {A} (n : string) (l : list (string * A)) : option A :=
  match l with
  | [] => None
  | (m, a) :: l' => if String.eqb m n then Some a else assoc n l'
  end.
Definition has {A} (n : string) (l : list (string * A)) : bool := existsb (fun p => String.eqb (fst p) n) l.
Definition without {A} (n : string) (l : list (string * A)) : list (string * A) :=
  List.filter (fun p => negb (String.eqb (fst p) n)) l.
Definition update {A} (n : string) (f : A -> A) (l : list (string * A)) : list (string * A) :=
  map (fun p => if String.eqb (fst p) n then (fst p, f (snd p)) else p) l.

Definition field (n : string) (r : row) : value := default VNull (assoc n r).

(** ** Tables *)

Inductive column_default := NoDefault | GenRandomUUID | DefaultNow | Constant (v : value).

Record column := {
  c_name : string; c_type : sql_type; c_not_null : bool; c_default : column_default; c_in : option (list string)
}.

(** The primary key is the first of the unique column lists; a reference is
    a column with the table whose [id] it holds. *)
Record table := {
  t_columns : list column;
  t_unique : list (list string);
  t_refs : list (string * string);
  t_rows : list row
}.

Record index := { ix_table : string; ix_columns : list string; ix_where : option (string * value) }.

(** The extensions, besides those of every server, by name: what an extension
    brings along is not in the model. *)
Record database := {
  db_extensions : list string; db_tables : list (string * table); db_indexes : list (string * index)
}.

Definition with_rows (rs : list row) (t : table) : table :=
  {| t_columns := t_columns t; t_unique := t_unique t; t_refs := t_refs t; t_rows := rs |}.
Definition set_tables (l : list (string * table)) (d : database) : database :=
  {| db_extensions := db_extensions d; db_tables := l; db_indexes := db_indexes d |}.
Definition set_indexes (l : list (string * index)) (d : database) : database :=
  {| db_extensions := db_extensions d; db_tables := db_tables d; db_indexes := l |}.

(** CREATE EXTENSION IF NOT EXISTS, of an extension that the server has and the
    role may install *)
Definition create_extension (n : string) (d : database) : database :=
  if existsb (String.eqb n) (db_extensions d) then d
  else {| db_extensions := db_extensions d ++ [n]; db_tables := db_tables d; db_indexes := db_indexes d |}.

(** ** Statements *)

Inductive sql :=
  | CreateExtension (name : string)
  | CreateTable (name : string) (t : table)
  | CreateIndex (name : string) (ix : index)
  | AddColumn (t : string) (c : column)
  | DropColumn (t c : string)
  | DropIndex (name : string)
  | DropTable (name : string)
  | Insert (t : string) (columns : list string) (rows : list (list value)) (on_conflict : option (list string))
  | InsertIfExists (t : string) (columns : list string) (values : list value) (other : string) (id : value)
  | Update (t : string) (sets wheres : list (string * value))
  | Delete (t : string) (c : string) (v : value).

Definition undefined_table : string := "42P01".
Definition undefined_column : string := "42703".
Definition not_null_violation : string := "23502".
Definition dependent_objects : string := "2BP01".

Section Exec.
(** The generated primary key and the transaction's time *)
Variable id : uuid.
Variable now : Z.

Definition default_of (d : column_default) : value :=
  match d with NoDefault => VNull | GenRandomUUID => VUuid id | DefaultNow => VTime now | Constant v => v end.

(** The row of an INSERT, with the defaults of the columns left out *)
Definition fill (cols : list column) (given : row) : row :=
  map (fun c => (c_name c, default (default_of (c_default c)) (assoc (c_name c) given))) cols.

(** The constraints that a row meets or violates on its own *)
Definition row_violation (cols : list column) (r : row) : option string :=
  if existsb (fun c => negb (fits (c_type c) (field (c_name c) r))) cols then Some out_of_range
  else if existsb (fun c => c_not_null c && is_null (field (c_name c) r)) cols then Some not_null_violation
  else if existsb (fun c => match c_in c, field (c_name c) r with
                            | Some l, VText s => negb (existsb (String.eqb s) l)
                            | _, _ => false
                            end) cols then Some check_violation
  else None.

(** A row of the table agrees with [r] on the columns. *)
Definition conflicts (cols : list string) (rs : list row) (r : row) : bool :=
  existsb (fun r' => forallb (fun c => same_value (field c r') (field c r)) cols) rs.

(** The references of [r] are there. *)
Definition refers (d : database) (refs : list (string * string)) (r : row) : bool :=
  forallb (fun '(c, t) =>
    is_null (field c r) ||
    match assoc t (db_tables d) with
    | Some t' => conflicts ["id"] (t_rows t') [("id", field c r)]
    | None => false
    end) refs.

Definition insert_row (name : string) (columns : list string) (on_conflict : option (list string))
    (values : list value) (d : database) : result string (Z * database) :=
  match assoc name (db_tables d) with
  | None => Err undefined_table
  | Some t =>
      if negb (forallb (fun c => existsb (fun c' => String.eqb (c_name c') c) (t_columns t)) columns)
      then Err undefined_column
      else
        let r := fill (t_columns t) (combine columns values) in
        match row_violation (t_columns t) r with
        | Some e => Err e
        | None =>
            if match on_conflict with Some cols => conflicts cols (t_rows t) r | None => false end then Ok (0, d)
            else if existsb (fun cols => conflicts cols (t_rows t) r) (t_unique t) then Err unique_violation
            else if negb (refers d (t_refs t) r) then Err foreign_key_violation
            else Ok (1, set_tables (update name (fun t => with_rows (t_rows t ++ [r]) t) (db_tables d)) d)
        end
  end.

Fixpoint insert_rows (name : string) (columns : list string) (on_conflict : option (list string))
    (rs : list (list value)) (n : Z) (d : database) : result string (Z * database) :=
  match rs with
  | [] => Ok (n, d)
  | r :: rest =>
      match insert_row name columns on_conflict r d with
      | Err e => Err e
      | Ok (k, d') => insert_rows name columns on_conflict rest (n + k) d'
      end
  end.

(** The row meets the conditions of a WHERE; the row with other values *)
Definition meets (wheres : list (string * value)) (r : row) : bool :=
  forallb (fun '(c, v) => same_value (field c r) v) wheres.
Definition changed (sets : list (string * value)) (r : row) : row :=
  map (fun p => (fst p, default (snd p) (assoc (fst p) sets))) r.

(** UPDATE of columns that are in no UNIQUE constraint and no reference *)
Definition update_rows (name : string) (sets wheres : list (string * value)) (d : database) : result string (Z * database) :=
  match assoc name (db_tables d) with
  | None => Err undefined_table
  | Some t =>
      if existsb (fun r => meets wheres r && negb (bool_decide (row_violation (t_columns t) (changed sets r) = None))) (t_rows t)
      then Err check_violation
      else Ok (Z.of_nat (length (List.filter (meets wheres) (t_rows t))),
               set_tables (update name (fun t =>
                 with_rows (map (fun r => if meets wheres r then changed sets r else r) (t_rows t)) t) (db_tables d)) d)
  end.

(** DELETE with the cascade to the tables that refer to this one, none of
    which is referred to in turn *)
Definition delete_rows (name c : string) (v : value) (d : database) : result string (Z * database) :=
  match assoc name (db_tables d) with
  | None => Err undefined_table
  | Some t =>
      let hit r := same_value (field c r) v in
      let gone := map (field "id") (List.filter hit (t_rows t)) in
      let orphan t' r := existsb (fun '(c', n) => String.eqb n name && existsb (same_value (field c' r)) gone) (t_refs t') in
      Ok (Z.of_nat (length gone),
          set_tables (map (fun '(n, t') =>
            (n, with_rows (List.filter (fun r => negb (orphan t' r) && negb (String.eqb n name && hit r)) (t_rows t')) t'))
            (db_tables d)) d)
  end.

Definition with_column (c : column) (t : table) : table :=
  {| t_columns := t_columns t ++ [c]; t_unique := t_unique t; t_refs := t_refs t;
     t_rows := map (fun r => r ++ [(c_name c, default_of (c_default c))]) (t_rows t) |}.

Definition add_column (name : string) (c : column) (d : database) : result string (Z * database) :=
  match assoc name (db_tables d) with
  | None => Err undefined_table
  | Some t =>
      if existsb (fun c' => String.eqb (c_name c') (c_name c)) (t_columns t) then Ok (0, d)
      else
        match t_rows t, row_violation [c] [(c_name c, default_of (c_default c))] with
        | _ :: _, Some e => Err e
        | _, _ => Ok (0, set_tables (update name (fun _ => with_column c t) (db_tables d)) d)
        end
  end.

(** An index and a constraint go with a column they name. *)
Definition without_column (c : string) (t : table) : table :=
  {| t_columns := List.filter (fun c' => negb (String.eqb (c_name c') c)) (t_columns t);
     t_unique := List.filter (fun cols => negb (existsb (String.eqb c) cols)) (t_unique t);
     t_refs := without c (t_refs t); t_rows := map (without c) (t_rows t) |}.

Definition drop_column (name c : string) (d : database) : result string (Z * database) :=
  match assoc name (db_tables d) with
  | None => Err undefined_table
  | Some t =>
      Ok (0, {| db_extensions := db_extensions d;
                db_tables := update name (fun _ => without_column c t) (db_tables d);
                db_indexes := List.filter (fun p => negb (String.eqb (ix_table (snd p)) name &&
                                                          existsb (String.eqb c) (ix_columns (snd p)))) (db_indexes d) |})
  end.

Definition drop_table (name : string) (d : database) : result string (Z * database) :=
  if negb (has name (db_tables d)) then Ok (0, d)
  else if existsb (fun p => negb (String.eqb (fst p) name) && existsb (fun q => String.eqb (snd q) name) (t_refs (snd p)))
            (db_tables d)
  then Err dependent_objects
  else Ok (0, {| db_extensions := db_extensions d; db_tables := without name (db_tables d);
                 db_indexes := List.filter (fun p => negb (String.eqb (ix_table (snd p)) name)) (db_indexes d) |}).

(** The effect of a statement, with the number of rows it reports or the
    SQLSTATE of its error.  The statements of the scripts that create or drop
    say IF NOT EXISTS and IF EXISTS. *)
Definition exec (s : sql) (d : database) : result string (Z * database) :=
  match s with
  | CreateExtension n => Ok (0, create_extension n d)
  | CreateTable n t => Ok (0, if has n (db_tables d) then d else set_tables (db_tables d ++ [(n, t)]) d)
  | CreateIndex n ix =>
      if has n (db_indexes d) then Ok (0, d)
      else
        match assoc (ix_table ix) (db_tables d) with
        | None => Err undefined_table
        | Some t =>
            if forallb (fun c => existsb (fun c' => String.eqb (c_name c') c) (t_columns t)) (ix_columns ix)
            then Ok (0, set_indexes (db_indexes d ++ [(n, ix)]) d)
            else Err undefined_column
        end
  | AddColumn t c => add_column t c d
  | DropColumn t c => drop_column t c d
  | DropIndex n => Ok (0, set_indexes (without n (db_indexes d)) d)
  | DropTable n => drop_table n d
  | Insert t cols rs oc => insert_rows t cols oc rs 0 d
  | InsertIfExists t cols vs other i =>
      match assoc other (db_tables d) with
      | None => Err undefined_table
      | Some t' => if conflicts ["id"] (t_rows t') [("id", i)] then insert_row t cols None vs d else Ok (0, d)
      end
  | Update t sets wheres => update_rows t sets wheres d
  | Delete t c v => delete_rows t c v d
  end.

(** A script is one transaction: the first error undoes it. *)
Fixpoint run_script (l : list sql) (d : database) : result string database :=
  match l with
  | [] => Ok d
  | s :: rest => match exec s d with Err e => Err e | Ok (_, d') => run_script rest d' end
  end.

End Exec.

(** ** Lemmas on named things *)

Section Names.
Context {A : Type}.
Implicit Types (l : list (string * A)) (n : string).

Lemma has_app n l1 l2 : has n (l1 ++ l2) = has n l1 || has n l2.
Proof. apply existsb_app. Qed.

Lemma has_assoc n l : has n l = true <-> is_Some (assoc n l).
Proof.
  induction l as [|[m a] l IH]; simpl; [by split; [|intros [? ?]]|].
  destruct (String.eqb_spec m n); simpl; [by split; [eauto|]|exact IH].
Qed.

Lemma assoc_app_r n l1 l2 : has n l1 = false -> assoc n (l1 ++ l2) = assoc n l2.
Proof.
  induction l1 as [|[m a] l IH]; simpl; [done|]. by destruct (String.eqb m n); simpl.
Qed.

Lemma without_id n l : has n l = false -> without n l = l.
Proof.
  unfold without. induction l as [|[m a] l IH]; simpl; [done|].
  destruct (String.eqb m n); simpl; [done|]. intros Hn. by rewrite IH.
Qed.

Lemma without_app n l1 l2 : without n (l1 ++ l2) = without n l1 ++ without n l2.
Proof. apply List.filter_app. Qed.

Lemma update_id n f l : has n l = false -> update n f l = l.
Proof.
  unfold update. induction l as [|[m a] l IH]; simpl; [done|].
  destruct (String.eqb m n); simpl; [done|]. intros Hn. by rewrite IH.
Qed.

Lemma update_app n f l1 l2 : update n f (l1 ++ l2) = update n f l1 ++ update n f l2.
Proof. apply map_app. Qed.

End Names.

Lemma run_script_app id now l1 l2 d :
  run_script id now (l1 ++ l2) d =
    match run_script id now l1 d with Ok d' => run_script id now l2 d' | Err e => Err e end.
Proof.
  revert d. induction l1 as [|s l1 IH]; intros d; simpl; [done|]. by destruct (exec id now s d) as [[n d']|].
Qed.
