(* ===== verification/Schema.v ===== *)
(** The scripts of [migrations/], statement by statement, and what they make of
    a database: the tables that [Database] keeps as typed rows, with the
    constraints its [effect] enforces. *)

From stdpp Require Import base strings list.
From Stdlib Require Import ZArith NArith Lia.
From S2P Require Import Prelude Float64 GoStrings Sha256 Domain Uuid Ports AuthService Database Sql.

Local Open Scope Z_scope.

(** ** 001_init *)

Definition col (name : string) (ty : sql_type) (not_null : bool) (d : column_default) : column :=
  {| c_name := name; c_type := ty; c_not_null := not_null; c_default := d; c_in := None |}.
Definition checked_in (l : list string) (c : column) : column :=
  {| c_name := c_name c; c_type := c_type c; c_not_null := c_not_null c; c_default := c_default c; c_in := Some l |}.

Definition id_column : column := col "id" UUID true GenRandomUUID.
Definition tenant_column : column := col "tenant_id" UUID true NoDefault.
Definition created_column : column := col "created_at" TIMESTAMPTZ true DefaultNow.

Definition tenants_table : table := {|
  t_columns := [id_column; col "name" TEXT true NoDefault;
                checked_in ["active"; "suspended"] (col "status" TEXT true (Constant (VText "active"))); created_column];
  t_unique := [["id"]; ["name"]]; t_refs := []; t_rows := [] |}.

Definition api_keys_table : table := {|
  t_columns := [id_column; tenant_column; col "key_hash" TEXT true NoDefault; col "key_prefix" TEXT true NoDefault;
                checked_in ["active"; "revoked"] (col "status" TEXT true (Constant (VText "active"))); created_column];
  t_unique := [["id"]; ["key_hash"]]; t_refs := [("tenant_id", "tenants")]; t_rows := [] |}.

Definition rules_table : table := {|
  t_columns := [id_column; tenant_column; col "route_pattern" TEXT true NoDefault;
                checked_in ["token_bucket"; "sliding_window"] (col "algorithm" TEXT true NoDefault);
                col "limit_count" INT false NoDefault; col "window_seconds" INT false NoDefault;
                col "bucket_capacity" INT false NoDefault; col "refill_rate" NUMERIC_10_2 false NoDefault;
                col "enabled" BOOLEAN true (Constant (VBool true)); created_column];
  t_unique := [["id"]; ["tenant_id"; "route_pattern"]]; t_refs := [("tenant_id", "tenants")]; t_rows := [] |}.

Definition init_up : list sql :=
  [CreateExtension "pgcrypto";
   CreateTable "tenants" tenants_table;
   CreateTable "api_keys" api_keys_table;
   CreateIndex "idx_api_keys_tenant" {| ix_table := "api_keys"; ix_columns := ["tenant_id"]; ix_where := None |};
   CreateTable "rules" rules_table;
   CreateIndex "idx_rules_tenant_enabled"
     {| ix_table := "rules"; ix_columns := ["tenant_id"]; ix_where := Some ("enabled", VBool true) |}].

Definition init_down : list sql := [DropTable "rules"; DropTable "api_keys"; DropTable "tenants"].

(** ** 002_admitdesk_tenant *)

Definition tenant_columns : list string := ["id"; "name"; "status"].
Definition key_columns : list string := ["id"; "tenant_id"; "key_hash"; "key_prefix"; "status"].
Definition rule_columns : list string :=
  ["id"; "tenant_id"; "route_pattern"; "algorithm"; "limit_count"; "window_seconds"; "bucket_capacity"; "refill_rate"; "enabled"].

Definition window_rule (id tenant : uuid) (pattern : string) (limit window : Z) : list value :=
  [VUuid id; VUuid tenant; VText pattern; VText "sliding_window"; VInt limit; VInt window; VNull; VNull; VBool true].

Definition admitdesk : uuid := 0x8a1f1c627b5e4d0a9d1e0c2a5f3b6d11%N.

Definition admitdesk_up : list sql :=
  [Insert "tenants" tenant_columns [[VUuid admitdesk; VText "admitdesk"; VText "active"]] (Some ["name"]);
   Insert "api_keys" key_columns
     [[VUuid 0x8a1f1c627b5e4d0a9d1e0c2a5f3b6d12%N; VUuid admitdesk;
       VText "cf3186cdc08eee7c8c16b40d70c34d330941a861c9a64e8afa2870d607cd22bb"; VText "rl_admitdesk_"; VText "active"]]
     (Some ["key_hash"]);
   Insert "rules" rule_columns
     [window_rule 0x8a1f1c627b5e4d0a9d1e0c2a5f3b6d21%N admitdesk "/admitdesk/intake/*" 5 600;
      window_rule 0x8a1f1c627b5e4d0a9d1e0c2a5f3b6d22%N admitdesk "/admitdesk/signup/*" 3 3600;
      window_rule 0x8a1f1c627b5e4d0a9d1e0c2a5f3b6d23%N admitdesk "/admitdesk/login/*" 10 900]
     (Some ["tenant_id"; "route_pattern"])].

Definition admitdesk_down : list sql := [Delete "tenants" "id" (VUuid admitdesk)].

(** ** 003_api_key_roles *)

Definition role_column : column := checked_in ["admin"; "check"] (col "role" TEXT true (Constant (VText "check"))).

Definition roles_up : list sql :=
  [AddColumn "api_keys" role_column;
   CreateIndex "idx_api_keys_tenant_role" {| ix_table := "api_keys"; ix_columns := ["tenant_id"; "role"]; ix_where := None |}].

Definition roles_down : list sql := [DropIndex "idx_api_keys_tenant_role"; DropColumn "api_keys" "role"].

(** ** seeds/dev_seed.sql *)

Definition demo_corp : uuid := 0x550e8400e29b41d4a716446655440000%N.

Definition dev_seed : list sql :=
  [Insert "tenants" tenant_columns [[VUuid demo_corp; VText "demo-corp"; VText "active"]] (Some ["name"]);
   Insert "api_keys" key_columns
     [[VUuid 0x660e8400e29b41d4a716446655440000%N; VUuid demo_corp;
       VText "b16ce1a03569f675496aefeafa235813dd7854f058d32f30793064a09b17fcb3"; VText "rl_demo_"; VText "active"]]
     (Some ["key_hash"]);
   Insert "rules" rule_columns
     [window_rule 0x770e8400e29b41d4a716446655440001%N demo_corp "/v1/check" 100 60;
      [VUuid 0x770e8400e29b41d4a716446655440002%N; VUuid demo_corp; VText "/api/payments*"; VText "token_bucket";
       VNull; VNull; VInt 10; VNumeric 200; VBool true];
      window_rule 0x770e8400e29b41d4a716446655440003%N demo_corp "/api/orders*" 50 60;
      window_rule 0x770e8400e29b41d4a716446655440004%N demo_corp "*" 1000 3600;
      window_rule 0x770e8400e29b41d4a716446655440005%N demo_corp "/bench" 1000000 60]
     (Some ["tenant_id"; "route_pattern"])].

(** ** The typed rows *)

Definition tenant_of (r : tenant_row) : row :=
  [("id", VUuid (tn_id r)); ("name", VText (tn_name r)); ("status", VText (tn_status r)); ("created_at", VTime (tn_created r))].

Definition key_of (k : key_row) : row :=
  [("id", VUuid (ak_id k)); ("tenant_id", VUuid (ak_tenant k)); ("key_hash", VText (ak_hash k));
   ("key_prefix", VText (ak_prefix k)); ("status", VText (ak_status k)); ("created_at", VTime (ak_created k));
   ("role", VText (ak_role k))].

Definition nullable {A} (f : A -> value) (o : option A) : value := match o with Some a => f a | None => VNull end.

(** [created_at] of a rule is kept by the database only. *)
Definition rule_of (created : Z) (r : rule_row) : row :=
  [("id", VUuid (rl_id r)); ("tenant_id", VUuid (rl_tenant r)); ("route_pattern", VText (rl_pattern r));
   ("algorithm", VText (rl_algorithm r)); ("limit_count", nullable VInt (rl_limit r));
   ("window_seconds", nullable VInt (rl_window r)); ("bucket_capacity", nullable VInt (rl_capacity r));
   ("refill_rate", nullable VNumeric (rl_refill r)); ("enabled", VBool (rl_enabled r)); ("created_at", VTime created)].

Definition keys_with_role : table :=
  {| t_columns := t_columns api_keys_table ++ [role_column]; t_unique := t_unique api_keys_table;
     t_refs := t_refs api_keys_table; t_rows := [] |}.

(** The database after all migrations, with these rows *)
Definition database_of (ts ks rs : list row) : database :=
  {| db_extensions := ["pgcrypto"];
     db_tables := [("tenants", with_rows ts tenants_table); ("api_keys", with_rows ks keys_with_role);
                   ("rules", with_rows rs rules_table)];
     db_indexes :=
       [("idx_api_keys_tenant", {| ix_table := "api_keys"; ix_columns := ["tenant_id"]; ix_where := None |});
        ("idx_rules_tenant_enabled",
           {| ix_table := "rules"; ix_columns := ["tenant_id"]; ix_where := Some ("enabled", VBool true) |});
        ("idx_api_keys_tenant_role", {| ix_table := "api_keys"; ix_columns := ["tenant_id"; "role"]; ix_where := None |})] |}.

(** [c] is the migrated database with the rows of [d]. *)
Definition represents (d : db) (c : database) : Prop :=
  exists times, length times = length (rules d) /\
    c = database_of (map tenant_of (tenants d)) (map key_of (api_keys d)) (zip_with rule_of times (rules d)).

(** The statements of the adapter in SQL ([project_repository.go]) *)
Definition sql_of (s : stmt) : sql :=
  match s with
  | InsertTenant t n => Insert "tenants" ["id"; "name"; "status"] [[VUuid t; VText n; VText "active"]] None
  | InsertKey t h p r =>
      Insert "api_keys" ["tenant_id"; "key_hash"; "key_prefix"; "status"; "role"]
        [[VUuid t; VText h; VText p; VText "active"; VText r]] None
  | InsertKeyIfTenant t h p r =>
      InsertIfExists "api_keys" ["tenant_id"; "key_hash"; "key_prefix"; "status"; "role"]
        [VUuid t; VText h; VText p; VText "active"; VText r] "tenants" (VUuid t)
  | InsertRule t p a l w c f e =>
      Insert "rules" ["tenant_id"; "route_pattern"; "algorithm"; "limit_count"; "window_seconds"; "bucket_capacity";
                      "refill_rate"; "enabled"]
        [[VUuid t; VText p; VText a; nullable VInt l; nullable VInt w; nullable VInt c; nullable VNumeric f; VBool e]] None
  | RevokeKey k t => Update "api_keys" [("status", VText "revoked")] [("id", VUuid k); ("tenant_id", VUuid t)]
  end.

(** ** The constraints on typed rows *)

Lemma conflicts_tenants cols ts r : conflicts cols (map tenant_of ts) r =
  existsb (fun x => forallb (fun c => same_value (field c (tenant_of x)) (field c r)) cols) ts.
Proof. unfold conflicts. induction ts as [|x ts IH]; [done|]. simpl. by rewrite IH. Qed.

Lemma conflicts_keys cols ks r : conflicts cols (map key_of ks) r =
  existsb (fun x => forallb (fun c => same_value (field c (key_of x)) (field c r)) cols) ks.
Proof. unfold conflicts. induction ks as [|x ks IH]; [done|]. simpl. by rewrite IH. Qed.

(** No index of the rules has their time. *)
Lemma conflicts_rules cols times rs r : length times = length rs -> forallb (fun c => negb (String.eqb c "created_at")) cols = true ->
  conflicts cols (zip_with rule_of times rs) r =
    existsb (fun x => forallb (fun c => same_value (field c (rule_of 0 x)) (field c r)) cols) rs.
Proof.
  intros Hl Hc. unfold conflicts. revert times Hl. induction rs as [|x rs IH]; intros [|t times] Hl; try done.
  simpl. rewrite IH by (simpl in Hl; lia). f_equal. clear IH.
  induction cols as [|c cols IHc]; [done|]. cbn [forallb] in *. apply andb_prop in Hc as [Hc Hcols].
  rewrite IHc by done. f_equal. unfold field, rule_of. cbn [assoc].
  repeat (destruct (String.eqb _ c); [done|]). apply negb_true_iff in Hc. by rewrite String.eqb_sym, Hc.
Qed.

Lemma existsb_ext_in {A} (f g : A -> bool) l : (forall x, x ∈ l -> f x = g x) -> existsb f l = existsb g l.
Proof.
  induction l as [|x l IH]; intros Hfg; [done|]. simpl. rewrite Hfg by left. f_equal. apply IH. intros y Hy. apply Hfg. by right.
Qed.

Lemma fresh_existsb {A} (f : A -> uuid) (id : uuid) l : id ∉ (f <$> l) -> existsb (fun x => (f x =? id)%N && true) l = false.
Proof.
  intros Hf. destruct (existsb _ l) eqn:He; [|done]. apply existsb_exists in He as (x & Hx & Hx2).
  rewrite andb_true_r in Hx2. apply N.eqb_eq in Hx2. destruct Hf. rewrite <- Hx2. apply list_elem_of_fmap_2.
  by apply list_elem_of_In.
Qed.

Section Refinement.
Variables (id : uuid) (now : Z).

(** An INSERT of one row, which the table and the values make [r] *)
Lemma insert_at name cols oc vs d t r : assoc name (db_tables d) = Some t ->
  forallb (fun c => existsb (fun c' => String.eqb (c_name c') c) (t_columns t)) cols = true ->
  fill id now (t_columns t) (combine cols vs) = r ->
  insert_row id now name cols oc vs d =
    match row_violation (t_columns t) r with
    | Some e => Err e
    | None =>
        if match oc with Some cols => conflicts cols (t_rows t) r | None => false end then Ok (0, d)
        else if existsb (fun cols => conflicts cols (t_rows t) r) (t_unique t) then Err unique_violation
        else if negb (refers d (t_refs t) r) then Err foreign_key_violation
        else Ok (1, set_tables (update name (fun t => with_rows (t_rows t ++ [r]) t) (db_tables d)) d)
    end.
Proof. intros Ht Hc Hr. unfold insert_row. by rewrite Ht, Hc, Hr. Qed.

Lemma insert_one name cols vs d t r : assoc name (db_tables d) = Some t ->
  forallb (fun c => existsb (fun c' => String.eqb (c_name c') c) (t_columns t)) cols = true ->
  fill id now (t_columns t) (combine cols vs) = r ->
  insert_row id now name cols None vs d =
    match row_violation (t_columns t) r with
    | Some e => Err e
    | None =>
        if existsb (fun cols => conflicts cols (t_rows t) r) (t_unique t) then Err unique_violation
        else if negb (refers d (t_refs t) r) then Err foreign_key_violation
        else Ok (1, set_tables (update name (fun t => with_rows (t_rows t ++ [r]) t) (db_tables d)) d)
    end.
Proof. apply (insert_at name cols None). Qed.

Lemma exec_insert_one name cols vs d : exec id now (Insert name cols [vs] None) d = insert_row id now name cols None vs d.
Proof. cbn [exec insert_rows]. by destruct (insert_row id now name cols None vs d) as [[n d']|e]. Qed.

Lemma has_tenant_rows t ts : existsb (fun x => (tn_id x =? t)%N && true) ts = existsb (fun r => (tn_id r =? t)%N) ts.
Proof. apply existsb_ext_in. intros. apply andb_true_r. Qed.

Lemma same_text {A} (f : A -> string) s l : existsb (fun x => String.eqb (f x) s && true) l = existsb (fun x => String.eqb (f x) s) l.
Proof. apply existsb_ext_in. intros. apply andb_true_r. Qed.

Lemma refers_tenant ts ks rs r t : field "tenant_id" r = VUuid t ->
  refers (database_of (map tenant_of ts) ks rs) [("tenant_id", "tenants")] r = existsb (fun x => (tn_id x =? t)%N) ts.
Proof.
  intros Hr. unfold refers. cbn -[conflicts map]. rewrite Hr, conflicts_tenants. cbn -[map existsb].
  by rewrite andb_true_r, has_tenant_rows.
Qed.

(** One INSERT into each table of the migrated database *)
Lemma insert_tenants ts ks rs t n :
  exec id now (sql_of (InsertTenant t n)) (database_of (map tenant_of ts) ks rs) =
    if existsb (fun x => (tn_id x =? t)%N) ts || existsb (fun x => String.eqb (tn_name x) n) ts then Err unique_violation
    else Ok (1, database_of (map tenant_of (ts ++ [{| tn_id := t; tn_name := n; tn_status := "active"; tn_created := now |}])) ks rs).
Proof.
  cbn [sql_of]. rewrite exec_insert_one.
  rewrite (insert_one _ _ _ _ (with_rows (map tenant_of ts) tenants_table)
             (tenant_of {| tn_id := t; tn_name := n; tn_status := "active"; tn_created := now |})) by reflexivity.
  cbn -[conflicts map]. rewrite !conflicts_tenants. cbn -[map existsb].
  rewrite orb_false_r, has_tenant_rows, same_text. destruct (_ || _); [done|]. by rewrite map_app.
Qed.

Lemma insert_keys ts ks rs t h p r : id ∉ (ak_id <$> ks) ->
  insert_row id now "api_keys" ["tenant_id"; "key_hash"; "key_prefix"; "status"; "role"] None
      [VUuid t; VText h; VText p; VText "active"; VText r] (database_of (map tenant_of ts) (map key_of ks) rs) =
    if negb (String.eqb r "admin" || String.eqb r "check") then Err check_violation
    else if existsb (fun k => String.eqb (ak_hash k) h) ks then Err unique_violation
    else if negb (existsb (fun x => (tn_id x =? t)%N) ts) then Err foreign_key_violation
    else Ok (1, database_of (map tenant_of ts)
      (map key_of (ks ++ [{| ak_id := id; ak_tenant := t; ak_hash := h; ak_prefix := p; ak_status := "active";
                             ak_role := r; ak_created := now |}])) rs).
Proof.
  intros Hf. set (k := {| ak_id := id; ak_tenant := t; ak_hash := h; ak_prefix := p; ak_status := "active"; ak_role := r; ak_created := now |}).
  rewrite (insert_one _ _ _ _ (with_rows (map key_of ks) keys_with_role) (key_of k)) by reflexivity.
  replace (row_violation _ (key_of k)) with
    (if negb (String.eqb r "admin" || String.eqb r "check") then Some check_violation else None)
    by (cbn; by rewrite !orb_false_r).
  destruct (String.eqb r "admin" || String.eqb r "check"); cbn [negb]; [|done].
  cbn [t_unique t_refs t_rows with_rows keys_with_role api_keys_table].
  rewrite (refers_tenant _ _ _ _ t) by done. cbn [existsb]. rewrite !conflicts_keys. cbn -[map existsb].
  rewrite (fresh_existsb ak_id id ks Hf), same_text, orb_false_r. cbn [orb].
  destruct (existsb _ ks); [done|]. destruct (existsb _ ts); [|done]. cbn [negb]. by rewrite map_app.
Qed.

Lemma int4_fits o : fits INT (nullable VInt o) = int4_ok o.
Proof. by destruct o. Qed.
Lemma numeric_fits o : fits NUMERIC_10_2 (nullable VNumeric o) = numeric_ok o.
Proof. by destruct o. Qed.

Lemma rule_row_violation r : row_violation (t_columns rules_table) (rule_of now r) =
  if negb (int4_ok (rl_limit r) && int4_ok (rl_window r) && int4_ok (rl_capacity r) && numeric_ok (rl_refill r)) then Some out_of_range
  else if negb (Algorithm_Valid (rl_algorithm r)) then Some check_violation else None.
Proof.
  unfold row_violation. cbn -[fits nullable]. rewrite !int4_fits, numeric_fits. cbn [fits].
  unfold Algorithm_Valid, AlgorithmTokenBucket, AlgorithmSlidingWindow. rewrite !orb_false_r.
  by destruct (int4_ok (rl_limit r)), (int4_ok (rl_window r)), (int4_ok (rl_capacity r)), (numeric_ok (rl_refill r)).
Qed.

Lemma insert_rules ts ks times rs t p a l w c f e : length times = length rs -> id ∉ (rl_id <$> rs) ->
  exec id now (sql_of (InsertRule t p a l w c f e)) (database_of (map tenant_of ts) ks (zip_with rule_of times rs)) =
    if negb (int4_ok l && int4_ok w && int4_ok c && numeric_ok f) then Err out_of_range
    else if negb (Algorithm_Valid a) then Err check_violation
    else if existsb (fun r => (rl_tenant r =? t)%N && String.eqb (rl_pattern r) p) rs then Err unique_violation
    else if negb (existsb (fun x => (tn_id x =? t)%N) ts) then Err foreign_key_violation
    else Ok (1, database_of (map tenant_of ts) ks
      (zip_with rule_of (times ++ [now]) (rs ++ [{| rl_id := id; rl_tenant := t; rl_pattern := p; rl_algorithm := a;
         rl_limit := l; rl_window := w; rl_capacity := c; rl_refill := f; rl_enabled := e |}]))).
Proof.
  intros Hl Hf. set (r := {| rl_id := id; rl_tenant := t; rl_pattern := p; rl_algorithm := a;
         rl_limit := l; rl_window := w; rl_capacity := c; rl_refill := f; rl_enabled := e |}).
  cbn [sql_of]. rewrite exec_insert_one.
  rewrite (insert_one _ _ _ _ (with_rows (zip_with rule_of times rs) rules_table) (rule_of now r)) by reflexivity.
  cbn [t_columns t_unique t_refs t_rows with_rows].
  change (t_columns (with_rows _ rules_table)) with (t_columns rules_table). rewrite rule_row_violation.
  cbn [rl_limit rl_window rl_capacity rl_refill rl_algorithm r].
  destruct (negb (int4_ok l && _ && _ && _)); [done|]. destruct (negb (Algorithm_Valid a)); [done|].
  rewrite (refers_tenant _ _ _ _ t) by done. cbn [existsb t_unique rules_table].
  rewrite !conflicts_rules by done. cbn -[zip_with existsb map].
  rewrite (fresh_existsb rl_id id rs Hf), orb_false_r. cbn [orb].
  rewrite (existsb_ext_in (fun x => (rl_tenant x =? t)%N && (String.eqb (rl_pattern x) p && true))
             (fun x => (rl_tenant x =? t)%N && String.eqb (rl_pattern x) p)) by (intros; by rewrite andb_true_r).
  destruct (existsb _ rs); [done|]. destruct (existsb _ ts); [|done]. cbn [negb]. by rewrite zip_with_app.
Qed.

Lemma key_row_violation k : row_violation (t_columns keys_with_role) (key_of k) =
  if negb (String.eqb (ak_status k) "active" || String.eqb (ak_status k) "revoked") ||
     negb (String.eqb (ak_role k) "admin" || String.eqb (ak_role k) "check") then Some check_violation else None.
Proof. unfold row_violation. cbn. by rewrite !orb_false_r. Qed.

Lemma update_keys ts ks rs k t : Forall (fun x => ak_role x = "admin" \/ ak_role x = "check") ks ->
  exec id now (sql_of (RevokeKey k t)) (database_of ts (map key_of ks) rs) =
    Ok (Z.of_nat (length (List.filter (is_key k t) ks)),
        database_of ts (map key_of (map (fun x => if is_key k t x then revoked_row x else x) ks)) rs).
Proof.
  intros Hroles. cbn [sql_of exec]. unfold update_rows.
  set (hit := meets [("id", VUuid k); ("tenant_id", VUuid t)]). set (change := changed [("status", VText "revoked")]).
  assert (Hhit : forall x, hit (key_of x) = is_key k t x) by (intros x; unfold hit, is_key; cbn; by rewrite andb_true_r).
  assert (Hchange : forall x, change (key_of x) = key_of (revoked_row x)) by done.
  cbn [assoc db_tables database_of]. change (String.eqb "tenants" "api_keys") with false. cbv iota.
  rewrite (String.eqb_refl "api_keys"). cbn [t_rows t_columns with_rows].
  replace (existsb _ _) with false.
  2:{ symmetry. induction Hroles as [|x ks Hx _ IH]; [done|]. cbn [map existsb]. rewrite IH, Hchange.
      rewrite bool_decide_eq_true_2; [by rewrite andb_false_r|].
      change (t_columns (with_rows _ keys_with_role)) with (t_columns keys_with_role). rewrite key_row_violation. cbn. by destruct Hx as [-> | ->]. }
  assert (Hcount : forall l, length (List.filter hit (map key_of l)) = length (List.filter (is_key k t) l)).
  { induction l as [|x l IH]; [done|]. cbn [map List.filter]. rewrite Hhit. by destruct (is_key k t x); cbn [length]; rewrite IH. }
  assert (Hrows : forall l, map (fun r => if hit r then change r else r) (map key_of l) =
                  map key_of (map (fun x => if is_key k t x then revoked_row x else x) l)).
  { induction l as [|x l IH]; [done|]. cbn [map]. rewrite Hhit, IH. by destruct (is_key k t x). }
  rewrite Hcount. do 2 f_equal. unfold set_tables, database_of, update. cbn -[map]. by rewrite <- Hrows.
Qed.

End Refinement.

(** ** Properties *)

(** C29: the tables are those of the migrations.  On the database that the
    scripts of [migrations/] make, with its columns, defaults, CHECK, UNIQUE
    and foreign key constraints, every statement of the repositories does what
    [Database.effect] says: the same number of rows or the same SQLSTATE, and
    the rows of the same tables. *)
Theorem effect_implements_schema id now s d c : represents d c -> db_ok d -> fresh_id id d ->
  match effect id now s d with
  | Ok (n, d') => exists c', exec id now (sql_of s) c = Ok (n, c') /\ represents d' c'
  | Err e => exec id now (sql_of s) c = Err e
  end.
Proof.
  intros (times & Hl & ->) Hok [Hk Hr].
  assert (Hkeep : forall ts ks, exists times', length times' = length (rules d) /\
    database_of (map tenant_of ts) (map key_of ks) (zip_with rule_of times (rules d)) =
    database_of (map tenant_of ts) (map key_of ks) (zip_with rule_of times' (rules d))) by (intros; by exists times).
  assert (Hkey : forall t h p r,
    match insert_key id now t h p r d with
    | Ok (n, d') => exists c', insert_row id now "api_keys" ["tenant_id"; "key_hash"; "key_prefix"; "status"; "role"] None
        [VUuid t; VText h; VText p; VText "active"; VText r]
        (database_of (map tenant_of (tenants d)) (map key_of (api_keys d)) (zip_with rule_of times (rules d))) = Ok (n, c') /\ represents d' c'
    | Err e => insert_row id now "api_keys" ["tenant_id"; "key_hash"; "key_prefix"; "status"; "role"] None
        [VUuid t; VText h; VText p; VText "active"; VText r]
        (database_of (map tenant_of (tenants d)) (map key_of (api_keys d)) (zip_with rule_of times (rules d))) = Err e
    end).
  { intros t h p r. rewrite insert_keys by done. unfold insert_key, hash_taken, has_tenant.
    destruct (negb _); [done|]. destruct (existsb _ (api_keys d)); [done|]. destruct (negb _); [done|].
    eexists. split; [done|]. apply Hkeep. }
  destruct s as [t n|t h p r|t h p r|t p a l w c f e|k t]; cbn [effect].
  - rewrite insert_tenants. unfold has_tenant, name_taken. destruct (_ || _); [done|]. eexists. split; [done|]. apply Hkeep.
  - cbn [sql_of]. rewrite exec_insert_one. apply Hkey.
  - cbn [sql_of exec]. cbn -[conflicts map insert_row]. rewrite conflicts_tenants. cbn -[map existsb insert_row].
    rewrite has_tenant_rows. unfold has_tenant at 1. destruct (existsb _ (tenants d)); [apply Hkey|].
    eexists. split; [done|]. apply Hkeep.
  - rewrite insert_rules by done. unfold pattern_taken, has_tenant.
    destruct (negb _); [done|]. destruct (negb _); [done|]. destruct (existsb _ (rules d)); [done|]. destruct (negb _); [done|].
    eexists. split; [done|]. exists (times ++ [now]). split; [cbn; rewrite !length_app; simpl; lia|done].
  - rewrite update_keys; [|eapply Forall_impl; [exact (ok_key_values _ Hok)|by intros x []]].
    eexists. split; [done|]. apply Hkeep.
Qed.
