(* ===== verification/Migrations.v ===== *)
(** What the migration scripts do together: the database they make, that the
    down scripts undo the up scripts (but for the extension pgcrypto, which
    none of them drops), and the seeds. *)

From stdpp Require Import base strings list.
From Stdlib Require Import ZArith NArith Lia.
From S2P Require Import Prelude Float64 GoStrings Sha256 Domain Uuid RuleResolver Ports AuthService Database Postgres.
From S2P Require Import Os Migrate Sql Schema.

Local Open Scope Z_scope.

Definition no_database : database := {| db_extensions := []; db_tables := []; db_indexes := [] |}.

(** ** The seeded rows *)

Definition seeded_rule (id tenant : uuid) (pattern : string) (limit window : Z) : rule_row :=
  {| rl_id := id; rl_tenant := tenant; rl_pattern := pattern; rl_algorithm := AlgorithmSlidingWindow;
     rl_limit := Some limit; rl_window := Some window; rl_capacity := None; rl_refill := None; rl_enabled := true |}.

(** The rows of 002, and those of the development seed after them *)
Definition admitdesk_db (now : Z) : db := {|
  tenants := [{| tn_id := admitdesk; tn_name := "admitdesk"; tn_status := "active"; tn_created := now |}];
  api_keys := [{| ak_id := 0x8a1f1c627b5e4d0a9d1e0c2a5f3b6d12%N; ak_tenant := admitdesk;
                  ak_hash := "cf3186cdc08eee7c8c16b40d70c34d330941a861c9a64e8afa2870d607cd22bb";
                  ak_prefix := "rl_admitdesk_"; ak_status := "active"; ak_role := "check"; ak_created := now |}];
  rules := [seeded_rule 0x8a1f1c627b5e4d0a9d1e0c2a5f3b6d21%N admitdesk "/admitdesk/intake/*" 5 600;
            seeded_rule 0x8a1f1c627b5e4d0a9d1e0c2a5f3b6d22%N admitdesk "/admitdesk/signup/*" 3 3600;
            seeded_rule 0x8a1f1c627b5e4d0a9d1e0c2a5f3b6d23%N admitdesk "/admitdesk/login/*" 10 900] |}.

Definition demo_db (now : Z) : db := {|
  tenants := tenants (admitdesk_db now) ++
    [{| tn_id := demo_corp; tn_name := "demo-corp"; tn_status := "active"; tn_created := now |}];
  api_keys := api_keys (admitdesk_db now) ++
    [{| ak_id := 0x660e8400e29b41d4a716446655440000%N; ak_tenant := demo_corp;
        ak_hash := "b16ce1a03569f675496aefeafa235813dd7854f058d32f30793064a09b17fcb3";
        ak_prefix := "rl_demo_"; ak_status := "active"; ak_role := "check"; ak_created := now |}];
  rules := rules (admitdesk_db now) ++
    [seeded_rule 0x770e8400e29b41d4a716446655440001%N demo_corp "/v1/check" 100 60;
     {| rl_id := 0x770e8400e29b41d4a716446655440002%N; rl_tenant := demo_corp; rl_pattern := "/api/payments*";
        rl_algorithm := AlgorithmTokenBucket; rl_limit := None; rl_window := None; rl_capacity := Some 10;
        rl_refill := Some 200; rl_enabled := true |};
     seeded_rule 0x770e8400e29b41d4a716446655440003%N demo_corp "/api/orders*" 50 60;
     seeded_rule 0x770e8400e29b41d4a716446655440004%N demo_corp "*" 1000 3600;
     seeded_rule 0x770e8400e29b41d4a716446655440005%N demo_corp "/bench" 1000000 60] |}.

(** ** Up *)

Lemma up_from_nothing id now :
  run_script id now (init_up ++ admitdesk_up ++ roles_up) no_database =
    Ok (database_of (map tenant_of (tenants (admitdesk_db now))) (map key_of (api_keys (admitdesk_db now)))
          (map (rule_of now) (rules (admitdesk_db now)))).
Proof. vm_compute. reflexivity. Qed.

Lemma seed_after_up id now :
  run_script id now (init_up ++ admitdesk_up ++ roles_up ++ dev_seed) no_database =
    Ok (database_of (map tenant_of (tenants (demo_db now))) (map key_of (api_keys (demo_db now)))
          (map (rule_of now) (rules (demo_db now)))).
Proof. vm_compute. reflexivity. Qed.

(** ** Scripts that only create *)

Definition creates (s : sql) : bool :=
  match s with CreateExtension _ | CreateTable _ _ | CreateIndex _ _ | AddColumn _ _ => true | _ => false end.

(** What the statement would create is there. *)
Definition created (s : sql) (d : database) : Prop :=
  match s with
  | CreateExtension n => existsb (String.eqb n) (db_extensions d) = true
  | CreateTable n _ => has n (db_tables d) = true
  | CreateIndex n _ => has n (db_indexes d) = true
  | AddColumn n c => exists t, assoc n (db_tables d) = Some t /\
      existsb (fun c' => String.eqb (c_name c') (c_name c)) (t_columns t) = true
  | _ => True
  end.

Lemma has_update {A} n m (f : A -> A) l : has n (update m f l) = has n l.
Proof.
  unfold has, update. induction l as [|[k a] l IH]; simpl; [done|]. rewrite IH. by destruct (String.eqb k m).
Qed.

Lemma assoc_update {A} n m (f : A -> A) l :
  assoc n (update m f l) = if String.eqb m n then f <$> assoc n l else assoc n l.
Proof.
  unfold update. induction l as [|[k a] l IH]; simpl; [by destruct (String.eqb m n)|].
  destruct (String.eqb_spec k m) as [->|Hkm]; simpl; rewrite IH.
  - by destruct (String.eqb_spec m n).
  - destruct (String.eqb_spec k n) as [->|]; [|done]. destruct (String.eqb_spec m n); [congruence|done].
Qed.

Lemma assoc_app_l {A} n (l1 l2 : list (string * A)) a : assoc n l1 = Some a -> assoc n (l1 ++ l2) = Some a.
Proof. induction l1 as [|[m b] l IH]; simpl; [done|]. by destruct (String.eqb m n). Qed.

Section Up.
Variables (id : uuid) (now : Z).

(** Created things stay, and creating them again does nothing. *)
Lemma created_noop s d : creates s = true -> created s d -> exec id now s d = Ok (0, d).
Proof.
  destruct s; try done; cbn [created exec]; intros _.
  - unfold create_extension. by intros ->.
  - by intros ->.
  - by intros ->.
  - intros (t' & Ht & Hc). unfold add_column. by rewrite Ht, Hc.
Qed.

Lemma creates_step s d n d' : creates s = true -> exec id now s d = Ok (n, d') ->
  created s d' /\ forall s0, created s0 d -> created s0 d'.
Proof.
  destruct s as [e|m t|m ix|m c| | | | | | |]; try done; intros _; cbn [exec].
  - intros [= _ <-]. unfold create_extension. destruct (existsb _ (db_extensions d)) eqn:He; [done|]. split.
    + cbn [created db_extensions]. rewrite existsb_app. simpl. by rewrite String.eqb_refl, orb_true_r.
    + intros [k| | | | | | | | | |]; cbn [created db_extensions db_tables db_indexes]; try done.
      intros Hk. by rewrite existsb_app, Hk.
  - destruct (has m (db_tables d)) eqn:Hm; intros [= _ <-]; [done|]. split.
    + cbn [created db_tables db_indexes set_tables set_indexes]. rewrite has_app. simpl. by rewrite String.eqb_refl, orb_true_r.
    + intros [| k t0|k ix|k c| | | | | | |]; cbn [created db_tables db_indexes set_tables set_indexes]; try done.
      * intros Hk. by rewrite has_app, Hk.
      * intros (t0 & Ht & Hc). exists t0. split; [by apply assoc_app_l|done].
  - destruct (has m (db_indexes d)) eqn:Hm; [by intros [= _ <-]|].
    destruct (assoc _ _) as [t|]; [|done]. destruct (forallb _ _); [|done]. intros [= _ <-]. split.
    + cbn [created db_tables db_indexes set_tables set_indexes]. rewrite has_app. simpl. by rewrite String.eqb_refl, orb_true_r.
    + intros [| k t0|k ix0|k c| | | | | | |]; cbn [created db_tables db_indexes set_tables set_indexes]; try done. intros Hk. by rewrite has_app, Hk.
  - unfold add_column. destruct (assoc m (db_tables d)) as [t|] eqn:Hm; [|done].
    destruct (existsb _ (t_columns t)) eqn:Hc; [intros [= _ <-]; split; [by exists t|done]|].
    set (t' := with_column _ _ c t). intros Hd.
    assert (d' = set_tables (update m (fun _ => t') (db_tables d)) d) as ->
      by (destruct (t_rows t); [|destruct (row_violation _ _); [done|]]; by injection Hd as _ <-).
    clear Hd. split.
    + exists t'. cbn [db_tables set_tables]. rewrite assoc_update, String.eqb_refl, Hm. split; [done|].
      cbn [t_columns t' with_column]. rewrite existsb_app. simpl. by rewrite String.eqb_refl, orb_true_r.
    + intros [| k t0|k ix0|k c0| | | | | | |]; cbn [created db_tables db_indexes set_tables set_indexes]; try done.
      * by rewrite has_update.
      * intros (t0 & Ht & Hc0). rewrite assoc_update. destruct (String.eqb_spec m k) as [<-|]; [|eauto].
        rewrite Ht. exists t'. split; [done|]. rewrite Hm in Ht. injection Ht as <-.
        cbn [t_columns t' with_column]. by rewrite existsb_app, Hc0.
Qed.

(** A script of CREATE IF NOT EXISTS may run again. *)
Lemma create_again l d d' : forallb creates l = true -> run_script id now l d = Ok d' -> run_script id now l d' = Ok d'.
Proof.
  intros Hl Hrun. enough (Hc : Forall (fun s => created s d') l).
  { clear Hrun. induction Hc as [|s l Hs _ IH]; [done|]. apply andb_prop in Hl as [Hs' Hl]. cbn [run_script].
    rewrite created_noop by done. by apply IH. }
  assert (Hkeep : forall l d, forallb creates l = true -> run_script id now l d = Ok d' -> forall s0, created s0 d -> created s0 d').
  { clear. intros l. induction l as [|s l IH]; cbn [forallb run_script]; intros d Hl; [by intros [= <-]|].
    apply andb_prop in Hl as [Hs Hl]. destruct (exec id now s d) as [[n d1]|] eqn:He; [|done]. intros Hrun s0 H0.
    eapply IH; [done|exact Hrun|]. by apply (proj2 (creates_step _ _ _ _ Hs He)). }
  revert d Hrun. induction l as [|s l IH]; cbn [forallb run_script] in *; intros d Hrun; [constructor|].
  apply andb_prop in Hl as [Hs Hl]. destruct (exec id now s d) as [[n d1]|] eqn:He; [|done].
  constructor; [|by eapply IH]. eapply Hkeep; [exact Hl|exact Hrun|]. apply (proj1 (creates_step _ _ _ _ Hs He)).
Qed.

End Up.

(** ** Up and down *)

Lemma filter_everything {A} (f : A -> bool) l : Forall (fun x => f x = true) l -> List.filter f l = l.
Proof. induction 1 as [|x l Hx _ IH]; [done|]. simpl. by rewrite Hx, IH. Qed.

(** The database has nothing of the name: no table, no index on one, no
    reference to one. *)
Record unknown (n : string) (d : database) : Prop := {
  un_table : has n (db_tables d) = false;
  un_index : Forall (fun p => String.eqb (ix_table (snd p)) n = false) (db_indexes d);
  un_ref : Forall (fun p => existsb (fun q => String.eqb (snd q) n) (t_refs (snd p)) = false) (db_tables d)
}.

(** A table that was made last, with its indexes, and that no other refers to *)
Lemma drop_last id now n t es ts ixs jxs :
  unknown n {| db_extensions := es; db_tables := ts; db_indexes := ixs |} -> forallb (fun p => String.eqb (ix_table (snd p)) n) jxs = true ->
  exec id now (DropTable n) {| db_extensions := es; db_tables := ts ++ [(n, t)]; db_indexes := ixs ++ jxs |} =
    Ok (0, {| db_extensions := es; db_tables := ts; db_indexes := ixs |}).
Proof.
  intros [Ht Hi Hr] Hj. cbn [exec db_extensions db_tables db_indexes] in *. unfold drop_table. cbn [db_extensions db_tables db_indexes].
  rewrite has_app. simpl (has n [_]). rewrite String.eqb_refl, orb_true_r. cbn [negb].
  rewrite existsb_app. simpl (existsb _ [(n, t)]). rewrite String.eqb_refl. cbn [negb andb orb].
  replace (existsb _ ts) with false.
  2:{ symmetry. induction Hr as [|p ts' Hp _ IH]; [done|]. simpl. rewrite Hp, andb_false_r. apply IH. simpl in Ht. by apply orb_false_iff in Ht as [_ ?]. }
  cbn [orb]. rewrite without_app, without_id by done. unfold without. simpl (List.filter _ [_]). rewrite String.eqb_refl.
  cbn [negb]. rewrite app_nil_r, List.filter_app. do 3 f_equal.
  rewrite (filter_everything _ ixs) by (eapply Forall_impl; [exact Hi|]; intros p Hp; cbv beta in *; by rewrite Hp).
  replace (List.filter _ jxs) with (@nil (string * index)); [by rewrite app_nil_r|].
  clear -Hj. induction jxs as [|p jxs IH]; [done|]. simpl in *. apply andb_prop in Hj as [-> Hj]. by apply IH.
Qed.

Lemma unknown_more n d m t es ixs : unknown n d -> m <> n -> existsb (fun q => String.eqb (snd q) n) (t_refs t) = false ->
  Forall (fun p => String.eqb (ix_table (snd p)) n = false) ixs ->
  unknown n {| db_extensions := es; db_tables := db_tables d ++ [(m, t)]; db_indexes := db_indexes d ++ ixs |}.
Proof.
  intros [Ht Hi Hr] Hm Href His. constructor; cbn [db_tables db_indexes].
  - rewrite has_app, Ht. simpl. by rewrite (proj2 (String.eqb_neq _ _) Hm).
  - by apply Forall_app_2.
  - apply Forall_app_2; [done|]. by apply Forall_singleton.
Qed.

Lemma create_table id now n t d : has n (db_tables d) = false ->
  exec id now (CreateTable n t) d =
    Ok (0, {| db_extensions := db_extensions d; db_tables := db_tables d ++ [(n, t)]; db_indexes := db_indexes d |}).
Proof. intros Hn. cbn [exec]. by rewrite Hn. Qed.

(** An index on the table that was made last *)
Lemma create_index id now n ix t es ts ixs : has n ixs = false -> has (ix_table ix) ts = false ->
  forallb (fun c => existsb (fun c' => String.eqb (c_name c') c) (t_columns t)) (ix_columns ix) = true ->
  exec id now (CreateIndex n ix) {| db_extensions := es; db_tables := ts ++ [(ix_table ix, t)]; db_indexes := ixs |} =
    Ok (0, {| db_extensions := es; db_tables := ts ++ [(ix_table ix, t)]; db_indexes := ixs ++ [(n, ix)] |}).
Proof.
  intros Hn Ht Hc. cbn [exec db_tables db_indexes]. rewrite Hn, assoc_app_r by done. cbn [assoc].
  by rewrite String.eqb_refl, Hc.
Qed.

(** An extension changes no table and no index. *)
Lemma create_extension_same n d :
  db_tables (create_extension n d) = db_tables d /\ db_indexes (create_extension n d) = db_indexes d.
Proof. unfold create_extension. by destruct (existsb _ _). Qed.

Lemma init_down_up id now d0 : unknown "tenants" d0 -> unknown "api_keys" d0 -> unknown "rules" d0 ->
  has "idx_api_keys_tenant" (db_indexes d0) = false -> has "idx_rules_tenant_enabled" (db_indexes d0) = false ->
  run_script id now (init_up ++ init_down) d0 = Ok (create_extension "pgcrypto" d0).
Proof.
  intros Ht Hk Hr Hi1 Hi2. destruct (create_extension_same "pgcrypto" d0) as [Et Ei]. set (d := create_extension "pgcrypto" d0) in *.
  rewrite <- Ei in Hi1, Hi2.
  assert (Hun : forall n, unknown n d0 -> unknown n d) by (intros n [H1 H2 H3]; constructor; congruence).
  apply Hun in Ht, Hk, Hr. clear Hun.
  set (i1 := ("idx_api_keys_tenant", {| ix_table := "api_keys"; ix_columns := ["tenant_id"]; ix_where := None |})).
  set (i2 := ("idx_rules_tenant_enabled", {| ix_table := "rules"; ix_columns := ["tenant_id"]; ix_where := Some ("enabled", VBool true) |})).
  set (es := db_extensions d).
  set (d1 := {| db_extensions := es; db_tables := db_tables d ++ [("tenants", tenants_table)]; db_indexes := db_indexes d |}).
  set (d2 := {| db_extensions := es; db_tables := db_tables d1 ++ [("api_keys", api_keys_table)]; db_indexes := db_indexes d1 ++ [i1] |}).
  set (d3 := {| db_extensions := es; db_tables := db_tables d2 ++ [("rules", rules_table)]; db_indexes := db_indexes d2 ++ [i2] |}).
  assert (Hk1 : unknown "api_keys" d1).
  { pose proof (unknown_more "api_keys" d "tenants" tenants_table es [] Hk) as Hu. rewrite app_nil_r in Hu. by apply Hu. }
  assert (Hr2 : unknown "rules" d2).
  { apply (unknown_more "rules" d1 "api_keys" api_keys_table es [i1]); [|done|done|by repeat constructor].
    pose proof (unknown_more "rules" d "tenants" tenants_table es [] Hr) as Hu. rewrite app_nil_r in Hu. by apply Hu. }
  assert (Hup : run_script id now init_up d0 = Ok d3).
  { unfold init_up. cbn [run_script]. change (exec id now (CreateExtension "pgcrypto") d0) with (Ok (0, d) : result string (Z * database)).
    cbv iota. rewrite create_table by apply Ht. cbv iota. fold es d1. rewrite create_table by apply Hk1. cbv iota.
    rewrite (create_index id now _ {| ix_table := "api_keys"; ix_columns := ["tenant_id"]; ix_where := None |} api_keys_table)
      by first [done|apply Hk1]. cbv iota. fold i1.
    change {| db_extensions := _; db_tables := db_tables d1 ++ _; db_indexes := _ |} with d2.
    rewrite create_table by apply Hr2. cbv iota.
    rewrite (create_index id now _ {| ix_table := "rules"; ix_columns := ["tenant_id"]; ix_where := Some ("enabled", VBool true) |} rules_table);
      [done| |apply Hr2|done].
    change (db_indexes d2) with (db_indexes d ++ [i1]). by rewrite has_app, Hi2. }
  rewrite run_script_app, Hup. unfold init_down. cbn [run_script]. unfold d3.
  rewrite (drop_last id now "rules" rules_table es (db_tables d2) (db_indexes d2) [i2]) by done. cbv iota.
  change {| db_extensions := es; db_tables := db_tables d2; db_indexes := db_indexes d2 |}
    with {| db_extensions := es; db_tables := db_tables d1 ++ [("api_keys", api_keys_table)]; db_indexes := db_indexes d1 ++ [i1] |}.
  rewrite (drop_last id now "api_keys" api_keys_table es (db_tables d1) (db_indexes d1) [i1]) by done. cbv iota.
  change {| db_extensions := es; db_tables := db_tables d1; db_indexes := db_indexes d1 |}
    with {| db_extensions := es; db_tables := db_tables d ++ [("tenants", tenants_table)]; db_indexes := db_indexes d |}.
  pose proof (drop_last id now "tenants" tenants_table es (db_tables d) (db_indexes d) []) as Hd. rewrite app_nil_r in Hd.
  rewrite Hd by (subst es; by destruct d). subst es. by destruct d.
Qed.

(** A table that does not know the column *)
Record lacks (c : string) (t : table) : Prop := {
  la_columns : Forall (fun c' => String.eqb (c_name c') c = false) (t_columns t);
  la_unique : Forall (fun cols => existsb (String.eqb c) cols = false) (t_unique t);
  la_refs : has c (t_refs t) = false;
  la_rows : Forall (fun r => has c r = false) (t_rows t)
}.

Lemma without_with_column id now c t : lacks (c_name c) t -> without_column (c_name c) (with_column id now c t) = t.
Proof.
  intros [Hc Hu Hr Hrows]. destruct t as [cols us refs rs]. unfold without_column, with_column. cbn [t_columns t_unique t_refs t_rows] in *.
  rewrite List.filter_app. simpl (List.filter _ [c]). rewrite String.eqb_refl. cbn [negb]. rewrite app_nil_r, without_id by done.
  rewrite !filter_everything by (eapply Forall_impl; [eassumption|]; intros x Hx; cbv beta in *; by rewrite Hx). f_equal.
  clear -Hrows. induction Hrows as [|r rs Hr _ IH]; [done|]. cbn [map]. rewrite IH, without_app, without_id by done.
  unfold without. simpl. rewrite String.eqb_refl. by rewrite app_nil_r.
Qed.

Lemma update_back {A} n (a b : A) l : NoDup (map fst l) -> assoc n l = Some a ->
  update n (fun _ => a) (update n (fun _ => b) l) = l.
Proof.
  unfold update. induction l as [|[m x] l IH]; simpl; [done|]. intros [Hm Hl]%NoDup_cons.
  destruct (String.eqb_spec m n) as [->|Hne]; simpl.
  - intros [= ->]. rewrite String.eqb_refl. f_equal. clear -Hm. induction l as [|[k y] l IH]; [done|]. simpl in *.
    apply not_elem_of_cons in Hm as [Hk Hm]. rewrite (proj2 (String.eqb_neq k n)) by congruence. simpl.
    rewrite (proj2 (String.eqb_neq k n)) by congruence. by rewrite IH.
  - intros Ha. rewrite (proj2 (String.eqb_neq m n)) by done. by rewrite IH.
Qed.

Lemma roles_down_up id now d t : assoc "api_keys" (db_tables d) = Some t -> NoDup (map fst (db_tables d)) -> lacks "role" t ->
  existsb (fun c => String.eqb (c_name c) "tenant_id") (t_columns t) = true ->
  has "idx_api_keys_tenant_role" (db_indexes d) = false ->
  Forall (fun p => String.eqb (ix_table (snd p)) "api_keys" && existsb (String.eqb "role") (ix_columns (snd p)) = false) (db_indexes d) ->
  run_script id now (roles_up ++ roles_down) d = Ok d.
Proof.
  intros Ht Hnd Hl Htc Hi Hix. pose proof (la_columns _ _ Hl) as Hcols.
  set (ix := {| ix_table := "api_keys"; ix_columns := ["tenant_id"; "role"]; ix_where := None |}).
  set (t' := with_column id now role_column t).
  set (d1 := set_tables (update "api_keys" (fun _ => t') (db_tables d)) d).
  set (d2 := set_indexes (db_indexes d ++ [("idx_api_keys_tenant_role", ix)]) d1).
  assert (Ha : assoc "api_keys" (db_tables d1) = Some t').
  { unfold d1. cbn [db_tables set_tables]. by rewrite assoc_update, String.eqb_refl, Ht. }
  assert (E1 : exec id now (AddColumn "api_keys" role_column) d = Ok (0, d1)).
  { cbn [exec]. unfold add_column. rewrite Ht. cbn [c_name role_column].
    replace (existsb _ (t_columns t)) with false.
    2:{ symmetry. clear -Hcols. induction Hcols as [|c cols Hc _ IH]; [done|]. simpl. by rewrite Hc. }
    by destruct (t_rows t). }
  assert (E2 : exec id now (CreateIndex "idx_api_keys_tenant_role" ix) d1 = Ok (0, d2)).
  { cbn [exec]. change (db_indexes d1) with (db_indexes d). rewrite Hi. cbn [ix_table ix]. rewrite Ha.
    cbn [ix_columns ix forallb]. cbn [t_columns t' with_column]. rewrite !existsb_app, Htc. cbn [orb existsb].
    change (String.eqb (c_name role_column) "role") with true. rewrite orb_true_r. done. }
  assert (E3 : exec id now (DropIndex "idx_api_keys_tenant_role") d2 = Ok (0, d1)).
  { cbn [exec]. unfold d2. cbn [db_indexes set_indexes db_tables]. rewrite without_app, without_id by done. cbn.
    unfold set_indexes. cbn [db_tables]. rewrite app_nil_r. done. }
  assert (E4 : exec id now (DropColumn "api_keys" "role") d1 = Ok (0, d)).
  { cbn [exec]. unfold drop_column. rewrite Ha. unfold t'. change "role" with (c_name role_column). rewrite without_with_column by done.
    unfold d1. cbn [db_tables db_indexes set_tables]. rewrite update_back by done.
    rewrite filter_everything; [by destruct d|]. eapply Forall_impl; [exact Hix|]. intros p Hp. cbv beta in *. exact (f_equal negb Hp). }
  change roles_up with [AddColumn "api_keys" role_column; CreateIndex "idx_api_keys_tenant_role" ix]. unfold roles_down. cbn [app run_script]. by rewrite E1, E2, E3, E4.
Qed.

(** ** The runner on these scripts *)

Section Runner.
Context {W : Type} `{!MigrationServer W database} `{!Files} `{!StdLog W}.

(** The files of [migrations/] *)
Definition up_files : list (string * list sql) :=
  [("migrations/001_init.up.sql", init_up); ("migrations/002_admitdesk_tenant.up.sql", admitdesk_up);
   ("migrations/003_api_key_roles.up.sql", roles_up)].

(** The server runs the scripts as the statements say. *)
Definition runs_scripts : Prop := forall file script sql s s',
  In (file, script) up_files -> ReadFile file = Ok sql -> runs sql s s' ->
  exists id now, run_script id now script s = Ok s'.

Lemma up_files_sorted files : files ≡ₚ map fst up_files -> sort_Strings files = map fst up_files.
Proof.
  intros Hp. symmetry in Hp. apply permutations_Permutation in Hp. revert Hp. cbn -[String.eqb].
  rewrite !elem_of_cons, elem_of_nil. intros Hp. repeat destruct Hp as [->|Hp]; by vm_compute.
Qed.

Lemma versions_distinct files : files ≡ₚ map fst up_files -> NoDup (version_of <$> files).
Proof. intros ->. apply (bool_decide_unpack _). by vm_compute. Qed.


(** The database after some of the scripts *)
Definition ran_from (now : Z) (l : list sql) (d : database) : database :=
  match run_script 0%N now l d with Ok d' => d' | Err _ => d end.

Lemma scripts_result i1 n1 i2 n2 i3 n3 s1 s2 s3 : run_script i1 n1 init_up no_database = Ok s1 ->
  run_script i2 n2 admitdesk_up s1 = Ok s2 -> run_script i3 n3 roles_up s2 = Ok s3 ->
  s3 = database_of (map tenant_of (tenants (admitdesk_db n2))) (map key_of (api_keys (admitdesk_db n2)))
         (map (rule_of n2) (rules (admitdesk_db n2))).
Proof.
  intros R1 R2 R3. assert (s1 = ran_from 0 init_up no_database) as ->.
  { apply (inj (@Ok string database)). rewrite <- R1. vm_compute. reflexivity. }
  assert (s2 = ran_from n2 admitdesk_up (ran_from 0 init_up no_database)) as ->.
  { apply (inj (@Ok string database)). rewrite <- R2. vm_compute. reflexivity. }
  apply (inj (@Ok string database)). rewrite <- R3. vm_compute. reflexivity.
Qed.

End Runner.

Lemma admitdesk_db_ok now : db_ok (admitdesk_db now).
Proof. constructor; first [apply (bool_decide_unpack _); by vm_compute|cbn; repeat constructor; by auto]. Qed.

(** ** Properties *)

Section Properties.
Context {W : Type} `{!MigrationServer W database} `{!Files} `{!StdLog W}.

(** C30: a run of the migrations on an empty server, without SEED=dev, that ends
    well has made the database that the repositories work on: the tables of [Schema.database_of] with exactly the
    tenant, the key and the rules of the seed 002, all constraints kept, and the
    three versions recorded in order.  (The directory has the three up scripts,
    and the server runs them as their statements say.) *)
Theorem migrate_builds_schema getenv files w w' :
  (forall line (w : W), mg_committed (log_Printf line w) = mg_committed w) -> runs_scripts ->
  Glob (Join [env_or getenv "MIGRATIONS_DIR" "migrations"; "*.up.sql"]) = Ok files -> files ≡ₚ map fst up_files ->
  getenv "SEED" <> "dev" -> mg_committed w = {| tracked := None; schema := no_database |} ->
  migrate_main getenv w = (Ok tt, w') ->
  exists now, represents (admitdesk_db now) (schema (mg_committed w')) /\ db_ok (admitdesk_db now) /\
    tracked (mg_committed w') = Some ["001_init"; "002_admitdesk_tenant"; "003_api_key_roles"].
Proof.
  intros Hlog Hruns Hg Hfiles Hseed Hw Hmain.
  pose proof (migrate_main_ok Hlog getenv files w Hg (versions_distinct files Hfiles) Hseed) as Hm. cbn zeta in Hm.
  rewrite Hmain, Hw, (up_files_sorted files Hfiles) in Hm.
  destruct Hm as [[? _]|(l & later & Hp & Hm & Hl)]; [done|]. rewrite (Hl eq_refl), app_nil_r in Hp. subst l. clear Hl.
  change (pending _ _) with (map fst up_files) in Hm.
  assert (Hstep : forall file script files d d', In (file, script) up_files -> migrated (file :: files) d d' ->
    exists l s i n, tracked d = Some l /\ run_script i n script (schema d) = Ok s /\
      migrated files {| tracked := Some (l ++ [version_of file]); schema := s |} d').
  { intros file script fs d d' Hin Hm'. inversion Hm' as [|? sql ? ? l s ? Hread Htr Hnew Hrun Hrest]; subst.
    destruct (Hruns _ _ _ _ _ Hin Hread Hrun) as (i & n & Hscript). by exists l, s, i, n. }
  apply (Hstep _ init_up) in Hm as (l1 & s1 & i1 & n1 & [= <-] & R1 & Hm); [|by left].
  apply (Hstep _ admitdesk_up) in Hm as (l2 & s2 & i2 & n2 & [= <-] & R2 & Hm); [|by right; left].
  apply (Hstep _ roles_up) in Hm as (l3 & s3 & i3 & n3 & [= <-] & R3 & Hm); [|by right; right; left].
  inversion Hm as [d E1 E2|]; subst. exists n2. split; [|split; [apply admitdesk_db_ok|reflexivity]].
  exists [n2; n2; n2]. split; [done|]. by apply (scripts_result _ _ _ _ _ _ _ _ _ R1 R2 R3).
Qed.


(** The scripts that create may run again: a second run of 001 or 003 changes
    nothing. *)
Theorem schema_scripts_again id now d d' :
  (run_script id now init_up d = Ok d' -> run_script id now init_up d' = Ok d') /\
  (run_script id now roles_up d = Ok d' -> run_script id now roles_up d' = Ok d').
Proof. split; by apply create_again. Qed.

(** The seed 002 fails where its tenant's name is in use.  When a project named
    admitdesk exists under another id, ON CONFLICT (name) DO NOTHING leaves the
    seed's tenant out and the key that follows refers to nothing: the script
    ends with a foreign key violation, and with it the run of the migrations. *)
Theorem seed_name_conflict id now ts ks rs :
  existsb (fun x => String.eqb (tn_name x) "admitdesk") ts = true -> existsb (fun x => (tn_id x =? admitdesk)%N) ts = false ->
  existsb (fun k => String.eqb (ak_hash k) "cf3186cdc08eee7c8c16b40d70c34d330941a861c9a64e8afa2870d607cd22bb") ks = false ->
  existsb (fun k => (ak_id k =? 0x8a1f1c627b5e4d0a9d1e0c2a5f3b6d12)%N) ks = false ->
  run_script id now admitdesk_up (database_of (map tenant_of ts) (map key_of ks) rs) = Err foreign_key_violation.
Proof.
  intros Hname Hid Hhash Hkey. set (d := database_of _ _ rs).
  assert (E1 : exec id now (Insert "tenants" tenant_columns [[VUuid admitdesk; VText "admitdesk"; VText "active"]] (Some ["name"])) d
               = Ok (0, d)).
  { cbn [exec insert_rows]. rewrite (insert_at _ _ _ _ _ _ _ (with_rows (map tenant_of ts) tenants_table)
      (tenant_of {| tn_id := admitdesk; tn_name := "admitdesk"; tn_status := "active"; tn_created := now |})) by reflexivity.
    cbn -[conflicts map]. rewrite conflicts_tenants. cbn -[map existsb]. by rewrite same_text, Hname. }
  unfold admitdesk_up. cbn [run_script]. rewrite E1. clear E1. subst d. cbn [exec insert_rows].
  set (k := {| ak_id := 0x8a1f1c627b5e4d0a9d1e0c2a5f3b6d12%N; ak_tenant := admitdesk;
    ak_hash := "cf3186cdc08eee7c8c16b40d70c34d330941a861c9a64e8afa2870d607cd22bb"; ak_prefix := "rl_admitdesk_";
    ak_status := "active"; ak_role := "check"; ak_created := now |}).
  rewrite (insert_at _ _ _ _ _ _ _ (with_rows (map key_of ks) keys_with_role) (key_of k)) by reflexivity.
  change (row_violation _ (key_of k)) with (None : option string). cbn [t_unique t_refs t_rows with_rows keys_with_role api_keys_table].
  rewrite (refers_tenant _ _ _ _ admitdesk), Hid by done. cbn [existsb]. rewrite !conflicts_keys. cbn -[map existsb].
  rewrite same_text, Hhash. cbv iota.
  rewrite (existsb_ext_in (fun x => (ak_id x =? _)%N && true) (fun x => (ak_id x =? 0x8a1f1c627b5e4d0a9d1e0c2a5f3b6d12)%N)), Hkey
    by (intros; apply andb_true_r). done.
Qed.

End Properties.

(** ** The development seed *)

(** The identity that the seed's key stands for *)
Definition demo_identity : TenantContext :=
  {| TC_Tenant := {| Tenant_ID := demo_corp; Tenant_Name := "demo-corp"; Tenant_Status := TenantStatusActive |};
     TC_APIKey := {| APIKey_ID := 0x660e8400e29b41d4a716446655440000%N; APIKey_TenantID := demo_corp;
                     KeyPrefix := "rl_demo_"; APIKey_Status := APIKeyStatusActive; APIKey_Role := RoleCheck |} |}.

Section Seed.
#[local] Existing Instances in_memory hundredths plain_text.

Definition demo_rules (now : Z) : list Rule :=
  map rule_entity (List.filter (fun r => (rl_tenant r =? demo_corp)%N) (rules (demo_db now))).

(** The development seed does what the README says.  After the migrations
    and the seed, the key that the README prints authenticates as the active
    check key of demo-corp, every seeded rule is valid, and the routes of the
    example services and of the README meet the rules meant for them. *)
Theorem dev_seed_works id now :
  exists c, run_script id now (init_up ++ admitdesk_up ++ roles_up ++ dev_seed) no_database = Ok c /\
    represents (demo_db now) c /\
    fst (Authenticate "rl_demo_abc123xyz" {| mem_db := demo_db now; mem_view := None |}) = Ok demo_identity /\
    Forall (fun r => Validate (rule_entity r) = Ok tt) (rules (demo_db now)) /\
    map (fun route => RoutePattern <$> Resolve (demo_rules now) route) ["/v1/check"; "/api/payments/7"; "/api/orders"; "/else"] =
      [Some "/v1/check"; Some "/api/payments*"; Some "/api/orders*"; Some "*"].
Proof.
  eexists. split; [apply seed_after_up|]. split; [by exists (repeat now 8)|].
  split; [by vm_compute|]. split; [by repeat constructor|by vm_compute].
Qed.

End Seed.

(** ** Runs on concrete servers *)

Module Demo.
Import Migrate.Memory.

(** The text of a file stands for its statements. *)
Definition run_text (text : string) (d : database) : result pg_error database :=
  match assoc text up_files with
  | None => Err {| pg_code := Some "42601"; pg_text := "syntax error" |}
  | Some script =>
      match run_script 1%N 5 script d with
      | Ok d' => Ok d'
      | Err c => Err {| pg_code := Some c; pg_text := "" |}
      end
  end.

#[local] Instance server : MigrationServer (store database) database := Memory.server run_text.
#[local] Instance quiet : StdLog (store database) := {| log_Printf line m := m |}.
Definition names : list string := rev (map fst up_files).
#[local] Instance disk : Files :=
  {| ReadFile f := Ok f; Glob p := if String.eqb p "migrations/*.up.sql" then Ok names else Ok [] |}.
Definition no_env : environment := fun _ => "".
Definition empty : store database := {| st_db := {| tracked := None; schema := no_database |}; st_view := None |}.

Lemma quiet_keeps : forall line (w : store database), mg_committed (log_Printf line w) = mg_committed w.
Proof. done. Qed.

Lemma disk_runs_scripts : runs_scripts.
Proof.
  intros file script sql s s' Hin [= <-] Hrun. exists 1%N, 5. cbn [runs server Memory.server] in Hrun. revert Hrun.
  assert (Ha : assoc file up_files = Some script).
  { cbn [In up_files] in Hin. by destruct Hin as [[= <- <-]|[[= <- <-]|[[= <- <-]|[]]]]. }
  unfold run_text. rewrite Ha. by destruct (run_script _ _ _ s); intros [= <-].
Qed.

Lemma migrate_builds_schema_witness :
  fst (migrate_main no_env empty) = Ok tt /\
  exists now, represents (admitdesk_db now) (schema (mg_committed (snd (migrate_main no_env empty)))) /\
    db_ok (admitdesk_db now) /\
    tracked (mg_committed (snd (migrate_main no_env empty))) = Some ["001_init"; "002_admitdesk_tenant"; "003_api_key_roles"].
Proof.
  assert (Hr : fst (migrate_main no_env empty) = Ok tt) by (vm_compute; reflexivity). split; [exact Hr|].
  apply (migrate_builds_schema no_env names empty _ quiet_keeps disk_runs_scripts eq_refl).
  - apply (bool_decide_unpack _). by vm_compute.
  - done.
  - done.
  - rewrite <- Hr. apply surjective_pairing.
Defined.

(** A database with another table, and one with a key and no roles yet *)
Definition other : database :=
  {| db_extensions := [];
     db_tables := [("notes", {| t_columns := [id_column]; t_unique := [["id"]]; t_refs := []; t_rows := [] |})]; db_indexes := [] |}.
Definition unroled : database :=
  {| db_extensions := ["pgcrypto"];
     db_tables := [("tenants", with_rows [tenant_of {| tn_id := 7%N; tn_name := "demo-app"; tn_status := "active"; tn_created := 0 |}] tenants_table);
                   ("api_keys", with_rows [without "role" (key_of {| ak_id := 1%N; ak_tenant := 7%N; ak_hash := "h"; ak_prefix := "rl_";
                      ak_status := "active"; ak_role := "check"; ak_created := 1 |})] api_keys_table)];
     db_indexes := [] |}.


Lemma effect_implements_schema_witness :
  let d := {| tenants := [{| tn_id := 7%N; tn_name := "demo-app"; tn_status := "active"; tn_created := 5 |}]; api_keys := []; rules := [] |} in
  let c := database_of (map tenant_of (tenants d)) [] [] in
  effect 1%N 6 (InsertKey 7%N "h" "rl_" "owner") d = Err check_violation /\
  exec 1%N 6 (sql_of (InsertKey 7%N "h" "rl_" "owner")) c = Err check_violation.
Proof.
  intros d c. split; [reflexivity|].
  assert (Hc : represents d c) by (by exists []).
  assert (Hd : db_ok d) by (constructor; cbn; repeat constructor; apply not_elem_of_nil).
  assert (Hf : fresh_id 1%N d) by (split; apply not_elem_of_nil).
  exact (effect_implements_schema 1%N 6 (InsertKey 7%N "h" "rl_" "owner") d c Hc Hd Hf).
Defined.

End Demo.
