(* ===== verification/System.v ===== *)
(** The assembled server ([cmd/server/main.go]): the start-up with its
    connections ([postgres/pool.go], [redis/client.go]), the wiring of the
    repositories, services and middleware on one world, the end of the program
    and the lines it logs on the way ([exit_is_explained]).  Then what a request does to Redis: it is one check of the limiter
    ([asks]) or leaves Redis to itself ([request_serves]).

    The world has a part for each thing the program keeps or talks to: the
    database, the rule cache, Redis, the sign-up limiter, and the surroundings
    (clock, log, metrics, random numbers, the fate of the next Redis call). *)

From stdpp Require Import base gmap strings list.
From Stdlib Require Import ZArith NArith Lia.
From S2P Require Import Prelude Float64 GoStrings Domain Uuid RuleResolver Redis RateLimiter Ports CheckService AuthService RuleCache.
From S2P Require Import RateLimiterSpec LimiterRun Provisioning Http Observability Decode Os Config Middleware SignupLimit Handlers Server Frame.
From S2P Require Import Database Postgres.

Local Open Scope Z_scope.

(** ** Connections *)

(** What [pgxpool] and [go-redis] offer to open and to test a connection *)
Class Connections (D R : Type) := {
  PoolConfig : Type;
  pool_ParseConfig : string -> result goerror PoolConfig;
  pool_NewWithConfig : PoolConfig -> result goerror D;
  pool_Ping : Op D unit;
  RedisOptions : Type;
  redis_ParseURL : string -> result goerror RedisOptions;
  redis_NewClient : RedisOptions -> R;
  redis_Ping : Op R unit
}.

Section Connect.
Context {D R : Type} `{!Connections D R}.

(** [postgres.NewPool]; a pool whose ping fails is closed. *)
Definition NewPool (databaseURL : string) : result goerror D :=
  match pool_ParseConfig databaseURL with
  | Err e => Err (wrap_op "parse database url" e)
  | Ok cfg =>
      match pool_NewWithConfig cfg with
      | Err e => Err (wrap_op "connect database" e)
      | Ok pool =>
          match pool_Ping pool with
          | (Err e, _) => Err (wrap_op "ping database" e)
          | (Ok _, pool') => Ok pool'
          end
      end
  end.

(** [redis.NewClient] of the adapter *)
Definition NewClient (redisURL : string) : result goerror R :=
  match redis_ParseURL redisURL with
  | Err e => Err (wrap_op "parse redis url" e)
  | Ok opts =>
      match redis_Ping (redis_NewClient opts) with
      | (Err e, _) => Err (wrap_op "ping redis" e)
      | (Ok _, client) => Ok client
      end
  end.

(** [postgres.Ping], and the two pingers of the readiness check *)
Definition Ping : Op D unit := pool_Ping.
Definition PoolPinger_Ping {W} (PingFn : Op W unit) : Op W unit := PingFn.
Definition ClientPinger_Ping : Op R unit := redis_Ping.

End Connect.

(** ** The world *)

Section System.
Context `{!RedisServer} `{!UUIDText} `{!GoText} `{!GoJSON} `{!Numeric}.
Context {D : Type} `{!Postgres D} `{!Connections D redis}.
Context {E : Type} `{!GoClock E} `{!GoLog E} `{!Prometheus E} `{!GoUUID E}.
(** What happens to the next call to Redis, and the capacity [append] finds. *)
Variable next_link : E -> link * E.
Variable spare : E -> nat.
Variable promhttp : E -> string.

Record world := {
  w_db : D;
  w_cache : RuleCache;
  w_redis : redis;
  w_signup : signupLimiter;
  w_env : E
}.

Definition set_db (d : D) (w : world) : world :=
  {| w_db := d; w_cache := w_cache w; w_redis := w_redis w; w_signup := w_signup w; w_env := w_env w |}.
Definition set_redis (s : redis) (w : world) : world :=
  {| w_db := w_db w; w_cache := w_cache w; w_redis := s; w_signup := w_signup w; w_env := w_env w |}.
Definition set_env (e : E) (w : world) : world :=
  {| w_db := w_db w; w_cache := w_cache w; w_redis := w_redis w; w_signup := w_signup w; w_env := e |}.

#[export] Instance world_clock : GoClock world := {| Now w := Now (w_env w) |}.
#[export] Instance world_log : GoLog world :=
  {| slog_Info msg kv w := set_env (slog_Info msg kv (w_env w)) w |}.
#[export] Instance world_metrics : Prometheus world :=
  {| Inc name labels w := set_env (Inc name labels (w_env w)) w;
     Observe name labels d w := set_env (Observe name labels d (w_env w)) w |}.
Definition world_New (w : world) : uuid * world :=
  (fst (uuid_New (w_env w)), set_env (snd (uuid_New (w_env w))) w).
#[export] Instance world_uuid : GoUUID world :=
  {| uuid_New := world_New; uuid_New_nonzero w := uuid_New_nonzero (w_env w) |}.
#[export] Instance world_signup : SignupState world :=
  {| limiter_of := w_signup;
     set_limiter l w := {| w_db := w_db w; w_cache := w_cache w; w_redis := w_redis w; w_signup := l; w_env := w_env w |};
     spare_room w := spare (w_env w) |}.

(** The repositories on the pool *)
#[export] Instance world_keys : APIKeyRepository world :=
  {| FindByHash h := on_part w_db set_db (pg_FindByHash h) |}.
#[export] Instance world_tenants : TenantRepository world :=
  {| GetByID t := on_part w_db set_db (pg_GetByID t) |}.
#[export] Instance world_store : ProjectStore world := {|
  store_CreateProject p := on_part w_db set_db (pg_CreateProject p);
  store_ListProjects := on_part w_db set_db pg_ListProjects;
  store_GetProject t := on_part w_db set_db (pg_GetProject t);
  store_AddAPIKey t h p r := on_part w_db set_db (pg_AddAPIKey t h p r);
  store_RevokeAPIKey t k := on_part w_db set_db (pg_RevokeAPIKey t k) |}.

(** The rule cache around the rule repository, with the clock *)
#[local] Instance cached_clock : GoClock (D * E) := {| Now p := Now (snd p) |}.
#[local] Instance cached_rules : RuleRepository (D * E) :=
  {| ListByTenant t := on_part fst (fun d p => (d, snd p)) (pg_ListByTenant t);
     ListAll := on_part fst (fun d p => (d, snd p)) pg_ListAll |}.

Definition cache_view (w : world) : RuleCache * (D * E) := (w_cache w, (w_db w, w_env w)).
Definition set_cache_view (v : RuleCache * (D * E)) (w : world) : world :=
  {| w_db := fst (snd v); w_cache := fst v; w_redis := w_redis w; w_signup := w_signup w; w_env := snd (snd v) |}.

#[export] Instance world_rules : RuleRepository world :=
  {| ListByTenant t := on_part cache_view set_cache_view (ListByTenant t);
     ListAll := on_part cache_view set_cache_view ListAll |}.

(** ** The wiring *)

Section Wiring.
Variable limiter : RateLimiter.

(** The limiter on the Redis client; [time.Now] in milliseconds. *)
Definition limit_call (key : RateLimitKey) (rule : Rule) (cost : Z) : Op world RateLimitDecision := fun w =>
  let '(l, e) := next_link (w_env w) in
  let '(r, s) := RateLimiter_Check limiter (Now w / 1000000) l key rule cost (w_redis w) in
  (r, set_redis s (set_env e w)).

#[local] Instance world_limiter : RateLimiterPort world := {| limiter_Check := limit_call |}.
#[local] Instance world_checker : RateLimitChecker world := {| checker_Check := CheckService_Check |}.
#[local] Instance world_projects : ProjectService world := {|
  svc_CreateProject := CreateProject;
  svc_ListProjects := ListProjects;
  svc_GetProject := GetProject;
  svc_AddAPIKey := AddAPIKey;
  svc_RevokeAPIKey := RevokeAPIKey |}.

(** [deps] in [main]: the two pingers, and every collaborator set *)
Definition dependencies (cfg : Config) : Dependencies world :=
  {| HealthCheckers := [PoolPinger_Ping (on_part w_db set_db Ping); on_part w_redis set_redis ClientPinger_Ping];
     has_Auth := true; has_Check := true; has_Projects := true;
     AdminToken := cfg_AdminToken cfg; DashboardOrigins := cfg_DashboardOrigins cfg;
     has_Console := true; has_AuthService := true; BehindProxy := cfg_BehindProxy cfg |}.

(** The page of [promhttp] *)
Definition metrics_page : Handler world := fun r rw w => (Write (Printed (promhttp (w_env w))) rw, w).

Definition server_handler (cfg : Config) : Handler world := NewMux metrics_page (dependencies cfg).

End Wiring.

(** ** Start and end of the program *)

(** What [main] has when it starts to listen *)
Record running := { run_config : Config; run_limiter : RateLimiter; run_world : world }.

(** [main] up to the listener: the text of the log line before [os.Exit(1)],
    or the server, with an empty cache and no sign-ups. *)
Definition startup (getenv : environment) (e : E) : result string running :=
  match Load getenv with
  | Err _ => Err "config load failed"
  | Ok cfg =>
      match NewPool (DatabaseURL cfg) with
      | Err _ => Err "postgres connect failed"
      | Ok pgPool =>
          match NewClient (RedisURL cfg) with
          | Err _ => Err "redis connect failed"
          | Ok redisClient =>
              let '(l1, e1) := next_link e in
              let '(l2, e2) := next_link e1 in
              match NewRateLimiter l1 l2 redisClient with
              | (Err _, _) => Err "rate limiter init failed"
              | (Ok limiter, redisClient) =>
                  let deps := dependencies cfg in
                  Ok {| run_config := cfg; run_limiter := limiter;
                        run_world := {| w_db := pgPool; w_cache := NewRuleCache (RuleCacheTTL cfg);
                                        w_redis := redisClient; w_signup := signup_limiter deps; w_env := e2 |} |}
              end
          end
      end
  end.

(** Why the server stops: the listener failed, or a signal came. *)
Inductive stop := ListenFailed (e : goerror) | Signalled.

(** The exit status of [main], given how [server.Shutdown] ended *)
Definition exit_status (s : stop) (shutdown : result goerror unit) : Z :=
  match s with
  | ListenFailed _ => 1
  | Signalled => if is_ok shutdown then 0 else 1
  end.

(** ** The program's own log lines *)

(** The lines of [main] from its start to its end, before the levels are looked
    at; [stopped] is what happens if the server listens. *)
Definition start_lines (r : result string running) : list (slog_Level * string) :=
  match r with
  | Err msg => [(LevelError, msg)]
  | Ok s => (if String.eqb (cfg_AdminToken (run_config s)) ""
             then [(LevelWarn, "ADMIN_TOKEN not set — the project write API is disabled")] else []) ++
            [(LevelInfo, "server listening")]
  end.
Definition stop_lines (s : stop) (shutdown : result goerror unit) : list (slog_Level * string) :=
  match s with
  | ListenFailed _ => [(LevelError, "server error")]
  | Signalled => (LevelInfo, "shutdown signal received") ::
                 if is_ok shutdown then [(LevelInfo, "server stopped")] else [(LevelError, "shutdown failed")]
  end.

(** What [main] writes: before the configuration is read, [slog]'s own logger
    writes from [LevelInfo] on. *)
Definition main_log (getenv : environment) (e : E) (s : stop) (shutdown : result goerror unit) : list (slog_Level * string) :=
  let lg := match Load getenv with Ok cfg => NewLogger (LogLevel cfg) | Err _ => LevelInfo end in
  let r := startup getenv e in
  List.filter (fun l => Enabled_for lg (fst l)) (start_lines r ++ if is_ok r then stop_lines s shutdown else []).

(** The exit status of the whole program *)
Definition main_status (getenv : environment) (e : E) (s : stop) (shutdown : result goerror unit) : Z :=
  if is_ok (startup getenv e) then exit_status s shutdown else 1.

(** The program ends with status 1 exactly when it has written an error,
    whatever level is configured. *)
Theorem exit_is_explained getenv e s shutdown :
  main_status getenv e s shutdown = 1 <-> exists msg, (LevelError, msg) ∈ main_log getenv e s shutdown.
Proof.
  unfold main_status, main_log. set (lg := match Load getenv with Ok _ => _ | Err _ => _ end).
  assert (Hf : forall (msg : string) (ls : list (slog_Level * string)),
      (LevelError, msg) ∈ List.filter (fun l => Enabled_for lg (fst l)) ls <-> (LevelError, msg) ∈ ls).
  { intros msg ls. rewrite !list_elem_of_In, filter_In. cbn [fst]. rewrite errors_written. tauto. }
  setoid_rewrite Hf. destruct (startup getenv e) as [r|msg]; cbn [is_ok start_lines].
  - assert (Hstart : forall msg : string, (LevelError, msg) ∉ (if String.eqb (cfg_AdminToken (run_config r)) ""
      then [(LevelWarn, "ADMIN_TOKEN not set — the project write API is disabled")] else []) ++ [(LevelInfo, "server listening")]).
    { intros msg. destruct (String.eqb _ _); rewrite list_elem_of_In; simpl; intuition congruence. }
    setoid_rewrite elem_of_app. destruct s as [err|]; [|destruct shutdown]; cbn [exit_status stop_lines is_ok].
    + split; [|done]. intros _. eexists. right. by left.
    + split; [done|]. intros [msg [Hm|Hm]]; [by apply Hstart in Hm|]. rewrite list_elem_of_In in Hm. simpl in Hm. intuition congruence.
    + split; [|done]. intros _. eexists. right. right. by left.
  - split; [|done]. intros _. exists msg. by left.
Qed.

(** ** What does not touch Redis *)

Lemma observed_redis (w w' : world) : observed w w' -> w_redis w' = w_redis w.
Proof. by induction 1. Qed.

Lemma on_db_redis {A} (m : Op D A) w r w' : on_part w_db set_db m w = (r, w') -> w_redis w' = w_redis w.
Proof. unfold on_part. destruct (m (w_db w)) as [r' d]. by intros [= _ <-]. Qed.

Lemma ListByTenant_redis t (w : world) r w' : ListByTenant t w = (r, w') -> w_redis w' = w_redis w.
Proof.
  cbn [ListByTenant world_rules]. unfold on_part. change (ListByTenant t (cache_view w)) with (cached_ListByTenant t (cache_view w)).
  destruct (cached_ListByTenant t (cache_view w)) as [r' v]. by intros [= _ <-].
Qed.

Lemma Authenticate_redis raw (w : world) r w' : Authenticate raw w = (r, w') -> w_redis w' = w_redis w.
Proof.
  unfold Authenticate. destruct (String.eqb raw ""); [by intros [= _ <-]|]. unfold mbind, Op_bind.
  destruct (FindByHash _ w) as [[k|e] w1] eqn:Ek; apply on_db_redis in Ek; [|by intros [= _ <-]].
  destruct (negb (APIKey_IsActive k)); [by intros [= _ <-]|].
  destruct (GetByID _ w1) as [[t|e] w2] eqn:Et; apply on_db_redis in Et; [|intros [= _ <-]; congruence].
  destruct (negb (Tenant_IsActive t)); intros [= _ <-]; congruence.
Qed.

(** ** What a request does to Redis *)

(** The world changes around Redis, which only drifts. *)
Definition redis_drifts (w w' : world) : Prop := drifts (w_redis w) (w_redis w').

Section Serving.
Hypothesis Hlive : hides_expired.
(** PING leaves keys and scripts alone. *)
Hypothesis Hping : forall s, drifts s (snd (redis_Ping s)).

Lemma same_redis w w' : w_redis w' = w_redis w -> redis_drifts w w'.
Proof. intros Hs. unfold redis_drifts. rewrite Hs. by apply drifts_refl. Qed.

Lemma on_db_drifts {A} (m : Op D A) : keeps redis_drifts (on_part w_db set_db m).
Proof. intros w. apply same_redis. destruct (on_part w_db set_db m w) as [r w'] eqn:Em. by eapply on_db_redis. Qed.

Lemma project_drifts : (forall n h p r rs, keeps redis_drifts (CreateProject n h p r rs)) /\
  (forall t h p r, keeps redis_drifts (AddAPIKey t h p r)).
Proof.
  split.
  - intros n h p r rs w. unfold CreateProject, fail. pose proof (@same_redis w w eq_refl) as Hw.
    repeat (destruct (_ : bool); [exact Hw|]). unfold uuid_New at 1, world_uuid, world_New.
    destruct (check_rules _ _ _ _); [|by apply same_redis].
    set (w1 := set_env _ w). set (p0 := Build_NewProject _ _ _ _ _ _).
    pose proof (on_db_drifts (pg_CreateProject p0) w1) as Hdb.
    cbn [store_CreateProject world_store]. by destruct (on_part w_db set_db (pg_CreateProject p0) w1) as [[[]|e] w2].
  - intros t h p r w. unfold AddAPIKey, fail.
    repeat (destruct (_ : bool); [by apply same_redis|]). apply on_db_drifts.
Qed.

Lemma redis_drifts_order : PreOrder redis_drifts.
Proof.
  split; [intros w; by apply same_redis|]. intros w1 w2 w3. apply drifts_trans.
Qed.

#[local] Existing Instance world_projects.
#[local] Instance world_observes : Observes redis_drifts.
Proof. constructor; intros; by apply same_redis. Qed.

#[local] Instance world_ports_keep : PortsWrite redis_drifts.
Proof.
  destruct project_drifts as [Hcreate Hadd].
  constructor; [constructor|..]; try (intros; apply on_db_drifts); try (intros; by apply same_redis); try done.
  - exact redis_drifts_order.
  - intros t w. apply same_redis. destruct (ListByTenant t w) as [r w'] eqn:El. by eapply ListByTenant_redis.
Qed.

(** The check that a request puts to the limiter, if it does: the decoded
    request of a tenant whose rules name one for the route. *)
Definition asks (r : Request) (w : world) : option request :=
  if is_check r then
    let '(ask, w2) := check_stage r w in
    match ask with
    | None => None
    | Some (tenantID, req) =>
        match ListByTenant tenantID w2 with
        | (Err _, _) => None
        | (Ok rules, w3) =>
            option_map (fun rule =>
              {| rq_clock := Now w3 / 1000000; rq_link := fst (next_link (w_env w3));
                 rq_key := {| Key_TenantID := tenantID; Key_Route := cr_Route req; Key_Subject := cr_Subject req |};
                 rq_rule := rule; rq_cost := cr_Cost req |}) (Resolve rules (cr_Route req))
        end
    end
  else None.

Lemma check_stage_redis r w : w_redis (snd (check_stage r w)) = w_redis w.
Proof.
  unfold check_stage. destruct (Authenticate _ w) as [[tc|e] w1] eqn:Ea; [|by eapply Authenticate_redis].
  apply Authenticate_redis in Ea.
  destruct (Authenticate _ w1) as [[tc'|e] w2] eqn:Ea'; apply Authenticate_redis in Ea'; cbn [snd]; congruence.
Qed.

(** What the check service does with the request [asks] describes. *)
Lemma check_service_asks limiter tenantID req w : 1 <= cr_Cost req ->
  let '(d, w') := @CheckService_Check world _ (world_limiter limiter) tenantID (cr_Route req) (cr_Subject req) (cr_Cost req) w in
  match ListByTenant tenantID w with
  | (Err _, _) => is_ok d = false /\ w_redis w' = w_redis w
  | (Ok rules, w3) =>
      match Resolve rules (cr_Route req) with
      | None => w_redis w' = w_redis w
      | Some rule =>
          let q := {| rq_clock := Now w3 / 1000000; rq_link := fst (next_link (w_env w3));
                      rq_key := {| Key_TenantID := tenantID; Key_Route := cr_Route req; Key_Subject := cr_Subject req |};
                      rq_rule := rule; rq_cost := cr_Cost req |} in
          exists d', serve limiter q (w_redis w) = (d', w_redis w') /\
            match d' with Ok dec => d = Ok dec | Err _ => is_ok d = false end
      end
  end.
Proof.
  intros Hcost. unfold CheckService_Check. rewrite (proj2 (Z.leb_gt _ _)) by lia.
  destruct (ListByTenant tenantID w) as [[rules|e] w3] eqn:El; apply ListByTenant_redis in El; [|done].
  destruct (Resolve rules (cr_Route req)) as [rule|]; [|done].
  cbn [limiter_Check world_limiter]. unfold limit_call, serve. rewrite El.
  cbn [rq_clock rq_link rq_key rq_rule rq_cost]. destruct (next_link (w_env w3)) as [l e]. cbn [fst].
  destruct (RateLimiter_Check _ _ l _ _ _ _) as [[dec|err] s] eqn:Ec; [by exists (Ok dec)|].
  destruct (Is err ErrRateLimitBackend); by exists (Err err).
Qed.

(** Every request is one check of the limiter, answered with its decision, or
    leaves Redis to itself. *)
Lemma request_serves limiter cfg r w :
  let '(rw', w') := server_handler limiter cfg r (Conn fresh_response) w in
  match asks r w with
  | None => redis_drifts w w'
  | Some q => exists d, serve limiter q (w_redis w) = (d, w_redis w') /\ (answered rw' =? 200) = allows d
  end.
Proof.
  unfold asks. destruct (is_check r) eqn:Hr.
  2:{ pose proof (@keeps_NewMux _ _ _ _ _ _ _ _ _ _ (world_checker limiter) world_projects metrics_page redis_drifts world_ports_keep world_observes
                    (dependencies cfg) r (Conn fresh_response) w) as Hk.
      unfold server_handler. destruct (NewMux _ _ _ _ _) as [rw' w']. apply Hk; [| |done].
      - intros r0 rw0 w0. by apply same_redis.
      - apply Forall_cons_2; [apply on_db_drifts|apply Forall_cons_2; [|apply Forall_nil_2]].
        intros w0. unfold redis_drifts, on_part, ClientPinger_Ping. pose proof (Hping (w_redis w0)) as Hp. by destruct (redis_Ping (w_redis w0)). }
  apply andb_prop in Hr as [Hm%String.eqb_eq Hp%String.eqb_eq].
  pose proof (@check_does _ _ _ _ _ _ _ _ _ _ (world_checker limiter) world_projects metrics_page
                (dependencies cfg) r w eq_refl eq_refl eq_refl Hm Hp) as Hd.
  unfold server_handler. destruct (NewMux _ _ _ _ _) as [rw' w']. pose proof (check_stage_redis r w) as Hw2.
  destruct (check_stage r w) as [[[tenantID req]|] w2] eqn:Est; cbn [snd] in Hw2.
  2:{ destruct Hd as [_ Ho%observed_redis]. apply same_redis. congruence. }
  pose proof (check_stage_ok _ _ _ _ _ Est) as Hok.
  cbn [checker_Check world_checker] in Hd.
  pose proof (check_service_asks limiter tenantID req w2 (proj1 (cro_cost _ Hok))) as Hs.
  destruct (CheckService_Check _ _ _ _ w2) as [d w3]. destruct Hd as [[Hst _] Ho%observed_redis]. rewrite Hst.
  destruct (ListByTenant tenantID w2) as [[rules|e] w4]; [|apply same_redis; destruct Hs; congruence].
  destruct (Resolve rules (cr_Route req)) as [rule|]; cbn [option_map]; [|apply same_redis; congruence].
  cbn zeta in Hs. destruct Hs as (d' & Hserve & Hd'). exists d'. rewrite Ho, <- Hw2. split; [exact Hserve|].
  destruct d' as [dec|e]; [subst d; cbn [check_status allows]; by destruct (Allowed dec)|].
  by destruct d.
Qed.

End Serving.

(** ** Properties *)

(** C6: the assembled server enforces the limit.  POST /v1/check is answered
    200 or 429 only for a request whose key authenticates, twice in a row, an
    active key of an active tenant that is no admin key.  In the world that the
    two authentications leave, the cache or the database gives the tenant's
    rules; the first best rule for the route is put to the Redis limiter, by the
    clock and over the link of the moment when the rules are read, and its
    decision for that tenant, route and subject is the answer, its new state the
    state of Redis after the request.  Only when none of those rules applies is
    the request allowed, and then Redis is left as it was. *)
Theorem server_enforces_limit limiter cfg r (w : world) :
  Method r = "POST" -> URL_Path r = "/v1/check" ->
  let '(rw', w') := server_handler limiter cfg r (Conn fresh_response) w in
  let key := Header_Get (Req_Header r) "X-API-Key" in
  answered rw' ∈ [400; 401; 403; 503] \/
  exists tc w1 tc' w2 req rules w3 d,
    Authenticate key w = (Ok tc, w1) /\ Authenticate key w1 = (Ok tc', w2) /\
    APIKey_Role (TC_APIKey tc') <> RoleAdmin /\ parse_check r = Some req /\ check_request_ok req /\
    ListByTenant (Tenant_ID (TC_Tenant tc)) w2 = (Ok rules, w3) /\
    answered rw' = (if Allowed d then 200 else 429) /\ res_body (base rw') = [Encoded (checkResponse d)] /\
    (((forall rule, rule ∈ rules -> ~ applicable (cr_Route req) rule) /\ d = allow_decision /\
      w_redis w' = w_redis w) \/
     exists rule, first_best rules (cr_Route req) rule /\
       RateLimiter_Check limiter (Now w3 / 1000000) (fst (next_link (w_env w3)))
         {| Key_TenantID := Tenant_ID (TC_Tenant tc); Key_Route := cr_Route req; Key_Subject := cr_Subject req |}
         rule (cr_Cost req) (w_redis w) = (Ok d, w_redis w')).
Proof.
  intros Hm Hp. unfold server_handler.
  pose proof (@check_answers _ _ _ _ _ _ _ _ _ _ (world_checker limiter) world_projects metrics_page
                (dependencies cfg) r w eq_refl eq_refl eq_refl Hm Hp) as Hc.
  destruct (NewMux _ _ _ _ _) as [rw' w']. cbn zeta in *.
  destruct Hc as [Hc|(tc & w1 & tc' & w2 & req & d & w3 & Ha & Ha' & Hrole & Hreq & Hok & Hcheck & Hans & Hbody & Hobs)];
    [by left|right].
  apply observed_redis in Hobs. cbn [checker_Check world_checker] in Hcheck.
  pose proof (@check_service_outcome world _ (world_limiter limiter) (Tenant_ID (TC_Tenant tc)) (cr_Route req)
                (cr_Subject req) (cr_Cost req) w2) as Hs.
  rewrite Hcheck in Hs.
  assert (Hr2 : w_redis w2 = w_redis w).
  { apply Authenticate_redis in Ha, Ha'. congruence. }
  destruct (ListByTenant (Tenant_ID (TC_Tenant tc)) w2) as [[rules|e] w4] eqn:El.
  2:{ destruct Hs as (_ & e' & ? & _). done. }
  pose proof (ListByTenant_redis _ _ _ _ El) as Hr4.
  exists tc, w1, tc', w2, req, rules, w4, d. repeat (split; [done|]).
  destruct Hs as [(Hno & Hd & Hw)|(rule & charged & Hbest & Hch & Hcost & Hl)].
  - left. injection Hd as ->. subst w4. split; [done|]. split; [done|]. congruence.
  - right. pose proof (cro_cost _ Hok) as Hc1. rewrite Hcost in Hl by lia. exists rule. split; [done|].
    cbn [limiter_Check world_limiter] in Hl. unfold limit_call in Hl.
    destruct (next_link (w_env w4)) as [l e]. rewrite Hr4, Hr2 in Hl. cbn [fst].
    destruct (RateLimiter_Check limiter _ l _ rule _ (w_redis w)) as [res s] eqn:Erl.
    destruct Hl as [-> Hl]. f_equal; [|by rewrite Hobs].
    destruct res as [d'|e']; [congruence|]. by destruct Hl as (? & ? & _).
Qed.

End System.

(** ** A request to an assembled server *)

Module Demo.
#[local] Existing Instances redis7 plain_text canonical hundredths in_memory.
#[local] Instance scanner : GoJSON :=
  {| json_scan s := Some (JObject [("route", JString "/login")]); unicode_fold_eq a b := false |}.
#[local] Instance connections : Connections memory (@redis redis7) := {|
  PoolConfig := unit;
  pool_ParseConfig url := Ok tt;
  pool_NewWithConfig c := Ok {| mem_db := empty_db; mem_view := None |};
  pool_Ping d := (Ok tt, d);
  RedisOptions := unit;
  redis_ParseURL url := Ok tt;
  redis_NewClient opts := {| Redis.db := ∅; Redis.now_ms := 1000000; Redis.cache := ∅ |};
  redis_Ping s := (Ok tt, s) |}.
#[local] Instance clock : GoClock unit := {| Now w := 1000000000000 |}.
#[local] Instance log : GoLog unit := {| slog_Info m kv w := w |}.
#[local] Instance prom : Prometheus unit := {| Inc n l w := w; Observe n l d w := w |}.
#[local] Instance random : GoUUID unit := {| uuid_New w := (7%N, w); uuid_New_nonzero w := ltac:(done) |}.

Definition good_link (e : unit) : link * unit := ({| lost := 0; RateLimiter.answered := true; failure := "" |}, e).

(** The start-up with the default configuration *)
Definition boot : result string running := startup good_link (fun _ => "") tt.

(** A project with one key and one rule: one request a minute to /login *)
Definition limited : db := {|
  tenants := [{| tn_id := 7%N; tn_name := "demo-app"; tn_status := "active"; tn_created := 0 |}];
  api_keys := [{| ak_id := 1%N; ak_tenant := 7%N; ak_hash := HashAPIKey "rl_key"; ak_prefix := "rl_"; ak_status := "active";
                  ak_role := "check"; ak_created := 1 |}];
  rules := [{| rl_id := 2%N; rl_tenant := 7%N; rl_pattern := "/login"; rl_algorithm := AlgorithmSlidingWindow;
               rl_limit := Some 1; rl_window := Some 60; rl_capacity := None; rl_refill := None; rl_enabled := true |}] |}.
Definition keyed : Request :=
  {| Method := "POST"; URL_Path := "/v1/check"; Req_Header := Header_Set ∅ "X-API-Key" "rl_key"; Body_text := "{}";
     Body_broken := false; RemoteAddr := "203.0.113.9:4000"; ctx_tenant := None; path_values := [] |}.
Definition served_world : Type := @world redis7 memory unit.
Definition serve (s : running (D := memory) (E := unit)) (before : writer * served_world) : writer * served_world :=
  server_handler good_link (fun _ => 0%nat) (fun _ => "") (run_limiter s) (run_config s) keyed (Conn fresh_response)
    (snd before).
Definition opened_world (s : running (D := memory) (E := unit)) : served_world :=
  set_db {| mem_db := limited; mem_view := None |} (run_world s).

(** The first request is allowed, the second denied, each by the rule. *)
Lemma server_enforces_limit_witness :
  match boot with
  | Err _ => False
  | Ok s =>
      let first := serve s (Conn fresh_response, opened_world s) in
      let second := serve s first in
      answered (fst first) = 200 /\ answered (fst second) = 429 /\
      (answered (fst second) ∈ [400; 401; 403; 503] \/
       exists tc w1 tc' w2 req rules w3 d, Authenticate "rl_key" (snd first) = (Ok tc, w1) /\
         Authenticate "rl_key" w1 = (Ok tc', w2) /\ APIKey_Role (TC_APIKey tc') <> RoleAdmin /\
         parse_check keyed = Some req /\ check_request_ok req /\
         ListByTenant (Tenant_ID (TC_Tenant tc)) w2 = (Ok rules, w3) /\
         answered (fst second) = (if Allowed d then 200 else 429) /\ res_body (base (fst second)) = [Encoded (checkResponse d)] /\
         (((forall rule, rule ∈ rules -> ~ applicable (cr_Route req) rule) /\ d = allow_decision /\
           w_redis (snd second) = w_redis (snd first)) \/
          exists rule, first_best rules (cr_Route req) rule /\
            RateLimiter_Check (run_limiter s) (Now w3 / 1000000) (fst (good_link (w_env w3)))
              {| Key_TenantID := Tenant_ID (TC_Tenant tc); Key_Route := cr_Route req; Key_Subject := cr_Subject req |}
              rule (cr_Cost req) (w_redis (snd first)) = (Ok d, w_redis (snd second))))
  end.
Proof.
  assert (Hb : match boot with
               | Ok s => (answered (fst (serve s (Conn fresh_response, opened_world s))) =? 200) &&
                         (answered (fst (serve s (serve s (Conn fresh_response, opened_world s)))) =? 429)
               | Err _ => false
               end = true) by (vm_compute; reflexivity).
  destruct boot as [s|e]; [|discriminate Hb]. apply andb_prop in Hb as [H1%Z.eqb_eq H2%Z.eqb_eq].
  cbv zeta. split; [exact H1|]. split; [exact H2|]. clear H1 H2.
  pose proof (server_enforces_limit good_link (fun _ => 0%nat) (fun _ => "") (run_limiter s) (run_config s) keyed
                (snd (serve s (Conn fresh_response, opened_world s))) eq_refl eq_refl) as Ht.
  change (serve s (serve s (Conn fresh_response, opened_world s))) with
    (server_handler good_link (fun _ => 0%nat) (fun _ => "") (run_limiter s) (run_config s) keyed (Conn fresh_response)
       (snd (serve s (Conn fresh_response, opened_world s)))).
  destruct (server_handler _ _ _ _ _ keyed _ _) as [rw' w']. exact Ht.
Defined.

End Demo.
