(* ===== verification/Onboarding.v ===== *)
(** The console and the server together: a page of a configured origin, its
    calls carried by the browser to the assembled server.  Signing up gives the
    page a project that the server knows by the page's token; without a tab
    storage no token reaches the server. *)

From stdpp Require Import base gmap strings list.
From Stdlib Require Import ZArith NArith Lia Ascii.
From S2P Require Import Prelude Float64 GoStrings Sha256 Domain Uuid RuleResolver Redis RateLimiter Ports CheckService AuthService RuleCache.
From S2P Require Import RateLimiterSpec LimiterRun Provisioning Http Observability Decode Os Config Middleware SignupLimit Handlers Client Server Frame.
From S2P Require Import Browser Console ConsoleForm Database Postgres PostgresSpec System.

Local Open Scope Z_scope.

(** ** Through the middleware to a route of the console *)

Section Route.
Context `{!GoJSON} `{!UUIDText} {W : Type} `{!GoClock W} `{!GoLog W} `{!Prometheus W} `{!SignupState W}.
Context `{!APIKeyRepository W} `{!TenantRepository W} `{!RuleRepository W}.
Context `{!RateLimitChecker W} `{!ProjectService W}.
Variable promhttp_Handler : Handler W.

(** On the console's paths the middleware passes the request on as it is. *)
Lemma console_route deps r (h : Handler W) w : IsProjectPath (URL_Path r) = true -> Method r <> "OPTIONS" ->
  (forall rw w, ServeMux (routes promhttp_Handler deps) r rw w = h r rw w) ->
  exists rw1, res_sent (base rw1) = None /\ res_body (base rw1) = [] /\
    let '(rw', w') := NewMux promhttp_Handler deps r (Conn fresh_response) w in
    base rw' = base (fst (h r rw1 w)) /\ observed (snd (h r rw1 w)) w'.
Proof.
  intros Hp Hm Hmux. set (inner := Logging (Metrics (ServeMux (routes promhttp_Handler deps)))).
  assert (E : exists rw0, res_sent (base rw0) = None /\ res_body (base rw0) = [] /\
    NewMux promhttp_Handler deps r (Conn fresh_response) w = inner r rw0 w).
  { unfold NewMux. fold inner.
    destruct (CORS_response (if has_Auth deps then AuthOrPublic inner else inner) (DashboardOrigins deps) r
                (Conn fresh_response) w eq_refl Hm) as (rw0 & Hs & Hb & E).
    exists rw0. split; [done|]. split; [done|]. rewrite E. destruct (has_Auth deps); [|done].
    unfold AuthOrPublic. by rewrite Hp, orb_true_r. }
  destruct E as (rw0 & Hs & Hb & ->).
  destruct (inner_response (ServeMux (routes promhttp_Handler deps)) r rw0 w) as (rw1 & Eb & Er & Ho). fold inner in Er, Ho.
  exists rw1. split; [congruence|]. split; [congruence|]. rewrite Hmux in Er, Ho. by destruct (inner r rw0 w).
Qed.

Lemma mux_create deps r rw w : has_Console deps = true -> has_AuthService deps = true ->
  Method r = "POST" -> URL_Path r = "/v1/projects" ->
  ServeMux (routes promhttp_Handler deps) r rw w = SignupLimit console_Create (with_path_values r []) rw w.
Proof.
  intros Hc Ha Hm Hp. unfold ServeMux, routes, check_routes, console_routes. rewrite Hc, Ha, Hm, Hp. by destruct (has_Check deps).
Qed.

Lemma mux_me deps r rw w : has_Console deps = true -> has_AuthService deps = true ->
  Method r = "GET" -> URL_Path r = "/v1/projects/me" ->
  ServeMux (routes promhttp_Handler deps) r rw w = ProjectAuth console_Me (with_path_values r []) rw w.
Proof.
  intros Hc Ha Hm Hp. unfold ServeMux, routes, check_routes, console_routes. rewrite Hc, Ha, Hm, Hp. by destruct (has_Check deps).
Qed.

End Route.

(** ** The console's requests *)

(** A text with no blank at either end keeps its ends in a header. *)
Lemma normalised_ends c l d : printable c = true -> printable d = true ->
  normalised (implode (c :: l ++ [d])) = implode (c :: l ++ [d]).
Proof.
  assert (Hb : forall c, printable c = true -> Ascii.eqb c " " || Ascii.eqb c "009" = false).
  { intros a. destruct a as [[] [] [] [] [] [] [] []]; vm_compute; done. }
  intros Hc%Hb Hd%Hb. unfold normalised, trimSpace. rewrite explode_implode. cbn [strip_blanks]. rewrite Hc. f_equal.
  change (c :: l ++ [d]) with ((c :: l) ++ [d]). rewrite rev_app_distr. cbn [rev app strip_blanks]. rewrite Hd.
  cbn [rev]. by rewrite rev_app_distr, rev_involutive.
Qed.

Lemma bearer_normalised tok : tok <> "" -> forallb printable (explode tok) = true ->
  normalised ("Bearer " +:+ tok) = "Bearer " +:+ tok.
Proof.
  intros Hne Hp. destruct (explode tok) as [|d l _] eqn:E using rev_ind; [by destruct tok|].
  rewrite forallb_app in Hp. apply andb_prop in Hp as [_ Hd]. cbn [forallb] in Hd. rewrite andb_true_r in Hd.
  assert (Et : "Bearer " +:+ tok = implode ("B"%char :: (explode "earer " ++ l) ++ [d])).
  { apply explode_inj. rewrite explode_implode, explode_app, E. by rewrite <- app_assoc. }
  rewrite Et. by apply normalised_ends.
Qed.

Section Requests.
Context `{!JavaScript}.
Variable API_BASE : string.

(** The path of a URL of the API *)
Definition path_of (url : string) : string := fst (CutPrefix url API_BASE).

Lemma path_of_api path : path_of (API_BASE +:+ path) = path.
Proof. unfold path_of. by rewrite CutPrefix_app. Qed.

Lemma load_request_ok tok : page_call path_of (authorized API_BASE tok "/v1/projects/me" "GET" None).
Proof.
  split; cbn [hr_URL hr_Method authorized].
  - by rewrite path_of_api.
  - by left.
  - vm_compute. repeat constructor.
  - reflexivity.
Qed.

Definition create_call (payload : json) : http_request := public API_BASE "/v1/projects" payload.

Lemma create_call_ok payload : page_call path_of (create_call payload).
Proof.
  split; unfold create_call, public; cbn [hr_URL hr_Method].
  - by rewrite path_of_api.
  - right. by left.
  - vm_compute. repeat constructor.
  - reflexivity.
Qed.

(** The Authorization header on the other side *)
Lemma authorization_sent origin tok : Header_Get (hr_Header (cross_origin origin (authorized API_BASE tok "/v1/projects/me" "GET" None))) "Authorization" =
  normalised ("Bearer " +:+ tok).
Proof. reflexivity. Qed.

End Requests.

(** ** The page of a configured origin *)

Section Onboarding.
Context `{!RedisServer} `{!UUIDText} `{!GoText} `{!GoJSON} `{!Numeric} `{!JSONText} `{!JavaScript}.
Context {D : Type} `{!Postgres D} `{!Connections D redis}.
Context {E : Type} `{!GoClock E} `{!GoLog E} `{!Prometheus E} `{!GoUUID E}.
Variable next_link : E -> link * E.
Variable spare : E -> nat.
Variable promhttp : E -> string.
Variable limiter : RateLimiter.
Variable cfg : Config.
Variable API_BASE origin remote : string.
(** The browser's random numbers *)
Context {R : Type} (random : nat -> R -> list Z * R).

#[local] Existing Instance world_projects.
#[local] Instance the_checker : RateLimitChecker (world (D := D) (E := E)) := world_checker next_link limiter.
#[local] Instance the_signups : SignupState (world (D := D) (E := E)) := world_signup spare.
#[local] Abbreviation server := (server_handler (D := D) next_link spare promhttp limiter cfg).

(** The web as the console sees it: the server behind the browser *)
#[local] Instance web : Web (world (D := D) (E := E) * R) := {|
  fetch q wr := let '(answer, w) := fetch_via origin remote (path_of API_BASE) server q (fst wr) in (answer, (w, snd wr));
  getRandomValues n wr := let '(bytes, r) := random n (snd wr) in (bytes, (fst wr, r)) |}.

Context (Hconfigured : origin ∈ allowed_origins (cfg_DashboardOrigins cfg)).

Lemma origin_given : origin <> "".
Proof.
  unfold allowed_origins in Hconfigured. apply list_elem_of_In, filter_In in Hconfigured as [_ Ho].
  by intros ->.
Qed.

Lemma metrics_carried v : handler_carries v (metrics_page (D := D) promhttp).
Proof. intros r rw w Hc. by apply carries_Write. Qed.

Definition sent_to_server (q : http_request) : Request := delivered (path_of API_BASE (hr_URL q)) remote (cross_origin origin q).

Lemma fetch_server q w r : page_call (path_of API_BASE) q ->
  let '(rw, w') := server (sent_to_server q) (Conn fresh_response) w in
  fetch q (w, r) = (Some (received rw), (w', r)).
Proof.
  intros Hq. cbn [fetch web fst snd]. unfold server_handler.
  pose proof (fetch_answer (metrics_page promhttp) metrics_carried origin remote (path_of API_BASE) origin_given
                (dependencies cfg) q w Hq) as Ha.
  unfold configured in Ha. rewrite bool_decide_eq_true_2 in Ha by exact Hconfigured.
  destruct (fetch_via _ _ _ _ _ _) as [answer w1]. unfold sent_to_server. destruct (NewMux _ _ _ _ _) as [rw w'].
  by destruct Ha as [-> ->].
Qed.

Lemma observed_db (w w' : world (D := D) (E := E)) : observed w w' -> w_db w' = w_db w.
Proof. by induction 1. Qed.

(** The repositories of the server know a tenant's key in the tables. *)
Lemma world_known_at d h tenantID name role : opened h tenantID name role d ->
  Known (fun w : world (D := D) (E := E) => committed (w_db w) = d) h tenantID name role.
Proof.
  intros Hd. pose proof (opened_known_at d h tenantID name role Hd) as Hk.
  split; intros w Hw; cbn [FindByHash GetByID world_keys world_tenants]; unfold on_part.
  - pose proof (kn_key (Known := Hk) (w_db w) Hw) as Hr. cbn [FindByHash pg_keys_port] in Hr.
    by destruct (pg_FindByHash h (w_db w)) as [r x].
  - pose proof (kn_tenant (Known := Hk) (w_db w) Hw) as Hr. cbn [GetByID pg_tenants_port] in Hr.
    by destruct (pg_GetByID tenantID (w_db w)) as [r x].
Qed.

(** The project that the server makes of the form: the normalised name, the
    digest and the prefix of the key, and the rules as the server reads and
    checks them *)
Definition filed (name : string) (k : generated) (rules : list draft) (p : NewProject) : Prop :=
  NP_Name p = normalise name /\ NP_KeyHash p = HashAPIKey (raw k) /\ NP_KeyPrefix p = TrimSpace (prefix k) /\
  NP_KeyRole p = RoleAdmin /\
  exists bodies, mapM read_ruleBody (map rule_payload rules) = Some bodies /\
    check_rules (NP_TenantID p) 0 [] (map toEntity bodies) = Ok (NP_Rules p).

(** The sign-up, served: with a status of success the tables have the project. *)
Lemma create_served payload name k rules w : payload = project_payload name k rules ->
  hash k = HashAPIKey (raw k) -> hex_digest (hash k) -> json_scan (stringify payload) = Some payload -> len (stringify payload) < 2 ^ 20 ->
  let '(rw, w') := server (sent_to_server (create_call API_BASE payload)) (Conn fresh_response) w in
  200 <= answered rw <= 299 ->
  exists p, filed name k rules p /\ created p (committed (w_db w)) (committed (w_db w')).
Proof.
  intros -> Hkey Hhash Hscan Hlen. set (payload := project_payload name k rules) in *. set (q := create_call API_BASE payload).
  assert (Hpath : URL_Path (sent_to_server q) = "/v1/projects") by apply path_of_api.
  destruct (console_route (metrics_page promhttp) (dependencies cfg) (sent_to_server q)
              (fun r => SignupLimit console_Create (with_path_values r [])) w ltac:(by rewrite Hpath) ltac:(discriminate)
              ltac:(intros; by apply mux_create)) as (rw1 & Hs & _ & Hr).
  unfold server_handler. destruct (NewMux _ _ _ _ _) as [rw w']. destruct Hr as [Hb Ho]. rewrite (answered_same _ _ Hb).
  apply observed_db in Ho. rewrite Ho. clear Hb Ho rw w'. unfold SignupLimit. destruct (allow _ _ _ _) as [ok l].
  destruct (negb ok).
  { cbn [fst]. rewrite answered_WriteError by (by rewrite map_header_unsent). lia. }
  set (w1 := set_limiter l w). unfold console_Create, decodeBody, ReadAll_limited.
  change (Body_text (with_path_values (sent_to_server q) [])) with (stringify payload).
  change (Body_broken (with_path_values (sent_to_server q) [])) with false.
  rewrite (proj2 (Z.leb_gt _ _)) by lia. cbn [mbind option_bind]. unfold Unmarshal. rewrite Hscan. cbn [mbind option_bind].
  unfold payload. rewrite payload_read.
  destruct (mapM read_ruleBody _) as [bs|] eqn:Ebs; cbn [option_map]; [|unfold bad_request; cbn [fst]; rewrite answered_WriteError by done; lia].
  cbn [cp_Name cp_KeyHash cp_KeyPrefix cp_Rules svc_CreateProject world_projects].
  destruct (CreateProject name (hash k) (prefix k) RoleAdmin (map toEntity bs) w1) as [[t|e] w2] eqn:Ec; cbn [fst snd].
  2:{ unfold writeProjectError, unavailable. repeat case_match; rewrite answered_WriteError by done; lia. }
  intros _. apply CreateProject_Ok in Ec as (p & Hstore & Ht & Hn & Hh & Hp & Hrole & Hrules). exists p. split.
  { rewrite normalise_hex, Hkey in Hh by done. repeat (split; [done|]). exists bs. by rewrite Ht. }
  cbn [store_CreateProject world_store] in Hstore. unfold on_part in Hstore.
  change (w_db (snd (uuid_New w1))) with (w_db w) in Hstore.
  destruct (pg_CreateProject p (w_db w)) as [[[]|e] d] eqn:Ep; [|done]. injection Hstore as <-. by apply CreateProject_created.
Qed.

(** The project, served to its key: as the tables have it, or 503; and they
    stay as they are. *)
Lemma me_served d tenantID name tok w : committed (w_db w) = d -> opened (HashAPIKey tok) tenantID name RoleAdmin d ->
  TrimSpace tok = tok -> tok <> "" -> normalised ("Bearer " +:+ tok) = "Bearer " +:+ tok ->
  let '(rw, w') := server (sent_to_server (authorized API_BASE tok "/v1/projects/me" "GET" None)) (Conn fresh_response) w in
  committed (w_db w') = d /\
  (answered rw = 503 \/
   exists t s, t ∈ tenants d /\ tn_id t = tenantID /\ project_matches d t s /\ answered rw = 200 /\
     res_body (base rw) = [Encoded (projectPayload s)]).
Proof.
  intros Hw Hopen Htrim Hne Hnorm. set (q := authorized _ _ _ _ _).
  assert (Hpath : URL_Path (sent_to_server q) = "/v1/projects/me") by apply path_of_api.
  destruct (console_route (metrics_page promhttp) (dependencies cfg) (sent_to_server q)
              (fun r => ProjectAuth console_Me (with_path_values r [])) w ltac:(by rewrite Hpath) ltac:(discriminate)
              ltac:(intros; by apply mux_me)) as (rw1 & Hs & Hbody & Hr).
  unfold server_handler. destruct (NewMux _ _ _ _ _) as [rw w']. destruct Hr as [Hb Ho]. rewrite Hb, (answered_same _ _ Hb).
  apply observed_db in Ho. rewrite Ho. clear Hb Ho rw w'. set (r := with_path_values (sent_to_server q) []).
  assert (Hbearer : bearerToken r = Some tok).
  { unfold bearerToken. change (Req_Header r) with (hr_Header (cross_origin origin q)). unfold q.
    rewrite authorization_sent, Hnorm, CutPrefix_app. cbn [negb]. by rewrite Htrim, (proj2 (String.eqb_neq _ _) Hne). }
  unfold ProjectAuth. rewrite Hbearer.
  pose proof (known_authenticates _ tok _ _ _ w (world_known_at _ _ _ _ _ Hopen) Hne Hw) as Ha.
  destruct (Authenticate tok w) as [[tc|e] w1]; destruct Ha as [Hw1 Ha].
  2:{ split; [done|]. left. unfold refuse_auth. rewrite Ha. by apply answered_WriteError. }
  destruct Ha as (Hid & _ & _ & Hr). unfold CanManageProject. rewrite Hr. change (String.eqb RoleAdmin RoleAdmin) with true.
  cbn [negb]. unfold console_Me, TenantIDFromContext. cbn [ctx_tenant WithTenantID svc_GetProject world_projects].
  unfold GetProject. cbn [store_GetProject world_store]. unfold on_part. rewrite Hid.
  rewrite <- Hw1 in Hopen. pose proof (opened_project _ _ _ _ (w_db w1) Hopen) as Hp. pose proof (reads_GetProject tenantID (w_db w1)) as Hc.
  rewrite Hw1 in Hp, Hc. destruct (pg_GetProject tenantID (w_db w1)) as [[s|e] x]; cbn [fst snd w_db set_db] in *.
  - split; [exact Hc|]. right. destruct Hp as (t & Ht & Htid & Hmatch). exists t, s. repeat (split; [done|]).
    rewrite answered_WriteJSON by done. split; [done|]. rewrite body_WriteJSON by done. by rewrite Hbody.
  - rewrite Hp. cbn [fst snd]. split; [exact Hc|]. left. by apply answered_WriteError.
Qed.

(** C12: signing up, from the form to the project on the page.  In a tab whose
    storage works, with random bytes from the browser, tables that keep their
    constraints and a payload below 1 MiB that the server's scanner reads as it
    was written: when the console of a configured origin says that the project
    was created, the server's tables have exactly that project added - the
    form's normalised name, the digest of the key that the browser made, as an
    admin key, and the form's rules - and the page and its tab hold that key and
    the page shows it.  The load that follows, nothing else having reached the
    server in between, leaves the tables as they are and puts on the page, as
    the JSON parser reads it, that project: that name, active, with that key as
    its only one and those rules, as the database stores them.  Only a failure
    of the database, answered 503, can leave the page without it; the new key is
    never refused.  (Without a storage it is: [blocked_storage_refused].) *)
Theorem signup_opens_project name rules (p : page (world (D := D) (E := E) * R)) :
  let bytes := fst (random 24 (snd (pg_world p))) in
  let key := generateKey name bytes in
  let payload := project_payload name key rules in
  let tables := fun p : page (world (D := D) (E := E) * R) => committed (w_db (fst (pg_world p))) in
  pg_storage p <> Blocked -> Forall (fun b => 0 <= b < 256) bytes -> db_ok (tables p) ->
  json_scan (stringify payload) = Some payload -> len (stringify payload) < 2 ^ 20 ->
  let '(created_it, p1) := handleCreate API_BASE name rules p in
  let p2 := after_render API_BASE "" p1 in
  created_it = true ->
  token (pg_view p2) = raw key /\ pg_storage p2 = Stored (Some (raw key)) /\
  reveal (pg_view p2) = Some (name, raw key, "project") /\
  exists new, filed name key rules new /\ created new (tables p) (tables p2) /\
    ((exists s, just_created new s /\
        project (pg_view p2) = default JNull (parse (json_print (projectPayload s) +:+ newline))) \/
     (project (pg_view p2) = project (pg_view p) /\ exists code, error (pg_view p2) = friendly (ApiError 503 code))).
Proof.
  intros bytes key payload tables Hst Hbytes Hdb Hscan Hlen. unfold handleCreate, fresh_key, call. cbn zeta.
  change (pg_world (begin_create p)) with (pg_world p). destruct p as [[|item] v [w r]]; [done|]. clear Hst.
  unfold tables in *. clear tables. cbn [pg_world getRandomValues web snd fst] in *.
  destruct (random 24 r) as [bytes' r'] eqn:Er. cbn [fst] in bytes. subst bytes.
  cbn [set_world pg_world]. fold key. unfold createProject, requestPublic. fold payload.
  change (public API_BASE _ payload) with (create_call API_BASE payload).
  pose proof (fetch_server (create_call API_BASE payload) w r' (create_call_ok API_BASE payload)) as Hf.
  pose proof (create_served payload name key rules w eq_refl (generated_hash name bytes') (generated_digest name bytes') Hscan Hlen) as Hc.
  destruct (server _ _ w) as [rw w1]. rewrite Hf. clear Hf. unfold settle_public, settle_response, res_ok. cbn [StatusCode received].
  destruct ((200 <=? answered rw) && (answered rw <=? 299)) eqn:Hok; [|done]. apply andb_prop in Hok as [Ha1%Z.leb_le Ha2%Z.leb_le].
  destruct (Hc (conj Ha1 Ha2)) as (new & Hfiled & Hcreated). cbn [is_ok end_create]. clear Hc Ha1 Ha2 rw. intros _.
  pose proof (created_opened _ _ _ Hcreated) as Hopen. destruct Hfiled as (Hn & Hh & Hfiled'). rewrite Hn, Hh in Hopen.
  rewrite (proj1 (proj2 Hfiled')) in Hopen. set (p1 := setBusy false _).
  assert (Hload : loadProject API_BASE (pg_storage p1) (pg_world p1) = request API_BASE (Stored (Some (raw key))) "/v1/projects/me" "GET" None (w1, r')) by done.
  unfold after_render. change (String.eqb (token (pg_view p1)) "") with false. cbn [orb].
  pose proof (fetch_server _ w1 r' (load_request_ok API_BASE (raw key))) as Hf.
  assert (Hprint : forallb printable (explode (raw key)) = true) by by apply raw_printable.
  pose proof (me_served _ (NP_TenantID new) (normalise name) (raw key) w1 eq_refl Hopen
                ltac:(by apply raw_trimmed) ltac:(done) ltac:(by apply bearer_normalised)) as Hm.
  destruct (server _ _ w1) as [rw w2]. unfold request in Hload. cbn [getToken] in Hload. rewrite Hf in Hload. clear Hf.
  unfold settle_scoped, settle_response, res_ok, read_data in Hload. cbn [StatusCode received Resp_fault Resp_Body] in Hload.
  destruct Hm as [Hsame Hm]. rewrite <- Hsame in Hcreated.
  assert (Hnew : filed name key rules new) by exact (conj Hn (conj Hh Hfiled')).
  destruct Hm as [Hm|(t & s & Ht & Hid & Hs & Hm & Hbody)]; rewrite Hm in Hload; rewrite (refresh_answer _ _ _ _ Hload);
    (split; [reflexivity|]; split; [reflexivity|]; split; [reflexivity|]; exists new; split; [exact Hnew|]; split; [exact Hcreated|]).
  - right. split; [done|]. eexists. reflexivity.
  - left. exists s. rewrite <- Hsame in Ht, Hs. split; [by apply (created_summary new _ _ t s Hdb Hcreated)|]. by rewrite Hbody.
Qed.

(** No token in the header: refused, with the text of an invalid token. *)
Lemma no_token_refused w : let '(rw, w') := server (sent_to_server (authorized API_BASE "" "/v1/projects/me" "GET" None)) (Conn fresh_response) w in
  answered rw = 401 /\ res_body (base rw) = [Encoded (JObject [("error", JString "unauthorized")])].
Proof.
  set (q := authorized _ _ _ _ _). assert (Hpath : URL_Path (sent_to_server q) = "/v1/projects/me") by apply path_of_api.
  destruct (console_route (metrics_page promhttp) (dependencies cfg) (sent_to_server q)
              (fun r => ProjectAuth console_Me (with_path_values r [])) w ltac:(by rewrite Hpath) ltac:(discriminate)
              ltac:(intros; by apply mux_me)) as (rw1 & Hs & Hbody & Hr).
  unfold server_handler. destruct (NewMux _ _ _ _ _) as [rw w']. destruct Hr as [Hb _]. rewrite Hb, (answered_same _ _ Hb).
  unfold ProjectAuth. change (bearerToken (with_path_values (sent_to_server q) [])) with (@None string). cbn [fst].
  unfold WriteError. rewrite answered_WriteJSON, body_WriteJSON by done. by rewrite Hbody.
Qed.

(** Without a tab storage nobody can sign in.  Where the browser refuses access
    to [sessionStorage] the console goes on, but every sign-in, also with a
    valid token, sends no token at all and ends with the message that the token
    is not valid. *)
Theorem blocked_storage_refused value (p : page (world (D := D) (E := E) * R)) :
  let refusal := JObject [("error", JString "unauthorized")] in
  parse (json_print refusal +:+ newline) = Some refusal -> pg_storage p = Blocked ->
  let p' := signIn API_BASE value p in
  token (pg_view p') = token (pg_view p) /\ project (pg_view p') = project (pg_view p) /\
  landingError (pg_view p') = JString "That token is not valid.".
Proof.
  intros refusal Hparse Hst. destruct p as [s v [w r]]. cbn [pg_storage] in Hst. subst s.
  pose proof (fetch_server _ w r (load_request_ok API_BASE "")) as Hf. pose proof (no_token_refused w) as Hn.
  destruct (server _ _ w) as [rw w']. destruct Hn as [Hst Hbody]. cbn zeta. unfold signIn, begin_signIn, end_signIn, call, loadProject, request, settle_scoped.
  cbn [set_storage setLandingError setBusy on_view pg_storage pg_world setToken getToken]. rewrite Hf.
  unfold settle_response, res_ok, read_data. cbn [StatusCode received Resp_fault Resp_Body]. rewrite Hst, Hbody.
  cbn [map String.concat chunk_text]. unfold refusal in Hparse. rewrite Hparse.
  split; [reflexivity|]. split; reflexivity.
Qed.

End Onboarding.

(** ** A sign-up, run *)

Module Demo.
#[local] Existing Instances redis7 plain_text canonical hundredths in_memory.
#[local] Existing Instances System.Demo.connections System.Demo.clock System.Demo.log System.Demo.prom System.Demo.random.
#[local] Existing Instance Console.Demo.plain.

Definition bytes : list Z := repeat 7 24.
Definition rules : list draft := fm_rules (edited [TypeName "demo-app"; ClickPreset 0; ClickPreset 2]).
Definition payload : json := project_payload "demo-app" (generateKey "demo-app" bytes) rules.
#[local] Instance scanner : GoJSON := {| json_scan s := Some payload; unicode_fold_eq a b := false |}.
#[local] Instance printer : JSONText := {| json_print j := "{}"; unmarshal_error s := Text "json" |}.

Definition origin : string := "https://gorate.example".
Definition demo_env (key : string) : string := if String.eqb key "DASHBOARD_ORIGINS" then origin else "".
Definition boot : result string running := startup System.Demo.good_link demo_env tt.
Definition random (n : nat) (r : unit) : list Z * unit := (repeat 7 n, r).

#[local] Instance server_web (s : running (D := memory) (E := unit)) : Web (world (D := memory) (E := unit) * unit) :=
  web System.Demo.good_link (fun _ => 0%nat) (fun _ => "") (run_limiter s) (run_config s) "https://api.example" origin
    "203.0.113.9:4000" random.

Definition blank_page (s : running (D := memory) (E := unit)) : page (world (D := memory) (E := unit) * unit) :=
  {| pg_storage := Stored None; pg_world := (run_world s, tt);
     pg_view := {| token := ""; project := JNull; landingError := no_message; error := no_message; busy := false;
                   newOpen := true; reveal := None; toast := "" |} |}.

Definition sign_up (s : running (D := memory) (E := unit)) : bool * page (world (D := memory) (E := unit) * unit) :=
  handleCreate (Web0 := server_web s) "https://api.example" "demo-app" rules (blank_page s).

Lemma sign_up_works : match boot with
  | Ok s => fst (sign_up s) && bool_decide (origin ∈ allowed_origins (cfg_DashboardOrigins (run_config s)))
  | Err _ => false
  end = true.
Proof. vm_compute. reflexivity. Qed.

Lemma boot_empty : match boot with
  | Ok s => committed (w_db (run_world s)) = empty_db
  | Err _ => False
  end.
Proof. vm_compute. reflexivity. Qed.

Lemma signup_opens_project_witness :
  match boot with
  | Err _ => False
  | Ok s =>
      let p2 := after_render (Web0 := server_web s) "https://api.example" "" (snd (sign_up s)) in
      let key := generateKey "demo-app" bytes in
      fst (sign_up s) = true /\ token (pg_view p2) = raw key /\
      reveal (pg_view p2) = Some ("demo-app", raw key, "project") /\
      exists new, filed "demo-app" key rules new /\ created new empty_db (committed (w_db (fst (pg_world p2))))
  end.
Proof.
  pose proof sign_up_works as Hw. pose proof boot_empty as He. destruct boot as [s|e]; [|discriminate Hw].
  apply andb_prop in Hw as [Hc Ho%bool_decide_eq_true_1]. cbn zeta. split; [exact Hc|].
  assert (Hd : db_ok (committed (w_db (fst (pg_world (blank_page s)))))).
  { change (db_ok (committed (w_db (run_world s)))). rewrite He. apply empty_db_ok. }
  pose proof (signup_opens_project System.Demo.good_link (fun _ => 0%nat) (fun _ => "") (run_limiter s) (run_config s)
    "https://api.example" origin "203.0.113.9:4000" random Ho "demo-app" rules (blank_page s)
    ltac:(discriminate) ltac:(repeat constructor; discriminate) Hd eq_refl eq_refl) as Ht.
  fold (server_web s) in Ht. fold (sign_up s) in Ht. destruct (sign_up s) as [created_it p1]. cbn [fst snd] in *.
  destruct (Ht Hc) as (H1 & _ & H2 & new & H3 & H4 & _). split; [exact H1|]. split; [exact H2|].
  exists new. split; [exact H3|]. change (committed (w_db (fst (pg_world (blank_page s))))) with (committed (w_db (run_world s))) in H4.
  rewrite He in H4. exact H4.
Defined.
End Demo.
