(* ===== verification/Monitoring.v ===== *)
(** The metrics of the assembled server: nothing that [System] wires together
    counts requests, except the middleware, so [Measured] holds of it. *)

From stdpp Require Import base gmap strings list.
From Stdlib Require Import ZArith NArith Lia.
From S2P Require Import Prelude Float64 GoStrings Domain Uuid RuleResolver Redis RateLimiter Ports CheckService AuthService RuleCache.
From S2P Require Import Provisioning Http Observability Decode Os Config Middleware SignupLimit Handlers Server Frame Measured.
From S2P Require Import Database Postgres System.

Local Open Scope Z_scope.

Section Monitoring.
Context `{!RedisServer} `{!UUIDText} `{!GoText} `{!GoJSON} `{!Numeric}.
Context {D : Type} `{!Postgres D} `{!Connections D redis}.
Context {E : Type} `{!GoClock E} `{!GoLog E} `{!Prometheus E} `{!Registry E} `{!GoUUID E}.
Variable next_link : E -> link * E.
Variable spare : E -> nat.
Variable promhttp : E -> string.
Variable limiter : RateLimiter.

Abbreviation state := (world (D := D) (E := E)).
#[local] Instance monitored_signup : SignupState state := world_signup spare.
#[local] Instance monitored_checker : RateLimitChecker state := world_checker next_link limiter.
#[local] Existing Instances world_projects cached_clock cached_rules.

(** The registry is one of the surroundings. *)
#[export] Instance world_registry : Registry state.
Proof.
  refine {| series m l w := series m l (w_env w) |}; intros; [by apply series_Inc|by apply series_Observe].
Defined.

(** The surroundings count no request by themselves: not when a line is logged,
    a UUID is drawn or Redis is called. *)
Record quiet_surroundings : Prop := {
  qs_log msg kv (e : E) : same_requests e (slog_Info msg kv e);
  qs_uuid (e : E) : same_requests e (snd (uuid_New e));
  qs_link e : same_requests e (snd (next_link e))
}.

Section Quiet.
Hypothesis Hq : quiet_surroundings.

Lemma same_surroundings (w w' : state) : w_env w' = w_env w -> same_requests w w'.
Proof. intros He m l _. cbn [series world_registry]. by rewrite He. Qed.

Lemma surroundings_step (w w' : state) : same_requests (w_env w) (w_env w') -> same_requests w w'.
Proof. intros Hs m l Hm. by apply Hs. Qed.

Lemma on_db_uncounted {A} (m : Op D A) : keeps same_requests (on_part w_db set_db m).
Proof. intros w. apply same_surroundings. unfold on_part. by destruct (m (w_db w)). Qed.

Lemma ListByTenant_env t (w : state) : w_env (snd (ListByTenant t w)) = w_env w.
Proof.
  cbn [ListByTenant world_rules]. unfold on_part.
  change (ListByTenant t (cache_view w)) with (cached_ListByTenant t (cache_view w)). unfold cached_ListByTenant, cache_view.
  destruct (cache_get _ _ _); [done|]. cbn [ListByTenant cached_rules]. unfold on_part. cbn [fst snd].
  by destruct (pg_ListByTenant t (w_db w)) as [[rs|e] d].
Qed.

Lemma ListByTenant_uncounted t : keeps same_requests (ListByTenant t).
Proof. intros w. apply same_surroundings, ListByTenant_env. Qed.

Lemma CreateProject_uncounted n h p r rs : keeps same_requests (CreateProject n h p r rs).
Proof.
  intros w. unfold CreateProject, fail. repeat (destruct (_ : bool); [reflexivity|]).
  unfold uuid_New at 1, world_uuid, world_New.
  assert (Hw : same_requests w (set_env (snd (uuid_New (w_env w))) w)) by apply surroundings_step, (qs_uuid Hq).
  destruct (check_rules _ _ _ _); [|exact Hw]. set (w1 := set_env _ w) in *. set (p0 := Build_NewProject _ _ _ _ _ _).
  pose proof (on_db_uncounted (pg_CreateProject p0) w1) as Hdb. cbn [store_CreateProject world_store].
  destruct (on_part w_db set_db (pg_CreateProject p0) w1) as [[[]|e] w2]; by etrans.
Qed.

Lemma AddAPIKey_uncounted t h p r : keeps same_requests (AddAPIKey t h p r).
Proof.
  intros w. unfold AddAPIKey, fail. repeat (destruct (_ : bool); [reflexivity|]). apply on_db_uncounted.
Qed.

#[local] Instance ports_uncounted : PortsWrite (W := state) same_requests.
Proof.
  constructor; [constructor|..]; try (intros; apply on_db_uncounted).
  - apply _.
  - intros l w. by apply same_surroundings.
  - exact ListByTenant_uncounted.
  - exact CreateProject_uncounted.
  - exact AddAPIKey_uncounted.
Qed.

Lemma limiter_uncounted t r s c : keeps (W := state) same_requests (checker_Check t r s c).
Proof.
  intros w. cbn [checker_Check monitored_checker world_checker]. unfold CheckService_Check.
  apply (keeps_then same_requests _ w _ (ListByTenant_uncounted t)). destruct (ListByTenant t w) as [[rules|e] w1]; [|reflexivity].
  destruct (Resolve rules r); [|reflexivity]. cbn [limiter_Check world_limiter]. unfold limit_call.
  pose proof (qs_link Hq (w_env w1)) as Hl. destruct (next_link (w_env w1)) as [l e].
  destruct (RateLimiter_Check _ _ _ _ _ _ _) as [[d|err] x]; [|destruct (Is err ErrRateLimitBackend)]; by apply surroundings_step.
Qed.

(** What [Measured] asks of the server holds of the assembled one. *)
Lemma server_quiet cfg : counts_nothing (W := state) (metrics_page promhttp) (dependencies cfg).
Proof.
  constructor.
  - intros msg kv w. apply surroundings_step, (qs_log Hq).
  - exact ports_uncounted.
  - exact limiter_uncounted.
  - apply Forall_cons_2; [apply on_db_uncounted|apply Forall_cons_2; [|apply Forall_nil_2]].
    intros w. apply same_surroundings. unfold on_part. by destruct (ClientPinger_Ping (w_redis w)).
  - by intros r rw w m l.
  - intros r rw w Hs. unfold metrics_page, recorded, answered. cbn -[Write]. rewrite base_Write. unfold send. cbn. by rewrite Hs.
Qed.

End Quiet.

Lemma startup_uncounted getenv e s : quiet_surroundings -> startup next_link getenv e = Ok s ->
  same_requests e (w_env (run_world s)).
Proof.
  intros Hq. unfold startup. destruct (Load getenv) as [cfg|]; [|done]. destruct (NewPool _) as [pool|]; [|done].
  destruct (NewClient _) as [client|]; [|done]. pose proof (qs_link Hq e) as Hl1. destruct (next_link e) as [l1 e1].
  pose proof (qs_link Hq e1) as Hl2. destruct (next_link e1) as [l2 e2].
  destruct (NewRateLimiter l1 l2 client) as [[lim|] c]; [|done]. intros [= <-]. by etrans.
Qed.

(** ** Properties *)

(** C31: the metrics count the requests.  A request that is no cross-origin
    preflight and that is public, for the console or admin API, or carries a
    valid key adds one to the counter with its method, its route label and the
    class of the status the client got, and one latency; no other series of
    requests changes, and any other request changes none. *)
Theorem requests_counted cfg r (w : state) : quiet_surroundings ->
  let '(rw', w') := server_handler next_link spare promhttp limiter cfg r (Conn fresh_response) w in
  if measured (dependencies cfg) r w then counted_once r (answered rw') w w' else same_requests w w'.
Proof. intros Hq. apply (server_counts (metrics_page promhttp) (dependencies cfg) (server_quiet Hq cfg)). Qed.

(** The latencies agree with the requests.  From the start-up on and however
    many requests are served, for every method and route label the latency
    histogram has as many observations as the request counters of all status
    classes together. *)
Theorem latency_counts_agree getenv e s rs : quiet_surroundings -> counts_agree e -> startup next_link getenv e = Ok s ->
  counts_agree (serve_all (metrics_page promhttp) (dependencies (run_config s)) rs (run_world s)).
Proof.
  intros Hq Ha Hs. apply serve_all_agrees; [by apply server_quiet|]. exact (agree_same _ _ (startup_uncounted _ _ _ Hq Hs) Ha).
Qed.

End Monitoring.

(** ** A server with a registry *)

Module Demo.
Import Measured.Demo.
#[local] Existing Instances redis7 plain_text canonical hundredths in_memory prom registry System.Demo.scanner System.Demo.connections.
#[local] Instance clock : GoClock events := {| Now w := 1000000000000 |}.
#[local] Instance log : GoLog events := {| slog_Info m kv w := w |}.
#[local] Instance random : GoUUID events := {| uuid_New w := (7%N, w); uuid_New_nonzero w := ltac:(done) |}.
Definition good_link (e : events) : link * events := ({| lost := 0; RateLimiter.answered := true; failure := "" |}, e).
Definition no_room (e : events) : nat := 0%nat.
Definition page (e : events) : string := "".

Lemma quiet : quiet_surroundings good_link.
Proof. by constructor. Qed.

Definition boot : result string running := startup good_link (fun _ => "") [].
Definition health_request (method : string) : Request :=
  {| Method := method; URL_Path := "/health/live"; Req_Header := ∅; Body_text := ""; Body_broken := false;
     RemoteAddr := "203.0.113.9:4000"; ctx_tenant := None; path_values := [] |}.

Lemma boot_runs : is_ok boot = true.
Proof. vm_compute. reflexivity. Qed.

Lemma requests_counted_witness :
  match boot with
  | Err _ => False
  | Ok s =>
      measured (dependencies (run_config s)) (health_request "BREW") (run_world s) = true /\
      let '(rw', w') := server_handler good_link no_room page (run_limiter s) (run_config s) (health_request "BREW")
                          (Conn fresh_response) (run_world s) in
      counted_once (health_request "BREW") (answered rw') (run_world s) w'
  end.
Proof.
  pose proof boot_runs as Hb. destruct boot as [s|e]; [|discriminate Hb].
  pose proof (requests_counted good_link no_room page (run_limiter s) (run_config s) (health_request "BREW") (run_world s) quiet) as Hc.
  assert (Hm : measured (dependencies (run_config s)) (health_request "BREW") (run_world s) = true).
  { unfold measured, preflight. by destruct (DashboardOrigins _). }
  rewrite Hm in Hc. by split.
Defined.

Lemma latency_counts_agree_witness :
  exists s, boot = Ok s /\
    counts_agree (serve_all (RateLimitChecker0 := world_checker good_link (run_limiter s)) (ProjectService0 := world_projects)
      (SignupState0 := world_signup no_room) (metrics_page page) (dependencies (run_config s))
      [health_request "GET"; health_request "BREW"] (run_world s)).
Proof.
  pose proof boot_runs as Hb. destruct boot as [s|e] eqn:Eb; [|discriminate Hb]. exists s. split; [done|].
  exact (latency_counts_agree good_link no_room page (run_limiter s) (fun _ => "") [] s
    [health_request "GET"; health_request "BREW"] quiet (fun _ _ => eq_refl) Eb).
Defined.

End Demo.
