(* ===== verification/Quickstart.v ===== *)
(** The README's quick start, run: a server on the database that the migrations
    and the development seed make, asked with the demo key.  Everything between
    the request and the status is the definitions of the other files. *)

From stdpp Require Import base gmap strings list.
From Stdlib Require Import ZArith NArith Lia.
From S2P Require Import Prelude Float64 GoStrings Sha256 Domain Uuid RuleResolver Redis RateLimiter Ports AuthService RuleCache.
From S2P Require Import Provisioning Http Observability Decode Os Config Middleware SignupLimit Handlers Server.
From S2P Require Import Database Postgres System Sql Schema Migrations.

Local Open Scope Z_scope.

#[local] Existing Instances redis7 plain_text canonical hundredths in_memory.

(** The surroundings are the clock, in nanoseconds. *)
#[local] Instance clock : GoClock Z := {| Now t := t |}.
#[local] Instance log : GoLog Z := {| slog_Info msg kv t := t |}.
#[local] Instance prom : Prometheus Z := {| Inc m l t := t; Observe m l d t := t |}.
#[local] Instance random : GoUUID Z := {| uuid_New t := (7%N, t); uuid_New_nonzero t := ltac:(done) |}.
Definition good_link (t : Z) : link * Z := ({| lost := 0; RateLimiter.answered := true; failure := "" |}, t).

(** A body stands for the check of the route that is its text. *)
#[local] Instance scanner : GoJSON :=
  {| json_scan s := Some (JObject [("route", JString s)]); unicode_fold_eq a b := false |}.
#[local] Instance connections : Connections memory (@redis redis7) := {|
  PoolConfig := unit;
  pool_ParseConfig url := Ok tt;
  pool_NewWithConfig c := Ok {| mem_db := demo_db 5; mem_view := None |};
  pool_Ping d := (Ok tt, d);
  RedisOptions := unit;
  redis_ParseURL url := Ok tt;
  redis_NewClient opts := {| Redis.db := ∅; Redis.now_ms := 1000000; Redis.cache := ∅ |};
  redis_Ping s := (Ok tt, s) |}.

Definition check_of (api_key route : string) : Request :=
  {| Method := "POST"; URL_Path := "/v1/check"; Req_Header := Header_Set ∅ "X-API-Key" api_key; Body_text := route;
     Body_broken := false; RemoteAddr := "203.0.113.9:4000"; ctx_tenant := None; path_values := [] |}.
Definition demo_check (route : string) : Request := check_of "rl_demo_abc123xyz" route.

Abbreviation state := (world (D := memory) (E := Z)).
Abbreviation program := (running (D := memory) (E := Z)).

(** A request at a second of the clock *)
Definition serve_at (s : program) (p : list Z * state) (q : Z * Request) : list Z * state :=
  let '(rw, w) := server_handler good_link (fun _ => 0%nat) (fun _ => "") (run_limiter s) (run_config s) (snd q)
                    (Conn fresh_response) (set_env (fst q * 1000000000) (snd p)) in
  (fst p ++ [answered rw], w).

(** The statuses of requests to a server that starts with an empty environment *)
Definition statuses (qs : list (Z * Request)) : list Z :=
  match startup good_link (fun _ => "") 0 with
  | Ok s => fst (fold_left (serve_at s) qs ([], run_world s))
  | Err _ => []
  end.

(** The bucket of the payments holds ten and gets two more each second; the
    orders are counted by themselves; another key is refused, and a route of the
    project without a rule of its own meets the default. *)
Example quickstart : statuses
    (repeat (1000, demo_check "/api/payments/7") 11 ++ [(1000, demo_check "/api/orders"); (1000, demo_check "/else")] ++
     [(1000, check_of "rl_demo_guess" "/api/orders")] ++ repeat (1001, demo_check "/api/payments/7") 3) =
  repeat 200 10 ++ [429; 200; 200; 401; 200; 200; 429].
Proof. vm_compute. reflexivity. Qed.

(** The orders: fifty in a minute. *)
Example quickstart_orders : statuses (repeat (1000, demo_check "/api/orders") 51) = repeat 200 50 ++ [429].
Proof. vm_compute. reflexivity. Qed.
