(* ===== verification/Isolation.v ===== *)
(** Who can change what.  Without the admin token a request changes rows of one
    tenant only: of the tenant whose console key it carries, or of the new
    tenant that it signs up. *)

From stdpp Require Import base gmap strings list.
From Stdlib Require Import ZArith NArith Lia.
From S2P Require Import Prelude Float64 GoStrings Sha256 Domain Uuid RuleResolver Redis RateLimiter Ports CheckService.
From S2P Require Import AuthService RuleCache Provisioning Http Observability Decode Os Config Middleware SignupLimit.
From S2P Require Import Handlers Server Frame Database Postgres PostgresSpec System.

Local Open Scope Z_scope.

(** The rows of all tenants but one *)
Definition others (t : uuid) (d : db) : db :=
  {| tenants := List.filter (fun r => negb (tn_id r =? t)%N) (tenants d);
     api_keys := List.filter (fun r => negb (ak_tenant r =? t)%N) (api_keys d);
     rules := List.filter (fun r => negb (rl_tenant r =? t)%N) (rules d) |}.

(** The tenant a statement writes for *)
Definition stmt_tenant (s : stmt) : uuid :=
  match s with
  | InsertTenant t _ | InsertKey t _ _ _ | InsertKeyIfTenant t _ _ _ | InsertRule t _ _ _ _ _ _ _ | RevokeKey _ t => t
  end.

(** ** Statements and repositories *)

Lemma filter_app_own {A} (own : A -> uuid) t l x : own x = t ->
  List.filter (fun r => negb (own r =? t)%N) (l ++ [x]) = List.filter (fun r => negb (own r =? t)%N) l.
Proof. intros <-. rewrite List.filter_app. simpl. by rewrite N.eqb_refl, app_nil_r. Qed.

Lemma filter_revoked t k l :
  List.filter (fun r => negb (ak_tenant r =? t)%N) (map (fun r => if is_key k t r then revoked_row r else r) l) =
  List.filter (fun r => negb (ak_tenant r =? t)%N) l.
Proof.
  induction l as [|r l IH]; [done|]. cbn [map List.filter].
  destruct (is_key k t r) eqn:Er; cbn [ak_tenant revoked_row]; rewrite IH; [|done].
  apply andb_prop in Er as [_ Er]. by rewrite Er.
Qed.

Lemma insert_key_others id now t h p r d n d' : insert_key id now t h p r d = Ok (n, d') -> others t d' = others t d.
Proof.
  intros (-> & _)%insert_key_eq. unfold others. cbn [tenants api_keys rules set_keys].
  by rewrite (filter_app_own ak_tenant) by done.
Qed.

Lemma effect_others id now s d n d' : effect id now s d = Ok (n, d') ->
  others (stmt_tenant s) d' = others (stmt_tenant s) d.
Proof.
  destruct s as [t nm|t h p r|t h p r|t p a l w c f e|k t]; cbn [effect stmt_tenant].
  - destruct (_ || _); [done|]. intros [= <- <-]. unfold others. cbn [tenants api_keys rules set_tenants].
    by rewrite (filter_app_own tn_id).
  - apply insert_key_others.
  - destruct (has_tenant t d); [apply insert_key_others|by intros [= <- <-]].
  - destruct (negb _); [done|]. destruct (negb _); [done|]. destruct (pattern_taken _ _ _); [done|].
    destruct (negb _); [done|]. intros [= <- <-]. unfold others. cbn [tenants api_keys rules set_rules].
    by rewrite (filter_app_own rl_tenant).
  - intros [= <- <-]. unfold others. cbn [tenants api_keys rules set_keys]. by rewrite filter_revoked.
Qed.

Section Repositories.
Context {D : Type} `{!Postgres D} `{!Numeric} `{!GoText}.

Lemma exec_others s d : others (stmt_tenant s) (committed (snd (pg_exec s d))) = others (stmt_tenant s) (committed d).
Proof.
  destruct (pg_exec s d) as [[n|e] d'] eqn:Ee; cbn [snd].
  - apply pg_exec_ok in Ee as (id & now & _ & He). by eapply effect_others.
  - apply pg_exec_err in Ee as [[->|(_ & id & now & n & _ & He)] _]; [done|by eapply effect_others].
Qed.

Lemma AddAPIKey_others t h p r d : others t (committed (snd (pg_AddAPIKey t h p r d))) = others t (committed d).
Proof.
  pose proof (exec_others (InsertKeyIfTenant t h p r) d) as He. unfold pg_AddAPIKey.
  by destruct (pg_exec _ d) as [[n|e] d'].
Qed.

Lemma RevokeAPIKey_others t k d : others t (committed (snd (pg_RevokeAPIKey t k d))) = others t (committed d).
Proof.
  pose proof (exec_others (RevokeKey k t) d) as He. unfold pg_RevokeAPIKey.
  by destruct (pg_exec _ d) as [[n|e] d'].
Qed.

Lemma created_others p d d' : created p d d' -> has_tenant (NP_TenantID p) d = false /\
  others (NP_TenantID p) d' = others (NP_TenantID p) d.
Proof.
  intros ((now & Et) & (id & now' & Ek) & (rows & Er & Hrows) & Hnew & _). split; [done|].
  unfold others. rewrite Et, Ek, Er, (filter_app_own tn_id), (filter_app_own ak_tenant) by done.
  f_equal. rewrite List.filter_app. rewrite (filter_none _ rows), app_nil_r; [done|].
  clear Er. induction Hrows as [|r row rs rows' [Hr _] _ IH]; constructor; [|done]. by rewrite Hr, N.eqb_refl.
Qed.

Lemma CreateProject_others p d : let d' := committed (snd (pg_CreateProject p d)) in
  d' = committed d \/
  has_tenant (NP_TenantID p) (committed d) = false /\ others (NP_TenantID p) d' = others (NP_TenantID p) (committed d).
Proof.
  unfold pg_CreateProject. destruct (tx_begin d) as [[t|e] d1] eqn:Eb; apply uncommitted_begin in Eb as Hc.
  - pose proof (create_in_tx_spec t p d1 _ (tx_begin_ok _ _ _ Eb) Hc) as Hs.
    destruct (create_in_tx t p d1) as [[[]|e] d2]; cbn [snd]; rewrite uncommitted_rollback.
    + right. by apply created_others.
    + destruct Hs as [[->|[Hcr _]] _]; [by left|right; by apply created_others].
  - by left.
Qed.

End Repositories.

(** ** The server *)

Section Isolation.
Context `{!RedisServer} `{!UUIDText} `{!GoText} `{!GoJSON} `{!Numeric}.
Context {D : Type} `{!Postgres D} `{!Connections D redis}.
Context {E : Type} `{!GoClock E} `{!GoLog E} `{!Prometheus E} `{!GoUUID E}.
Variable next_link : E -> link * E.
Variable spare : E -> nat.
Variable promhttp : E -> string.
Variable limiter : RateLimiter.

Abbreviation state := (world (D := D) (E := E)).
#[local] Instance isolation_signup : SignupState state := world_signup spare.
#[local] Instance isolation_checker : RateLimitChecker state := world_checker next_link limiter.
#[local] Existing Instances world_projects cached_clock cached_rules.

Definition tables (w : state) : db := committed (w_db w).
Definition same_tables (w w' : state) : Prop := tables w' = tables w.

Lemma reads_keep {A} (m : Op D A) : reads m -> keeps same_tables (on_part w_db set_db m).
Proof. intros Hm w. unfold same_tables, tables, on_part. specialize (Hm (w_db w)). by destruct (m (w_db w)). Qed.

Lemma ListByTenant_same t : keeps same_tables (ListByTenant t).
Proof.
  intros w. cbn [ListByTenant world_rules]. unfold on_part, same_tables, tables.
  change (ListByTenant t (cache_view w)) with (cached_ListByTenant t (cache_view w)). unfold cached_ListByTenant, cache_view.
  destruct (cache_get _ _ _); [done|]. cbn [ListByTenant cached_rules]. unfold on_part. cbn [fst snd].
  pose proof (reads_ListByTenant t (w_db w)) as Hr. by destruct (pg_ListByTenant t (w_db w)) as [[rs|e] d].
Qed.

#[local] Instance same_tables_observes : Observes same_tables.
Proof. by constructor. Qed.

#[local] Instance same_tables_reads : PortsRead same_tables.
Proof.
  constructor; try done.
  - split; [done|]. intros w1 w2 w3. unfold same_tables. congruence.
  - intros h. apply reads_keep, reads_FindByHash.
  - intros t. apply reads_keep, reads_GetByID.
  - apply ListByTenant_same.
  - apply reads_keep, reads_ListProjects.
  - intros t. apply reads_keep, reads_GetProject.
Qed.

Lemma checker_same t r s c : keeps same_tables (checker_Check t r s c).
Proof.
  intros w. cbn [checker_Check isolation_checker world_checker]. unfold CheckService_Check.
  apply (keeps_then same_tables _ w _ (ListByTenant_same t)). destruct (ListByTenant t w) as [[rules|e] w1]; [|done].
  destruct (Resolve rules r); [|done]. cbn [limiter_Check world_limiter]. unfold limit_call. destruct (next_link _) as [l e].
  destruct (RateLimiter_Check _ _ _ _ _ _ _) as [[d|err] x]; [done|]. by destruct (Is err ErrRateLimitBackend).
Qed.

(** ** What a request may change *)

(** The tables stay, or the request carries a console key of the one tenant
    whose rows changed, or a new tenant was added with its rows. *)
Inductive permitted (r : Request) (w w' : state) : Prop :=
  | changes_nothing : tables w' = tables w -> permitted r w w'
  | changes_own w0 w1 raw tc : tables w0 = tables w -> bearerToken r = Some raw ->
      Authenticate raw w0 = (Ok tc, w1) -> APIKey_Role (TC_APIKey tc) = RoleAdmin ->
      others (Tenant_ID (TC_Tenant tc)) (tables w') = others (Tenant_ID (TC_Tenant tc)) (tables w) -> permitted r w w'
  | adds_tenant t : has_tenant t (tables w) = false -> others t (tables w') = others t (tables w) -> permitted r w w'.

Definition permits (h : Handler state) : Prop := forall r rw w, permitted r w (snd (h r rw w)).

Lemma keeps_permits h : handler_keeps same_tables h -> permits h.
Proof. intros Hh r rw w. apply changes_nothing, Hh. Qed.

Lemma permitted_around r w w1 w2 w3 : same_tables w w1 -> permitted r w1 w2 -> same_tables w2 w3 -> permitted r w w3.
Proof.
  unfold same_tables. intros Hw1 [Hs|w0 w0' raw tc Hw0 Hb Ha Hr Ho|t Hn Ho] Hw3.
  - apply changes_nothing. congruence.
  - apply (changes_own r w w3 w0 w0' raw tc); [congruence|done|done|done|congruence].
  - eapply adds_tenant; [rewrite <- Hw1; exact Hn|congruence].
Qed.

(** ** The routes *)

Lemma CreateProject_tables n h p role rs (w : state) : let w' := snd (CreateProject n h p role rs w) in
  tables w' = tables w \/
  exists t, has_tenant t (tables w) = false /\ others t (tables w') = others t (tables w).
Proof.
  cbn zeta. unfold CreateProject, fail. repeat (destruct (_ : bool); [by left|]).
  change (uuid_New w) with (world_New w). unfold world_New.
  set (t := fst (uuid_New (w_env w))). destruct (check_rules t _ _ _) as [rules'|]; [|by left].
  set (np := Build_NewProject _ _ _ _ _ _). pose proof (CreateProject_others np (w_db w)) as Hc.
  cbn [store_CreateProject world_store]. unfold on_part. cbn [w_db set_env].
  destruct (pg_CreateProject np (w_db w)) as [[[]|e] d]; cbn [snd] in *;
    (destruct Hc as [Hc|Hc]; [by left|right; by exists t]).
Qed.

Lemma create_permits : permits (SignupLimit console_Create).
Proof.
  intros r rw w. unfold SignupLimit. destruct (allow _ _ _ _) as [ok l].
  destruct (negb ok); [by apply changes_nothing|]. unfold console_Create.
  destruct (decodeBody _ _ _) as [body|]; [|by apply changes_nothing]. cbn [svc_CreateProject world_projects].
  set (w0 := set_limiter l w). pose proof (CreateProject_tables (cp_Name body) (cp_KeyHash body) (cp_KeyPrefix body) RoleAdmin
    (map toEntity (cp_Rules body)) w0) as Hc. change (tables w0) with (tables w) in Hc.
  destruct (CreateProject _ _ _ _ _ w0) as [[t|e] w1]; cbn [snd] in *;
    (destruct Hc as [Hc|(t' & Hn & Ho)]; [by apply changes_nothing|by apply adds_tenant with t']).
Qed.

(** A console handler that writes rows of the tenant in its context only. *)
Definition writes_own (h : Handler state) : Prop := forall r rw w t, ctx_tenant r = Some t ->
  others t (tables (snd (h r rw w))) = others t (tables w).

Lemma AddKey_own : writes_own console_AddKey.
Proof.
  intros r rw w t Ht. unfold console_AddKey, TenantIDFromContext. rewrite Ht.
  destruct (decodeBody _ _ _) as [body|]; [|done]. cbn [svc_AddAPIKey world_projects]. unfold AddAPIKey, fail.
  repeat (destruct (negb _); [done|]). cbn [store_AddAPIKey world_store]. unfold on_part.
  pose proof (AddAPIKey_others t (normalise (akb_KeyHash body)) (TrimSpace (akb_KeyPrefix body))
    (if String.eqb (akb_Role body) "" then RoleCheck else akb_Role body) (w_db w)) as Ho.
  by destruct (pg_AddAPIKey _ _ _ _ (w_db w)) as [[[]|e] d].
Qed.

Lemma RevokeKey_own : writes_own console_RevokeKey.
Proof.
  intros r rw w t Ht. unfold console_RevokeKey, TenantIDFromContext. rewrite Ht.
  destruct (uuid_Parse _) as [k|]; [|done]. unfold answer_revoke. cbn [svc_RevokeAPIKey world_projects].
  unfold RevokeAPIKey. cbn [store_RevokeAPIKey world_store]. unfold on_part.
  pose proof (RevokeAPIKey_others t k (w_db w)) as Ho. by destruct (pg_RevokeAPIKey t k (w_db w)) as [[[]|e] d].
Qed.

Lemma own_permits h : writes_own h -> permits (ProjectAuth h).
Proof.
  intros Hh r rw w. pose proof (ProjectAuth_guard h r rw w) as Hg. destruct (ProjectAuth h r rw w) as [rw' w'].
  cbn [snd]. destruct Hg as [(raw & tc & w1 & Hb & Ha & Hrole & En)|(_ & [[_ ->]|(raw & _ & ->)])].
  - apply changes_own with w w1 raw tc; [done..|]. pose proof (keeps_Authenticate same_tables raw w) as Hk.
    rewrite Ha in Hk. unfold same_tables in Hk. cbn [snd] in Hk. rewrite <- Hk.
    pose proof (Hh (WithTenantID r (Tenant_ID (TC_Tenant tc))) rw w1 _ eq_refl) as Ho. by rewrite <- En in Ho.
  - by apply changes_nothing.
  - apply changes_nothing, (keeps_Authenticate same_tables).
Qed.

(** The request does not carry the admin token. *)
Definition no_token (token : string) (r : Request) : Prop :=
  ~ (token <> "" /\ exists p, Header_Get (Req_Header r) "Authorization" = "Bearer " +:+ p /\ TrimSpace p = token).

Lemma admin_permits token h r rw w : no_token token r -> permitted r w (snd (AdminAuth token h r rw w)).
Proof.
  intros Hno. destruct (AdminAuth_guard token h r rw w) as [(_ & H1' & H2')|[[-> _]|[-> _]]];
    [by destruct Hno|by apply changes_nothing..].
Qed.

Definition allowed_route (token : string) (rt : route state) : Prop :=
  permits (rt_handler rt) \/ exists h, rt_handler rt = AdminAuth token h.

Hypothesis Hping : reads pool_Ping.

Lemma ready_permits cfg : permits (Ready (HealthCheckers (dependencies cfg))).
Proof.
  apply keeps_permits, keeps_Ready; [apply _|]. apply Forall_cons_2; [by apply reads_keep|].
  apply Forall_cons_2; [|apply Forall_nil_2]. intros w. unfold on_part, ClientPinger_Ping. by destruct (redis_Ping (w_redis w)).
Qed.

Lemma routes_allowed cfg :
  Forall (allowed_route (cfg_AdminToken cfg)) (routes (metrics_page promhttp) (dependencies cfg)).
Proof.
  pose proof (keeps_CheckHandler same_tables checker_same) as Hcheck.
  unfold routes, check_routes, config_routes, console_routes, admin_routes. rewrite !Forall_app.
  cbn [has_Check has_AuthService has_Console has_Projects dependencies AdminToken andb].
  destruct (negb (String.eqb (cfg_AdminToken cfg) ""));
    repeat split; repeat apply Forall_cons_2; try apply Forall_nil_2;
    try (right; eexists; reflexivity); left; cbn [rt_handler mk_route];
    auto using ready_permits, create_permits, own_permits, AddKey_own, RevokeKey_own;
    apply keeps_permits;
    first [exact Hcheck|apply keeps_Live|apply keeps_ListTenants|apply keeps_ListTenantRules
          |apply keeps_ProjectAuth, keeps_console_Me|intros r rw w; reflexivity]; apply _.
Qed.

(** Whatever a request reaches is permitted. *)
Lemma handled_permitted cfg r rw w : no_token (cfg_AdminToken cfg) r ->
  permitted r w (snd (server_handler next_link spare promhttp limiter cfg r rw w)).
Proof.
  intros Hno. destruct (NewMux_reaches (metrics_page promhttp) same_tables (dependencies cfg) r rw w)
    as [Hp|(rt & vs & tenant & rw1 & w1 & Hrt & Hw1 & Hw2)]; [by apply changes_nothing|].
  refine (permitted_around r w w1 _ _ Hw1 _ Hw2).
  assert (Hr : forall w2, permitted (routed r tenant vs) w1 w2 -> permitted r w1 w2).
  { intros w2 [Hs|w0 w0' raw tc H0' Hb Ha Hrole Ho|t Hn Ho]; [by apply changes_nothing| |by apply adds_tenant with t].
    apply (changes_own r w1 w2 w0 w0' raw tc); [done| |done..]. by destruct tenant. }
  apply Hr. destruct (proj1 (Forall_forall _ _) (routes_allowed cfg) rt (rd_in _ _ _ _ Hrt)) as [Hp|[h ->]]; [apply Hp|].
  apply admin_permits. by destruct tenant.
Qed.

End Isolation.

(** ** Properties *)

(** C3: tenants are isolated.  Whatever the request, whatever fails on the way,
    without the admin token the tables change for one tenant at most: the
    tables stay as they are; or the request carries a bearer token that
    authenticates an active admin key of a tenant, and the rows of every other
    tenant stay as they are; or it signs up a tenant that did not exist, and
    the rows of every other tenant stay as they are. *)
Theorem server_isolates_tenants `{!RedisServer} `{!UUIDText} `{!GoText} `{!GoJSON} `{!Numeric}
    {D : Type} `{!Postgres D} `{!Connections D redis} {E : Type} `{!GoClock E} `{!GoLog E} `{!Prometheus E} `{!GoUUID E}
    (next_link : E -> link * E) spare promhttp limiter cfg r (w : world (D := D) (E := E)) :
  reads (D := D) pool_Ping -> no_token (cfg_AdminToken cfg) r ->
  let '(rw', w') := server_handler next_link spare promhttp limiter cfg r (Conn fresh_response) w in
  let d := committed (w_db w) in let d' := committed (w_db w') in
  d' = d \/
  (exists (w0 w1 : world (D := D) (E := E)) raw tc, committed (w_db w0) = d /\ bearerToken r = Some raw /\ Authenticate raw w0 = (Ok tc, w1) /\
     APIKey_Role (TC_APIKey tc) = RoleAdmin /\
     others (Tenant_ID (TC_Tenant tc)) d' = others (Tenant_ID (TC_Tenant tc)) d) \/
  (exists t, has_tenant t d = false /\ others t d' = others t d).
Proof.
  intros Hping Hno.
  pose proof (handled_permitted next_link spare promhttp limiter Hping cfg r (Conn fresh_response) w Hno) as Hp.
  destruct (server_handler _ _ _ _ _ _ _ _) as [rw' w']. cbn [snd] in Hp.
  destruct Hp as [Hs|w0 w1 raw tc Hw0 Hb Ha Hrole Ho|t Hn Ho]; [by left|right; left|right; right; by exists t].
  exists w0, w1, raw, tc. done.
Qed.

(** ** An administrator of one project revokes a key *)

Module Demo.
#[local] Existing Instances redis7 plain_text canonical hundredths in_memory.
#[local] Existing Instances System.Demo.scanner System.Demo.connections System.Demo.clock System.Demo.log
  System.Demo.prom System.Demo.random.

Definition tenant_row_of (t : uuid) : tenant_row :=
  {| tn_id := t; tn_name := "demo"; tn_status := "active"; tn_created := 0 |}.
Definition key_of (id t : uuid) (raw role : string) : key_row :=
  {| ak_id := id; ak_tenant := t; ak_hash := HashAPIKey raw; ak_prefix := "rl_"; ak_status := "active"; ak_role := role;
     ak_created := 1 |}.
Definition two_projects : db :=
  {| tenants := [tenant_row_of 7; tenant_row_of 8];
     api_keys := [key_of 1 7 "rl_admin" "admin"; key_of 2 7 "rl_check" "check"; key_of 3 8 "rl_other" "admin"];
     rules := [] |}.
Definition settings : Config :=
  {| HTTPPort := 8080; DatabaseURL := "postgres://db"; RedisURL := "redis://r"; LogLevel := "info"; cfg_AdminToken := "";
     cfg_DashboardOrigins := []; cfg_BehindProxy := true; RuleCacheTTL := 0; ShutdownTimeout := 0 |}.
Definition scripts_loaded : RateLimiter := {| tokenBucketSHA := ""; slidingWindowSHA := "" |}.

Definition before : world (D := memory) (E := unit) :=
  {| w_db := {| mem_db := two_projects; mem_view := None |}; w_cache := NewRuleCache 0; w_redis := empty_redis 0;
     w_signup := new_limiter 5 3600 true; w_env := tt |}.

(** The revocation of the key [id], with the key of the first project. *)
Definition revocation (id : uuid) : Request :=
  {| Method := "DELETE"; URL_Path := "/v1/projects/me/keys/" +:+ uuid_String id;
     Req_Header := Header_Set ∅ "Authorization" "Bearer rl_admin"; Body_text := ""; Body_broken := false;
     RemoteAddr := "203.0.113.9:4000"; ctx_tenant := None; path_values := [] |}.
Definition handled (id : uuid) : writer * world (D := memory) (E := unit) :=
  server_handler System.Demo.good_link (fun _ => 0%nat) (fun _ => "") scripts_loaded settings (revocation id)
    (Conn fresh_response) before.

(** Its own key is revoked, the other project's is not found. *)
Lemma server_isolates_tenants_witness :
  answered (fst (handled 2)) = 204 /\ answered (fst (handled 3)) = 404 /\
  map ak_status (api_keys (committed (w_db (snd (handled 2))))) = ["active"; "revoked"; "active"] /\
  (committed (w_db (snd (handled 2))) = two_projects \/
   (exists (w0 w1 : world (D := memory) (E := unit)) raw tc, committed (w_db w0) = two_projects /\
      bearerToken (revocation 2) = Some raw /\ Authenticate raw w0 = (Ok tc, w1) /\
      APIKey_Role (TC_APIKey tc) = RoleAdmin /\
      others (Tenant_ID (TC_Tenant tc)) (committed (w_db (snd (handled 2)))) = others (Tenant_ID (TC_Tenant tc)) two_projects) \/
   (exists t, has_tenant t two_projects = false /\
      others t (committed (w_db (snd (handled 2)))) = others t two_projects)).
Proof.
  split; [by vm_compute|]. split; [by vm_compute|]. split; [by vm_compute|].
  pose proof (server_isolates_tenants System.Demo.good_link (fun _ => 0%nat) (fun _ => "") scripts_loaded settings
    (revocation 2) before (fun d => eq_refl) (fun H => proj1 H eq_refl)) as Ht.
  unfold handled. destruct (server_handler _ _ _ _ _ _ _ _) as [rw' w']. exact Ht.
Defined.

End Demo.
