(* ===== verification/Minting.v ===== *)
(** A key minted in the console, from the button to the check: the key that the
    page reveals is a check key of the tenant whose token the page holds. *)

From stdpp Require Import base gmap strings list.
From Stdlib Require Import ZArith NArith Lia Ascii.
From S2P Require Import Prelude Float64 GoStrings Sha256 Domain Uuid RuleResolver Redis RateLimiter Ports CheckService AuthService RuleCache.
From S2P Require Import RateLimiterSpec LimiterRun Provisioning Http Observability Decode Os Config Middleware SignupLimit Handlers Client Server Frame.
From S2P Require Import Browser Console ConsoleForm Database Postgres PostgresSpec System Onboarding Isolation.

Local Open Scope Z_scope.

(** ** The request *)

Section Requests.
Context `{!JavaScript}.
Variable API_BASE : string.

Definition mint_call (tok : string) (payload : json) : http_request :=
  authorized API_BASE tok "/v1/projects/me/keys" "POST" (Some payload).

Lemma mint_call_ok tok payload : page_call (path_of API_BASE) (mint_call tok payload).
Proof.
  split; cbn [hr_URL hr_Method mint_call authorized].
  - by rewrite path_of_api.
  - right. by left.
  - vm_compute. repeat constructor.
  - reflexivity.
Qed.

Lemma mint_authorization origin tok payload : Header_Get (hr_Header (cross_origin origin (mint_call tok payload))) "Authorization" =
  normalised ("Bearer " +:+ tok).
Proof. reflexivity. Qed.

Lemma key_payload_read `{!GoJSON} k : read_addKeyBody (key_payload k) = Some (Build_addKeyBody (hash k) (prefix k) "check").
Proof. reflexivity. Qed.

End Requests.

Section Route.
Context `{!GoJSON} `{!UUIDText} {W : Type} `{!GoClock W} `{!GoLog W} `{!Prometheus W} `{!SignupState W}.
Context `{!APIKeyRepository W} `{!TenantRepository W} `{!RuleRepository W}.
Context `{!RateLimitChecker W} `{!ProjectService W}.
Variable promhttp_Handler : Handler W.

Lemma mux_add_key deps r rw w : has_Console deps = true -> has_AuthService deps = true ->
  Method r = "POST" -> URL_Path r = "/v1/projects/me/keys" ->
  ServeMux (routes promhttp_Handler deps) r rw w = ProjectAuth console_AddKey (with_path_values r []) rw w.
Proof.
  intros Hc Ha Hm Hp. unfold ServeMux, routes, check_routes, console_routes. rewrite Hc, Ha, Hm, Hp. by destruct (has_Check deps).
Qed.

End Route.

(** ** The server *)

Section Minting.
Context `{!RedisServer} `{!UUIDText} `{!GoText} `{!GoJSON} `{!Numeric} `{!JSONText} `{!JavaScript}.
Context {D : Type} `{!Postgres D} `{!Connections D redis}.
Context {E : Type} `{!GoClock E} `{!GoLog E} `{!Prometheus E} `{!GoUUID E}.
Variable next_link : E -> link * E.
Variable spare : E -> nat.
Variable promhttp : E -> string.
Variable limiter : RateLimiter.
Variable cfg : Config.
Variable API_BASE origin remote : string.
Context {R : Type} (random : nat -> R -> list Z * R).
Context (Hconfigured : origin ∈ allowed_origins (cfg_DashboardOrigins cfg)).

#[local] Existing Instance world_projects.
#[local] Instance mint_checker : RateLimitChecker (world (D := D) (E := E)) := world_checker next_link limiter.
#[local] Instance mint_signups : SignupState (world (D := D) (E := E)) := world_signup spare.
#[local] Instance mint_web : Web (world (D := D) (E := E) * R) :=
  web next_link spare promhttp limiter cfg API_BASE origin remote random.
#[local] Abbreviation server := (server_handler (D := D) next_link spare promhttp limiter cfg).
#[local] Abbreviation sent_request := (sent_to_server API_BASE origin remote).

(** The tables have the tenant that an authentication names. *)
Lemma authenticated_row tok (w : world (D := D) (E := E)) tc w1 : Authenticate tok w = (Ok tc, w1) ->
  tables w1 = tables w /\
  exists t, find (fun r => (tn_id r =? Tenant_ID (TC_Tenant tc))%N) (tenants (tables w)) = Some t /\
    tn_id t = Tenant_ID (TC_Tenant tc) /\ tn_name t = Tenant_Name (TC_Tenant tc) /\ tn_status t = "active".
Proof.
  intros Ha. split.
  { pose proof (keeps_Authenticate (same_tables (D := D) (E := E)) (PortsRead0 := same_tables_reads spare) tok w) as Hk. by rewrite Ha in Hk. }
  apply Authenticate_accepts in Ha as (_ & w0 & Hk & _ & Ht & Hs).
  assert (Hw0 : tables w0 = tables w).
  { pose proof (reads_keep _ (reads_FindByHash (HashAPIKey tok)) w) as Hr. cbn [FindByHash world_keys] in Hk. rewrite Hk in Hr. exact Hr. }
  cbn [GetByID world_tenants] in Ht. unfold on_part, pg_GetByID in Ht. rewrite <- Hw0. unfold tables.
  destruct (pg_tenant_by_id _ (w_db w0)) as [[[t|]|e] d] eqn:Eq; cbv beta iota in Ht; try discriminate Ht. injection Ht as Ht _. rewrite <- Ht in *.
  apply pg_tenant_by_id_ok in Eq. symmetry in Eq. pose proof (find_some _ _ Eq) as [_ Hid%N.eqb_eq].
  exists t. cbn [Tenant_ID Tenant_Name Tenant_Status tenant_entity] in *. rewrite Hid. done.
Qed.

(** A key that was added is there for its tenant. *)
Lemma added_opened t k tenantID h p role (w : world (D := D) (E := E)) w' : hex_digest h ->
  find (fun r => (tn_id r =? tenantID)%N) (tenants (tables w)) = Some t -> tn_id t = tenantID -> tn_status t = "active" ->
  AddAPIKey tenantID h p role w = (Ok k, w') -> opened h tenantID (tn_name t) role (tables w').
Proof.
  intros Hh Hf Hid Hst. unfold AddAPIKey, fail. rewrite (normalise_hex h Hh). repeat (destruct (negb _); [done|]).
  cbn [store_AddAPIKey world_store]. unfold on_part.
  pose proof (AddAPIKey_outcome tenantID h (TrimSpace p) role (w_db w)) as Ho.
  destruct (pg_AddAPIKey _ _ _ _ (w_db w)) as [[u|e] d]; [|done]. destruct Ho as (_ & Hnew & id & now & Hd).
  intros [= _ <-]. unfold tables. cbn [w_db set_db]. rewrite Hd. split; cbn [tenants api_keys set_keys].
  - exists t. by split.
  - eexists. rewrite find_app_none; [|exact Hnew|simpl; apply String.eqb_refl]. by split_and!.
Qed.

(** The mint, served: with a status of success the key is in the tables. *)
Lemma mint_served tok k w : hex_digest (hash k) -> tok <> "" -> TrimSpace tok = tok ->
  normalised ("Bearer " +:+ tok) = "Bearer " +:+ tok ->
  json_scan (stringify (key_payload k)) = Some (key_payload k) -> len (stringify (key_payload k)) < 2 ^ 20 ->
  let '(rw, w') := server (sent_request (mint_call API_BASE tok (key_payload k))) (Conn fresh_response) w in
  200 <= answered rw <= 299 ->
  exists tc w1, Authenticate tok w = (Ok tc, w1) /\ APIKey_Role (TC_APIKey tc) = RoleAdmin /\
    opened (hash k) (Tenant_ID (TC_Tenant tc)) (Tenant_Name (TC_Tenant tc)) RoleCheck (tables w').
Proof.
  intros Hh Hne Htrim Hnorm Hscan Hlen. set (q := mint_call API_BASE tok (key_payload k)).
  assert (Hpath : URL_Path (sent_request q) = "/v1/projects/me/keys") by apply path_of_api.
  destruct (console_route (metrics_page promhttp) (dependencies cfg) (sent_request q)
              (fun r => ProjectAuth console_AddKey (with_path_values r [])) w ltac:(by rewrite Hpath) ltac:(discriminate)
              ltac:(intros; by apply mux_add_key)) as (rw1 & Hs & _ & Hr).
  unfold server_handler. destruct (NewMux _ _ _ _ _) as [rw w']. destruct Hr as [Hb Ho]. rewrite (answered_same _ _ Hb).
  apply observed_db in Ho. unfold tables. rewrite Ho. clear Hb Ho rw w'. set (r := with_path_values (sent_request q) []).
  assert (Hbearer : bearerToken r = Some tok).
  { unfold bearerToken. change (Req_Header r) with (hr_Header (cross_origin origin q)). unfold q.
    rewrite mint_authorization, Hnorm, CutPrefix_app. cbn [negb]. by rewrite Htrim, (proj2 (String.eqb_neq _ _) Hne). }
  unfold ProjectAuth. rewrite Hbearer. destruct (Authenticate tok w) as [[tc|e] w1] eqn:Ea; cbn [fst snd].
  2:{ destruct (answered_refused rw1 _ Hs (refused_auth e rw1)) as [->|[->| ->]]; lia. }
  destruct (CanManageProject (TC_APIKey tc)) eqn:Hrole; cbn [negb fst]; [|rewrite answered_WriteError by done; lia].
  apply String.eqb_eq in Hrole. destruct (authenticated_row tok w tc w1 Ea) as (Hsame & t & Ht & Hid & Hname & Hst).
  unfold console_AddKey, TenantIDFromContext, decodeBody, ReadAll_limited. cbn [ctx_tenant WithTenantID].
  change (Body_text (WithTenantID r _)) with (stringify (key_payload k)). change (Body_broken (WithTenantID r _)) with false.
  rewrite (proj2 (Z.leb_gt _ _)) by lia. cbn [mbind option_bind]. unfold Unmarshal. rewrite Hscan. cbn [mbind option_bind].
  rewrite key_payload_read. cbn [akb_KeyHash akb_KeyPrefix akb_Role svc_AddAPIKey world_projects].
  change (String.eqb "check" "") with false. cbv iota.
  destruct (AddAPIKey (Tenant_ID (TC_Tenant tc)) (hash k) (prefix k) "check" w1) as [[u|e] w2] eqn:Ek; cbn [fst snd].
  2:{ unfold writeProjectError, unavailable. repeat case_match; rewrite answered_WriteError by done; lia. }
  intros _. exists tc, w1. split; [done|]. split; [done|]. rewrite <- Hname.
  rewrite <- Hsame in Ht. by eapply (added_opened t u).
Qed.

(** Loading the project changes no table. *)
Lemma me_reads tok w : tables (snd (server (sent_request (authorized API_BASE tok "/v1/projects/me" "GET" None)) (Conn fresh_response) w)) = tables w.
Proof.
  set (q := authorized _ _ _ _ _). assert (Hpath : URL_Path (sent_request q) = "/v1/projects/me") by apply path_of_api.
  destruct (console_route (metrics_page promhttp) (dependencies cfg) (sent_request q)
              (fun r => ProjectAuth console_Me (with_path_values r [])) w ltac:(by rewrite Hpath) ltac:(discriminate)
              ltac:(intros; by apply mux_me)) as (rw1 & _ & _ & Hr).
  unfold server_handler. destruct (NewMux _ _ _ _ _) as [rw w']. destruct Hr as [_ Ho]. cbn [snd]. unfold tables.
  rewrite (observed_db _ _ Ho).
  apply (keeps_ProjectAuth (same_tables (D := D) (E := E)) (PortsRead0 := same_tables_reads spare) console_Me
           (keeps_console_Me _ (PortsRead0 := same_tables_reads spare))).
Qed.

(** A refresh changes no table, and leaves the revealed key. *)
Lemma refresh_reads p : let p' := refresh API_BASE p in
  tables (fst (pg_world p')) = tables (fst (pg_world p)) /\ reveal (pg_view p') = reveal (pg_view p).
Proof.
  destruct p as [s v [w r]]. set (p := {| pg_storage := s |}).
  pose proof (fetch_server next_link spare promhttp limiter cfg API_BASE origin remote random Hconfigured _ w r
                (load_request_ok API_BASE (getToken s))) as Hf.
  pose proof (me_reads (getToken s) w) as Hsame. destruct (server _ _ w) as [rw w']. fold mint_web in Hf.
  destruct (loadProject API_BASE (pg_storage p) (pg_world p)) as [x wr] eqn:El. cbn zeta. rewrite (refresh_answer _ _ _ _ El).
  assert (wr = (w', r)) as ->.
  { unfold loadProject, request in El. cbn [pg_storage pg_world p] in El. rewrite Hf in El. by injection El as _ <-. }
  cbn [snd] in Hsame. destruct x as [data|err]; [split; [exact Hsame|reflexivity]|].
  destruct (is_unauthorized err); (split; [exact Hsame|reflexivity]).
Qed.

(** C13: minting, from the button to the key's use.  When the page that holds a
    token reveals a new key, the token was an admin key of an active tenant, and
    the revealed key authenticates as that tenant with the role [check] - by
    which the check endpoint takes it and the console does not - or the database
    fails, answered 503: it is never unknown, revoked or another tenant's. *)
Theorem minted_key_checks tok name v w r :
  let p := {| pg_storage := Stored (Some tok); pg_view := v; pg_world := (w, r) |} in
  let bytes := fst (random 24 r) in
  let key := generateKey name bytes in
  tok <> "" -> forallb printable (explode tok) = true -> field "name" (project v) = Some (JString name) -> reveal v = None ->
  Forall (fun b => 0 <= b < 256) bytes ->
  json_scan (stringify (key_payload key)) = Some (key_payload key) -> len (stringify (key_payload key)) < 2 ^ 20 ->
  let p' := handleMintKey API_BASE p in
  reveal (pg_view p') <> None ->
  reveal (pg_view p') = Some (name, raw key, "api") /\
  exists tc w1, Authenticate tok w = (Ok tc, w1) /\ APIKey_Role (TC_APIKey tc) = RoleAdmin /\
    identifies (Tenant_ID (TC_Tenant tc)) (Tenant_Name (TC_Tenant tc)) RoleCheck
      (fst (Authenticate (raw key) (fst (pg_world p')))).
Proof.
  intros p bytes key Hne Hprint Hname Hrev Hbytes Hscan Hlen. cbn zeta. unfold handleMintKey.
  change (project (pg_view (begin_mint p))) with (project v).
  destruct (project v) as [| | | | | |fields] eqn:Ej; try discriminate Hname. rewrite Hname.
  unfold fresh_key, call. change (pg_world (begin_mint p)) with (w, r).
  cbn [getRandomValues mint_web web snd fst]. destruct (random 24 r) as [bytes' r'] eqn:Er. cbn [fst] in bytes. subst bytes.
  fold key. cbn [set_world pg_world pg_storage]. change (pg_storage (begin_mint p)) with (Stored (Some tok)).
  unfold mintKey, request. cbn [getToken]. fold (mint_call API_BASE tok (key_payload key)).
  assert (Hnorm : normalised ("Bearer " +:+ tok) = "Bearer " +:+ tok) by by apply bearer_normalised.
  pose proof (fetch_server next_link spare promhttp limiter cfg API_BASE origin remote random Hconfigured _ w r'
                (mint_call_ok API_BASE tok (key_payload key))) as Hf.
  pose proof (mint_served tok key w (generated_digest name bytes') Hne (TrimSpace_printable _ Hprint) Hnorm Hscan Hlen) as Hm.
  destruct (server _ _ w) as [rw w1]. fold mint_web in Hf. rewrite Hf. clear Hf. unfold settle_scoped, settle_response, res_ok. cbn [StatusCode received].
  assert (Hok : 200 <= answered rw <= 299 -> forall p1, fst (pg_world p1) = w1 -> reveal (pg_view p1) = Some (name, raw key, "api") ->
    reveal (pg_view (refresh API_BASE p1)) = Some (name, raw key, "api") /\
    exists tc w2, Authenticate tok w = (Ok tc, w2) /\ APIKey_Role (TC_APIKey tc) = RoleAdmin /\
      identifies (Tenant_ID (TC_Tenant tc)) (Tenant_Name (TC_Tenant tc)) RoleCheck
        (fst (Authenticate (raw key) (fst (pg_world (refresh API_BASE p1)))))).
  { intros Ha p1 Hp1 Hr1. destruct (refresh_reads p1) as [Ht Hr2]. split; [congruence|].
    destruct (Hm Ha) as (tc & w2 & Hau & Hrole & Hopen). exists tc, w2. do 2 (split; [done|]).
    rewrite <- Hp1, <- Ht in Hopen. assert (Hg : hash key = HashAPIKey (raw key)) by apply generated_hash. rewrite Hg in Hopen.
    pose proof (known_authenticates _ (raw key) _ _ _ _ (world_known_at _ _ _ _ _ Hopen) ltac:(done) eq_refl) as Hk.
    destruct (Authenticate (raw key) _) as [x w3]. apply Hk. }
  destruct (Z.eqb_spec (answered rw) 204) as [E204|_]; [intros _; apply Hok; [lia|done..]|].
  destruct ((200 <=? answered rw) && (answered rw <=? 299)) eqn:Ha.
  - apply andb_prop in Ha as [Ha1%Z.leb_le Ha2%Z.leb_le]. intros _. by apply Hok.
  - intros Hr. exfalso. apply Hr. exact Hrev.
Qed.

End Minting.

(** ** A key minted, run *)

Module Demo.
#[local] Existing Instances redis7 plain_text canonical hundredths in_memory.
#[local] Existing Instances System.Demo.clock System.Demo.log System.Demo.prom System.Demo.random.
#[local] Existing Instances Console.Demo.plain Onboarding.Demo.printer.

Definition tok : string := "rl_demo_token".
Definition bytes : list Z := repeat 9 24.
Definition key : generated := generateKey "demo-app" bytes.
#[local] Instance scanner : GoJSON := {| json_scan s := Some (key_payload key); unicode_fold_eq a b := false |}.

(** A database with one project and its token *)
Definition seeded : memory :=
  {| mem_db := {| tenants := [PostgresSpec.Demo.demo_tenant]; rules := [];
                  api_keys := [{| ak_id := 1%N; ak_tenant := 7%N; ak_hash := HashAPIKey tok; ak_prefix := "rl_"; ak_status := "active";
                                  ak_role := "admin"; ak_created := 1 |}] |};
     mem_view := None |}.
#[local] Instance connections : Connections memory (@redis redis7) := {|
  PoolConfig := unit; pool_ParseConfig url := Ok tt; pool_NewWithConfig c := Ok seeded; pool_Ping d := (Ok tt, d);
  RedisOptions := unit; redis_ParseURL url := Ok tt;
  redis_NewClient opts := {| Redis.db := ∅; Redis.now_ms := 1000000; Redis.cache := ∅ |};
  redis_Ping s := (Ok tt, s) |}.

Definition boot : result string running := startup System.Demo.good_link Onboarding.Demo.demo_env tt.
Definition random (n : nat) (r : unit) : list Z * unit := (repeat 9 n, r).
#[local] Instance server_web (s : running (D := memory) (E := unit)) : Web (world (D := memory) (E := unit) * unit) :=
  web System.Demo.good_link (fun _ => 0%nat) (fun _ => "") (run_limiter s) (run_config s) "https://api.example"
    Onboarding.Demo.origin "203.0.113.9:4000" random.

Definition shown : Console.view :=
  {| token := tok; project := JObject [("name", JString "demo-app")]; landingError := no_message; error := no_message;
     busy := false; newOpen := false; reveal := None; toast := "" |}.
Definition mint (s : running (D := memory) (E := unit)) : page (world (D := memory) (E := unit) * unit) :=
  handleMintKey (Web0 := server_web s) "https://api.example"
    {| pg_storage := Stored (Some tok); pg_view := shown; pg_world := (run_world s, tt) |}.

Lemma mint_works : match boot with
  | Ok s => match reveal (pg_view (mint s)) with Some _ => true | None => false end &&
            bool_decide (Onboarding.Demo.origin ∈ allowed_origins (cfg_DashboardOrigins (run_config s)))
  | Err _ => false
  end = true.
Proof. vm_compute. reflexivity. Qed.

Lemma minted_key_checks_witness :
  match boot with
  | Err _ => False
  | Ok s => reveal (pg_view (mint s)) = Some ("demo-app", raw key, "api") /\
      exists tenantID name, identifies tenantID name RoleCheck (fst (Authenticate (raw key) (fst (pg_world (mint s)))))
  end.
Proof.
  pose proof mint_works as Hw. destruct boot as [s|e]; [|discriminate Hw].
  apply andb_prop in Hw as [Hc Ho%bool_decide_eq_true_1].
  pose proof (minted_key_checks System.Demo.good_link (fun _ => 0%nat) (fun _ => "") (run_limiter s) (run_config s)
    "https://api.example" Onboarding.Demo.origin "203.0.113.9:4000" random Ho tok "demo-app" shown (run_world s) tt
    ltac:(discriminate) eq_refl eq_refl eq_refl ltac:(repeat constructor; discriminate) eq_refl eq_refl) as Ht.
  fold (server_web s) in Ht. fold (mint s) in Ht.
  assert (Hr : reveal (pg_view (mint s)) <> None) by (intros E; rewrite E in Hc; discriminate Hc).
  destruct (Ht Hr) as (H1 & tc & w1 & _ & _ & H2). split; [exact H1|]. eexists _, _. exact H2.
Defined.
End Demo.
