(* ===== verification/Traffic.v ===== *)
(** The server in service, from the start-up on: requests of any kind, with
    the world changing in between.  What its answers grant of a rule stays
    within the rule. *)

From stdpp Require Import base gmap strings list.
From Stdlib Require Import ZArith NArith Lia.
From S2P Require Import Prelude Float64 GoStrings Sha256 Domain Uuid Redis LuaScripts Ports.
From S2P Require Import TokenBucket TokenBucketRun SlidingWindow SlidingWindowRun RateLimiter RateLimiterSpec.
From S2P Require Import LimiterRun LimiterWindow LimiterBucket AuthService RuleCache Http Observability Decode Os Config.
From S2P Require Import Provisioning Middleware SignupLimit Handlers Server Database Postgres System.

Local Open Scope Z_scope.

Section Traffic.
Context `{!RedisServer} `{!UUIDText} `{!GoText} `{!GoJSON} `{!Numeric}.
Context {D : Type} `{!Postgres D} `{!Connections D redis}.
Context {E : Type} `{!GoClock E} `{!GoLog E} `{!Prometheus E} `{!GoUUID E}.
Variable next_link : E -> link * E.
Variable spare : E -> nat.
Variable promhttp : E -> string.

Abbreviation state := (world (D := D) (E := E)).
Abbreviation asks_of := (asks next_link).
Abbreviation handle run := (server_handler next_link spare promhttp (run_limiter run) (run_config run)).

(** The checks a request makes and whether it was answered 200 *)
Definition outcome (r : Request) (w : state) (rw' : writer) : list (RateLimiterSpec.request * bool) :=
  match asks_of r w with Some q => [(q, answered rw' =? 200)] | None => [] end.

(** Between requests the database, the cache, the clock and everything else
    may change in any way, and Redis drifts.  [admissible] restricts the checks
    that requests make. *)
Inductive traffic (run : running (D := D) (E := E)) (admissible : redis -> RateLimiterSpec.request -> Prop) :
    list (RateLimiterSpec.request * bool) -> state -> Prop :=
  | traffic_start : 0 <= clock (w_redis (run_world run)) -> (forall k, look (w_redis (run_world run)) k = None) ->
      traffic run admissible [] (run_world run)
  | traffic_meanwhile h w w' : traffic run admissible h w -> drifts (w_redis w) (w_redis w') ->
      traffic run admissible h w'
  | traffic_request h w r rw' w' : traffic run admissible h w ->
      (forall q, asks_of r w = Some q -> admissible (w_redis w) q) ->
      handle run r (Conn fresh_response) w = (rw', w') ->
      traffic run admissible (h ++ outcome r w rw') w'.

Hypothesis Hlive : hides_expired.
Hypothesis Hping : forall s, drifts s (snd (redis_Ping s)).

(** The start-up leaves the scripts loaded. *)
Lemma startup_loaded getenv e run : startup next_link getenv e = Ok run ->
  loaded (run_limiter run) (w_redis (run_world run)).
Proof.
  unfold startup. destruct (Load getenv) as [cfg|]; [|done]. destruct (NewPool _) as [pool|]; [|done].
  destruct (NewClient _) as [client|]; [|done]. destruct (next_link e) as [l1 e1], (next_link e1) as [l2 e2].
  destruct (NewRateLimiter l1 l2 client) as [[limiter|] s] eqn:El; [|done]. intros [= <-].
  by eapply NewRateLimiter_loaded.
Qed.

(** The traffic is a run of the limiter. *)
Lemma traffic_runs getenv e run admissible h w : startup next_link getenv e = Ok run ->
  traffic run admissible h w -> runs (run_limiter run) admissible h (w_redis w).
Proof.
  intros Hstart. induction 1 as [Hc Hk|h w w' _ IH Hd|h w r rw' w' _ IH Had Hr].
  - apply runs_start; [by eapply startup_loaded|done|done].
  - by eapply runs_drift.
  - pose proof (request_serves next_link spare promhttp Hlive Hping (run_limiter run) (run_config run) r w) as Hs.
    rewrite Hr in Hs. unfold outcome. destruct (asks_of r w) as [q|] eqn:Ea.
    + destruct Hs as (d & Hserve & ->). apply (runs_serve _ _ h (w_redis w) q d (w_redis w')); auto.
    + rewrite app_nil_r. by eapply runs_drift.
Qed.

End Traffic.

(** ** Properties *)

Section Properties.
Context `{!RedisServer} `{!UUIDText} `{!GoText} `{!GoJSON} `{!Numeric}.
Context {D : Type} `{!Postgres D} `{!Connections D redis}.
Context {E : Type} `{!GoClock E} `{!GoLog E} `{!Prometheus E} `{!GoUUID E}.
Context (next_link : E -> link * E) (spare : E -> nat) (promhttp : E -> string).

(** The running server keeps a sliding window rule.  From the start-up on,
    whatever requests it serves - checks of any tenants, the console, the admin
    API - with the database, the clocks and the script cache changing in
    between and replies of Redis lost: while the checks of a counter meet the
    same rule and the server's time, the cost of those answered 200 is at most
    the limit in every aligned window, and at most the limit times [2 - 2 / W]
    in any [W] consecutive seconds. *)
Theorem server_keeps_window_limit getenv e run key L W h w :
  hides_expired -> (forall s, drifts s (snd (redis_Ping s))) ->
  startup next_link getenv e = Ok run -> (Key_TenantID key < 2 ^ 128)%N -> window_params L W ->
  traffic next_link spare promhttp run (window_request key L W) h w ->
  (forall j, granted AlgorithmSlidingWindow key (fun t => t / 1000 / W =? j) h <= L) /\
  (2 <= W -> forall a,
     granted AlgorithmSlidingWindow key (fun t => (a <=? t / 1000) && (t / 1000 <? a + W)) h * W <= L * (2 * W - 2)).
Proof.
  intros Hlive Hping Hs Hkey HP Ht. eapply limiter_keeps_window_limit; [done..|].
  by eapply traffic_runs.
Qed.

(** The running server keeps a token bucket rule.  From the start-up on and
    under any traffic as above, with callers' clocks within 30 seconds of the
    server's and fewer than [2^49 / C] commands for the counter, the cost of
    its checks answered 200 is below the capacity plus one token plus the rate
    times the time the callers' clocks move forward. *)
Theorem server_keeps_bucket_rate getenv e run key C rate h w :
  hides_expired -> (forall s, drifts s (snd (redis_Ping s))) ->
  startup next_link getenv e = Ok run -> (Key_TenantID key < 2 ^ 128)%N -> bucket_params C rate ->
  traffic next_link spare promhttp run (bucket_request key C rate) h w ->
  commands AlgorithmTokenBucket key h * C < 2 ^ 49 ->
  1000 * one * granted AlgorithmTokenBucket key (fun _ => true) h
    < 1000 * one * (C + 1) + sval rate * forward (clocks AlgorithmTokenBucket key h).
Proof.
  intros Hlive Hping Hs Hkey HP Ht Hn. eapply limiter_keeps_bucket_rate; [done..| |done].
  by eapply traffic_runs.
Qed.

End Properties.

(** ** A check on a freshly started server *)

Module Demo.
#[local] Existing Instances redis7 plain_text canonical hundredths in_memory.
#[local] Canonical redis7.

(** One project with a rule of each kind and a key for checks *)
Definition tenant : tenant_row := {| tn_id := 7%N; tn_name := "demo-app"; tn_status := "active"; tn_created := 0 |}.
Definition key : key_row :=
  {| ak_id := 1%N; ak_tenant := 7%N; ak_hash := HashAPIKey "rl_one"; ak_prefix := "rl_"; ak_status := "active";
     ak_role := "check"; ak_created := 1 |}.
Definition rule_on (id : N) (route algorithm : string) (l w c r : option Z) : rule_row :=
  {| rl_id := id; rl_tenant := 7%N; rl_pattern := route; rl_algorithm := algorithm; rl_limit := l; rl_window := w;
     rl_capacity := c; rl_refill := r; rl_enabled := true |}.
Definition project : memory :=
  {| mem_db := {| tenants := [tenant]; api_keys := [key];
                  rules := [rule_on 1 "/login" AlgorithmSlidingWindow (Some 10) (Some 10) None None;
                            rule_on 2 "/api" AlgorithmTokenBucket None None (Some 2) (Some 100)] |};
     mem_view := None |}.

(** The text of a body stands for the route. *)
#[local] Instance scanner : GoJSON :=
  {| json_scan s := Some (JObject [("route", JString s)]); unicode_fold_eq a b := false |}.
#[local] Instance connections : Connections memory (@redis redis7) := {|
  PoolConfig := unit;
  pool_ParseConfig url := Ok tt;
  pool_NewWithConfig c := Ok project;
  pool_Ping d := (Ok tt, d);
  RedisOptions := unit;
  redis_ParseURL url := Ok tt;
  redis_NewClient opts := empty_redis 1000000;
  redis_Ping s := (Ok tt, s) |}.
#[local] Instance clock : GoClock unit := {| Now w := 1000000000000 |}.
#[local] Instance log : GoLog unit := {| slog_Info m kv w := w |}.
#[local] Instance prom : Prometheus unit := {| Inc n l w := w; Observe n l d w := w |}.
#[local] Instance random : GoUUID unit := {| uuid_New w := (7%N, w); uuid_New_nonzero w := ltac:(done) |}.

Definition answering (e : unit) : link * unit := (good_link, e).
Definition no_room (e : unit) : nat := 0%nat.
Definition no_page (e : unit) : string := "".

Definition boot : result string running := startup answering (fun _ => "") tt.

Lemma booted : is_ok boot = true.
Proof. vm_compute. reflexivity. Qed.

Definition server : running :=
  match boot as b return is_ok b = true -> running with
  | Ok run => fun _ => run
  | Err _ => fun Hb => False_rect _ (diff_false_true Hb)
  end booted.

Lemma boot_server : boot = Ok server.
Proof. unfold server. generalize booted. by destruct boot. Qed.

Definition check_of (route : string) : Request :=
  {| Method := "POST"; URL_Path := "/v1/check"; Req_Header := Header_Set ∅ "X-API-Key" "rl_one"; Body_text := route;
     Body_broken := false; RemoteAddr := "203.0.113.9:4000"; ctx_tenant := None; path_values := [] |}.

Definition counter_of (route : string) : RateLimitKey :=
  {| Key_TenantID := 7%N; Key_Route := route; Key_Subject := "" |}.

Lemma ping_drifts : forall s, drifts s (snd (redis_Ping s)).
Proof. intros s. apply drifts_refl, LimiterRun.Demo.redis7_hides_expired. Qed.

Definition handled (route : string) : writer * world (D := memory) (E := unit) :=
  server_handler answering no_room no_page (run_limiter server) (run_config server) (check_of route)
    (Conn fresh_response) (run_world server).

Definition asked (route : string) : RateLimiterSpec.request :=
  default (sample_request 7%N "" good_link) (asks answering (check_of route) (run_world server)).

(** The history of one check of a route after the start-up *)
Definition one_check (route : string) : list (RateLimiterSpec.request * bool) :=
  [(asked route, answered (fst (handled route)) =? 200)].

Lemma one_check_traffic (admissible : store -> RateLimiterSpec.request -> Prop) route :
  bool_decide (is_Some (asks answering (check_of route) (run_world server))) = true ->
  admissible (w_redis (run_world server)) (asked route) ->
  traffic answering no_room no_page server admissible (one_check route) (snd (handled route)).
Proof.
  intros Hq Had. assert (Hask : asks answering (check_of route) (run_world server) = Some (asked route)).
  { unfold asked. by destruct (asks answering (check_of route) (run_world server)). }
  pose proof (traffic_request answering no_room no_page server admissible [] (run_world server)
    (check_of route) (fst (handled route)) (snd (handled route))) as Ht.
  unfold outcome in Ht. rewrite Hask in Ht. apply Ht.
  - apply traffic_start; [by vm_compute|]. intros k. vm_compute. reflexivity.
  - intros q' Hq'. apply (inj Some) in Hq' as <-. exact Had.
  - apply surjective_pairing.
Qed.

Lemma server_keeps_window_limit_witness :
  traffic answering no_room no_page server (window_request (counter_of "/login") 10 10) (one_check "/login")
    (snd (handled "/login")) /\
  granted AlgorithmSlidingWindow (counter_of "/login") (fun t => t / 1000 / 10 =? 100) (one_check "/login") = 1 /\
  granted AlgorithmSlidingWindow (counter_of "/login") (fun t => t / 1000 / 10 =? 100) (one_check "/login") <= 10.
Proof.
  assert (Ht : traffic answering no_room no_page server (window_request (counter_of "/login") 10 10)
                 (one_check "/login") (snd (handled "/login"))).
  { apply one_check_traffic; [by vm_compute|]. split; [by vm_compute|]. intros _. vm_compute. repeat split; discriminate. }
  split; [exact Ht|]. split; [by vm_compute|]. assert (HP : window_params 10 10) by (split; lia).
  exact (proj1 (server_keeps_window_limit answering no_room no_page (fun _ => "") tt server (counter_of "/login") 10 10 _ _
           LimiterRun.Demo.redis7_hides_expired ping_drifts boot_server ltac:(done) HP Ht) 100).
Defined.

Lemma server_keeps_bucket_rate_witness :
  traffic answering no_room no_page server (bucket_request (counter_of "/api") 2 (of_Z 1)) (one_check "/api")
    (snd (handled "/api")) /\
  granted AlgorithmTokenBucket (counter_of "/api") (fun _ => true) (one_check "/api") = 1 /\
  1000 * one * granted AlgorithmTokenBucket (counter_of "/api") (fun _ => true) (one_check "/api")
    < 1000 * one * (2 + 1) + sval (of_Z 1) * forward (clocks AlgorithmTokenBucket (counter_of "/api") (one_check "/api")).
Proof.
  assert (Ht : traffic answering no_room no_page server (bucket_request (counter_of "/api") 2 (of_Z 1))
                 (one_check "/api") (snd (handled "/api"))).
  { apply one_check_traffic; [by vm_compute|]. split; [by vm_compute|]. intros _. vm_compute. repeat split; discriminate. }
  split; [exact Ht|]. split; [by vm_compute|].
  refine (server_keeps_bucket_rate answering no_room no_page (fun _ => "") tt server (counter_of "/api") 2 (of_Z 1) _ _
           LimiterRun.Demo.redis7_hides_expired ping_drifts boot_server ltac:(done) sample_bucket Ht _).
  by vm_compute.
Defined.

End Demo.
