(* ===== verification/Threads.v ===== *)
(** One request of many that the server handles at the same time.

    A handler runs in its own goroutine.  What the database, the rule cache,
    the clock, the sign-up limiter and the random source tell it depends on
    everything the other goroutines do in between; an [oracle] holds these
    replies, in any combination.  The limiter's reply is held apart: the
    handler's question to it is recorded, and [Concurrent] lets Redis answer it
    among the questions of all the others.  The handlers, the services and the
    middleware are the code of the other files, on the world [thread]. *)

From stdpp Require Import base strings list.
From Stdlib Require Import ZArith NArith Lia.
From S2P Require Import Prelude Float64 GoStrings Domain Uuid RuleResolver Redis RateLimiter Ports CheckService AuthService.
From S2P Require Import RateLimiterSpec LimiterRun Provisioning Http Observability Decode Os Config Middleware SignupLimit Handlers Server Frame.

Local Open Scope Z_scope.

(** ** The replies a handler gets, by the number of calls it made before *)

Record oracle := {
  o_now : nat -> Z;
  o_key : nat -> string -> result goerror APIKey;
  o_tenant : nat -> uuid -> result goerror Tenant;
  o_rules : nat -> uuid -> result goerror (list Rule);
  o_all_rules : nat -> result goerror (list Rule);
  o_create : nat -> NewProject -> result goerror unit;
  o_list : nat -> result goerror (list ProjectSummary);
  o_project : nat -> uuid -> result goerror ProjectSummary;
  o_add : nat -> uuid -> string -> string -> string -> result goerror unit;
  o_revoke : nat -> uuid -> uuid -> result goerror unit;
  o_uuid : nat -> uuid;
  o_uuid_nonzero n : o_uuid n <> uuid_Nil;
  o_signup : nat -> signupLimiter;
  o_room : nat -> nat;
  o_ping : nat -> result goerror unit;
  o_page : nat -> string
}.

(** What the check service asks of the limiter, and when *)
Record question := {
  qu_clock : Z; qu_key : RateLimitKey; qu_rule : Rule; qu_cost : Z
}.

Abbreviation reply := (result goerror RateLimitDecision).

Record thread := {
  th_oracle : oracle;
  th_reply : reply;
  th_calls : nat;
  th_asked : list question
}.

(** One call more *)
Definition tick (w : thread) : thread :=
  {| th_oracle := th_oracle w; th_reply := th_reply w; th_calls := S (th_calls w); th_asked := th_asked w |}.

Definition told {A} (f : oracle -> nat -> A) (w : thread) : A := f (th_oracle w) (th_calls w).

Definition hears {A} (f : oracle -> nat -> result goerror A) : Op thread A := fun w => (told f w, tick w).

#[export] Instance thread_clock : GoClock thread := {| Now := told o_now |}.
#[export] Instance thread_log : GoLog thread := {| slog_Info msg kv := tick |}.
#[export] Instance thread_metrics : Prometheus thread :=
  {| Inc name labels := tick; Observe name labels d := tick |}.
#[export] Instance thread_uuid : GoUUID thread :=
  {| uuid_New w := (told o_uuid w, tick w); uuid_New_nonzero w := o_uuid_nonzero (th_oracle w) (th_calls w) |}.
#[export] Instance thread_signup : SignupState thread :=
  {| limiter_of := told o_signup; set_limiter l := tick; spare_room := told o_room |}.
#[export] Instance thread_keys : APIKeyRepository thread := {| FindByHash h := hears (fun o n => o_key o n h) |}.
#[export] Instance thread_tenants : TenantRepository thread := {| GetByID t := hears (fun o n => o_tenant o n t) |}.
#[export] Instance thread_rules : RuleRepository thread :=
  {| ListByTenant t := hears (fun o n => o_rules o n t); ListAll := hears o_all_rules |}.
#[export] Instance thread_store : ProjectStore thread := {|
  store_CreateProject p := hears (fun o n => o_create o n p);
  store_ListProjects := hears o_list;
  store_GetProject t := hears (fun o n => o_project o n t);
  store_AddAPIKey t h p r := hears (fun o n => o_add o n t h p r);
  store_RevokeAPIKey t k := hears (fun o n => o_revoke o n t k) |}.

(** The limiter's reply; the question is recorded, with the clock that the
    limiter reads, in milliseconds. *)
Definition ask (key : RateLimitKey) (rule : Rule) (cost : Z) : Op thread RateLimitDecision := fun w =>
  (th_reply w,
   {| th_oracle := th_oracle w; th_reply := th_reply w; th_calls := S (th_calls w);
      th_asked := th_asked w ++ [{| qu_clock := Now w / 1000000; qu_key := key; qu_rule := rule; qu_cost := cost |}] |}).
#[export] Instance thread_limiter : RateLimiterPort thread := {| limiter_Check := ask |}.

Section Threads.
Context `{!UUIDText} `{!GoText} `{!GoJSON}.

#[export] Instance thread_checker : RateLimitChecker thread := {| checker_Check := CheckService_Check |}.
#[export] Instance thread_projects : ProjectService thread := {|
  svc_CreateProject := CreateProject;
  svc_ListProjects := ListProjects;
  svc_GetProject := GetProject;
  svc_AddAPIKey := AddAPIKey;
  svc_RevokeAPIKey := RevokeAPIKey |}.

(** The collaborators of the server, as [System.dependencies] has them *)
Definition thread_dependencies (cfg : Config) : Dependencies thread :=
  {| HealthCheckers := [hears o_ping; hears o_ping];
     has_Auth := true; has_Check := true; has_Projects := true;
     AdminToken := cfg_AdminToken cfg; DashboardOrigins := cfg_DashboardOrigins cfg;
     has_Console := true; has_AuthService := true; BehindProxy := cfg_BehindProxy cfg |}.

Definition thread_page : Handler thread := fun r rw w => (Write (Printed (told o_page w)) rw, tick w).

Definition begun (o : oracle) (d : reply) : thread :=
  {| th_oracle := o; th_reply := d; th_calls := 0; th_asked := [] |}.

(** The handling of a request, given the limiter's reply *)
Definition handling (cfg : Config) (r : Request) (o : oracle) (d : reply) : writer * thread :=
  NewMux thread_page (thread_dependencies cfg) r (Conn fresh_response) (begun o d).

Definition no_reply : reply := Err (Text "").

(** What the handler asks the limiter, if it does *)
Definition question_of (cfg : Config) (r : Request) (o : oracle) : option question :=
  head (th_asked (snd (handling cfg r o no_reply))).

(** ** Lemmas *)

(** Nothing was asked in between. *)
Definition asks_nothing (w w' : thread) : Prop := th_asked w' = th_asked w.

Lemma asks_nothing_order : PreOrder asks_nothing.
Proof. split; [by intros w|]. unfold asks_nothing. intros w1 w2 w3. congruence. Qed.

Lemma hears_keeps {A} (f : oracle -> nat -> result goerror A) : keeps asks_nothing (hears f).
Proof. by intros w. Qed.

Lemma observed_asks_nothing (w w' : thread) : observed w w' -> asks_nothing w w'.
Proof. by induction 1. Qed.

#[export] Instance thread_observes : Observes asks_nothing.
Proof. by constructor. Qed.

#[export] Instance thread_ports_keep : PortsWrite asks_nothing.
Proof.
  constructor; [constructor|..]; try (intros; apply hears_keeps); try done; [exact asks_nothing_order|..].
  - intros n h p r rs w. unfold svc_CreateProject, thread_projects, CreateProject, fail.
    repeat (destruct (_ : bool); [reflexivity|]). unfold uuid_New, thread_uuid.
    destruct (check_rules _ _ _ _); [|reflexivity]. cbn [store_CreateProject thread_store]. unfold hears.
    by destruct (told _ _) as [[]|].
  - intros t h p r w. unfold svc_AddAPIKey, thread_projects, AddAPIKey, fail.
    by repeat (destruct (_ : bool); [reflexivity|]).
Qed.

Lemma Authenticate_asks_nothing raw : keeps asks_nothing (Authenticate raw).
Proof. apply keeps_Authenticate. exact pw_reads. Qed.

(** The thread with another reply of the limiter *)
Definition with_reply (d : reply) (w : thread) : thread :=
  {| th_oracle := th_oracle w; th_reply := d; th_calls := th_calls w; th_asked := th_asked w |}.

(** An operation that does not look at the limiter's reply *)
Definition blind {A} (m : Op thread A) : Prop :=
  forall d w, m (with_reply d w) = (fst (m w), with_reply d (snd (m w))).

Lemma blind_hears {A} (f : oracle -> nat -> result goerror A) : blind (hears f).
Proof. by intros d w. Qed.

Lemma blind_Authenticate raw : blind (Authenticate raw).
Proof.
  intros d w. unfold Authenticate, fail, mret, Op_ret, mbind, Op_bind. destruct (String.eqb raw ""); [done|].
  cbn [FindByHash thread_keys]. rewrite blind_hears.
  destruct (hears _ w) as [[k|e] w1]; cbn [fst snd]; [|done]. destruct (negb (APIKey_IsActive k)); [done|].
  cbn [GetByID thread_tenants]. rewrite blind_hears.
  destruct (hears _ w1) as [[t|e] w2]; cbn [fst snd]; [|done]. by destruct (negb (Tenant_IsActive t)).
Qed.

Lemma blind_check_stage r d w :
  check_stage r (with_reply d w) = (fst (check_stage r w), with_reply d (snd (check_stage r w))).
Proof.
  unfold check_stage. rewrite blind_Authenticate.
  destruct (Authenticate _ w) as [[tc|e] w1]; cbn [fst snd]; [|done]. rewrite blind_Authenticate.
  by destruct (Authenticate _ w1) as [[tc'|e] w2].
Qed.

(** The question of an accepted check *)
Definition check_asks (r : Request) (w : thread) : option question :=
  if is_check r then
    let '(ask, w2) := check_stage r w in
    '(tenantID, req) ← ask;
    match ListByTenant tenantID w2 with
    | (Err _, _) => None
    | (Ok rules, w3) =>
        option_map (fun rule =>
          {| qu_clock := Now w3 / 1000000;
             qu_key := {| Key_TenantID := tenantID; Key_Route := cr_Route req; Key_Subject := cr_Subject req |};
             qu_rule := rule; qu_cost := cr_Cost req |}) (Resolve rules (cr_Route req))
    end
  else None.

Lemma check_asks_blind r d w : check_asks r (with_reply d w) = check_asks r w.
Proof.
  unfold check_asks. destruct (is_check r); [|done]. rewrite blind_check_stage.
  by destruct (check_stage r w) as [[[t req]|] w2].
Qed.

(** The check service asks for the first best rule, and answers with the
    limiter's reply. *)
Lemma check_service_asked tenantID req w : 1 <= cr_Cost req ->
  let '(d, w') := CheckService_Check tenantID (cr_Route req) (cr_Subject req) (cr_Cost req) w in
  match ListByTenant tenantID w with
  | (Err _, _) => th_asked w' = th_asked w
  | (Ok rules, w3) =>
      match Resolve rules (cr_Route req) with
      | None => th_asked w' = th_asked w
      | Some rule =>
          th_asked w' = th_asked w ++ [{| qu_clock := Now w3 / 1000000;
            qu_key := {| Key_TenantID := tenantID; Key_Route := cr_Route req; Key_Subject := cr_Subject req |};
            qu_rule := rule; qu_cost := cr_Cost req |}] /\
          match th_reply w with Ok dec => d = Ok dec | Err _ => is_ok d = false end
      end
  end.
Proof.
  intros Hcost. unfold CheckService_Check. rewrite (proj2 (Z.leb_gt _ _)) by lia.
  cbn [ListByTenant thread_rules]. unfold hears at 1 2. destruct (told _ w) as [rules|e]; [|done].
  destruct (Resolve rules (cr_Route req)) as [rule|]; [|done].
  cbn [limiter_Check thread_limiter]. unfold ask. cbn [th_reply tick].
  destruct (th_reply w) as [dec|e]; [done|]. by destruct (Is e ErrRateLimitBackend).
Qed.

Lemma handling_asks cfg r o d :
  let '(rw, w) := handling cfg r o d in
  th_asked w = option_list (check_asks r (begun o d)) /\
  (is_Some (check_asks r (begun o d)) -> (answered rw =? 200) = allows d).
Proof.
  unfold handling, check_asks. destruct (is_check r) eqn:Hr.
  2:{ pose proof (keeps_NewMux thread_page asks_nothing (thread_dependencies cfg) r (Conn fresh_response) (begun o d)) as Hk.
      destruct (NewMux _ _ _ _ _) as [rw w]. split; [|by intros [? ?]]. apply Hk; [by intros ? ? ?| |done].
      repeat constructor. }
  apply andb_prop in Hr as [Hm%String.eqb_eq Hp%String.eqb_eq].
  pose proof (check_does thread_page (thread_dependencies cfg) r (begun o d) eq_refl eq_refl eq_refl Hm Hp) as Hd.
  destruct (NewMux _ _ _ _ _) as [rw w].
  assert (Hst : th_asked (snd (check_stage r (begun o d))) = [] /\
                th_reply (snd (check_stage r (begun o d))) = d).
  { split; [|change (begun o d) with (with_reply d (begun o no_reply)); by rewrite blind_check_stage].
    unfold check_stage. pose proof (Authenticate_asks_nothing (Header_Get (Req_Header r) "X-API-Key")) as Ha.
    pose proof (Ha (begun o d)) as Ha1. destruct (Authenticate _ _) as [[tc|e] w1]; [|exact Ha1].
    pose proof (Ha w1) as Ha2. unfold asks_nothing in *.
    change (th_asked (begun o d)) with (@nil question) in Ha1.
    destruct (Authenticate _ w1) as [[tc'|e] w2]; cbn [snd] in *; congruence. }
  destruct (check_stage r (begun o d)) as [[[t req]|] w2] eqn:Est; cbn [snd] in Hst; destruct Hst as [Hw2 Hrep].
  2:{ destruct Hd as [_ Ho%observed_asks_nothing]. unfold asks_nothing in *. split; [simpl; congruence|by intros [? ?]]. }
  pose proof (check_stage_ok _ _ _ _ _ Est) as Hok. cbn [checker_Check thread_checker] in Hd.
  pose proof (check_service_asked t req w2 (proj1 (cro_cost _ Hok))) as Hs.
  destruct (CheckService_Check _ _ _ _ w2) as [d' w3]. destruct Hd as [[Hstat _] Ho%observed_asks_nothing].
  unfold asks_nothing in *. rewrite Hstat, Ho. cbn [mbind option_bind].
  destruct (ListByTenant t w2) as [[rules|e] w4]; [|split; [simpl; congruence|by intros [? ?]]].
  destruct (Resolve rules (cr_Route req)) as [rule|]; cbn [option_map]; [|split; [simpl; congruence|by intros [? ?]]].
  destruct Hs as [-> Hs]. rewrite Hw2. split; [done|]. intros _. rewrite Hrep in Hs.
  destruct d as [dec|e]; [subst d'; cbn [check_status allows]; by destruct (Allowed dec)|]. by destruct d'.
Qed.

(** A handler asks the limiter at most once, and its reply does not change
    the question. *)
Lemma asked_once cfg r o d : th_asked (snd (handling cfg r o d)) = option_list (question_of cfg r o).
Proof.
  unfold question_of. pose proof (handling_asks cfg r o d) as Hd. pose proof (handling_asks cfg r o no_reply) as Hn.
  destruct (handling cfg r o d) as [rw w], (handling cfg r o no_reply) as [rw' w']. cbn [snd] in *.
  destruct Hd as [-> _], Hn as [-> _]. change (begun o d) with (with_reply d (begun o no_reply)).
  rewrite check_asks_blind. by destruct (check_asks _ _).
Qed.

(** A request with a question is answered 200 exactly when the reply allows. *)
Lemma answered_200 cfg r o d : is_Some (question_of cfg r o) ->
  (answered (fst (handling cfg r o d)) =? 200) = allows d.
Proof.
  intros Hq. pose proof (asked_once cfg r o d) as Ha. pose proof (handling_asks cfg r o d) as Hd.
  destruct (handling cfg r o d) as [rw w]. cbn [fst snd] in *. destruct Hd as [Hw Hd]. apply Hd.
  destruct Hq as [q Hq]. rewrite Ha, Hq in Hw. destruct (check_asks _ _); [done|]. discriminate Hw.
Qed.

End Threads.
