(* ===== verification/Concurrent.v ===== *)
(** The server with all its requests in flight ([cmd/server/main.go], from the
    listener on): handlers run at the same time, Redis runs their commands one
    after another in any order, commands are repeated when a reply is lost, and
    a signal lets the requests in flight finish before the program ends. *)

From stdpp Require Import base gmap strings list.
From Stdlib Require Import ZArith NArith Lia.
From S2P Require Import Prelude Float64 GoStrings Domain Uuid Redis RateLimiter Ports TokenBucket TokenBucketRun SlidingWindow SlidingWindowSkew.
From S2P Require Import RateLimiterSpec LimiterRun LimiterWindow LimiterSkew LimiterBucket Provisioning Http Observability Decode Os Config.
From S2P Require Import Middleware SignupLimit Handlers Server Database Postgres System Traffic Threads.

Local Open Scope Z_scope.

Section Concurrent.
Context `{!RedisServer} `{!UUIDText} `{!GoText} `{!GoJSON}.
Variable limiter : RateLimiter.
Variable cfg : Config.
(** How often the Redis client sends a command at most *)
Variable attempts : nat.

(** ** The service *)

(** A request in flight: what it will hear, how often its command may still be
    sent, and, once the limiter has replied, the question as it was put to
    Redis with the reply. *)
Record flight := {
  fl_request : Request;
  fl_oracle : oracle;
  fl_tries : nat;
  fl_decided : option (request * result goerror RateLimitDecision)
}.

Definition fl_question (f : flight) : option question := question_of cfg (fl_request f) (fl_oracle f).

Definition arrived (r : Request) (o : oracle) : flight :=
  {| fl_request := r; fl_oracle := o; fl_tries := attempts; fl_decided := None |}.
Definition tried (n : nat) (f : flight) : flight :=
  {| fl_request := fl_request f; fl_oracle := fl_oracle f; fl_tries := n; fl_decided := fl_decided f |}.
Definition decided (q : request) (d : result goerror RateLimitDecision) (f : flight) : flight :=
  {| fl_request := fl_request f; fl_oracle := fl_oracle f; fl_tries := fl_tries f; fl_decided := Some (q, d) |}.

(** The handler has all it waits for. *)
Definition ready (f : flight) : bool :=
  match fl_question f, fl_decided f with Some _, None => false | _, _ => true end.

(** What the handler answers *)
Definition response_of (f : flight) : writer :=
  fst (handling cfg (fl_request f) (fl_oracle f) (match fl_decided f with Some (_, d) => d | None => no_reply end)).

(** One sending of a question's command over [l] *)
Definition sent (l : link) (q : question) : request :=
  {| rq_clock := qu_clock q; rq_link := l; rq_key := qu_key q; rq_rule := qu_rule q; rq_cost := qu_cost q |}.
Definition arrives : link := {| lost := 0; RateLimiter.answered := true; failure := "" |}.
Definition fails (e : string) : link := {| lost := 0; RateLimiter.answered := false; failure := e |}.

(** [main]: serving; in [server.Shutdown] after a signal; ended *)
Inductive phase := Accepting | Draining | Exited (status : Z).

Record service := { sv_redis : redis; sv_flights : list flight; sv_phase : phase }.

Definition live (p : phase) : Prop := match p with Exited _ => False | _ => True end.

Inductive event :=
  | Arrived (r : Request)
  | Ran (q : request) (d : result goerror RateLimitDecision)
  | Answered (f : flight)
  | SignalReceived
  | Drained
  | TimedOut
  | ListenerFailed (e : goerror).

(** [admissible] restricts the commands by the state they meet.  While the
    program is live: a request arrives; time passes in Redis; a command runs
    and its reply arrives; it runs and the reply is lost; the client gives up;
    a handler answers.  Then the end of [main]: a signal; [Shutdown] finds no
    request in flight, or its deadline passes; the listener fails. *)
Inductive step (admissible : redis -> request -> Prop) : service -> list event -> service -> Prop :=
  | step_arrive s fs r o :
      step admissible {| sv_redis := s; sv_flights := fs; sv_phase := Accepting |} [Arrived r]
        {| sv_redis := s; sv_flights := fs ++ [arrived r o]; sv_phase := Accepting |}
  | step_time s s' fs p : live p -> drifts s s' ->
      step admissible {| sv_redis := s; sv_flights := fs; sv_phase := p |} []
        {| sv_redis := s'; sv_flights := fs; sv_phase := p |}
  | step_run s s' fs1 f fs2 p q n d : live p -> fl_question f = Some q -> fl_decided f = None -> fl_tries f = S n ->
      admissible s (sent arrives q) -> serve limiter (sent arrives q) s = (d, s') ->
      step admissible {| sv_redis := s; sv_flights := fs1 ++ f :: fs2; sv_phase := p |} [Ran (sent arrives q) d]
        {| sv_redis := s'; sv_flights := fs1 ++ decided (sent arrives q) d f :: fs2; sv_phase := p |}
  | step_lose s s' fs1 f fs2 p q n d : live p -> fl_question f = Some q -> fl_decided f = None -> fl_tries f = S n ->
      admissible s (sent arrives q) -> serve limiter (sent arrives q) s = (d, s') ->
      step admissible {| sv_redis := s; sv_flights := fs1 ++ f :: fs2; sv_phase := p |} [Ran (sent arrives q) d]
        {| sv_redis := s'; sv_flights := fs1 ++ tried n f :: fs2; sv_phase := p |}
  | step_give_up s s' fs1 f fs2 p q e d : live p -> fl_question f = Some q -> fl_decided f = None ->
      admissible s (sent (fails e) q) -> serve limiter (sent (fails e) q) s = (d, s') ->
      step admissible {| sv_redis := s; sv_flights := fs1 ++ f :: fs2; sv_phase := p |} [Ran (sent (fails e) q) d]
        {| sv_redis := s'; sv_flights := fs1 ++ decided (sent (fails e) q) d f :: fs2; sv_phase := p |}
  | step_answer s fs1 f fs2 p : live p -> ready f = true ->
      step admissible {| sv_redis := s; sv_flights := fs1 ++ f :: fs2; sv_phase := p |} [Answered f]
        {| sv_redis := s; sv_flights := fs1 ++ fs2; sv_phase := p |}
  | step_signal s fs :
      step admissible {| sv_redis := s; sv_flights := fs; sv_phase := Accepting |} [SignalReceived]
        {| sv_redis := s; sv_flights := fs; sv_phase := Draining |}
  | step_drained s :
      step admissible {| sv_redis := s; sv_flights := []; sv_phase := Draining |} [Drained]
        {| sv_redis := s; sv_flights := []; sv_phase := Exited (exit_status Signalled (Ok tt)) |}
  | step_timeout s fs e :
      step admissible {| sv_redis := s; sv_flights := fs; sv_phase := Draining |} [TimedOut]
        {| sv_redis := s; sv_flights := fs; sv_phase := Exited (exit_status Signalled (Err e)) |}
  | step_listener s fs e shutdown :
      step admissible {| sv_redis := s; sv_flights := fs; sv_phase := Accepting |} [ListenerFailed e]
        {| sv_redis := s; sv_flights := fs; sv_phase := Exited (exit_status (ListenFailed e) shutdown) |}.

(** Any number of steps, with their events *)
Inductive steps (admissible : redis -> request -> Prop) (c : service) : list event -> service -> Prop :=
  | steps_none : steps admissible c [] c
  | steps_more tr c1 evs c2 : steps admissible c tr c1 -> step admissible c1 evs c2 -> steps admissible c (tr ++ evs) c2.

(** ** What the events say *)

(** The commands in the order Redis met them, with whether they were allowed *)
Definition ran (tr : list event) : list (request * bool) :=
  omap (fun e => match e with Ran q d => Some (q, allows d) | _ => None end) tr.

(** The checks that were answered, with whether the status was 200 *)
Definition checked_answers (tr : list event) : list (request * bool) :=
  omap (fun e => match e with
    | Answered f => option_map (fun qd => (fst qd, answered (response_of f) =? 200)) (fl_decided f)
    | _ => None
    end) tr.

Definition answered_flights (tr : list event) : list flight :=
  omap (fun e => match e with Answered f => Some f | _ => None end) tr.

(** ** The answers are among the commands *)

(** The decisions that wait to be answered *)
Definition pending (fs : list flight) : list (request * bool) :=
  omap (fun f => option_map (fun qd => (fst qd, allows (snd qd))) (fl_decided f)) fs.

Definition sound (f : flight) : Prop := is_Some (fl_decided f) -> is_Some (fl_question f).

Record accounted (admissible : redis -> request -> Prop) (tr : list event) (c : service) : Prop := {
  ac_run : runs limiter admissible (ran tr) (sv_redis c);
  ac_answers : checked_answers tr ++ pending (sv_flights c) ⊆+ ran tr;
  ac_sound : Forall sound (sv_flights c)
}.

Lemma pending_app fs1 fs2 : pending (fs1 ++ fs2) = pending fs1 ++ pending fs2.
Proof. apply omap_app. Qed.

Lemma pending_at fs1 f fs2 : pending (fs1 ++ f :: fs2) ≡ₚ pending (fs1 ++ fs2) ++ pending [f].
Proof.
  change (f :: fs2) with ([f] ++ fs2). rewrite !pending_app, <- app_assoc.
  apply Permutation_app_head, Permutation_app_comm.
Qed.

Lemma pending_undecided f : fl_decided f = None -> pending [f] = [].
Proof. intros Hn. unfold pending. simpl. by rewrite Hn. Qed.

(** What the answer of a flight adds *)
Lemma answer_pending f : sound f -> checked_answers [Answered f] = pending [f].
Proof.
  intros Hs. unfold checked_answers, pending. simpl. destruct (fl_decided f) as [[q d]|] eqn:Hd; simpl; [|done].
  unfold response_of. rewrite Hd, answered_200; [done|]. apply Hs. by rewrite Hd.
Qed.

Lemma ran_app tr1 tr2 : ran (tr1 ++ tr2) = ran tr1 ++ ran tr2.
Proof. apply omap_app. Qed.
Lemma checked_answers_app tr1 tr2 : checked_answers (tr1 ++ tr2) = checked_answers tr1 ++ checked_answers tr2.
Proof. apply omap_app. Qed.

(** Events that neither ran a command nor answered *)
Lemma accounted_quiet admissible tr evs s fs s' fs' p p' : ran evs = [] -> checked_answers evs = [] ->
  drifts s s' -> pending fs' = pending fs -> Forall sound fs' ->
  accounted admissible tr {| sv_redis := s; sv_flights := fs; sv_phase := p |} ->
  accounted admissible (tr ++ evs) {| sv_redis := s'; sv_flights := fs'; sv_phase := p' |}.
Proof.
  intros Hran Hans Hd Hp Hs [Hr Ha _]. constructor; cbn [sv_redis sv_flights] in *; [| |done].
  - rewrite ran_app, Hran, app_nil_r. by eapply runs_drift.
  - by rewrite ran_app, checked_answers_app, Hran, Hans, !app_nil_r, Hp.
Qed.

(** A command that ran for a flight, which knows the reply or not *)
Lemma accounted_ran admissible tr q d s s' fs1 f f' fs2 p : sound f' -> fl_decided f = None ->
  pending [f'] ⊆+ [(q, allows d)] -> admissible s q -> serve limiter q s = (d, s') ->
  accounted admissible tr {| sv_redis := s; sv_flights := fs1 ++ f :: fs2; sv_phase := p |} ->
  accounted admissible (tr ++ [Ran q d]) {| sv_redis := s'; sv_flights := fs1 ++ f' :: fs2; sv_phase := p |}.
Proof.
  intros Hf' Hn Hp Had Hserve [Hr Ha Hs]. cbn [sv_redis sv_flights] in *.
  rewrite pending_at, (pending_undecided f Hn), app_nil_r in Ha.
  constructor; cbn [sv_redis sv_flights]; rewrite ?ran_app, ?checked_answers_app; cbn [ran checked_answers omap list_omap].
  - by eapply runs_serve.
  - rewrite app_nil_r, pending_at, app_assoc. by apply submseteq_app.
  - apply Forall_app in Hs as [Hs1 Hs2]. apply Forall_cons in Hs2 as [_ Hs2]. by apply Forall_app_2, Forall_cons_2.
Qed.

Hypothesis Hlive : hides_expired.

Lemma accounted_step admissible tr c evs c' : accounted admissible tr c -> step admissible c evs c' ->
  accounted admissible (tr ++ evs) c'.
Proof.
  intros Hac Hstep. destruct Hstep as [s fs r o|s s' fs p Hp Hd|s s' fs1 f fs2 p q n d Hp Hq Hn Ht Had Hserve
    |s s' fs1 f fs2 p q n d Hp Hq Hn Ht Had Hserve|s s' fs1 f fs2 p q e d Hp Hq Hn Had Hserve
    |s fs1 f fs2 p Hp Hready|s fs|s|s fs e|s fs e sh]; pose proof (ac_sound _ _ _ Hac) as Hs; cbn [sv_flights] in Hs.
  1,2,7,8,9,10: eapply accounted_quiet; [done|done|first [done|by apply drifts_refl]|..|exact Hac]; try done.
  - by rewrite pending_app, app_nil_r.
  - apply Forall_app. split; [done|]. apply Forall_singleton. by intros [? ?].
  - eapply accounted_ran; [|done| |done..|exact Hac]; [by intros _; exists q|done].
  - eapply accounted_ran; [|done| |done..|exact Hac]; [by intros _; exists q|].
    rewrite pending_undecided by done. apply submseteq_nil_l.
  - eapply accounted_ran; [|done| |done..|exact Hac]; [by intros _; exists q|done].
  - apply Forall_app in Hs as [Hs1 [Hf Hs2]%Forall_cons]. destruct Hac as [Hr Ha _]. cbn [sv_redis sv_flights] in *.
    constructor; cbn [sv_redis sv_flights]; rewrite ?ran_app, ?checked_answers_app, ?app_nil_r; [done| |by apply Forall_app_2].
    rewrite answer_pending by done. rewrite pending_at in Ha. rewrite <- app_assoc.
    etrans; [|exact Ha]. apply submseteq_app; [done|]. apply Permutation_submseteq, Permutation_app_comm.
Qed.

Lemma steps_accounted admissible c tr c' : accounted admissible [] c -> steps admissible c tr c' ->
  accounted admissible tr c'.
Proof. intros Hc. induction 1 as [|tr c1 evs c2 _ IH Hstep]; [done|]. by eapply accounted_step. Qed.

(** ** Draining *)

(** The events a flight can still cause, and a draining service *)
Definition work (f : flight) : nat := if ready f then 1 else S (S (fl_tries f)).
Definition load (c : service) : nat :=
  sum_list_with work (sv_flights c) + match sv_phase c with Exited _ => 0 | _ => 1 end.

Abbreviation anything := (fun _ _ => True).

Lemma work_pos f : (1 <= work f)%nat.
Proof. unfold work. destruct (ready f); lia. Qed.

Lemma work_waiting f : fl_question f <> None -> fl_decided f = None -> work f = S (S (fl_tries f)).
Proof. intros Hq Hn. unfold work, ready. rewrite Hn. by destruct (fl_question f). Qed.

Lemma work_decided q d f : work (decided q d f) = 1%nat.
Proof. unfold work, ready. cbn [fl_decided decided]. by destruct (fl_question _). Qed.

Lemma sum_work_at fs1 f fs2 :
  sum_list_with work (fs1 ++ f :: fs2) = (sum_list_with work (fs1 ++ fs2) + work f)%nat.
Proof. rewrite !sum_list_with_app. simpl. lia. Qed.

(** What holds while the requests of [c] drain *)
Record drain (c : service) (tr : list event) (c' : service) : Prop := {
  dr_load : (load c' + length tr <= load c)%nat;
  dr_flights : map fl_request (answered_flights tr ++ sv_flights c') ≡ₚ map fl_request (sv_flights c);
  dr_end : match sv_phase c' with
           | Accepting => False
           | Draining => TimedOut ∉ tr
           | Exited z => (z = 0 /\ sv_flights c' = [] /\ TimedOut ∉ tr) \/ (z = 1 /\ TimedOut ∈ tr)
           end
}.

Lemma answered_flights_app tr1 tr2 : answered_flights (tr1 ++ tr2) = answered_flights tr1 ++ answered_flights tr2.
Proof. apply omap_app. Qed.

Lemma drain_step admissible c tr c1 evs c2 : drain c tr c1 -> step admissible c1 evs c2 -> drain c (tr ++ evs) c2.
Proof.
  intros [Hl Hf He] Hstep.
  assert (Hrun : forall s s' fs1 f f' fs2 p q d, (work f' < work f)%nat -> fl_request f' = fl_request f ->
    c1 = {| sv_redis := s; sv_flights := fs1 ++ f :: fs2; sv_phase := p |} -> live p ->
    drain c (tr ++ [Ran q d]) {| sv_redis := s'; sv_flights := fs1 ++ f' :: fs2; sv_phase := p |}).
  { intros s s' fs1 f f' fs2 p q d Hw Hreq -> Hp. unfold load in Hl. cbn [sv_flights sv_phase] in *. constructor; unfold load; cbn [sv_flights sv_phase].
    - rewrite length_app. rewrite sum_work_at in *. simpl. lia.
    - rewrite answered_flights_app, app_nil_r, <- Hf, !map_app. simpl. by rewrite Hreq.
    - destruct p; [done| |done]. rewrite elem_of_app, list_elem_of_singleton. by intros [?|?]. }
  destruct Hstep as [s fs r o|s s' fs p Hp Hd|s s' fs1 f fs2 p q n d Hp Hq Hn Ht Had Hserve
    |s s' fs1 f fs2 p q n d Hp Hq Hn Ht Had Hserve|s s' fs1 f fs2 p q e d Hp Hq Hn Had Hserve
    |s fs1 f fs2 p Hp Hready|s fs|s|s fs e|s fs e sh]; try (by cbn in He).
  - rewrite app_nil_r. by constructor.
  - apply (Hrun s s' fs1 f); [|done..]. rewrite work_decided, work_waiting by congruence. lia.
  - apply (Hrun s s' fs1 f); [|done..]. rewrite (work_waiting f) by congruence. rewrite Ht, work_waiting; [cbn [fl_tries tried]; lia| |done].
    change (fl_question (tried n f)) with (fl_question f). congruence.
  - apply (Hrun s s' fs1 f); [|done..]. rewrite work_decided, work_waiting by congruence. lia.
  - unfold load in *. cbn [sv_flights sv_phase] in *. pose proof (work_pos f). constructor; unfold load; cbn [sv_flights sv_phase].
    + rewrite length_app. rewrite sum_work_at in Hl. simpl. lia.
    + rewrite answered_flights_app, <- Hf. apply Permutation_map. cbn [answered_flights omap list_omap].
      rewrite <- app_assoc. apply Permutation_app_head. apply (Permutation_middle fs1 fs2 f).
    + destruct p; [done| |done]. rewrite elem_of_app, list_elem_of_singleton. by intros [?|?].
  - unfold load in *. cbn [sv_flights sv_phase] in *. constructor; unfold load; cbn [sv_flights sv_phase].
    + rewrite length_app. simpl in *. lia.
    + by rewrite answered_flights_app, app_nil_r, <- Hf.
    + left. split; [done|]. split; [done|]. rewrite elem_of_app, list_elem_of_singleton. by intros [?|?].
  - unfold load in *. cbn [sv_flights sv_phase] in *. constructor; unfold load; cbn [sv_flights sv_phase].
    + rewrite length_app. simpl in *. lia.
    + by rewrite answered_flights_app, app_nil_r, <- Hf.
    + right. split; [done|]. apply elem_of_app. right. by apply list_elem_of_singleton.
Qed.

Lemma steps_drain admissible c tr c' : sv_phase c = Draining -> steps admissible c tr c' -> drain c tr c'.
Proof.
  intros Hp. induction 1 as [|tr c1 evs c2 _ IH Hstep]; [|by eapply drain_step].
  constructor; [simpl; lia|done|]. rewrite Hp. apply not_elem_of_nil.
Qed.

(** A draining service is never stuck. *)
Lemma draining_moves c : sv_phase c = Draining -> exists e c', e <> TimedOut /\ step anything c [e] c'.
Proof.
  destruct c as [s fs p]. cbn [sv_phase]. intros ->. destruct fs as [|f fs].
  - exists Drained. eexists. split; [done|]. apply step_drained.
  - destruct (ready f) eqn:Hr.
    + exists (Answered f). eexists. split; [done|]. by apply (step_answer _ _ []).
    + unfold ready in Hr. destruct (fl_question f) as [q|] eqn:Hq; [|done]. destruct (fl_decided f) eqn:Hd; [done|].
      destruct (serve limiter (sent (fails "") q) s) as [d s'] eqn:Hs. eexists _, _. split; [|by eapply (step_give_up _ _ _ [])]. done.
Qed.

End Concurrent.

(** ** Properties *)

Section Properties.
Context `{!RedisServer} `{!UUIDText} `{!GoText} `{!GoJSON}.

Context {D : Type} `{!Postgres D} `{!Connections D redis}.
Context {E : Type} `{!GoClock E} `{!GoLog E} `{!Prometheus E} `{!GoUUID E}.
Context (next_link : E -> link * E).

(** The listener just opened *)
Definition listening (run : running (D := D) (E := E)) : service :=
  {| sv_redis := w_redis (run_world run); sv_flights := []; sv_phase := Accepting |}.

(** Redis has no counters yet. *)
Definition no_counters (run : running (D := D) (E := E)) : Prop :=
  0 <= clock (w_redis (run_world run)) /\ forall k, look (w_redis (run_world run)) k = None.

Abbreviation service_steps run attempts admissible :=
  (steps (run_limiter run) (run_config run) attempts admissible (listening run)).

(** From the start-up on, the commands are a run of the limiter, and the
    answers are among them. *)
Lemma answers_are_run getenv e run attempts admissible tr c : hides_expired ->
  startup next_link getenv e = Ok run -> no_counters run -> service_steps run attempts admissible tr c ->
  runs (run_limiter run) admissible (ran tr) (sv_redis c) /\
  forall alg key p, granted alg key p (checked_answers (run_config run) tr) <= granted alg key p (ran tr).
Proof.
  intros Hlive Hstart [Hc Hk] Hs.
  destruct (steps_accounted (run_limiter run) (run_config run) attempts Hlive admissible (listening run) tr c) as [Hr Ha _].
  - constructor; [|done|constructor]. apply runs_start; [by eapply startup_loaded|done|done].
  - exact Hs.
  - split; [exact Hr|]. intros alg key p. apply granted_part. etrans; [|exact Ha]. apply submseteq_inserts_r. done.
Qed.

(** C1: The server keeps a sliding window rule with all its requests in flight
    at the same time.  From a start with no counters in Redis on, whatever requests are served at once, however their
    commands interleave and repeat at Redis, whatever the database, the cache
    and the clocks tell each of them: while the checks of a counter meet the
    same rule, by clocks within [skew] of the server's and [skew] at most half a
    window, the cost of those answered 200 is at most [n + 1] times the limit
    in any [n] consecutive windows. *)
Theorem concurrent_keeps_window_limit getenv e run attempts key L W skew tr c k n :
  hides_expired -> startup next_link getenv e = Ok run -> no_counters run ->
  (Key_TenantID key < 2 ^ 128)%N -> window_params L W -> 0 <= skew /\ 2 * skew <= 1000 * W -> 0 <= n ->
  service_steps run attempts (skew_request key L W skew) tr c ->
  granted AlgorithmSlidingWindow key (fun t => windows k n (t / 1000 / W)) (checked_answers (run_config run) tr) <= (n + 1) * L.
Proof.
  intros Hlive Hstart Hk Hkey HP Hskew Hn Hs.
  destruct (answers_are_run _ _ _ _ _ _ _ Hlive Hstart Hk Hs) as [Hr Hg]. etrans; [apply Hg|].
  by eapply limiter_keeps_skewed_limit.
Qed.

(** C2: The server keeps a token bucket rule with all its requests in flight
    at the same time, as above: with callers' clocks within 30 seconds of the
    server's and fewer than [2^49 / C] commands for the counter, the cost of
    its checks answered 200 is below the capacity plus one token plus the rate
    times the time the clocks move forward in the order of the commands. *)
Theorem concurrent_keeps_bucket_rate getenv e run attempts key C rate tr c :
  hides_expired -> startup next_link getenv e = Ok run -> no_counters run ->
  (Key_TenantID key < 2 ^ 128)%N -> bucket_params C rate ->
  service_steps run attempts (bucket_request key C rate) tr c ->
  commands AlgorithmTokenBucket key (ran tr) * C < 2 ^ 49 ->
  1000 * one * granted AlgorithmTokenBucket key (fun _ => true) (checked_answers (run_config run) tr)
    < 1000 * one * (C + 1) + sval rate * forward (clocks AlgorithmTokenBucket key (ran tr)).
Proof.
  intros Hlive Hstart Hk Hkey HP Hs Hn.
  destruct (answers_are_run _ _ _ _ _ _ _ Hlive Hstart Hk Hs) as [Hr Hg].
  pose proof (limiter_keeps_bucket_rate _ _ _ _ _ _ Hlive Hkey HP Hr Hn) as Hb.
  specialize (Hg AlgorithmTokenBucket key (fun _ => true)). pose proof one_pos. nia.
Qed.

(** C7: A signal ends the program.  Once it drains, at most [load c] more
    events happen, however commands fail and replies are lost; until it ends
    it can always go on without waiting for the deadline; when it exits with
    status 0 every request that was in flight has been answered; and it exits
    with 1 only when the deadline passed. *)
Theorem graceful_shutdown limiter cfg attempts c tr c' :
  sv_phase c = Draining -> steps limiter cfg attempts (fun _ _ => True) c tr c' ->
  (length tr <= load cfg c)%nat /\
  match sv_phase c' with
  | Accepting => False
  | Draining => exists e c2, e <> TimedOut /\ step limiter cfg attempts (fun _ _ => True) c' [e] c2
  | Exited status =>
      (status = 0 /\ map fl_request (answered_flights tr) ≡ₚ map fl_request (sv_flights c)) \/
      (status = 1 /\ TimedOut ∈ tr)
  end.
Proof.
  intros Hp Hs. destruct (steps_drain limiter cfg attempts _ _ _ _ Hp Hs) as [Hl Hf He]. split; [lia|].
  destruct (sv_phase c') as [| |z] eqn:Hp'; [done|by apply draining_moves|].
  destruct He as [(-> & Hnil & _)|He]; [left|by right]. split; [done|]. by rewrite Hnil, app_nil_r in Hf.
Qed.

End Properties.

(** ** Two checks in flight at once *)

Module Demo.
#[local] Existing Instances redis7 plain_text canonical hundredths in_memory.
#[local] Canonical redis7.
#[local] Existing Instances Traffic.Demo.scanner Traffic.Demo.connections Traffic.Demo.clock Traffic.Demo.log
  Traffic.Demo.prom Traffic.Demo.random.
Import Traffic.Demo(server, boot_server, check_of, counter_of, answering).

Definition check_key : APIKey :=
  {| APIKey_ID := 1%N; APIKey_TenantID := 7%N; KeyPrefix := "rl_"; APIKey_Status := APIKeyStatusActive; APIKey_Role := RoleCheck |}.
Definition rule (route algorithm : string) : Rule :=
  {| Rule_ID := 1%N; Rule_TenantID := 7%N; RoutePattern := route; Rule_Algorithm := algorithm; Enabled := true;
     LimitCount := 10; WindowSeconds := 10; BucketCapacity := 2; RefillRate := of_Z 1 |}.

(** What a check hears when the clock shows [ms] milliseconds *)
Definition hearing (ms : Z) : oracle := {|
  o_now n := ms * 1000000;
  o_key n h := Ok check_key;
  o_tenant n t := Ok {| Tenant_ID := t; Tenant_Name := "demo-app"; Tenant_Status := TenantStatusActive |};
  o_rules n t := Ok [rule "/login" AlgorithmSlidingWindow; rule "/api" AlgorithmTokenBucket];
  o_all_rules n := Ok [];
  o_create n p := Ok tt;
  o_list n := Ok [];
  o_project n t := Err (Sentinel ErrTenantNotFound);
  o_add n t h p r := Ok tt;
  o_revoke n t k := Ok tt;
  o_uuid n := 7%N;
  o_uuid_nonzero n := ltac:(done);
  o_signup n := new_limiter 5 3600 true;
  o_room n := 0%nat;
  o_ping n := Ok tt;
  o_page n := "" |}.

Definition cfg : Config := run_config server.
Definition limiter : RateLimiter := run_limiter server.
Definition s0 : store := w_redis (run_world server).

(** Two checks of a route: the second comes from a clock two seconds behind. *)
Definition ahead (route : string) : flight := arrived 4 (check_of route) (hearing 1000000).
Definition behind (route : string) : flight := arrived 4 (check_of route) (hearing 998000).

Definition asked_by (f : flight) : RateLimiterSpec.request :=
  sent arrives (default {| qu_clock := 0; qu_key := counter_of ""; qu_rule := rule "" ""; qu_cost := 0 |} (fl_question cfg f)).
Definition verdict (f : flight) (s : store) : result goerror RateLimitDecision := fst (serve limiter (asked_by f) s).
Definition after (f : flight) (s : store) : store := snd (serve limiter (asked_by f) s).

Lemma after_clock f s : clock (after f s) = clock s.
Proof. exact (fr_clock _ _ _ (proj1 (serve_local limiter (asked_by f)) s)). Qed.

Section Route.
Variable route : string.
Let A := ahead route.
Let B := behind route.
Let s1 := after B s0.
Let s2 := after A s1.
Let s3 := after B s2.

(** The first reply for [B] is lost; [A] runs; [B] runs again; both answer. *)
Definition A' : flight := decided (asked_by A) (verdict A s1) A.
Definition B' : flight := decided (asked_by B) (verdict B s2) (tried 3 B).
Definition trace : list event :=
  [Arrived (check_of route); Arrived (check_of route); Ran (asked_by B) (verdict B s0); Ran (asked_by A) (verdict A s1);
   Ran (asked_by B) (verdict B s2); Answered B'; Answered A'].

Definition question_at (f : flight) : question :=
  default {| qu_clock := 0; qu_key := counter_of ""; qu_rule := rule "" ""; qu_cost := 0 |} (fl_question cfg f).

Lemma trace_steps (admissible : store -> RateLimiterSpec.request -> Prop) :
  bool_decide (is_Some (fl_question cfg A)) = true -> bool_decide (is_Some (fl_question cfg B)) = true ->
  (forall s, clock s = clock s0 -> admissible s (asked_by A) /\ admissible s (asked_by B)) ->
  steps limiter cfg 4 admissible (listening server) trace {| sv_redis := s3; sv_flights := []; sv_phase := Accepting |}.
Proof.
  intros HA HB Had.
  assert (Hquestion : forall f, bool_decide (is_Some (fl_question cfg f)) = true -> fl_question cfg f = Some (question_at f)).
  { intros f Hf. unfold question_at. by destruct (fl_question cfg f). }
  apply Hquestion in HA, HB. clear Hquestion.
  assert (C1 : clock s1 = clock s0) by apply after_clock.
  assert (C2 : clock s2 = clock s0) by (unfold s2; by rewrite after_clock).
  change trace with (((((([] ++ [Arrived (check_of route)]) ++ [Arrived (check_of route)]) ++ [Ran (asked_by B) (verdict B s0)])
    ++ [Ran (asked_by A) (verdict A s1)]) ++ [Ran (asked_by B) (verdict B s2)]) ++ [Answered B'] ++ [Answered A']).
  rewrite app_assoc.
  apply steps_more with {| sv_redis := s3; sv_flights := [A']; sv_phase := Accepting |}.
  2:{ apply (step_answer limiter cfg 4 admissible s3 [] A' []); [done|]. unfold ready. by destruct (fl_question cfg A'). }
  apply steps_more with {| sv_redis := s3; sv_flights := [A'; B']; sv_phase := Accepting |}.
  2:{ apply (step_answer limiter cfg 4 admissible s3 [A'] B' []); [done|]. unfold ready. by destruct (fl_question cfg B'). }
  apply steps_more with {| sv_redis := s2; sv_flights := [A'; tried 3 B]; sv_phase := Accepting |}.
  2:{ apply (step_run limiter cfg 4 admissible s2 s3 [A'] (tried 3 B) [] Accepting _ 2 (verdict B s2) I HB); try done.
      - by apply Had.
      - apply surjective_pairing. }
  apply steps_more with {| sv_redis := s1; sv_flights := [A; tried 3 B]; sv_phase := Accepting |}.
  2:{ apply (step_run limiter cfg 4 admissible s1 s2 [] A [tried 3 B] Accepting _ 3 (verdict A s1) I HA); try done.
      - by apply Had.
      - apply surjective_pairing. }
  apply steps_more with {| sv_redis := s0; sv_flights := [A; B]; sv_phase := Accepting |}.
  2:{ apply (step_lose limiter cfg 4 admissible s0 s1 [A] B [] Accepting _ 3 (verdict B s0) I HB); try done.
      - by apply Had.
      - apply surjective_pairing. }
  apply steps_more with {| sv_redis := s0; sv_flights := [A]; sv_phase := Accepting |}.
  2:{ apply (step_arrive limiter cfg 4 admissible s0 [A] (check_of route) (hearing 998000)). }
  apply steps_more with {| sv_redis := s0; sv_flights := []; sv_phase := Accepting |}; [apply steps_none|].
  apply (step_arrive limiter cfg 4 admissible s0 [] (check_of route) (hearing 1000000)).
Qed.

End Route.

Lemma s0_empty : no_counters server.
Proof. split; [by vm_compute|]. intros k. vm_compute. reflexivity. Qed.

Lemma s0_clock : clock s0 = 1000000.
Proof. by vm_compute. Qed.

Lemma concurrent_keeps_window_limit_witness :
  granted AlgorithmSlidingWindow (counter_of "/login") (fun t => windows 100 1 (t / 1000 / 10))
    (checked_answers (run_config server) (trace "/login")) = 1 /\
  granted AlgorithmSlidingWindow (counter_of "/login") (fun t => windows 100 1 (t / 1000 / 10))
    (checked_answers (run_config server) (trace "/login")) <= (1 + 1) * 10.
Proof.
  split; [by vm_compute|]. assert (HP : window_params 10 10) by (split; lia).
  refine (concurrent_keeps_window_limit answering (fun _ => "") tt server 4 (counter_of "/login") 10 10 5000 _ _ 100 1
            LimiterRun.Demo.redis7_hides_expired boot_server s0_empty ltac:(done) HP ltac:(lia) ltac:(lia)
            (trace_steps "/login" (skew_request (counter_of "/login") 10 10 5000) _ _ _)); [by vm_compute..|].
  intros s Hs. rewrite s0_clock in Hs. split; (split; [by vm_compute|]); intros _; rewrite Hs; vm_compute;
    repeat split; discriminate.
Defined.

Lemma concurrent_keeps_bucket_rate_witness :
  granted AlgorithmTokenBucket (counter_of "/api") (fun _ => true)
    (checked_answers (run_config server) (trace "/api")) = 2 /\
  1000 * one * granted AlgorithmTokenBucket (counter_of "/api") (fun _ => true)
      (checked_answers (run_config server) (trace "/api"))
    < 1000 * one * (2 + 1) + sval (of_Z 1) * forward (clocks AlgorithmTokenBucket (counter_of "/api") (ran (trace "/api"))).
Proof.
  split; [by vm_compute|].
  refine (concurrent_keeps_bucket_rate answering (fun _ => "") tt server 4 (counter_of "/api") 2 (of_Z 1) _ _
            LimiterRun.Demo.redis7_hides_expired boot_server s0_empty ltac:(done) sample_bucket
            (trace_steps "/api" (bucket_request (counter_of "/api") 2 (of_Z 1)) _ _ _) _); [by vm_compute..| |by vm_compute].
  intros s Hs. rewrite s0_clock in Hs. split; (split; [by vm_compute|]); intros _; rewrite Hs; vm_compute;
    repeat split; discriminate.
Defined.

(** A signal finds a check in flight, whose command then fails. *)
Definition caught : service := {| sv_redis := s0; sv_flights := [ahead "/login"]; sv_phase := Draining |}.
Definition failed : flight :=
  decided (sent (fails "timeout") (question_at (ahead "/login")))
    (fst (serve limiter (sent (fails "timeout") (question_at (ahead "/login"))) s0)) (ahead "/login").
Definition farewell : list event :=
  [Ran (sent (fails "timeout") (question_at (ahead "/login")))
     (fst (serve limiter (sent (fails "timeout") (question_at (ahead "/login"))) s0)); Answered failed; Drained].

Lemma graceful_shutdown_witness :
  answered (response_of cfg failed) = 503 /\
  (length farewell <= load cfg caught)%nat /\
  ((0 = 0 /\ map fl_request (answered_flights farewell) ≡ₚ map fl_request (sv_flights caught)) \/
   (0 = 1 /\ TimedOut ∈ farewell)).
Proof.
  split; [by vm_compute|].
  set (s1 := snd (serve limiter (sent (fails "timeout") (question_at (ahead "/login"))) s0)).
  refine (graceful_shutdown limiter cfg 4 caught farewell {| sv_redis := s1; sv_flights := []; sv_phase := Exited 0 |} eq_refl _).
  change farewell with (((([] ++ [Ran (sent (fails "timeout") (question_at (ahead "/login")))
     (fst (serve limiter (sent (fails "timeout") (question_at (ahead "/login"))) s0))]) ++ [Answered failed]) ++ [Drained])).
  apply steps_more with {| sv_redis := s1; sv_flights := []; sv_phase := Draining |}; [|apply step_drained].
  apply steps_more with {| sv_redis := s1; sv_flights := [failed]; sv_phase := Draining |}.
  2:{ apply (step_answer limiter cfg 4 _ s1 [] failed []); [done|]. unfold ready. by destruct (fl_question cfg failed). }
  apply steps_more with caught; [apply steps_none|].
  apply (step_give_up limiter cfg 4 _ s0 s1 [] (ahead "/login") [] Draining); [done| |done|done|apply surjective_pairing].
  assert (Hq : bool_decide (is_Some (fl_question cfg (ahead "/login"))) = true) by (by vm_compute).
  unfold question_at. by destruct (fl_question cfg (ahead "/login")).
Defined.

End Demo.
